(** * s_graphs: plane, corridor and room mapping -- a shallow embedding

    The development follows the C++ sources of the repository:
    - [PlaneUtils]          (plane_utils.hpp): widths, sign correction,
                            neighbour-overlap check;
    - [GraphSLAM]           (graph_slam.hpp, declarations only);
    - [PlaneMapper]         (plane_mapper.cpp): classification, association
                            and factoring of detected planes;
    - [HdlGraphSlamNodelet] (the nodelet): corridor and room candidates,
                            queue flushing, the optimization timer.

    Numbers.  [float] and [double] values are modelled by exact rationals
    [Q]; comparisons are the exact ones.  [ros::Time] stamps are integers
    (nanoseconds).  C++ [int] identifiers are [Z]; container indices are
    [nat]. *)

From Stdlib Require Import QArith Qabs ZArith List Bool String Lia Lqa.
Import ListNotations.

Open Scope Q_scope.

(** ** Rational helpers *)

(** [a < b] on [double], as a boolean. *)
Definition Qltb (a b : Q) : bool := negb (Qle_bool b a).

(** ** Eigen vectors and g2o planes *)

(** [Eigen::Vector3d]. *)
Record Vector3d : Type := mkV3 { v3_0 : Q; v3_1 : Q; v3_2 : Q }.

(** [Eigen::Vector4d]; [c3 v] is written [v(3)] in the sources. *)
Record Vector4d : Type := mkV4 { c0 : Q; c1 : Q; c2 : Q; c3 : Q }.

(** [v.head(3)]. *)
Definition head3 (v : Vector4d) : Vector3d := mkV3 (c0 v) (c1 v) (c2 v).

(** [a.dot(b)] on three-vectors. *)
Definition dot3 (a b : Vector3d) : Q :=
  v3_0 a * v3_0 b + v3_1 a * v3_1 b + v3_2 a * v3_2 b.

(** [s * a - t * b] on three-vectors. *)
Definition scale_sub3 (s : Q) (a : Vector3d) (t : Q) (b : Vector3d) : Vector3d :=
  mkV3 (s * v3_0 a - t * v3_0 b) (s * v3_1 a - t * v3_1 b) (s * v3_2 a - t * v3_2 b).

(** [g2o::Plane3D]: the four coefficients (unit normal, offset).  Assigning a
    [Vector4d] to a plane re-normalises the normal; the coefficient vectors
    handled here come out of planes and change only in sign, so their normal
    is already of unit length and the assignment keeps them as they are. *)
Definition Plane3D : Type := Vector4d.

Definition coeffs (p : Plane3D) : Vector4d := p.

(** Componentwise rational equality of coefficient vectors. *)
Definition v4_eq (a b : Vector4d) : Prop :=
  c0 a == c0 b /\ c1 a == c1 b /\ c2 a == c2 b /\ c3 a == c3 b.

(** [enum plane_class : uint8_t], compared against [int plane_type]. *)
Definition X_VERT_PLANE : Z := 0%Z.
Definition Y_VERT_PLANE : Z := 1%Z.
Definition HORT_PLANE : Z := 2%Z.

(** [pcl::PointXYZRGBNormal]: position ([getVector4fMap()] is x, y, z and
    the fourth float of the block), normal, curvature and colour. *)
Record PointNormal : Type := mkPoint {
  px : Q; py : Q; pz : Q; pw : Q;
  normal_x : Q; normal_y : Q; normal_z : Q; curvature : Q;
  r : Q; g : Q; b : Q
}.

(** The default-constructed point, with its vector map set to [v]. *)
Definition point_of_v4 (v : Vector4d) : PointNormal :=
  mkPoint (c0 v) (c1 v) (c2 v) (c3 v) 0 0 0 0 0 0 0.

(** [p.getVector4fMap()]. *)
Definition getVector4fMap (p : PointNormal) : Vector4d :=
  mkV4 (px p) (py p) (pz p) (pw p).

Definition PointCloud : Type := list PointNormal.

(** [(a.getVector4fMap() - b.getVector4fMap()).squaredNorm()]. *)
Definition squaredNorm_diff (a b : PointNormal) : Q :=
  (px a - px b) * (px a - px b) + (py a - py b) * (py a - py b)
  + (pz a - pz b) * (pz a - pz b) + (pw a - pw b) * (pw a - pw b).

(** [Eigen::Vector2d]. *)
Record Vector2d : Type := mkV2 { v2_0 : Q; v2_1 : Q }.

(** [Eigen::Matrix3d], by rows. *)
Record Matrix3d : Type := mkM3 { m3_r0 : Vector3d; m3_r1 : Vector3d; m3_r2 : Vector3d }.

(** [Eigen::Matrix3d::Identity()]. *)
Definition Matrix3d_Identity : Matrix3d :=
  mkM3 (mkV3 1 0 0) (mkV3 0 1 0) (mkV3 0 0 1).

(** [Eigen::Matrix4d] (also the matrix of an [Eigen::Isometry3d]), by rows. *)
Record Matrix4d : Type :=
  mkM4 { m4_r0 : Vector4d; m4_r1 : Vector4d; m4_r2 : Vector4d; m4_r3 : Vector4d }.

Definition Isometry3d : Type := Matrix4d.

Definition Matrix4d_Identity : Matrix4d :=
  mkM4 (mkV4 1 0 0 0) (mkV4 0 1 0 0) (mkV4 0 0 1 0) (mkV4 0 0 0 1).

Definition Matrix4d_Zero : Matrix4d :=
  mkM4 (mkV4 0 0 0 0) (mkV4 0 0 0 0) (mkV4 0 0 0 0) (mkV4 0 0 0 0).

Definition dot4 (a b : Vector4d) : Q :=
  c0 a * c0 b + c1 a * c1 b + c2 a * c2 b + c3 a * c3 b.

Definition v4_add (a b : Vector4d) : Vector4d :=
  mkV4 (c0 a + c0 b) (c1 a + c1 b) (c2 a + c2 b) (c3 a + c3 b).

Definition v4_scale (s : Q) (a : Vector4d) : Vector4d :=
  mkV4 (s * c0 a) (s * c1 a) (s * c2 a) (s * c3 a).

(** [m * v]. *)
Definition m4_mul_v (m : Matrix4d) (v : Vector4d) : Vector4d :=
  mkV4 (dot4 (m4_r0 m) v) (dot4 (m4_r1 m) v) (dot4 (m4_r2 m) v) (dot4 (m4_r3 m) v).

(** [a + b] on 4x4 matrices. *)
Definition m4_add (a b : Matrix4d) : Matrix4d :=
  mkM4 (v4_add (m4_r0 a) (m4_r0 b)) (v4_add (m4_r1 a) (m4_r1 b))
       (v4_add (m4_r2 a) (m4_r2 b)) (v4_add (m4_r3 a) (m4_r3 b)).

(** [p * p.transpose()]. *)
Definition outer4 (p : Vector4d) : Matrix4d :=
  mkM4 (v4_scale (c0 p) p) (v4_scale (c1 p) p) (v4_scale (c2 p) p) (v4_scale (c3 p) p).

(** Columns of a 4x4 matrix. *)
Definition m4_col (m : Matrix4d) (k : Vector4d -> Q) : Vector4d :=
  mkV4 (k (m4_r0 m)) (k (m4_r1 m)) (k (m4_r2 m)) (k (m4_r3 m)).

(** [a * b] on 4x4 matrices. *)
Definition m4_mul (a b : Matrix4d) : Matrix4d :=
  let row r := mkV4 (dot4 r (m4_col b c0)) (dot4 r (m4_col b c1))
                    (dot4 r (m4_col b c2)) (dot4 r (m4_col b c3)) in
  mkM4 (row (m4_r0 a)) (row (m4_r1 a)) (row (m4_r2 a)) (row (m4_r3 a)).

(** [iso.translation()]. *)
Definition translation (m : Isometry3d) : Vector3d :=
  mkV3 (c3 (m4_r0 m)) (c3 (m4_r1 m)) (c3 (m4_r2 m)).

(** [iso.rotation() * n]. *)
Definition rotate (m : Isometry3d) (n : Vector3d) : Vector3d :=
  mkV3 (dot3 (head3 (m4_r0 m)) n) (dot3 (head3 (m4_r1 m)) n) (dot3 (head3 (m4_r2 m)) n).

(** [iso.inverse()] of a rigid transform: rotation transposed, translation
    rotated back and negated. *)
Definition inverse (m : Isometry3d) : Isometry3d :=
  let t := translation m in
  let col k := mkV3 (k (m4_r0 m)) (k (m4_r1 m)) (k (m4_r2 m)) in
  let row k := mkV4 (v3_0 (col k)) (v3_1 (col k)) (v3_2 (col k)) (- dot3 (col k) t) in
  mkM4 (row c0) (row c1) (row c2) (mkV4 0 0 0 1).

(** [Eigen::MatrixXd]: information matrices of any size, by rows. *)
Definition MatrixXd : Type := list (list Q).

(** [s * Identity(n, n)]. *)
Definition scaled_identity (n : nat) (s : Q) : MatrixXd :=
  map (fun i => map (fun j => if Nat.eqb i j then s else 0) (seq 0 n)) (seq 0 n).

(** ** Undefined behaviour *)

(** What a C++ run does where the language gives it no meaning. *)
Inductive ub : Type :=
| UninitRead      (**r a local is read before any assignment *)
| NullDeref       (**r a null pointer is dereferenced *)
| OutOfRange      (**r [v[i]] or [*it] outside the container *)
| DanglingRef.    (**r a vertex pointer that is not in the graph *)

Inductive outcome (A : Type) : Type :=
| Ok (a : A)
| Undefined (why : ub).

Arguments Ok {A} a.
Arguments Undefined {A} why.

Definition bind {A B : Type} (m : outcome A) (k : A -> outcome B) : outcome B :=
  match m with
  | Ok a => k a
  | Undefined why => Undefined why
  end.

Notation "x <- m ;; k" := (bind m (fun x => k))
  (at level 61, m at next level, right associativity).
Notation "' pat <- m ;; k" := (bind m (fun x => match x with pat => k end))
  (at level 61, pat pattern, m at next level, right associativity).

(** [*p] for a nullable pointer. *)
Definition deref {A : Type} (p : option A) : outcome A :=
  match p with
  | Some a => Ok a
  | None => Undefined NullDeref
  end.

(** [v[i]]. *)
Definition at_index {A : Type} (v : list A) (i : nat) : outcome A :=
  match nth_error v i with
  | Some a => Ok a
  | None => Undefined OutOfRange
  end.

(** [v[i] = a] for [i] in range; the list is unchanged otherwise (callers
    check the index with [at_index] first). *)
Fixpoint set_index {A : Type} (v : list A) (i : nat) (a : A) : list A :=
  match v, i with
  | [], _ => []
  | _ :: rest, O => a :: rest
  | x :: rest, S i' => x :: set_index rest i' a
  end.

(** ** graph_slam.hpp *)

Module GraphSLAM.

(** A vertex pointer: the position of the vertex in the optimizer's
    vertex container. *)
Definition VertexRef : Type := nat.
Definition EdgeRef : Type := nat.

Inductive VertexData : Type :=
| VertexSE3 (estimate : Isometry3d)
| VertexPlane (estimate : Plane3D)
| VertexCorridor (estimate : Vector3d)
| VertexRoomXYLB (estimate : Vector2d).

Record Vertex : Type := mkVertex { v_data : VertexData; v_fixed : bool }.

Inductive EdgeType : Type :=
| EdgeSE3 | EdgeSE3Plane | EdgeSE3PointToPlane
| EdgeSE3PriorXY | EdgeSE3PriorXYZ | EdgeSE3PriorQuat | EdgeSE3PriorVec
| EdgePlaneParallel | EdgePlanePerpendicular
| EdgeSE3Corridor | EdgeCorridorXPlane | EdgeCorridorYPlane
| EdgeSE3Room | EdgeRoomXPlane | EdgeRoomYPlane.

(** A g2o hyper-edge: its type, the vertices it joins, the measurement
    (flattened), the information matrix and the robust kernel. *)
Record Edge : Type := mkEdge {
  e_type : EdgeType;
  e_vertices : list VertexRef;
  e_measurement : list Q;
  e_information : MatrixXd;
  e_kernel : option (string * Q)
}.

(** Modelled from the spec: graph_slam.cpp is not among the sources; the
    class holds the optimizer's vertices and edges and the two counters
    declared in the header ([vertex_count], [edge_count]) for the local
    part of the graph. *)
Record t : Type := mk {
  vertices : list Vertex;
  edges : list Edge;
  vertex_count : Z;
  edge_count : Z
}.

Definition empty : t := mk [] [] 0%Z 0%Z.

(** Modelled from the spec: [num_vertices()] of the missing graph_slam.cpp,
    the number of vertices in the graph. *)
Definition num_vertices (g : t) : Z := Z.of_nat (List.length (vertices g)).

(** Modelled from the spec: [num_edges()] of the missing graph_slam.cpp. *)
Definition num_edges (g : t) : Z := Z.of_nat (List.length (edges g)).

(** Modelled from the spec: [num_vertices_local()] of the missing
    graph_slam.cpp, the count of vertices added by this robot. *)
Definition num_vertices_local (g : t) : Z := vertex_count g.

(** Modelled from the spec: [num_edges_local()] of the missing
    graph_slam.cpp. *)
Definition num_edges_local (g : t) : Z := edge_count g.

(** Modelled from the spec: the [add_*_node] methods of the missing
    graph_slam.cpp register one new vertex and return it; the counts grow
    by one. *)
Definition add_vertex (d : VertexData) (g : t) : t * VertexRef :=
  (mk (vertices g ++ [mkVertex d false]) (edges g) (vertex_count g + 1)%Z (edge_count g),
   List.length (vertices g)).

Definition add_se3_node (pose : Isometry3d) := add_vertex (VertexSE3 pose).
Definition add_plane_node (plane_coeffs : Vector4d) := add_vertex (VertexPlane plane_coeffs).
Definition add_corridor_node (corridor_pose : Vector3d) := add_vertex (VertexCorridor corridor_pose).
Definition add_room_node (room_pose : Vector2d) := add_vertex (VertexRoomXYLB room_pose).

(** Modelled from the spec: the [add_*_edge] methods of the missing
    graph_slam.cpp register one new edge between the given vertices and
    return it. *)
Definition add_edge (ty : EdgeType) (vs : list VertexRef) (meas : list Q)
    (information : MatrixXd) (g : t) : t * EdgeRef :=
  (mk (vertices g) (edges g ++ [mkEdge ty vs meas information None])
      (vertex_count g) (edge_count g + 1)%Z,
   List.length (edges g)).

Definition set_kernel (k : option (string * Q)) (e : Edge) : Edge :=
  mkEdge (e_type e) (e_vertices e) (e_measurement e) (e_information e) k.

(** Modelled from the spec: [add_robust_kernel] of the missing
    graph_slam.cpp; the kernel type NONE leaves the edge as it is. *)
Definition add_robust_kernel (edge : EdgeRef) (kernel_type : string) (kernel_size : Q)
    (g : t) : t :=
  if String.eqb kernel_type "NONE" then g
  else
    match nth_error (edges g) edge with
    | Some e =>
        mk (vertices g) (set_index (edges g) edge (set_kernel (Some (kernel_type, kernel_size)) e))
           (vertex_count g) (edge_count g)
    | None => g
    end.

(** [v->estimate()] for an SE3 vertex. *)
Definition estimate_se3 (g : t) (v : VertexRef) : outcome Isometry3d :=
  match nth_error (vertices g) v with
  | Some (mkVertex (VertexSE3 e) _) => Ok e
  | _ => Undefined DanglingRef
  end.

Definition estimate_plane (g : t) (v : VertexRef) : outcome Plane3D :=
  match nth_error (vertices g) v with
  | Some (mkVertex (VertexPlane e) _) => Ok e
  | _ => Undefined DanglingRef
  end.

Definition estimate_corridor (g : t) (v : VertexRef) : outcome Vector3d :=
  match nth_error (vertices g) v with
  | Some (mkVertex (VertexCorridor e) _) => Ok e
  | _ => Undefined DanglingRef
  end.

Definition estimate_room (g : t) (v : VertexRef) : outcome Vector2d :=
  match nth_error (vertices g) v with
  | Some (mkVertex (VertexRoomXYLB e) _) => Ok e
  | _ => Undefined DanglingRef
  end.

(** [v->setFixed(b)] and [v->setEstimate(e)]. *)
Definition setFixed (v : VertexRef) (b : bool) (g : t) : t :=
  match nth_error (vertices g) v with
  | Some x => mk (set_index (vertices g) v (mkVertex (v_data x) b)) (edges g)
                 (vertex_count g) (edge_count g)
  | None => g
  end.

Definition setEstimate_se3 (v : VertexRef) (e : Isometry3d) (g : t) : t :=
  match nth_error (vertices g) v with
  | Some x => mk (set_index (vertices g) v (mkVertex (VertexSE3 e) (v_fixed x))) (edges g)
                 (vertex_count g) (edge_count g)
  | None => g
  end.

End GraphSLAM.

(** ** plane_utils.hpp *)

Module PlaneUtils.

(** [s_graphs::PlaneData] message. *)
Record PlaneData : Type := mkPlaneData { nx : Q; ny : Q; nz : Q; d : Q }.

(** The local [Eigen::Vector3d vec] of [width_between_planes] is declared
    without an initialiser: [None] is the unassigned vector. *)
Definition vec_of (d1 : Q) (n1 : Vector3d) (d2 : Q) (n2 : Vector3d) : option Vector3d :=
  if Qltb (Qabs d2) (Qabs d1) then Some (scale_sub3 (Qabs d1) n1 (Qabs d2) n2)
  else if Qltb (Qabs d1) (Qabs d2) then Some (scale_sub3 (Qabs d2) n2 (Qabs d1) n1)
  else None.

(** [size = fabs(vec(0) + vec(1))]; reading the unassigned [vec] gives no
    defined value ([None]). *)
Definition size_of (vec : option Vector3d) : option Q :=
  match vec with
  | Some v => Some (Qabs (v3_0 v + v3_1 v))
  | None => None
  end.

(** [width_between_planes(Eigen::Vector4d v1, Eigen::Vector4d v2)]. *)
Definition width_between_planes (v1 v2 : Vector4d) : option Q :=
  size_of (vec_of (c3 v1) (head3 v1) (c3 v2) (head3 v2)).

(** [width_between_planes(PlaneData& plane1, PlaneData& plane2)]. *)
Definition width_between_planes_msg (plane1 plane2 : PlaneData) : option Q :=
  let plane1_eigen := mkV3 (nx plane1) (ny plane1) (nz plane1) in
  let plane2_eigen := mkV3 (nx plane2) (ny plane2) (nz plane2) in
  size_of (vec_of (d plane1) plane1_eigen (d plane2) plane2_eigen).

(** [correct_plane_d(int plane_type, PlaneData& plane)]. *)
Definition correct_plane_d_msg (plane_type : Z) (plane : PlaneData) : PlaneData :=
  if Qltb 0 (d plane) then
    mkPlaneData (-1 * nx plane) (-1 * ny plane) (-1 * nz plane) (-1 * d plane)
  else plane.

(** [correct_plane_d(int plane_type, Eigen::Vector4d& plane, double px, double py)]. *)
Definition correct_plane_d (plane_type : Z) (plane : Vector4d) (px py : Q) : Vector4d :=
  if Qltb 0 (c3 plane) then
    mkV4 (-1 * c0 plane) (-1 * c1 plane) (-1 * c2 plane) (-1 * c3 plane)
  else plane.

(** Inner loop of [check_point_neighbours]: is there a [j] with
    [dist < min_dist]?  (The loop leaves at the first one.) *)
Fixpoint has_neighbour (min_dist : Q) (p : PointNormal) (cloud_2 : PointCloud) : bool :=
  match cloud_2 with
  | [] => false
  | q :: rest =>
      if Qltb (squaredNorm_diff p q) min_dist then true
      else has_neighbour min_dist p rest
  end.

(** Outer loop of [check_point_neighbours], from the current
    [point_count]. *)
Fixpoint neighbours_loop (min_dist : Q) (cloud_1 cloud_2 : PointCloud)
    (point_count : Z) : bool :=
  match cloud_1 with
  | [] => false
  | p :: rest =>
      let point_count :=
        if has_neighbour min_dist p cloud_2 then (point_count + 1)%Z else point_count in
      if (100 <? point_count)%Z then true
      else neighbours_loop min_dist rest cloud_2 point_count
  end.

(** [check_point_neighbours(cloud_1, cloud_2)]. *)
Definition check_point_neighbours (cloud_1 cloud_2 : PointCloud) : bool :=
  let point_count := 0%Z in
  let min_dist := 1 # 2 in
  neighbours_loop min_dist cloud_1 cloud_2 point_count.

End PlaneUtils.

(** ** keyframe.hpp, planes.hpp, corridors.hpp, rooms.hpp

    These headers are not among the sources; the records carry the fields
    the sources read and write. *)

Definition VertexRef : Type := GraphSLAM.VertexRef.

(** [Eigen::Quaterniond] (w, x, y, z). *)
Record Quaterniond : Type := mkQuat { qw : Q; qx : Q; qy : Q; qz : Q }.

(** A UTM coordinate; the altitude may be NaN ([None]). *)
Record UTMCoord : Type := mkUTM { easting : Q; northing : Q; altitude : option Q }.

(** [KeyFrame]; [kf_node] is null until the keyframe is added to the graph,
    the optional members are unset at construction. *)
Record KeyFrame : Type := mkKeyFrame {
  kf_stamp : Z;
  kf_odom : Isometry3d;
  kf_cloud : PointCloud;
  kf_node : option VertexRef;
  kf_cloud_seg_body : option PointCloud;
  kf_x_plane_ids : list Z;
  kf_y_plane_ids : list Z;
  kf_hort_plane_ids : list Z;
  kf_floor_coeffs : option Vector4d;
  kf_utm_coord : option UTMCoord;
  kf_acceleration : option Vector3d;
  kf_orientation : option Quaterniond
}.

(** [VerticalPlanes] and [HorizontalPlanes]: the two structs have the same
    members in every use the sources make of them. *)
Record VerticalPlanes : Type := mkPlanes {
  vp_id : Z;
  vp_plane : Plane3D;
  vp_cloud_seg_body : option PointCloud;
  vp_cloud_seg_body_vec : list (option PointCloud);
  vp_cloud_seg_map : option PointCloud;
  vp_keyframe_node_vec : list (option VertexRef);
  vp_keyframe_node : option VertexRef;
  vp_plane_node : VertexRef;
  vp_covariance : Matrix3d;
  vp_color : list Q;
  vp_parallel_pair : bool
}.

Definition HorizontalPlanes : Type := VerticalPlanes.

(** [Corridors]. *)
Record Corridors : Type := mkCorridors {
  co_id : Z;
  co_plane1 : Plane3D;
  co_plane2 : Plane3D;
  co_plane1_id : Z;
  co_plane2_id : Z;
  co_keyframe_trans : Vector3d;
  co_node : VertexRef
}.

(** [Rooms]. *)
Record Rooms : Type := mkRooms {
  ro_id : Z;
  ro_plane_x1 : Plane3D;
  ro_plane_x2 : Plane3D;
  ro_plane_y1 : Plane3D;
  ro_plane_y2 : Plane3D;
  ro_plane_x1_id : Z;
  ro_plane_x2_id : Z;
  ro_plane_y1_id : Z;
  ro_plane_y2_id : Z;
  ro_node : VertexRef
}.

(** [v.back()]. *)
Definition back {A : Type} (v : list A) : outcome A :=
  match rev v with
  | a :: _ => Ok a
  | [] => Undefined OutOfRange
  end.

(** [m.matrix().cast<float>() * p.getVector4fMap()] stored into a fresh
    point. *)
Definition transform_point (pose : Matrix4d) (src_pt : PointNormal) : PointNormal :=
  point_of_v4 (m4_mul_v pose (getVector4fMap src_pt)).

(** Flattened entries of vectors and matrices, for edge measurements. *)
Definition v4_list (v : Vector4d) : list Q := [c0 v; c1 v; c2 v; c3 v].
Definition v3_list (v : Vector3d) : list Q := [v3_0 v; v3_1 v; v3_2 v].
Definition v2_list (v : Vector2d) : list Q := [v2_0 v; v2_1 v].
Definition m4_list (m : Matrix4d) : list Q :=
  (v4_list (m4_r0 m) ++ v4_list (m4_r1 m) ++ v4_list (m4_r2 m) ++ v4_list (m4_r3 m))%list.

(** [keyframe->node->estimate()], also [keyframe->estimate()]. *)
Definition node_estimate (graph_slam : GraphSLAM.t) (node : option VertexRef) : outcome Isometry3d :=
  n <- deref node ;; GraphSLAM.estimate_se3 graph_slam n.

Definition set_cloud_seg_body (c : option PointCloud) (k : KeyFrame) : KeyFrame :=
  mkKeyFrame (kf_stamp k) (kf_odom k) (kf_cloud k) (kf_node k) c
             (kf_x_plane_ids k) (kf_y_plane_ids k) (kf_hort_plane_ids k)
             (kf_floor_coeffs k) (kf_utm_coord k) (kf_acceleration k) (kf_orientation k).

(** [keyframe->x_plane_ids.push_back(id)] and its two siblings, by class. *)
Definition push_plane_id (plane_type : Z) (id : Z) (k : KeyFrame) : KeyFrame :=
  mkKeyFrame (kf_stamp k) (kf_odom k) (kf_cloud k) (kf_node k) (kf_cloud_seg_body k)
             (if (plane_type =? X_VERT_PLANE)%Z then kf_x_plane_ids k ++ [id] else kf_x_plane_ids k)
             (if (plane_type =? Y_VERT_PLANE)%Z then kf_y_plane_ids k ++ [id] else kf_y_plane_ids k)
             (if (plane_type =? HORT_PLANE)%Z then kf_hort_plane_ids k ++ [id] else kf_hort_plane_ids k)
             (kf_floor_coeffs k) (kf_utm_coord k) (kf_acceleration k) (kf_orientation k).

(** ** plane_mapper.cpp *)

Module PlaneMapper.

(** The parameters read by the constructor. *)
Record Params : Type := mkParams {
  use_point_to_plane : bool;
  plane_information : Q;
  plane_dist_threshold : Q;
  plane_points_dist : Q;
  corridor_min_plane_length : Q;
  room_min_plane_length : Q;
  room_max_plane_length : Q;
  min_plane_points : Q;
  use_corridor_constraint : bool;
  use_room_constraint : bool
}.

(** The defaults of the constructor. *)
Definition default_params : Params :=
  mkParams false (1 # 100) (15 # 100) (1 # 2) 10 3 6 100 false false.

(** What the member functions take by reference: the graph, the keyframe,
    the three landmark collections; and the lines printed on [std::cout]. *)
Record State : Type := mkState {
  graph_slam : GraphSLAM.t;
  keyframe : KeyFrame;
  x_vert_planes : list VerticalPlanes;
  y_vert_planes : list VerticalPlanes;
  hort_planes : list HorizontalPlanes;
  cout : list string
}.

Definition set_graph (g : GraphSLAM.t) (s : State) : State :=
  mkState g (keyframe s) (x_vert_planes s) (y_vert_planes s) (hort_planes s) (cout s).

Definition set_keyframe (k : KeyFrame) (s : State) : State :=
  mkState (graph_slam s) k (x_vert_planes s) (y_vert_planes s) (hort_planes s) (cout s).

Definition set_x_vert_planes (v : list VerticalPlanes) (s : State) : State :=
  mkState (graph_slam s) (keyframe s) v (y_vert_planes s) (hort_planes s) (cout s).

Definition set_y_vert_planes (v : list VerticalPlanes) (s : State) : State :=
  mkState (graph_slam s) (keyframe s) (x_vert_planes s) v (hort_planes s) (cout s).

Definition set_hort_planes (v : list HorizontalPlanes) (s : State) : State :=
  mkState (graph_slam s) (keyframe s) (x_vert_planes s) (y_vert_planes s) v (cout s).

Definition print (line : string) (s : State) : State :=
  mkState (graph_slam s) (keyframe s) (x_vert_planes s) (y_vert_planes s) (hort_planes s)
          (cout s ++ [line]).

(** [convert_plane_to_map_frame]. *)
Definition convert_plane_to_map_frame (graph_slam : GraphSLAM.t) (keyframe : KeyFrame)
    (det_plane_body_frame : Plane3D) : outcome Plane3D :=
  w2n <- node_estimate graph_slam (kf_node keyframe) ;;
  let map_head := rotate w2n (head3 (coeffs det_plane_body_frame)) in
  let map_3 := c3 (coeffs det_plane_body_frame) - dot3 (translation w2n) map_head in
  Ok (mkV4 (v3_0 map_head) (v3_1 map_head) (v3_2 map_head) map_3).

Section Mapper.

(** The Mahalanobis distance of a landmark plane to a detection,
    [sqrt(error.transpose() * covariance.inverse() * error)] with
    [error = (m2n * plane).ominus(det_plane)]: g2o and Eigen code with
    square roots and angles, taken as given.  [None] is NaN.  The second
    computation of the sources, with the identity in place of the inverse
    covariance, is this function at the identity covariance. *)
Variable maha_dist : Isometry3d -> Plane3D -> Matrix3d -> Plane3D -> option Q.

Variable params : Params.

(** One landmark of the association loops: the distance that is compared
    against the running minimum. *)
Definition landmark_maha_dist (m2n : Isometry3d) (det_plane : Plane3D)
    (lm : VerticalPlanes) : option Q :=
  let maha := maha_dist m2n (vp_plane lm) (vp_covariance lm) det_plane in
  match maha with
  | None => maha_dist m2n (vp_plane lm) Matrix3d_Identity det_plane
  | Some m =>
      if Qltb m (1 # 1000)
      then maha_dist m2n (vp_plane lm) Matrix3d_Identity det_plane
      else maha
  end.

(** The loop of the two vertical cases, from index [i]:
    [(vert_min_maha_dist, data_association)]. *)
Fixpoint vert_loop (m2n : Isometry3d) (det_plane : Plane3D) (planes : list VerticalPlanes)
    (i : nat) (vert_min_maha_dist : Q) (data_association : Z * nat) : Q * (Z * nat) :=
  match planes with
  | [] => (vert_min_maha_dist, data_association)
  | lm :: rest =>
      match landmark_maha_dist m2n det_plane lm with
      | Some maha =>
          if Qltb maha vert_min_maha_dist
          then vert_loop m2n det_plane rest (S i) maha (vp_id lm, i)
          else vert_loop m2n det_plane rest (S i) vert_min_maha_dist data_association
      | None => vert_loop m2n det_plane rest (S i) vert_min_maha_dist data_association
      end
  end.

(** The loop of the horizontal case: the comparison is against
    [hort_min_maha_dist], the assignment goes to [vert_min_maha_dist]. *)
Fixpoint hort_loop (m2n : Isometry3d) (det_plane : Plane3D) (planes : list HorizontalPlanes)
    (i : nat) (hort_min_maha_dist : Q) (vert_min_maha_dist : Q)
    (data_association : Z * nat) : Q * (Z * nat) :=
  match planes with
  | [] => (vert_min_maha_dist, data_association)
  | lm :: rest =>
      match landmark_maha_dist m2n det_plane lm with
      | Some maha =>
          if Qltb maha hort_min_maha_dist
          then hort_loop m2n det_plane rest (S i) hort_min_maha_dist maha (vp_id lm, i)
          else hort_loop m2n det_plane rest (S i) hort_min_maha_dist vert_min_maha_dist
                         data_association
      | None => hort_loop m2n det_plane rest (S i) hort_min_maha_dist vert_min_maha_dist
                          data_association
      end
  end.

(** The block after the loop of a vertical case: below the threshold and
    with a non-empty map cloud, the match stands only if the neighbour check
    holds. *)
Definition vert_overlap_veto (graph_slam : GraphSLAM.t) (keyframe : KeyFrame)
    (cloud_seg_body : option PointCloud) (planes : list VerticalPlanes)
    (vert_min_maha_dist : Q) (data_association : Z * nat) : outcome (Z * nat) :=
  if Qltb vert_min_maha_dist (plane_dist_threshold params) then
    lm <- at_index planes (snd data_association) ;;
    cloud_seg_map <- deref (vp_cloud_seg_map lm) ;;
    match cloud_seg_map with
    | [] => Ok data_association
    | _ :: _ =>
        current_keyframe_pose <- node_estimate graph_slam (kf_node keyframe) ;;
        body <- deref cloud_seg_body ;;
        let cloud_seg_detected := map (transform_point current_keyframe_pose) body in
        let valid_neighbour :=
          PlaneUtils.check_point_neighbours cloud_seg_map cloud_seg_detected in
        if negb valid_neighbour then Ok ((-1)%Z, snd data_association)
        else Ok data_association
    end
  else Ok data_association.

(** [associate_plane]; the pair is value-initialised to [(0, 0)]. *)
Definition associate_plane (plane_type : Z) (s : State) (det_plane : Plane3D)
    (cloud_seg_body : option PointCloud) : outcome (State * (Z * nat)) :=
  let data_association := (0%Z, O) in
  let vert_min_maha_dist := 100 in
  let hort_min_maha_dist := 100 in
  est <- node_estimate (graph_slam s) (kf_node (keyframe s)) ;;
  let m2n := inverse est in
  if (plane_type =? X_VERT_PLANE)%Z then
    let '(vert_min_maha_dist, data_association) :=
      vert_loop m2n det_plane (x_vert_planes s) O vert_min_maha_dist data_association in
    da <- vert_overlap_veto (graph_slam s) (keyframe s) cloud_seg_body (x_vert_planes s)
                            vert_min_maha_dist data_association ;;
    Ok (s, da)
  else if (plane_type =? Y_VERT_PLANE)%Z then
    let '(vert_min_maha_dist, data_association) :=
      vert_loop m2n det_plane (y_vert_planes s) O vert_min_maha_dist data_association in
    da <- vert_overlap_veto (graph_slam s) (keyframe s) cloud_seg_body (y_vert_planes s)
                            vert_min_maha_dist data_association ;;
    Ok (s, da)
  else if (plane_type =? HORT_PLANE)%Z then
    let '(_, data_association) :=
      hort_loop m2n det_plane (hort_planes s) O hort_min_maha_dist vert_min_maha_dist
                data_association in
    if Qltb (plane_dist_threshold params) hort_min_maha_dist
    then Ok (s, ((-1)%Z, snd data_association))
    else Ok (s, data_association)
  else
    Ok (print "associating planes had an error " s, data_association).

(** One landmark of [convert_plane_points_to_map]: the supporting body
    clouds, each moved by the pose of its supporting keyframe node, from
    index [k]. *)
Fixpoint cloud_to_map (graph_slam : GraphSLAM.t) (keyframe_node_vec : list (option VertexRef))
    (cloud_seg_body_vec : list (option PointCloud)) (k : nat) : outcome PointCloud :=
  match keyframe_node_vec with
  | [] => Ok []
  | node :: rest =>
      pose <- node_estimate graph_slam node ;;
      cloud_k <- at_index cloud_seg_body_vec k ;;
      body <- deref cloud_k ;;
      tail <- cloud_to_map graph_slam rest cloud_seg_body_vec (S k) ;;
      Ok (map (transform_point pose) body ++ tail)%list
  end.

Definition set_cloud_seg_map (c : option PointCloud) (lm : VerticalPlanes) : VerticalPlanes :=
  mkPlanes (vp_id lm) (vp_plane lm) (vp_cloud_seg_body lm) (vp_cloud_seg_body_vec lm) c
           (vp_keyframe_node_vec lm) (vp_keyframe_node lm) (vp_plane_node lm)
           (vp_covariance lm) (vp_color lm) (vp_parallel_pair lm).

(** One of the three loops of [convert_plane_points_to_map]. *)
Fixpoint convert_planes (graph_slam : GraphSLAM.t) (planes : list VerticalPlanes)
    : outcome (list VerticalPlanes) :=
  match planes with
  | [] => Ok []
  | lm :: rest =>
      cloud_seg_map <- cloud_to_map graph_slam (vp_keyframe_node_vec lm)
                                    (vp_cloud_seg_body_vec lm) O ;;
      rest' <- convert_planes graph_slam rest ;;
      Ok (set_cloud_seg_map (Some cloud_seg_map) lm :: rest')
  end.

(** [convert_plane_points_to_map]. *)
Definition convert_plane_points_to_map (s : State) : outcome State :=
  xs <- convert_planes (graph_slam s) (x_vert_planes s) ;;
  ys <- convert_planes (graph_slam s) (y_vert_planes s) ;;
  hs <- convert_planes (graph_slam s) (hort_planes s) ;;
  Ok (set_hort_planes hs (set_y_vert_planes ys (set_x_vert_planes xs s))).

(** The [while] loop of [factor_planes] in point-to-plane mode: the points
    kept in the keyframe's segment cloud, and [Gij]. *)
Fixpoint point_to_plane_loop (graph_slam : GraphSLAM.t) (node : option VertexRef)
    (det_plane_map_frame : Plane3D) (points : PointCloud) (Gij : Matrix4d)
    : outcome (PointCloud * Matrix4d) :=
  match points with
  | [] => Ok ([], Gij)
  | point_tmp :: rest =>
      est <- node_estimate graph_slam node ;;
      let point := mkV4 (px point_tmp) (py point_tmp) (pz point_tmp) 1 in
      let point_to_plane_d := dot4 (coeffs det_plane_map_frame) (m4_mul_v est point) in
      if Qltb (Qabs point_to_plane_d) (1 # 10) then
        '(kept, Gij') <- point_to_plane_loop graph_slam node det_plane_map_frame rest
                                             (m4_add Gij (outer4 point)) ;;
        Ok (point_tmp :: kept, Gij')
      else
        point_to_plane_loop graph_slam node det_plane_map_frame rest Gij
  end.

(** [cloud_seg_body_vec.push_back] and [keyframe_node_vec.push_back] on a
    matched landmark. *)
Definition push_support (cloud : option PointCloud) (node : option VertexRef)
    (lm : VerticalPlanes) : VerticalPlanes :=
  mkPlanes (vp_id lm) (vp_plane lm) (vp_cloud_seg_body lm)
           (vp_cloud_seg_body_vec lm ++ [cloud]) (vp_cloud_seg_map lm)
           (vp_keyframe_node_vec lm ++ [node]) (vp_keyframe_node lm) (vp_plane_node lm)
           (vp_covariance lm) (vp_color lm) (vp_parallel_pair lm).

(** The colour of a new landmark: the last point's for the vertical
    classes, a fixed one for the horizontal class. *)
Definition landmark_color (plane_type : Z) (keyframe : KeyFrame) : outcome (list Q) :=
  if (plane_type =? HORT_PLANE)%Z then Ok [255; 0; 100]
  else
    body <- deref (kf_cloud_seg_body keyframe) ;;
    last <- back body ;;
    Ok [r last; g last; b last].

(** One [case] of the [switch] of [factor_planes]; the three cases differ
    in the collection [planes], in the keyframe's id list and in the colour.
    Result: graph, keyframe, collection, [plane_node], [data_association]. *)
Definition factor_case (plane_type : Z) (graph_slam : GraphSLAM.t) (keyframe : KeyFrame)
    (det_plane_map_frame : Plane3D) (planes : list VerticalPlanes)
    (data_association : Z * nat)
    : outcome (GraphSLAM.t * KeyFrame * list VerticalPlanes * VertexRef * (Z * nat)) :=
  if match planes with [] => true | _ => false end || (fst data_association =? -1)%Z then
    let data_association := (GraphSLAM.num_vertices_local graph_slam, snd data_association) in
    let '(graph_slam, plane_node) :=
      GraphSLAM.add_plane_node (coeffs det_plane_map_frame) graph_slam in
    color <- landmark_color plane_type keyframe ;;
    let vert_plane :=
      mkPlanes (fst data_association) (coeffs det_plane_map_frame)
               (kf_cloud_seg_body keyframe) [kf_cloud_seg_body keyframe] None
               [kf_node keyframe] (kf_node keyframe) plane_node
               Matrix3d_Identity color false in
    Ok (graph_slam, push_plane_id plane_type (vp_id vert_plane) keyframe,
        (planes ++ [vert_plane])%list, plane_node, data_association)
  else
    lm <- at_index planes (snd data_association) ;;
    let plane_node := vp_plane_node lm in
    let planes :=
      set_index planes (snd data_association)
                (push_support (kf_cloud_seg_body keyframe) (kf_node keyframe) lm) in
    Ok (graph_slam, push_plane_id plane_type (vp_id lm) keyframe, planes, plane_node,
        data_association).

(** [factor_planes].  [plane_node] is declared without an initialiser:
    [None] until a [case] of the [switch] assigns it. *)
Definition factor_planes (plane_type : Z) (det_plane_map_frame det_plane_body_frame : Plane3D)
    (s : State) : outcome (State * Z) :=
  let plane_node : option VertexRef := None in
  let Gij := Matrix4d_Zero in
  '(s, Gij) <-
    (if use_point_to_plane params then
       body <- deref (kf_cloud_seg_body (keyframe s)) ;;
       '(kept, Gij) <- point_to_plane_loop (graph_slam s) (kf_node (keyframe s))
                                           det_plane_map_frame body Gij ;;
       Ok (set_keyframe (set_cloud_seg_body (Some kept) (keyframe s)) s, Gij)
     else Ok (s, Gij)) ;;
  '(s, data_association) <-
    associate_plane plane_type s (coeffs det_plane_body_frame)
                    (kf_cloud_seg_body (keyframe s)) ;;
  '(s, plane_node, data_association) <-
    (if (plane_type =? X_VERT_PLANE)%Z then
       '(gr, kf, planes, pn, da) <-
         factor_case plane_type (graph_slam s) (keyframe s) det_plane_map_frame
                     (x_vert_planes s) data_association ;;
       Ok (set_x_vert_planes planes (set_keyframe kf (set_graph gr s)), Some pn, da)
     else if (plane_type =? Y_VERT_PLANE)%Z then
       '(gr, kf, planes, pn, da) <-
         factor_case plane_type (graph_slam s) (keyframe s) det_plane_map_frame
                     (y_vert_planes s) data_association ;;
       Ok (set_y_vert_planes planes (set_keyframe kf (set_graph gr s)), Some pn, da)
     else if (plane_type =? HORT_PLANE)%Z then
       '(gr, kf, planes, pn, da) <-
         factor_case plane_type (graph_slam s) (keyframe s) det_plane_map_frame
                     (hort_planes s) data_association ;;
       Ok (set_hort_planes planes (set_keyframe kf (set_graph gr s)), Some pn, da)
     else
       Ok (print "factoring planes function had a weird error " s, plane_node,
           data_association)) ;;
  plane_node <- match plane_node with
                | Some pn => Ok pn
                | None => Undefined UninitRead
                end ;;
  node <- deref (kf_node (keyframe s)) ;;
  let graph_slam :=
    if use_point_to_plane params then
      let information := [[1 # 1000]] in
      let '(gr, edge) :=
        GraphSLAM.add_edge GraphSLAM.EdgeSE3PointToPlane [node; plane_node] (m4_list Gij)
                           information (graph_slam s) in
      GraphSLAM.add_robust_kernel edge "Huber" 1 gr
    else
      let information := scaled_identity 3 (plane_information params) in
      let '(gr, edge) :=
        GraphSLAM.add_edge GraphSLAM.EdgeSE3Plane [node; plane_node]
                           (v4_list (coeffs det_plane_body_frame)) information
                           (graph_slam s) in
      GraphSLAM.add_robust_kernel edge "Huber" 1 gr in
  s <- convert_plane_points_to_map (set_graph graph_slam s) ;;
  Ok (s, fst data_association).

(** [sort_planes]. *)
Definition sort_planes (plane_type : Z) (det_plane_map_frame det_plane_body_frame : Plane3D)
    (s : State) : outcome (State * Z) :=
  factor_planes plane_type det_plane_map_frame det_plane_body_frame s.

(** The class of a map-frame plane in [add_planes_to_graph]: the index of
    the strictly largest normal component in absolute value, [-1] if there
    is none. *)
Definition classify (det_plane_map_frame : Plane3D) : Z :=
  let n0 := Qabs (c0 (coeffs det_plane_map_frame)) in
  let n1 := Qabs (c1 (coeffs det_plane_map_frame)) in
  let n2 := Qabs (c2 (coeffs det_plane_map_frame)) in
  if Qltb n1 n0 && Qltb n2 n0 then X_VERT_PLANE
  else if Qltb n0 n1 && Qltb n2 n1 then Y_VERT_PLANE
  else if Qltb n0 n2 && Qltb n1 n2 then HORT_PLANE
  else (-1)%Z.

(** [add_planes_to_graph]. *)
Definition add_planes_to_graph (det_plane_body_frame : Plane3D) (s : State)
    : outcome (State * Z) :=
  det_plane_map_frame <-
    convert_plane_to_map_frame (graph_slam s) (keyframe s) det_plane_body_frame ;;
  let plane_type := classify det_plane_map_frame in
  '(s, plane_id) <- sort_planes plane_type det_plane_map_frame det_plane_body_frame s ;;
  Ok (s, plane_type).

(** [map_extracted_planes], over the decoded segment clouds.  The plane is
    built from the normal and the curvature of the last point of the cloud;
    the normal of that point is taken to be of length 1, so that the
    construction of the [g2o::Plane3D], which divides the four numbers by
    the norm of the normal, keeps them. *)
Fixpoint map_extracted_planes (extracted_cloud_vec : list PointCloud) (s : State)
    : outcome State :=
  match extracted_cloud_vec with
  | [] => Ok s
  | cloud_seg_body :: rest =>
      if Qltb (inject_Z (Z.of_nat (List.length cloud_seg_body))) (min_plane_points params)
      then map_extracted_planes rest s
      else
        let s := set_keyframe (set_cloud_seg_body (Some cloud_seg_body) (keyframe s)) s in
        last <- back cloud_seg_body ;;
        let det_plane_body_frame :=
          mkV4 (normal_x last) (normal_y last) (normal_z last) (curvature last) in
        '(s, plane_type) <- add_planes_to_graph det_plane_body_frame s ;;
        map_extracted_planes rest s
  end.

End Mapper.

End PlaneMapper.

(** ** The nodelet (hdl_graph_slam_nodelet.cpp)

    Debug output on [std::cout] is left out. *)

Module HdlGraphSlamNodelet.

Definition KeyFramePtr : Type := nat.

(** [struct plane_data_list]. *)
Record plane_data_list : Type := mkPlaneDataList {
  plane_local : Plane3D;
  plane : Plane3D;
  plane_id : Z;
  plane_length : Q;
  keyframe_node : option VertexRef;
  keyframe_trans : Vector3d;
  is_structural_candidate : bool
}.

(** [struct structure_data_list]. *)
Record structure_data_list : Type := mkStructureDataList {
  plane1 : plane_data_list;
  plane2 : plane_data_list;
  width : Q;
  length_diff : Q
}.

(** A value-initialised [plane_data_list], as [resize(2)] creates them; the
    default [g2o::Plane3D] is (1, 0, 0, -1). *)
Definition default_plane_data_list : plane_data_list :=
  mkPlaneDataList (mkV4 1 0 0 (-1)) (mkV4 1 0 0 (-1)) 0%Z 0 None (mkV3 0 0 0) false.

(** Messages. *)
Record GeoPoint : Type := mkGeoPoint {
  latitude : Q; longitude : Q; geo_altitude : option Q
}.

Record GeoPointStamped : Type := mkGeoPointStamped {
  gps_stamp : Z; position : GeoPoint
}.

Record Imu : Type := mkImu {
  imu_stamp : Z; imu_frame_id : string;
  orientation : Quaterniond; linear_acceleration : Vector3d
}.

Record FloorCoeffs : Type := mkFloorCoeffs { floor_stamp : Z; floor_coeffs : list Q }.

Record PointCloud2 : Type := mkPointCloud2 { pc_stamp : Z; pc_points : PointCloud }.

Record PointClouds : Type := mkPointClouds { pcs_stamp : Z; pointclouds : list PointCloud2 }.

(** [KeyFrameSnapshot]: the pose and the cloud of a keyframe, copied. *)
Record KeyFrameSnapshot : Type := mkSnapshot {
  snap_pose : Isometry3d; snap_cloud : PointCloud
}.

(** [Loop]. *)
Record Loop : Type := mkLoop {
  key1 : KeyFramePtr; key2 : KeyFramePtr; relative_pose : Matrix4d
}.

(** What leaves the nodelet. *)
Inductive Event : Type :=
| ReadUntil (stamp : Z) (frame_id : string)   (**r [read_until_pub.publish] *)
| Odom2Map (stamp : Z) (trans : Matrix4d)     (**r [odom2map_pub.publish] *)
| LoopDetect                                  (**r [loop_detector->detect] *)
| Optimize (num_iterations : Z).              (**r [graph_slam->optimize] *)

(** The parameters read from the private node handle. *)
Record Params : Type := mkParams {
  max_keyframes_per_update : Z;
  fix_first_node : bool;
  fix_first_node_stddev : list Q;
  fix_first_node_adaptive : bool;
  odometry_edge_robust_kernel : string;
  odometry_edge_robust_kernel_size : Q;
  loop_closure_edge_robust_kernel : string;
  loop_closure_edge_robust_kernel_size : Q;
  gps_edge_stddev_xy : Q;
  gps_edge_stddev_z : Q;
  gps_edge_robust_kernel : string;
  gps_edge_robust_kernel_size : Q;
  floor_edge_stddev : Q;
  floor_edge_robust_kernel : string;
  floor_edge_robust_kernel_size : Q;
  enable_imu_orientation : bool;
  enable_imu_acceleration : bool;
  imu_orientation_edge_stddev : Q;
  imu_acceleration_edge_stddev : Q;
  imu_orientation_edge_robust_kernel : string;
  imu_orientation_edge_robust_kernel_size : Q;
  imu_acceleration_edge_robust_kernel : string;
  imu_acceleration_edge_robust_kernel_size : Q;
  plane_dist_threshold : Q;
  use_point_to_plane : bool;
  use_parallel_plane_constraint : bool;
  use_perpendicular_plane_constraint : bool;
  use_corridor_constraint : bool;
  corridor_dist_threshold : Q;
  corridor_min_plane_length : Q;
  corridor_min_width : Q;
  corridor_max_width : Q;
  corridor_plane_length_diff_threshold : Q;
  use_room_constraint : bool;
  room_plane_length_diff_threshold : Q;
  room_dist_threshold : Q;
  room_min_plane_length : Q;
  room_max_plane_length : Q;
  room_min_width : Q;
  g2o_solver_num_iterations : Z;
  points_topic : string
}.

(** The defaults of [onInit] and of the [param] calls. *)
Definition default_params : Params :=
  mkParams 10%Z false [1; 1; 1; 1; 1; 1] true "NONE" 1 "NONE" 1
           10000 10 "NONE" 1 10 "NONE" 1
           false false (1 # 10) 3 "NONE" 1 "NONE" 1
           (15 # 100) false true true
           false 1 10 (3 # 2) (5 # 2) (3 # 10)
           false (3 # 10) 1 3 6 (5 # 2)
           1024%Z "/velodyne_points".

(** The members of the nodelet that the modelled functions read or write.
    [heap] holds the [KeyFrame] objects; a [KeyFrame::Ptr] is a position in
    it, so that the queue, the staging list, the keyframe vector and the hash
    share one object per keyframe.  [events] records what leaves the nodelet:
    published messages and calls into the loop detector and the solver. *)
Record State : Type := mkState {
  graph_slam : GraphSLAM.t;
  heap : list KeyFrame;
  keyframes : list KeyFramePtr;
  new_keyframes : list KeyFramePtr;
  keyframe_hash : list (Z * KeyFramePtr);
  keyframe_queue : list KeyFramePtr;
  gps_queue : list GeoPointStamped;
  imu_queue : list Imu;
  floor_coeffs_queue : list FloorCoeffs;
  clouds_seg_queue : list PointClouds;
  zero_utm : option UTMCoord;
  anchor_node : option VertexRef;
  anchor_edge : option GraphSLAM.EdgeRef;
  floor_plane_node : option VertexRef;
  x_vert_planes : list VerticalPlanes;
  y_vert_planes : list VerticalPlanes;
  hort_planes : list HorizontalPlanes;
  x_corridors : list Corridors;
  y_corridors : list Corridors;
  rooms_vec : list Rooms;
  trans_odom2map : Matrix4d;
  keyframes_snapshot : list KeyFrameSnapshot;
  graph_updated : bool;
  base_frame_id : string;
  events : list Event
}.

Definition set_graph_slam (v : GraphSLAM.t) (s : State) : State :=
  mkState v (heap s) (keyframes s) (new_keyframes s) (keyframe_hash s)
    (keyframe_queue s) (gps_queue s) (imu_queue s) (floor_coeffs_queue s)
    (clouds_seg_queue s) (zero_utm s) (anchor_node s) (anchor_edge s)
    (floor_plane_node s) (x_vert_planes s) (y_vert_planes s) (hort_planes s)
    (x_corridors s) (y_corridors s) (rooms_vec s) (trans_odom2map s)
    (keyframes_snapshot s) (graph_updated s) (base_frame_id s) (events s).

Definition set_heap (v : list KeyFrame) (s : State) : State :=
  mkState (graph_slam s) v (keyframes s) (new_keyframes s) (keyframe_hash s)
    (keyframe_queue s) (gps_queue s) (imu_queue s) (floor_coeffs_queue s)
    (clouds_seg_queue s) (zero_utm s) (anchor_node s) (anchor_edge s)
    (floor_plane_node s) (x_vert_planes s) (y_vert_planes s) (hort_planes s)
    (x_corridors s) (y_corridors s) (rooms_vec s) (trans_odom2map s)
    (keyframes_snapshot s) (graph_updated s) (base_frame_id s) (events s).

Definition set_keyframes (v : list KeyFramePtr) (s : State) : State :=
  mkState (graph_slam s) (heap s) v (new_keyframes s) (keyframe_hash s)
    (keyframe_queue s) (gps_queue s) (imu_queue s) (floor_coeffs_queue s)
    (clouds_seg_queue s) (zero_utm s) (anchor_node s) (anchor_edge s)
    (floor_plane_node s) (x_vert_planes s) (y_vert_planes s) (hort_planes s)
    (x_corridors s) (y_corridors s) (rooms_vec s) (trans_odom2map s)
    (keyframes_snapshot s) (graph_updated s) (base_frame_id s) (events s).

Definition set_new_keyframes (v : list KeyFramePtr) (s : State) : State :=
  mkState (graph_slam s) (heap s) (keyframes s) v (keyframe_hash s) (keyframe_queue s)
    (gps_queue s) (imu_queue s) (floor_coeffs_queue s) (clouds_seg_queue s) (zero_utm s)
    (anchor_node s) (anchor_edge s) (floor_plane_node s) (x_vert_planes s)
    (y_vert_planes s) (hort_planes s) (x_corridors s) (y_corridors s) (rooms_vec s)
    (trans_odom2map s) (keyframes_snapshot s) (graph_updated s) (base_frame_id s)
    (events s).

Definition set_keyframe_hash (v : list (Z * KeyFramePtr)) (s : State) : State :=
  mkState (graph_slam s) (heap s) (keyframes s) (new_keyframes s) v (keyframe_queue s)
    (gps_queue s) (imu_queue s) (floor_coeffs_queue s) (clouds_seg_queue s) (zero_utm s)
    (anchor_node s) (anchor_edge s) (floor_plane_node s) (x_vert_planes s)
    (y_vert_planes s) (hort_planes s) (x_corridors s) (y_corridors s) (rooms_vec s)
    (trans_odom2map s) (keyframes_snapshot s) (graph_updated s) (base_frame_id s)
    (events s).

Definition set_keyframe_queue (v : list KeyFramePtr) (s : State) : State :=
  mkState (graph_slam s) (heap s) (keyframes s) (new_keyframes s) (keyframe_hash s) v
    (gps_queue s) (imu_queue s) (floor_coeffs_queue s) (clouds_seg_queue s) (zero_utm s)
    (anchor_node s) (anchor_edge s) (floor_plane_node s) (x_vert_planes s)
    (y_vert_planes s) (hort_planes s) (x_corridors s) (y_corridors s) (rooms_vec s)
    (trans_odom2map s) (keyframes_snapshot s) (graph_updated s) (base_frame_id s)
    (events s).

Definition set_gps_queue (v : list GeoPointStamped) (s : State) : State :=
  mkState (graph_slam s) (heap s) (keyframes s) (new_keyframes s) (keyframe_hash s)
    (keyframe_queue s) v (imu_queue s) (floor_coeffs_queue s) (clouds_seg_queue s)
    (zero_utm s) (anchor_node s) (anchor_edge s) (floor_plane_node s) (x_vert_planes s)
    (y_vert_planes s) (hort_planes s) (x_corridors s) (y_corridors s) (rooms_vec s)
    (trans_odom2map s) (keyframes_snapshot s) (graph_updated s) (base_frame_id s)
    (events s).

Definition set_imu_queue (v : list Imu) (s : State) : State :=
  mkState (graph_slam s) (heap s) (keyframes s) (new_keyframes s) (keyframe_hash s)
    (keyframe_queue s) (gps_queue s) v (floor_coeffs_queue s) (clouds_seg_queue s)
    (zero_utm s) (anchor_node s) (anchor_edge s) (floor_plane_node s) (x_vert_planes s)
    (y_vert_planes s) (hort_planes s) (x_corridors s) (y_corridors s) (rooms_vec s)
    (trans_odom2map s) (keyframes_snapshot s) (graph_updated s) (base_frame_id s)
    (events s).

Definition set_floor_coeffs_queue (v : list FloorCoeffs) (s : State) : State :=
  mkState (graph_slam s) (heap s) (keyframes s) (new_keyframes s) (keyframe_hash s)
    (keyframe_queue s) (gps_queue s) (imu_queue s) v (clouds_seg_queue s) (zero_utm s)
    (anchor_node s) (anchor_edge s) (floor_plane_node s) (x_vert_planes s)
    (y_vert_planes s) (hort_planes s) (x_corridors s) (y_corridors s) (rooms_vec s)
    (trans_odom2map s) (keyframes_snapshot s) (graph_updated s) (base_frame_id s)
    (events s).

Definition set_clouds_seg_queue (v : list PointClouds) (s : State) : State :=
  mkState (graph_slam s) (heap s) (keyframes s) (new_keyframes s) (keyframe_hash s)
    (keyframe_queue s) (gps_queue s) (imu_queue s) (floor_coeffs_queue s) v (zero_utm s)
    (anchor_node s) (anchor_edge s) (floor_plane_node s) (x_vert_planes s)
    (y_vert_planes s) (hort_planes s) (x_corridors s) (y_corridors s) (rooms_vec s)
    (trans_odom2map s) (keyframes_snapshot s) (graph_updated s) (base_frame_id s)
    (events s).

Definition set_zero_utm (v : option UTMCoord) (s : State) : State :=
  mkState (graph_slam s) (heap s) (keyframes s) (new_keyframes s) (keyframe_hash s)
    (keyframe_queue s) (gps_queue s) (imu_queue s) (floor_coeffs_queue s)
    (clouds_seg_queue s) v (anchor_node s) (anchor_edge s) (floor_plane_node s)
    (x_vert_planes s) (y_vert_planes s) (hort_planes s) (x_corridors s) (y_corridors s)
    (rooms_vec s) (trans_odom2map s) (keyframes_snapshot s) (graph_updated s)
    (base_frame_id s) (events s).

Definition set_anchor_node (v : option VertexRef) (s : State) : State :=
  mkState (graph_slam s) (heap s) (keyframes s) (new_keyframes s) (keyframe_hash s)
    (keyframe_queue s) (gps_queue s) (imu_queue s) (floor_coeffs_queue s)
    (clouds_seg_queue s) (zero_utm s) v (anchor_edge s) (floor_plane_node s)
    (x_vert_planes s) (y_vert_planes s) (hort_planes s) (x_corridors s) (y_corridors s)
    (rooms_vec s) (trans_odom2map s) (keyframes_snapshot s) (graph_updated s)
    (base_frame_id s) (events s).

Definition set_anchor_edge (v : option GraphSLAM.EdgeRef) (s : State) : State :=
  mkState (graph_slam s) (heap s) (keyframes s) (new_keyframes s) (keyframe_hash s)
    (keyframe_queue s) (gps_queue s) (imu_queue s) (floor_coeffs_queue s)
    (clouds_seg_queue s) (zero_utm s) (anchor_node s) v (floor_plane_node s)
    (x_vert_planes s) (y_vert_planes s) (hort_planes s) (x_corridors s) (y_corridors s)
    (rooms_vec s) (trans_odom2map s) (keyframes_snapshot s) (graph_updated s)
    (base_frame_id s) (events s).

Definition set_floor_plane_node (v : option VertexRef) (s : State) : State :=
  mkState (graph_slam s) (heap s) (keyframes s) (new_keyframes s) (keyframe_hash s)
    (keyframe_queue s) (gps_queue s) (imu_queue s) (floor_coeffs_queue s)
    (clouds_seg_queue s) (zero_utm s) (anchor_node s) (anchor_edge s) v
    (x_vert_planes s) (y_vert_planes s) (hort_planes s) (x_corridors s) (y_corridors s)
    (rooms_vec s) (trans_odom2map s) (keyframes_snapshot s) (graph_updated s)
    (base_frame_id s) (events s).

Definition set_x_vert_planes (v : list VerticalPlanes) (s : State) : State :=
  mkState (graph_slam s) (heap s) (keyframes s) (new_keyframes s) (keyframe_hash s)
    (keyframe_queue s) (gps_queue s) (imu_queue s) (floor_coeffs_queue s)
    (clouds_seg_queue s) (zero_utm s) (anchor_node s) (anchor_edge s)
    (floor_plane_node s) v (y_vert_planes s) (hort_planes s) (x_corridors s)
    (y_corridors s) (rooms_vec s) (trans_odom2map s) (keyframes_snapshot s)
    (graph_updated s) (base_frame_id s) (events s).

Definition set_y_vert_planes (v : list VerticalPlanes) (s : State) : State :=
  mkState (graph_slam s) (heap s) (keyframes s) (new_keyframes s) (keyframe_hash s)
    (keyframe_queue s) (gps_queue s) (imu_queue s) (floor_coeffs_queue s)
    (clouds_seg_queue s) (zero_utm s) (anchor_node s) (anchor_edge s)
    (floor_plane_node s) (x_vert_planes s) v (hort_planes s) (x_corridors s)
    (y_corridors s) (rooms_vec s) (trans_odom2map s) (keyframes_snapshot s)
    (graph_updated s) (base_frame_id s) (events s).

Definition set_hort_planes (v : list HorizontalPlanes) (s : State) : State :=
  mkState (graph_slam s) (heap s) (keyframes s) (new_keyframes s) (keyframe_hash s)
    (keyframe_queue s) (gps_queue s) (imu_queue s) (floor_coeffs_queue s)
    (clouds_seg_queue s) (zero_utm s) (anchor_node s) (anchor_edge s)
    (floor_plane_node s) (x_vert_planes s) (y_vert_planes s) v (x_corridors s)
    (y_corridors s) (rooms_vec s) (trans_odom2map s) (keyframes_snapshot s)
    (graph_updated s) (base_frame_id s) (events s).

Definition set_x_corridors (v : list Corridors) (s : State) : State :=
  mkState (graph_slam s) (heap s) (keyframes s) (new_keyframes s) (keyframe_hash s)
    (keyframe_queue s) (gps_queue s) (imu_queue s) (floor_coeffs_queue s)
    (clouds_seg_queue s) (zero_utm s) (anchor_node s) (anchor_edge s)
    (floor_plane_node s) (x_vert_planes s) (y_vert_planes s) (hort_planes s) v
    (y_corridors s) (rooms_vec s) (trans_odom2map s) (keyframes_snapshot s)
    (graph_updated s) (base_frame_id s) (events s).

Definition set_y_corridors (v : list Corridors) (s : State) : State :=
  mkState (graph_slam s) (heap s) (keyframes s) (new_keyframes s) (keyframe_hash s)
    (keyframe_queue s) (gps_queue s) (imu_queue s) (floor_coeffs_queue s)
    (clouds_seg_queue s) (zero_utm s) (anchor_node s) (anchor_edge s)
    (floor_plane_node s) (x_vert_planes s) (y_vert_planes s) (hort_planes s)
    (x_corridors s) v (rooms_vec s) (trans_odom2map s) (keyframes_snapshot s)
    (graph_updated s) (base_frame_id s) (events s).

Definition set_rooms_vec (v : list Rooms) (s : State) : State :=
  mkState (graph_slam s) (heap s) (keyframes s) (new_keyframes s) (keyframe_hash s)
    (keyframe_queue s) (gps_queue s) (imu_queue s) (floor_coeffs_queue s)
    (clouds_seg_queue s) (zero_utm s) (anchor_node s) (anchor_edge s)
    (floor_plane_node s) (x_vert_planes s) (y_vert_planes s) (hort_planes s)
    (x_corridors s) (y_corridors s) v (trans_odom2map s) (keyframes_snapshot s)
    (graph_updated s) (base_frame_id s) (events s).

Definition set_trans_odom2map (v : Matrix4d) (s : State) : State :=
  mkState (graph_slam s) (heap s) (keyframes s) (new_keyframes s) (keyframe_hash s)
    (keyframe_queue s) (gps_queue s) (imu_queue s) (floor_coeffs_queue s)
    (clouds_seg_queue s) (zero_utm s) (anchor_node s) (anchor_edge s)
    (floor_plane_node s) (x_vert_planes s) (y_vert_planes s) (hort_planes s)
    (x_corridors s) (y_corridors s) (rooms_vec s) v (keyframes_snapshot s)
    (graph_updated s) (base_frame_id s) (events s).

Definition set_keyframes_snapshot (v : list KeyFrameSnapshot) (s : State) : State :=
  mkState (graph_slam s) (heap s) (keyframes s) (new_keyframes s) (keyframe_hash s)
    (keyframe_queue s) (gps_queue s) (imu_queue s) (floor_coeffs_queue s)
    (clouds_seg_queue s) (zero_utm s) (anchor_node s) (anchor_edge s)
    (floor_plane_node s) (x_vert_planes s) (y_vert_planes s) (hort_planes s)
    (x_corridors s) (y_corridors s) (rooms_vec s) (trans_odom2map s) v (graph_updated s)
    (base_frame_id s) (events s).

Definition set_graph_updated (v : bool) (s : State) : State :=
  mkState (graph_slam s) (heap s) (keyframes s) (new_keyframes s) (keyframe_hash s)
    (keyframe_queue s) (gps_queue s) (imu_queue s) (floor_coeffs_queue s)
    (clouds_seg_queue s) (zero_utm s) (anchor_node s) (anchor_edge s)
    (floor_plane_node s) (x_vert_planes s) (y_vert_planes s) (hort_planes s)
    (x_corridors s) (y_corridors s) (rooms_vec s) (trans_odom2map s)
    (keyframes_snapshot s) v (base_frame_id s) (events s).

Definition set_base_frame_id (v : string) (s : State) : State :=
  mkState (graph_slam s) (heap s) (keyframes s) (new_keyframes s) (keyframe_hash s)
    (keyframe_queue s) (gps_queue s) (imu_queue s) (floor_coeffs_queue s)
    (clouds_seg_queue s) (zero_utm s) (anchor_node s) (anchor_edge s)
    (floor_plane_node s) (x_vert_planes s) (y_vert_planes s) (hort_planes s)
    (x_corridors s) (y_corridors s) (rooms_vec s) (trans_odom2map s)
    (keyframes_snapshot s) (graph_updated s) v (events s).

Definition set_events (v : list Event) (s : State) : State :=
  mkState (graph_slam s) (heap s) (keyframes s) (new_keyframes s) (keyframe_hash s)
    (keyframe_queue s) (gps_queue s) (imu_queue s) (floor_coeffs_queue s)
    (clouds_seg_queue s) (zero_utm s) (anchor_node s) (anchor_edge s)
    (floor_plane_node s) (x_vert_planes s) (y_vert_planes s) (hort_planes s)
    (x_corridors s) (y_corridors s) (rooms_vec s) (trans_odom2map s)
    (keyframes_snapshot s) (graph_updated s) (base_frame_id s) v.

(** The members as [onInit] leaves them. *)
Definition initial_state : State :=
  mkState GraphSLAM.empty [] [] [] [] [] [] [] [] [] None None None None
          [] [] [] [] [] [] Matrix4d_Identity [] false "" [].

(** [*keyframe], for a [KeyFrame::Ptr]. *)
Definition get_keyframe (s : State) (k : KeyFramePtr) : outcome KeyFrame :=
  match nth_error (heap s) k with
  | Some kf => Ok kf
  | None => Undefined DanglingRef
  end.

(** A write through a [KeyFrame::Ptr]. *)
Definition put_keyframe (k : KeyFramePtr) (kf : KeyFrame) (s : State) : State :=
  set_heap (set_index (heap s) k kf) s.

Definition emit (e : Event) (s : State) : State := set_events (events s ++ [e]) s.

(** *** Plane geometry *)

(** [width_between_planes]. *)
Definition width_between_planes (v1 v2 : Vector4d) : Q :=
  let size := 0 in
  if Qltb (Qabs (c3 v2)) (Qabs (c3 v1)) then Qabs (c3 v1 - c3 v2)
  else if Qltb (Qabs (c3 v1)) (Qabs (c3 v2)) then Qabs (c3 v2 - c3 v1)
  else size.

(** [coeffs(3) = -1 * coeffs(3)]. *)
Definition negate_d (coeffs : Vector4d) : Vector4d :=
  mkV4 (c0 coeffs) (c1 coeffs) (c2 coeffs) (-1 * c3 coeffs).

(** [correct_plane_d]: the two planes are passed by reference; the result is
    their value on return.  [plane1 = coeffs1] assigns coefficients that
    came out of the plane and changed in the sign of the offset only: the
    division by the norm of the normal that the assignment makes is a
    division by 1 in exact arithmetic, and is not written out. *)
Definition correct_plane_d (plane_type : Z) (plane1 plane2 : Plane3D) : Plane3D * Plane3D :=
  let coeffs1 := coeffs plane1 in
  let coeffs2 := coeffs plane2 in
  let '(coeffs1, plane1, coeffs2, plane2) :=
    if (plane_type =? X_VERT_PLANE)%Z then
      let '(coeffs1, plane1) :=
        if Qltb (c0 coeffs1) 0 then (negate_d coeffs1, negate_d coeffs1)
        else (coeffs1, plane1) in
      let '(coeffs2, plane2) :=
        if Qltb (c0 coeffs2) 0 then (negate_d coeffs2, negate_d coeffs2)
        else (coeffs2, plane2) in
      (coeffs1, plane1, coeffs2, plane2)
    else (coeffs1, plane1, coeffs2, plane2) in
  let '(coeffs1, plane1, coeffs2, plane2) :=
    if (plane_type =? Y_VERT_PLANE)%Z then
      let '(coeffs1, plane1) :=
        if Qltb (c1 coeffs1) 0 then (negate_d coeffs1, negate_d coeffs1)
        else (coeffs1, plane1) in
      let '(coeffs2, plane2) :=
        if Qltb (c1 coeffs2) 0 then (negate_d coeffs2, negate_d coeffs2)
        else (coeffs2, plane2) in
      (coeffs1, plane1, coeffs2, plane2)
    else (coeffs1, plane1, coeffs2, plane2) in
  (plane1, plane2).

Definition set_planes (p p_local : Plane3D) (c : plane_data_list) : plane_data_list :=
  mkPlaneDataList p_local p (plane_id c) (plane_length c) (keyframe_node c)
                  (keyframe_trans c) (is_structural_candidate c).

Section Candidates.

Variable params : Params.

(** The sign correction at the head of the inner loop body of
    [sort_corridors] and [sort_rooms]: it rewrites the planes of the
    candidates [i] and [j] in the (by-value) candidate vector. *)
Definition correct_candidates (plane_type : Z) (i j : nat) (candidates : list plane_data_list)
    : outcome (list plane_data_list * plane_data_list * plane_data_list) :=
  ci <- at_index candidates i ;;
  cj <- at_index candidates j ;;
  let '(pi, pj) := correct_plane_d plane_type (plane ci) (plane cj) in
  let '(li, lj) := correct_plane_d plane_type (plane_local ci) (plane_local cj) in
  let ci := set_planes pi li ci in
  let cj := set_planes pj lj cj in
  Ok (set_index (set_index candidates i ci) j cj, ci, cj).

(** The inner loop body of [sort_corridors]. *)
Definition corridor_step (plane_type : Z) (i j : nat)
    (st : list plane_data_list * list structure_data_list)
    : outcome (list plane_data_list * list structure_data_list) :=
  let '(corridor_candidates, corridor_pair_vec) := st in
  '(corridor_candidates, ci, cj) <- correct_candidates plane_type i j corridor_candidates ;;
  let corr_width := width_between_planes (coeffs (plane ci)) (coeffs (plane cj)) in
  let diff_plane_length := Qabs (plane_length ci - plane_length cj) in
  if Qltb (dot3 (head3 (coeffs (plane ci))) (head3 (coeffs (plane cj)))) 0
     && (Qltb corr_width (corridor_max_width params)
         && Qltb (corridor_min_width params) corr_width)
     && Qltb diff_plane_length (corridor_plane_length_diff_threshold params)
  then
    let corridor_pair := mkStructureDataList ci cj corr_width diff_plane_length in
    Ok (corridor_candidates, (corridor_pair_vec ++ [corridor_pair])%list)
  else Ok (corridor_candidates, corridor_pair_vec).

(** The inner loop body of [sort_rooms]. *)
Definition room_step (plane_type : Z) (i j : nat)
    (st : list plane_data_list * list structure_data_list)
    : outcome (list plane_data_list * list structure_data_list) :=
  let '(room_candidates, room_pair_vec) := st in
  '(room_candidates, ci, cj) <- correct_candidates plane_type i j room_candidates ;;
  let room_width := width_between_planes (coeffs (plane ci)) (coeffs (plane cj)) in
  let diff_plane_length := Qabs (plane_length ci - plane_length cj) in
  if Qltb (dot3 (head3 (coeffs (plane ci))) (head3 (coeffs (plane cj)))) 0
     && Qltb (room_min_width params) room_width
     && Qltb diff_plane_length (room_plane_length_diff_threshold params)
  then
    let room_pair := mkStructureDataList ci cj room_width diff_plane_length in
    Ok (room_candidates, (room_pair_vec ++ [room_pair])%list)
  else Ok (room_candidates, room_pair_vec).

(** [for(j = i + 1; j < size; ++j)], over the indices [js]. *)
Fixpoint inner_loop
    (step : nat -> nat -> list plane_data_list * list structure_data_list ->
            outcome (list plane_data_list * list structure_data_list))
    (i : nat) (js : list nat) (st : list plane_data_list * list structure_data_list)
    : outcome (list plane_data_list * list structure_data_list) :=
  match js with
  | [] => Ok st
  | j :: js' => st <- step i j st ;; inner_loop step i js' st
  end.

(** [for(i = 0; i < size; ++i)], over the indices [indices]. *)
Fixpoint outer_loop
    (step : nat -> nat -> list plane_data_list * list structure_data_list ->
            outcome (list plane_data_list * list structure_data_list))
    (size : nat) (indices : list nat) (st : list plane_data_list * list structure_data_list)
    : outcome (list plane_data_list * list structure_data_list) :=
  match indices with
  | [] => Ok st
  | i :: indices' =>
      st <- inner_loop step i (seq (S i) (size - S i)) st ;;
      outer_loop step size indices' st
  end.

(** [sort_corridors]. *)
Definition sort_corridors (plane_type : Z) (corridor_candidates : list plane_data_list)
    : outcome (list structure_data_list) :=
  let size := List.length corridor_candidates in
  '(_, corridor_pair_vec) <-
    outer_loop (corridor_step plane_type) size (seq 0 size) (corridor_candidates, []) ;;
  Ok corridor_pair_vec.

(** [sort_rooms]. *)
Definition sort_rooms (plane_type : Z) (room_candidates : list plane_data_list)
    : outcome (list structure_data_list) :=
  let size := List.length room_candidates in
  '(_, room_pair_vec) <-
    outer_loop (room_step plane_type) size (seq 0 size) (room_candidates, []) ;;
  Ok room_pair_vec.

(** The loop of [refine_corridors]. *)
Fixpoint refine_corridors_loop (corr_vec : list structure_data_list)
    (min_corr_length_diff : Q) (corr_refined : list plane_data_list)
    : Q * list plane_data_list :=
  match corr_vec with
  | [] => (min_corr_length_diff, corr_refined)
  | c :: rest =>
      if Qltb (length_diff c) min_corr_length_diff
      then refine_corridors_loop rest (length_diff c) [plane1 c; plane2 c]
      else refine_corridors_loop rest min_corr_length_diff corr_refined
  end.

(** [refine_corridors]. *)
Definition refine_corridors (corr_vec : list structure_data_list) : list plane_data_list :=
  let min_corr_length_diff := 100 in
  let corr_refined := [default_plane_data_list; default_plane_data_list] in
  let '(min_corr_length_diff, corr_refined) :=
    refine_corridors_loop corr_vec min_corr_length_diff corr_refined in
  if Qle_bool 100 min_corr_length_diff then [] else corr_refined.

(** The inner loop of [refine_rooms], for one X pair. *)
Fixpoint refine_rooms_inner (x : structure_data_list) (y_room_vec : list structure_data_list)
    (st : Q * list plane_data_list * list plane_data_list)
    : Q * list plane_data_list * list plane_data_list :=
  match y_room_vec with
  | [] => st
  | y :: rest =>
      let '(min_width_diff, x_room, y_room) := st in
      let width_diff := Qabs (width x - width y) in
      if Qltb width_diff min_width_diff
      then refine_rooms_inner x rest (width_diff, [plane1 x; plane2 x], [plane1 y; plane2 y])
      else refine_rooms_inner x rest st
  end.

(** The outer loop of [refine_rooms]. *)
Fixpoint refine_rooms_outer (x_room_vec y_room_vec : list structure_data_list)
    (st : Q * list plane_data_list * list plane_data_list)
    : Q * list plane_data_list * list plane_data_list :=
  match x_room_vec with
  | [] => st
  | x :: rest => refine_rooms_outer rest y_room_vec (refine_rooms_inner x y_room_vec st)
  end.

(** [refine_rooms]. *)
Definition refine_rooms (x_room_vec y_room_vec : list structure_data_list)
    : list plane_data_list * list plane_data_list :=
  let min_width_diff := 5 # 2 in
  let x_room := [default_plane_data_list; default_plane_data_list] in
  let y_room := [default_plane_data_list; default_plane_data_list] in
  let '(min_width_diff, x_room, y_room) :=
    refine_rooms_outer x_room_vec y_room_vec (min_width_diff, x_room, y_room) in
  if Qle_bool (5 # 2) min_width_diff then ([], [])
  else (x_room, y_room).

End Candidates.

(** *** Planes *)

Section Nodelet.

(** As in [PlaneMapper]: the Mahalanobis distance, taken as given. *)
Variable maha_dist : Isometry3d -> Plane3D -> Matrix3d -> Plane3D -> option Q.

(** [plane_length(cloud_seg)]: the xy-distance of the end points of PCL's
    [getMaxSegment], taken as given. *)
Variable cloud_plane_length : PointCloud -> Q.

(** [sqrt] on [float]. *)
Variable sqrt : Q -> Q.

Variable params : Params.

(** [plane_in_map_frame]. *)
Definition plane_in_map_frame (s : State) (keyframe : KeyFramePtr)
    (det_plane_body_frame : Plane3D) : outcome Plane3D :=
  kf <- get_keyframe s keyframe ;;
  PlaneMapper.convert_plane_to_map_frame (graph_slam s) kf det_plane_body_frame.

(** [associate_plane]: the three loops are those of [plane_mapper.cpp] for
    the vertical classes (the [dist] and [min_dist] of the nodelet are
    computed and never used); the threshold test is shared by the classes. *)
Definition associate_plane (s : State) (keyframe : KeyFramePtr) (det_plane : Plane3D)
    (plane_type : Z) : outcome (Z * nat) :=
  let data_association := (0%Z, O) in
  let min_maha_dist := 100 in
  kf <- get_keyframe s keyframe ;;
  est <- node_estimate (graph_slam s) (kf_node kf) ;;
  let m2n := inverse est in
  let '(min_maha_dist, data_association) :=
    if (plane_type =? X_VERT_PLANE)%Z
    then PlaneMapper.vert_loop maha_dist m2n det_plane (x_vert_planes s) O
                               min_maha_dist data_association
    else (min_maha_dist, data_association) in
  let '(min_maha_dist, data_association) :=
    if (plane_type =? Y_VERT_PLANE)%Z
    then PlaneMapper.vert_loop maha_dist m2n det_plane (y_vert_planes s) O
                               min_maha_dist data_association
    else (min_maha_dist, data_association) in
  let '(min_maha_dist, data_association) :=
    if (plane_type =? HORT_PLANE)%Z
    then PlaneMapper.vert_loop maha_dist m2n det_plane (hort_planes s) O
                               min_maha_dist data_association
    else (min_maha_dist, data_association) in
  if Qltb (plane_dist_threshold params) min_maha_dist
  then Ok ((-1)%Z, snd data_association)
  else Ok data_association.

Definition set_parallel_pair (v : bool) (lm : VerticalPlanes) : VerticalPlanes :=
  mkPlanes (vp_id lm) (vp_plane lm) (vp_cloud_seg_body lm) (vp_cloud_seg_body_vec lm)
           (vp_cloud_seg_map lm) (vp_keyframe_node_vec lm) (vp_keyframe_node lm)
           (vp_plane_node lm) (vp_covariance lm) (vp_color lm) v.

(** One loop of [parallel_plane_constraint]. *)
Fixpoint parallel_loop (plane_node : VertexRef) (id : Z) (planes : list VerticalPlanes)
    (gr : GraphSLAM.t) : GraphSLAM.t * list VerticalPlanes :=
  match planes with
  | [] => (gr, [])
  | lm :: rest =>
      if negb (id =? vp_id lm)%Z then
        let '(gr, edge) :=
          GraphSLAM.add_edge GraphSLAM.EdgePlaneParallel [vp_plane_node lm; plane_node]
                             [0; 0; 0] [[1 # 1000]] gr in
        let gr := GraphSLAM.add_robust_kernel edge "Huber" 1 gr in
        let '(gr, rest) := parallel_loop plane_node id rest gr in
        (gr, set_parallel_pair true lm :: rest)
      else
        let '(gr, rest) := parallel_loop plane_node id rest gr in
        (gr, lm :: rest)
  end.

(** [parallel_plane_constraint]. *)
Definition parallel_plane_constraint (plane_node : VertexRef) (id : Z) (plane_type : Z)
    (s : State) : State :=
  let s :=
    if (plane_type =? X_VERT_PLANE)%Z then
      let '(gr, planes) := parallel_loop plane_node id (x_vert_planes s) (graph_slam s) in
      set_x_vert_planes planes (set_graph_slam gr s)
    else s in
  let s :=
    if (plane_type =? Y_VERT_PLANE)%Z then
      let '(gr, planes) := parallel_loop plane_node id (y_vert_planes s) (graph_slam s) in
      set_y_vert_planes planes (set_graph_slam gr s)
    else s in
  if (plane_type =? HORT_PLANE)%Z then
    let '(gr, planes) := parallel_loop plane_node id (hort_planes s) (graph_slam s) in
    set_hort_planes planes (set_graph_slam gr s)
  else s.

(** One loop of [perpendicular_plane_constraint]. *)
Fixpoint perpendicular_loop (plane_node : VertexRef) (planes : list VerticalPlanes)
    (gr : GraphSLAM.t) : GraphSLAM.t :=
  match planes with
  | [] => gr
  | lm :: rest =>
      let '(gr, edge) :=
        GraphSLAM.add_edge GraphSLAM.EdgePlanePerpendicular [vp_plane_node lm; plane_node]
                           [0; 0; 0] [[1 # 1000]] gr in
      let gr := GraphSLAM.add_robust_kernel edge "Huber" 1 gr in
      perpendicular_loop plane_node rest gr
  end.

(** [perpendicular_plane_constraint]. *)
Definition perpendicular_plane_constraint (plane_node : VertexRef) (id : Z) (plane_type : Z)
    (s : State) : State :=
  let s :=
    if (plane_type =? X_VERT_PLANE)%Z
    then set_graph_slam (perpendicular_loop plane_node (y_vert_planes s) (graph_slam s)) s
    else s in
  let s :=
    if (plane_type =? Y_VERT_PLANE)%Z
    then set_graph_slam (perpendicular_loop plane_node (x_vert_planes s) (graph_slam s)) s
    else s in
  if (plane_type =? HORT_PLANE)%Z then
    let gr := perpendicular_loop plane_node (x_vert_planes s) (graph_slam s) in
    let gr := perpendicular_loop plane_node (y_vert_planes s) gr in
    set_graph_slam gr s
  else s.

(** One branch of the [if] chain of [factor_planes], over the collection of
    the class.  Result: graph, collection, [plane_node], [data_association],
    [new_plane_node_added]. *)
Definition factor_branch (gr : GraphSLAM.t) (kf : KeyFrame) (det_plane_map_frame : Plane3D)
    (planes : list VerticalPlanes) (data_association : Z * nat)
    : outcome (GraphSLAM.t * list VerticalPlanes * VertexRef * (Z * nat) * bool) :=
  if match planes with [] => true | _ => false end || (fst data_association =? -1)%Z then
    let data_association := (GraphSLAM.num_vertices gr, snd data_association) in
    let '(gr, plane_node) := GraphSLAM.add_plane_node (coeffs det_plane_map_frame) gr in
    let vert_plane :=
      mkPlanes (fst data_association) (coeffs det_plane_map_frame) (kf_cloud_seg_body kf)
               [] None [] (kf_node kf) plane_node Matrix3d_Identity [] false in
    Ok (gr, (planes ++ [vert_plane])%list, plane_node, data_association, true)
  else
    lm <- at_index planes (snd data_association) ;;
    Ok (gr, planes, vp_plane_node lm, data_association, false).

(** [factor_planes]; [plane_node] has no initialiser. *)
Definition factor_planes (keyframe : KeyFramePtr)
    (det_plane_map_frame det_plane_body_frame : Plane3D) (plane_type : Z) (s : State)
    : outcome (State * Z) :=
  let plane_node : option VertexRef := None in
  let Gij := Matrix4d_Zero in
  '(s, Gij) <-
    (if use_point_to_plane params then
       kf <- get_keyframe s keyframe ;;
       body <- deref (kf_cloud_seg_body kf) ;;
       '(kept, Gij) <- PlaneMapper.point_to_plane_loop (graph_slam s) (kf_node kf)
                                                       det_plane_map_frame body Gij ;;
       Ok (put_keyframe keyframe (set_cloud_seg_body (Some kept) kf) s, Gij)
     else Ok (s, Gij)) ;;
  let new_plane_node_added := false in
  data_association <- associate_plane s keyframe (coeffs det_plane_body_frame) plane_type ;;
  kf <- get_keyframe s keyframe ;;
  '(s, plane_node, data_association, new_plane_node_added) <-
    (if (plane_type =? X_VERT_PLANE)%Z then
       '(gr, planes, pn, da, added) <-
         factor_branch (graph_slam s) kf det_plane_map_frame (x_vert_planes s)
                       data_association ;;
       Ok (set_x_vert_planes planes (set_graph_slam gr s), Some pn, da, added)
     else if (plane_type =? Y_VERT_PLANE)%Z then
       '(gr, planes, pn, da, added) <-
         factor_branch (graph_slam s) kf det_plane_map_frame (y_vert_planes s)
                       data_association ;;
       Ok (set_y_vert_planes planes (set_graph_slam gr s), Some pn, da, added)
     else if (plane_type =? HORT_PLANE)%Z then
       '(gr, planes, pn, da, added) <-
         factor_branch (graph_slam s) kf det_plane_map_frame (hort_planes s)
                       data_association ;;
       Ok (set_hort_planes planes (set_graph_slam gr s), Some pn, da, added)
     else Ok (s, plane_node, data_association, new_plane_node_added)) ;;
  plane_node <- match plane_node with
                | Some pn => Ok pn
                | None => Undefined UninitRead
                end ;;
  node <- deref (kf_node kf) ;;
  let gr :=
    if use_point_to_plane params then
      let '(gr, edge) :=
        GraphSLAM.add_edge GraphSLAM.EdgeSE3PointToPlane [node; plane_node] (m4_list Gij)
                           [[1 # 1000]] (graph_slam s) in
      GraphSLAM.add_robust_kernel edge "Huber" 1 gr
    else
      let '(gr, edge) :=
        GraphSLAM.add_edge GraphSLAM.EdgeSE3Plane [node; plane_node]
                           (v4_list (coeffs det_plane_body_frame))
                           (scaled_identity 3 (1 # 10)) (graph_slam s) in
      GraphSLAM.add_robust_kernel edge "Huber" 1 gr in
  let s := set_graph_slam gr s in
  let s :=
    if use_parallel_plane_constraint params && new_plane_node_added
    then parallel_plane_constraint plane_node (fst data_association) plane_type s
    else s in
  let s :=
    if use_perpendicular_plane_constraint params && new_plane_node_added
    then perpendicular_plane_constraint plane_node (fst data_association) plane_type s
    else s in
  Ok (s, fst data_association).

(** *** Corridors *)

(** [pre_corridor_pose]. *)
Definition pre_corridor_pose (plane_type : Z) (v1 v2 : Vector4d) : Vector3d :=
  let corridor_pose := mkV3 0 0 0 in
  let corridor_pose :=
    if (plane_type =? X_VERT_PLANE)%Z then
      if Qltb (Qabs (c3 v2)) (Qabs (c3 v1)) then
        let size := c3 v1 - c3 v2 in
        mkV3 (size / 2 + c3 v2) (v3_1 corridor_pose) (v3_2 corridor_pose)
      else
        let size := c3 v2 - c3 v1 in
        mkV3 (size / 2 + c3 v1) (v3_1 corridor_pose) (v3_2 corridor_pose)
    else corridor_pose in
  if (plane_type =? Y_VERT_PLANE)%Z then
    if Qltb (Qabs (c3 v2)) (Qabs (c3 v1)) then
      let size := c3 v1 - c3 v2 in
      mkV3 (v3_0 corridor_pose) (size / 2 + c3 v2) (v3_2 corridor_pose)
    else
      let size := c3 v2 - c3 v1 in
      mkV3 (v3_0 corridor_pose) (size / 2 + c3 v1) (v3_2 corridor_pose)
  else corridor_pose.

(** [final_corridor_pose]; the local [corridor_pose] has no initialiser and
    is assigned for the two vertical classes only. *)
Definition final_corridor_pose (gr : GraphSLAM.t) (plane_type : Z) (pre_corr_pose : Vector3d)
    (keyframe_node : option VertexRef) : outcome Vector3d :=
  if (plane_type =? X_VERT_PLANE)%Z then
    est <- node_estimate gr keyframe_node ;;
    Ok (mkV3 (v3_0 pre_corr_pose) (v3_1 (translation est)) (v3_2 (translation est)))
  else if (plane_type =? Y_VERT_PLANE)%Z then
    est <- node_estimate gr keyframe_node ;;
    Ok (mkV3 (v3_0 (translation est)) (v3_1 pre_corr_pose) (v3_2 (translation est)))
  else Undefined UninitRead.

(** The identity transform with translation [t]. *)
Definition translation_matrix (t : Vector3d) : Isometry3d :=
  mkM4 (mkV4 1 0 0 (v3_0 t)) (mkV4 0 1 0 (v3_1 t)) (mkV4 0 0 1 (v3_2 t)) (mkV4 0 0 0 1).

(** [corridor_pose_local]. *)
Definition corridor_pose_local (gr : GraphSLAM.t) (keyframe_node : option VertexRef)
    (corr_pose : Vector3d) : outcome Vector3d :=
  est <- node_estimate gr keyframe_node ;;
  let corridor_pose_map := translation_matrix corr_pose in
  let corridor_pose_local := m4_mul corridor_pose_map (inverse est) in
  Ok (translation corridor_pose_local).

(** [corridor_measurement]. *)
Definition corridor_measurement (plane_type : Z) (corr : Vector3d) (plane : Vector4d)
    : Vector3d :=
  let meas := mkV3 0 0 0 in
  let meas :=
    if (plane_type =? X_VERT_PLANE)%Z then
      if Qltb (Qabs (c3 plane)) (Qabs (v3_0 corr))
      then mkV3 (v3_0 corr - c3 plane) (v3_1 meas) (v3_2 meas)
      else mkV3 (c3 plane - v3_0 corr) (v3_1 meas) (v3_2 meas)
    else meas in
  if (plane_type =? Y_VERT_PLANE)%Z then
    if Qltb (Qabs (c3 plane)) (Qabs (v3_1 corr))
    then mkV3 (v3_1 corr - c3 plane) (v3_1 meas) (v3_2 meas)
    else mkV3 (c3 plane - v3_1 corr) (v3_1 meas) (v3_2 meas)
  else meas.

(** One loop of [associate_corridors], along the axis [axis]. *)
Fixpoint associate_corridors_loop (gr : GraphSLAM.t) (axis : Vector3d -> Q)
    (corr_pose : Vector3d) (corridors : list Corridors) (i : nat)
    (min_dist : Q) (data_association : Z * nat) : outcome (Q * (Z * nat)) :=
  match corridors with
  | [] => Ok (min_dist, data_association)
  | c :: rest =>
      est <- GraphSLAM.estimate_corridor gr (co_node c) ;;
      let dist := Qabs (axis corr_pose - axis est) in
      if Qltb dist min_dist
      then associate_corridors_loop gr axis corr_pose rest (S i) dist (co_id c, i)
      else associate_corridors_loop gr axis corr_pose rest (S i) min_dist data_association
  end.

(** [associate_corridors]. *)
Definition associate_corridors (s : State) (plane_type : Z) (corr_pose : Vector3d)
    : outcome (Z * nat) :=
  let min_dist := 100 in
  let data_association := ((-1)%Z, O) in
  '(min_dist, data_association) <-
    (if (plane_type =? X_VERT_PLANE)%Z
     then associate_corridors_loop (graph_slam s) v3_0 corr_pose (x_corridors s) O
                                   min_dist data_association
     else Ok (min_dist, data_association)) ;;
  '(min_dist, data_association) <-
    (if (plane_type =? Y_VERT_PLANE)%Z
     then associate_corridors_loop (graph_slam s) v3_1 corr_pose (y_corridors s) O
                                   min_dist data_association
     else Ok (min_dist, data_association)) ;;
  if Qltb (corridor_dist_threshold params) min_dist
  then Ok ((-1)%Z, snd data_association)
  else Ok data_association.

(** [*std::find_if(planes.begin(), planes.end(), id == plane_id)]. *)
Definition found_plane (planes : list VerticalPlanes) (plane_id : Z) : outcome VerticalPlanes :=
  match find (fun lm => (vp_id lm =? plane_id)%Z) planes with
  | Some lm => Ok lm
  | None => Undefined OutOfRange
  end.

(** One of the two blocks of [factor_corridors]: the corridors and the
    vertical planes of the class, and the type of the corridor-to-plane
    edge.  Result: graph and corridors. *)
Definition factor_corridors_block (s : State) (plane_type : Z)
    (corridors : list Corridors) (vert_planes : list VerticalPlanes)
    (corridor_plane_edge : GraphSLAM.EdgeType)
    (corr_plane1_pair corr_plane2_pair : plane_data_list) (pre_corr_pose : Vector3d)
    : outcome (GraphSLAM.t * list Corridors) :=
  let information_se3_corridor := scaled_identity 3 (1 # 100) in
  let information_corridor_plane := [[1 # 100]] in
  corr_data_association <- associate_corridors s plane_type pre_corr_pose ;;
  let gr := graph_slam s in
  '(gr, corridors, corr_node) <-
    (if match corridors with [] => true | _ => false end
        || (fst corr_data_association =? -1)%Z then
       corr_pose <- final_corridor_pose gr plane_type pre_corr_pose
                                        (keyframe_node corr_plane1_pair) ;;
       let corr_data_association :=
         (GraphSLAM.num_vertices gr, snd corr_data_association) in
       let '(gr, corr_node) := GraphSLAM.add_corridor_node corr_pose gr in
       est <- node_estimate gr (keyframe_node corr_plane1_pair) ;;
       let det_corridor :=
         mkCorridors (fst corr_data_association)
                     (plane corr_plane1_pair) (plane corr_plane2_pair)
                     (plane_id corr_plane1_pair) (plane_id corr_plane2_pair)
                     (translation est) corr_node in
       Ok (gr, (corridors ++ [det_corridor])%list, corr_node)
     else
       c <- at_index corridors (snd corr_data_association) ;;
       Ok (gr, corridors, co_node c)) ;;
  corr_est <- GraphSLAM.estimate_corridor gr corr_node ;;
  let meas_plane1 := corridor_measurement plane_type corr_est (coeffs (plane corr_plane1_pair)) in
  let meas_plane2 := corridor_measurement plane_type corr_est (coeffs (plane corr_plane2_pair)) in
  corr_pose_local <- corridor_pose_local gr (keyframe_node corr_plane1_pair) corr_est ;;
  kf_node <- deref (keyframe_node corr_plane1_pair) ;;
  let '(gr, edge_se3_corridor) :=
    GraphSLAM.add_edge GraphSLAM.EdgeSE3Corridor [kf_node; corr_node]
                       (v3_list corr_pose_local) information_se3_corridor gr in
  let gr := GraphSLAM.add_robust_kernel edge_se3_corridor "Huber" 1 gr in
  found_plane1 <- found_plane vert_planes (plane_id corr_plane1_pair) ;;
  let '(gr, edge_plane1) :=
    GraphSLAM.add_edge corridor_plane_edge [corr_node; vp_plane_node found_plane1]
                       (v3_list meas_plane1) information_corridor_plane gr in
  let gr := GraphSLAM.add_robust_kernel edge_plane1 "Huber" 1 gr in
  found_plane2 <- found_plane vert_planes (plane_id corr_plane2_pair) ;;
  let '(gr, edge_plane2) :=
    GraphSLAM.add_edge corridor_plane_edge [corr_node; vp_plane_node found_plane2]
                       (v3_list meas_plane2) information_corridor_plane gr in
  let gr := GraphSLAM.add_robust_kernel edge_plane2 "Huber" 1 gr in
  Ok (gr, corridors).

(** [factor_corridors]. *)
Definition factor_corridors (plane_type : Z) (corr_plane1_pair corr_plane2_pair : plane_data_list)
    (s : State) : outcome State :=
  let pre_corr_pose :=
    pre_corridor_pose plane_type (coeffs (plane corr_plane1_pair))
                      (coeffs (plane corr_plane2_pair)) in
  s <- (if (plane_type =? X_VERT_PLANE)%Z then
          '(gr, corridors) <-
            factor_corridors_block s plane_type (x_corridors s) (x_vert_planes s)
                                   GraphSLAM.EdgeCorridorXPlane
                                   corr_plane1_pair corr_plane2_pair pre_corr_pose ;;
          Ok (set_x_corridors corridors (set_graph_slam gr s))
        else Ok s) ;;
  if (plane_type =? Y_VERT_PLANE)%Z then
    '(gr, corridors) <-
      factor_corridors_block s plane_type (y_corridors s) (y_vert_planes s)
                             GraphSLAM.EdgeCorridorYPlane
                             corr_plane1_pair corr_plane2_pair pre_corr_pose ;;
    Ok (set_y_corridors corridors (set_graph_slam gr s))
  else Ok s.

(** *** Rooms *)

(** One coordinate of [compute_room_pose]. *)
Definition room_coordinate (plane1 plane2 : Vector4d) : Q :=
  if Qltb (Qabs (c3 plane2)) (Qabs (c3 plane1)) then
    let size := c3 plane1 - c3 plane2 in
    -1 * (size / 2 + c3 plane2)
  else
    let size := c3 plane2 - c3 plane1 in
    -1 * (size / 2 + c3 plane1).

(** [compute_room_pose]. *)
Definition compute_room_pose (x_room_pair_vec y_room_pair_vec : list plane_data_list)
    : outcome Vector2d :=
  x0 <- at_index x_room_pair_vec 0 ;;
  x1 <- at_index x_room_pair_vec 1 ;;
  y0 <- at_index y_room_pair_vec 0 ;;
  y1 <- at_index y_room_pair_vec 1 ;;
  Ok (mkV2 (room_coordinate (coeffs (plane x0)) (coeffs (plane x1)))
           (room_coordinate (coeffs (plane y0)) (coeffs (plane y1)))).

(** [compute_room_pose_local]. *)
Definition compute_room_pose_local (gr : GraphSLAM.t) (keyframe_node : option VertexRef)
    (room_pose : Vector2d) : outcome Vector2d :=
  est <- node_estimate gr keyframe_node ;;
  let room_pose_map := translation_matrix (mkV3 (v2_0 room_pose) (v2_1 room_pose) 0) in
  let room_pose_local := m4_mul room_pose_map (inverse est) in
  Ok (mkV2 (v3_0 (translation room_pose_local)) (v3_1 (translation room_pose_local))).

(** [room_measurement]; [meas] has no initialiser and is assigned for the
    two vertical classes only. *)
Definition room_measurement (plane_type : Z) (room : Vector2d) (plane : Vector4d)
    : outcome Q :=
  let meas : option Q := None in
  let meas :=
    if (plane_type =? Y_VERT_PLANE)%Z then
      if Qltb (Qabs (c3 plane)) (Qabs (v2_1 room))
      then Some (v2_1 room - c3 plane)
      else Some (c3 plane - v2_1 room)
    else meas in
  let meas :=
    if (plane_type =? X_VERT_PLANE)%Z then
      if Qltb (Qabs (c3 plane)) (Qabs (v2_0 room))
      then Some (v2_0 room - c3 plane)
      else Some (c3 plane - v2_0 room)
    else meas in
  match meas with
  | Some m => Ok m
  | None => Undefined UninitRead
  end.

(** The loop of [associate_rooms]. *)
Fixpoint associate_rooms_loop (gr : GraphSLAM.t) (room_pose : Vector2d) (rooms : list Rooms)
    (i : nat) (min_dist : Q) (data_association : Z * nat) : outcome (Q * (Z * nat)) :=
  match rooms with
  | [] => Ok (min_dist, data_association)
  | rm :: rest =>
      est <- GraphSLAM.estimate_room gr (ro_node rm) ;;
      let diff_x := v2_0 room_pose - v2_0 est in
      let diff_y := v2_1 room_pose - v2_1 est in
      let dist := sqrt (diff_x * diff_x + diff_y * diff_y) in
      if Qltb dist min_dist
      then associate_rooms_loop gr room_pose rest (S i) dist (ro_id rm, i)
      else associate_rooms_loop gr room_pose rest (S i) min_dist data_association
  end.

(** [associate_rooms]. *)
Definition associate_rooms (s : State) (room_pose : Vector2d) : outcome (Z * nat) :=
  let min_dist := 100 in
  let data_association := ((-1)%Z, O) in
  '(min_dist, data_association) <-
    associate_rooms_loop (graph_slam s) room_pose (rooms_vec s) O min_dist data_association ;;
  if Qltb (room_dist_threshold params) min_dist
  then Ok ((-1)%Z, snd data_association)
  else Ok data_association.

(** [factor_rooms]. *)
Definition factor_rooms (x_room_pair_vec y_room_pair_vec : list plane_data_list) (s : State)
    : outcome State :=
  let information_se3_room := scaled_identity 2 (1 # 100) in
  let information_room_plane := [[1 # 100]] in
  room_pose <- compute_room_pose x_room_pair_vec y_room_pair_vec ;;
  x0 <- at_index x_room_pair_vec 0 ;;
  room_pose_local <- compute_room_pose_local (graph_slam s) (keyframe_node x0) room_pose ;;
  room_data_association <- associate_rooms s room_pose ;;
  x1 <- at_index x_room_pair_vec 1 ;;
  y0 <- at_index y_room_pair_vec 0 ;;
  y1 <- at_index y_room_pair_vec 1 ;;
  let gr := graph_slam s in
  '(gr, rooms, room_node) <-
    (if match rooms_vec s with [] => true | _ => false end
        || (fst room_data_association =? -1)%Z then
       let room_data_association := (GraphSLAM.num_vertices gr, snd room_data_association) in
       let '(gr, room_node) := GraphSLAM.add_room_node room_pose gr in
       let det_room :=
         mkRooms (fst room_data_association)
                 (plane x0) (plane x1) (plane y0) (plane y1)
                 (plane_id x0) (plane_id x1) (plane_id y0) (plane_id y1) room_node in
       Ok (gr, (rooms_vec s ++ [det_room])%list, room_node)
     else
       rm <- at_index (rooms_vec s) (snd room_data_association) ;;
       Ok (gr, rooms_vec s, ro_node rm)) ;;
  x_plane1_meas <- room_measurement X_VERT_PLANE room_pose (coeffs (plane x0)) ;;
  x_plane2_meas <- room_measurement X_VERT_PLANE room_pose (coeffs (plane x1)) ;;
  y_plane1_meas <- room_measurement Y_VERT_PLANE room_pose (coeffs (plane y0)) ;;
  y_plane2_meas <- room_measurement Y_VERT_PLANE room_pose (coeffs (plane y1)) ;;
  kf_node <- deref (keyframe_node x0) ;;
  let '(gr, edge_se3_room) :=
    GraphSLAM.add_edge GraphSLAM.EdgeSE3Room [kf_node; room_node]
                       (v2_list room_pose_local) information_se3_room gr in
  let gr := GraphSLAM.add_robust_kernel edge_se3_room "Huber" 1 gr in
  found_x_plane1 <- found_plane (x_vert_planes s) (plane_id x0) ;;
  let '(gr, edge_x_plane1) :=
    GraphSLAM.add_edge GraphSLAM.EdgeRoomXPlane [room_node; vp_plane_node found_x_plane1]
                       [x_plane1_meas] information_room_plane gr in
  let gr := GraphSLAM.add_robust_kernel edge_x_plane1 "Huber" 1 gr in
  found_x_plane2 <- found_plane (x_vert_planes s) (plane_id x1) ;;
  let '(gr, edge_x_plane2) :=
    GraphSLAM.add_edge GraphSLAM.EdgeRoomXPlane [room_node; vp_plane_node found_x_plane2]
                       [x_plane2_meas] information_room_plane gr in
  let gr := GraphSLAM.add_robust_kernel edge_x_plane2 "Huber" 1 gr in
  found_y_plane1 <- found_plane (y_vert_planes s) (plane_id y0) ;;
  let '(gr, edge_y_plane1) :=
    GraphSLAM.add_edge GraphSLAM.EdgeRoomYPlane [room_node; vp_plane_node found_y_plane1]
                       [y_plane1_meas] information_room_plane gr in
  let gr := GraphSLAM.add_robust_kernel edge_y_plane1 "Huber" 1 gr in
  found_y_plane2 <- found_plane (y_vert_planes s) (plane_id y1) ;;
  let '(gr, edge_y_plane2) :=
    GraphSLAM.add_edge GraphSLAM.EdgeRoomYPlane [room_node; vp_plane_node found_y_plane2]
                       [y_plane2_meas] information_room_plane gr in
  let gr := GraphSLAM.add_robust_kernel edge_y_plane2 "Huber" 1 gr in
  Ok (set_rooms_vec rooms (set_graph_slam gr s)).

(** *** The segmented-cloud queue *)

(** [std::upper_bound(first, last, value, comp)] on the stamps of a queue,
    by halving, as the standard library does it: the loop runs while
    [len > 0]; [fuel] bounds the number of rounds. *)
Fixpoint upper_bound_loop (fuel : nat) (stamps : list Z) (value : Z) (first len : nat) : nat :=
  match fuel with
  | O => first
  | S fuel' =>
      if Nat.eqb len 0 then first
      else
        let half := Nat.div2 len in
        let middle := (first + half)%nat in
        if (value <? nth middle stamps 0%Z)%Z
        then upper_bound_loop fuel' stamps value first half
        else upper_bound_loop fuel' stamps value (S middle) (len - half - 1)
  end.

Definition upper_bound (stamps : list Z) (value : Z) : nat :=
  upper_bound_loop (List.length stamps) stamps value 0 (List.length stamps).

(** [queue.erase(queue.begin(), std::upper_bound(..., stamp, ...))]. *)
Definition erase_until {A : Type} (stamp_of : A -> Z) (queue : list A) (stamp : Z) : list A :=
  skipn (upper_bound (map stamp_of queue) stamp) queue.

(** [keyframe_hash.find(stamp)]. *)
Definition hash_find (keyframe_hash : list (Z * KeyFramePtr)) (stamp : Z) : option KeyFramePtr :=
  match find (fun kv => (fst kv =? stamp)%Z) keyframe_hash with
  | Some kv => Some (snd kv)
  | None => None
  end.

(** [keyframe_hash[stamp] = keyframe]. *)
Fixpoint hash_insert (keyframe_hash : list (Z * KeyFramePtr)) (stamp : Z)
    (keyframe : KeyFramePtr) : list (Z * KeyFramePtr) :=
  match keyframe_hash with
  | [] => [(stamp, keyframe)]
  | kv :: rest =>
      if (fst kv =? stamp)%Z then (stamp, keyframe) :: rest
      else kv :: hash_insert rest stamp keyframe
  end.

(** The candidate lists of one message and the [updated] flag. *)
Record SegAcc : Type := mkSegAcc {
  x_det_corridor_candidates : list plane_data_list;
  y_det_corridor_candidates : list plane_data_list;
  x_det_room_candidates : list plane_data_list;
  y_det_room_candidates : list plane_data_list;
  seg_updated : bool
}.

(** The block of a vertical class in the inner loop of
    [flush_clouds_seg_queue]: factor the plane and build the candidate. *)
Definition vertical_candidate (keyframe : KeyFramePtr)
    (det_plane_map_frame det_plane_body_frame : Plane3D) (plane_type : Z) (s : State)
    : outcome (State * plane_data_list) :=
  '(s, plane_id) <- factor_planes keyframe det_plane_map_frame det_plane_body_frame
                                  plane_type s ;;
  kf <- get_keyframe s keyframe ;;
  body <- deref (kf_cloud_seg_body kf) ;;
  let length := cloud_plane_length body in
  est <- node_estimate (graph_slam s) (kf_node kf) ;;
  Ok (s, mkPlaneDataList det_plane_body_frame det_plane_map_frame plane_id length
                         (kf_node kf) (translation est) false).

Definition push_if {A : Type} (c : bool) (a : A) (v : list A) : list A :=
  if c then (v ++ [a])%list else v.

(** The inner loop of [flush_clouds_seg_queue], over the clouds of one
    message. *)
Fixpoint seg_clouds_loop (latest_keyframe_stamp : Z) (clouds : list PointCloud2)
    (acc : SegAcc) (s : State) : outcome (State * SegAcc) :=
  match clouds with
  | [] => Ok (s, acc)
  | cloud_seg_msg :: rest =>
      if (latest_keyframe_stamp <? pc_stamp cloud_seg_msg)%Z then Ok (s, acc)
      else
        match hash_find (keyframe_hash s) (pc_stamp cloud_seg_msg) with
        | None => seg_clouds_loop latest_keyframe_stamp rest acc s
        | Some keyframe =>
            let cloud_seg_body := pc_points cloud_seg_msg in
            if (List.length cloud_seg_body <? 100)%nat
            then seg_clouds_loop latest_keyframe_stamp rest acc s
            else
              kf <- get_keyframe s keyframe ;;
              let s := put_keyframe keyframe (set_cloud_seg_body (Some cloud_seg_body) kf) s in
              last <- back cloud_seg_body ;;
              let det_plane_body_frame :=
                mkV4 (normal_x last) (normal_y last) (normal_z last) (curvature last) in
              det_plane_map_frame <- plane_in_map_frame s keyframe det_plane_body_frame ;;
              if Qltb (98 # 100) (Qabs (c0 (coeffs det_plane_map_frame))) then
                '(s, x_plane_id_pair) <-
                  vertical_candidate keyframe det_plane_map_frame det_plane_body_frame
                                     X_VERT_PLANE s ;;
                let length := plane_length x_plane_id_pair in
                let acc :=
                  mkSegAcc
                    (push_if (Qle_bool (corridor_min_plane_length params) length)
                             x_plane_id_pair (x_det_corridor_candidates acc))
                    (y_det_corridor_candidates acc)
                    (push_if (Qle_bool (room_min_plane_length params) length
                              && Qle_bool length (room_max_plane_length params))
                             x_plane_id_pair (x_det_room_candidates acc))
                    (y_det_room_candidates acc)
                    true in
                seg_clouds_loop latest_keyframe_stamp rest acc s
              else if Qltb (98 # 100) (Qabs (c1 (coeffs det_plane_map_frame))) then
                '(s, y_plane_id_pair) <-
                  vertical_candidate keyframe det_plane_map_frame det_plane_body_frame
                                     Y_VERT_PLANE s ;;
                let length := plane_length y_plane_id_pair in
                let acc :=
                  mkSegAcc
                    (x_det_corridor_candidates acc)
                    (push_if (Qle_bool (corridor_min_plane_length params) length)
                             y_plane_id_pair (y_det_corridor_candidates acc))
                    (x_det_room_candidates acc)
                    (push_if (Qle_bool (room_min_plane_length params) length
                              && Qle_bool length (room_max_plane_length params))
                             y_plane_id_pair (y_det_room_candidates acc))
                    true in
                seg_clouds_loop latest_keyframe_stamp rest acc s
              else if Qltb (98 # 100) (Qabs (c2 (coeffs det_plane_map_frame))) then
                '(s, plane_id) <-
                  factor_planes keyframe det_plane_map_frame det_plane_body_frame
                                HORT_PLANE s ;;
                let acc :=
                  mkSegAcc (x_det_corridor_candidates acc) (y_det_corridor_candidates acc)
                           (x_det_room_candidates acc) (y_det_room_candidates acc) true in
                seg_clouds_loop latest_keyframe_stamp rest acc s
              else seg_clouds_loop latest_keyframe_stamp rest acc s
        end
  end.

(** [if(refined.size() == 2) factor_corridors(type, refined[0], refined[1])]. *)
Definition factor_refined_corridors (plane_type : Z) (refined : list plane_data_list)
    (s : State) : outcome State :=
  match refined with
  | [c1; c2] => factor_corridors plane_type c1 c2 s
  | _ => Ok s
  end.

(** The tail of the outer loop body of [flush_clouds_seg_queue]: corridors
    and rooms from the candidates of the message. *)
Definition seg_structures (acc : SegAcc) (s : State) : outcome State :=
  s <- (if use_corridor_constraint params then
          x_corridor <- sort_corridors params X_VERT_PLANE (x_det_corridor_candidates acc) ;;
          y_corridor <- sort_corridors params Y_VERT_PLANE (y_det_corridor_candidates acc) ;;
          s <- factor_refined_corridors X_VERT_PLANE (refine_corridors x_corridor) s ;;
          factor_refined_corridors Y_VERT_PLANE (refine_corridors y_corridor) s
        else Ok s) ;;
  if use_room_constraint params then
    x_room_pair_vec <- sort_rooms params X_VERT_PLANE (x_det_room_candidates acc) ;;
    y_room_pair_vec <- sort_rooms params Y_VERT_PLANE (y_det_room_candidates acc) ;;
    let refined_room_pair := refine_rooms x_room_pair_vec y_room_pair_vec in
    if (List.length (fst refined_room_pair) =? 2)%nat
       && (List.length (snd refined_room_pair) =? 2)%nat
    then factor_rooms (fst refined_room_pair) (snd refined_room_pair) s
    else Ok s
  else Ok s.

(** The outer loop of [flush_clouds_seg_queue]. *)
Fixpoint seg_queue_loop (latest_keyframe_stamp : Z) (queue : list PointClouds)
    (updated : bool) (s : State) : outcome (State * bool) :=
  match queue with
  | [] => Ok (s, updated)
  | clouds_seg_msg :: rest =>
      '(s, acc) <- seg_clouds_loop latest_keyframe_stamp (pointclouds clouds_seg_msg)
                                   (mkSegAcc [] [] [] [] updated) s ;;
      s <- seg_structures acc s ;;
      seg_queue_loop latest_keyframe_stamp rest (seg_updated acc) s
  end.

(** [keyframes.back()->stamp]. *)
Definition latest_stamp (s : State) : outcome Z :=
  keyframe <- back (keyframes s) ;;
  kf <- get_keyframe s keyframe ;;
  Ok (kf_stamp kf).

(** [flush_clouds_seg_queue]. *)
Definition flush_clouds_seg_queue (s : State) : outcome (State * bool) :=
  match keyframes s, clouds_seg_queue s with
  | [], _ => Ok (s, false)
  | _, [] => Ok (s, false)
  | _, _ =>
      latest_keyframe_stamp <- latest_stamp s ;;
      '(s, updated) <- seg_queue_loop latest_keyframe_stamp (clouds_seg_queue s) false s ;;
      let s :=
        set_clouds_seg_queue
          (erase_until pcs_stamp (clouds_seg_queue s) latest_keyframe_stamp) s in
      Ok (s, updated)
  end.

(** *** The keyframe queue *)

(** [inf_calclator->calc_information_matrix(cloud1, cloud2, relpose)], taken
    as given. *)
Variable calc_information_matrix : PointCloud -> PointCloud -> Isometry3d -> MatrixXd.

Definition set_node (n : option VertexRef) (k : KeyFrame) : KeyFrame :=
  mkKeyFrame (kf_stamp k) (kf_odom k) (kf_cloud k) n (kf_cloud_seg_body k)
             (kf_x_plane_ids k) (kf_y_plane_ids k) (kf_hort_plane_ids k)
             (kf_floor_coeffs k) (kf_utm_coord k) (kf_acceleration k) (kf_orientation k).

(** The information matrix of the anchor edge: the 6x6 identity with
    [1.0 / stddev] on the diagonal, for the six values read from
    [fix_first_node_stddev]. *)
Definition anchor_information : MatrixXd :=
  map (fun i => map (fun j => if Nat.eqb i j
                              then 1 / nth i (fix_first_node_stddev params) 1
                              else 0) (seq 0 6)) (seq 0 6).

(** The loop of [flush_keyframe_queue], over the indices [i]. *)
Fixpoint keyframe_queue_loop (odom2map : Isometry3d) (indices : list nat)
    (num_processed : nat) (s : State) : outcome (State * nat) :=
  match indices with
  | [] => Ok (s, num_processed)
  | i :: rest =>
      let num_processed := i in
      keyframe <- at_index (keyframe_queue s) i ;;
      let s := set_new_keyframes (new_keyframes s ++ [keyframe])%list s in
      kf <- get_keyframe s keyframe ;;
      let odom := m4_mul odom2map (kf_odom kf) in
      let '(gr, node) := GraphSLAM.add_se3_node odom (graph_slam s) in
      let kf := set_node (Some node) kf in
      let s := put_keyframe keyframe kf (set_graph_slam gr s) in
      let s := set_keyframe_hash (hash_insert (keyframe_hash s) (kf_stamp kf) keyframe) s in
      let s :=
        if match keyframes s with [] => true | _ => false end
           && (List.length (new_keyframes s) =? 1)%nat
           && fix_first_node params
        then
          let '(gr, anchor) := GraphSLAM.add_se3_node Matrix4d_Identity (graph_slam s) in
          let gr := GraphSLAM.setFixed anchor true gr in
          let '(gr, edge) :=
            GraphSLAM.add_edge GraphSLAM.EdgeSE3 [anchor; node] (m4_list Matrix4d_Identity)
                               anchor_information gr in
          set_anchor_edge (Some edge) (set_anchor_node (Some anchor) (set_graph_slam gr s))
        else s in
      if Nat.eqb i 0 && match keyframes s with [] => true | _ => false end
      then keyframe_queue_loop odom2map rest num_processed s
      else
        prev_keyframe <- (if Nat.eqb i 0 then back (keyframes s)
                          else at_index (keyframe_queue s) (i - 1)) ;;
        prev <- get_keyframe s prev_keyframe ;;
        let relative_pose := m4_mul (inverse (kf_odom kf)) (kf_odom prev) in
        let information :=
          calc_information_matrix (kf_cloud kf) (kf_cloud prev) relative_pose in
        prev_node <- deref (kf_node prev) ;;
        let '(gr, edge) :=
          GraphSLAM.add_edge GraphSLAM.EdgeSE3 [node; prev_node] (m4_list relative_pose)
                             information (graph_slam s) in
        let gr := GraphSLAM.add_robust_kernel edge (odometry_edge_robust_kernel params)
                                              (odometry_edge_robust_kernel_size params) gr in
        keyframe_queue_loop odom2map rest num_processed (set_graph_slam gr s)
  end.

(** Ten and thirty seconds, in nanoseconds. *)
Definition sec (n : Z) : Z := (n * 1000000000)%Z.

(** [flush_keyframe_queue]. *)
Definition flush_keyframe_queue (s : State) : outcome (State * bool) :=
  match keyframe_queue s with
  | [] => Ok (s, false)
  | _ =>
      let odom2map := trans_odom2map s in
      let bound :=
        Z.to_nat (Z.min (Z.of_nat (List.length (keyframe_queue s)))
                        (max_keyframes_per_update params)) in
      '(s, num_processed) <- keyframe_queue_loop odom2map (seq 0 bound) O s ;;
      keyframe <- at_index (keyframe_queue s) num_processed ;;
      kf <- get_keyframe s keyframe ;;
      let s := emit (ReadUntil (kf_stamp kf + sec 10) (points_topic params)) s in
      let s := emit (ReadUntil (kf_stamp kf + sec 10) "/filtered_points") s in
      let s := set_keyframe_queue (skipn (num_processed + 1) (keyframe_queue s)) s in
      Ok (s, true)
  end.

(** *** The GPS queue *)

(** [geodesy::fromMsg(position, utm)], taken as given. *)
Variable fromMsg : GeoPoint -> UTMCoord.

(** The search for the measurement closest to the keyframe:
    [for(gps = cursor; gps != end; gps++)], with [candidates] the stamps
    from [gps] on. *)
Fixpoint closest_search (stamps : list Z) (keyframe_stamp : Z) (candidates : list Z)
    (gps : nat) (closest : nat) : nat :=
  match candidates with
  | [] => closest
  | gps_stamp :: rest =>
      let dt := (nth closest stamps 0 - keyframe_stamp)%Z in
      let dt2 := (gps_stamp - keyframe_stamp)%Z in
      if (Z.abs dt <? Z.abs dt2)%Z then closest
      else closest_search stamps keyframe_stamp rest (S gps) gps
  end.

Definition find_closest (stamps : list Z) (keyframe_stamp : Z) (cursor : nat) : nat :=
  closest_search stamps keyframe_stamp (skipn cursor stamps) cursor cursor.

(** 0.2 s in nanoseconds. *)
Definition max_time_residual : Z := 200000000%Z.

(** [xyz -= zero_utm]; NaN stays NaN. *)
Definition utm_sub (a z : UTMCoord) : UTMCoord :=
  mkUTM (easting a - easting z) (northing a - northing z)
        (match altitude a, altitude z with
         | Some x, Some y => Some (x - y)
         | _, _ => None
         end).

Definition set_utm_coord (u : option UTMCoord) (k : KeyFrame) : KeyFrame :=
  mkKeyFrame (kf_stamp k) (kf_odom k) (kf_cloud k) (kf_node k) (kf_cloud_seg_body k)
             (kf_x_plane_ids k) (kf_y_plane_ids k) (kf_hort_plane_ids k)
             (kf_floor_coeffs k) u (kf_acceleration k) (kf_orientation k).

(** The GPS prior edge of a keyframe node. *)
Definition add_gps_edge (node : VertexRef) (xyz : UTMCoord) (gr : GraphSLAM.t) : GraphSLAM.t :=
  let '(gr, edge) :=
    match altitude xyz with
    | None =>
        let information_matrix := scaled_identity 2 (1 / gps_edge_stddev_xy params) in
        GraphSLAM.add_edge GraphSLAM.EdgeSE3PriorXY [node] [easting xyz; northing xyz]
                           information_matrix gr
    | Some z =>
        let information_matrix :=
          [[1 / gps_edge_stddev_xy params; 0; 0];
           [0; 1 / gps_edge_stddev_xy params; 0];
           [0; 0; 1 / gps_edge_stddev_z params]] in
        GraphSLAM.add_edge GraphSLAM.EdgeSE3PriorXYZ [node] [easting xyz; northing xyz; z]
                           information_matrix gr
    end in
  GraphSLAM.add_robust_kernel edge (gps_edge_robust_kernel params)
                              (gps_edge_robust_kernel_size params) gr.

Definition is_some {A : Type} (o : option A) : bool :=
  match o with Some _ => true | None => false end.

(** The loop of [flush_gps_queue] over the keyframes.  Besides the state
    and [updated], the result lists, in order, the keyframe and the queue
    position of the measurement of every prior edge that was added. *)
Fixpoint gps_loop (queue : list GeoPointStamped) (kfs : list KeyFramePtr)
    (gps_cursor : nat) (updated : bool) (used : list (KeyFramePtr * nat)) (s : State)
    : outcome (State * bool * list (KeyFramePtr * nat)) :=
  match kfs with
  | [] => Ok (s, updated, used)
  | keyframe :: rest =>
      kf <- get_keyframe s keyframe ;;
      last <- back queue ;;
      if (gps_stamp last <? kf_stamp kf)%Z then Ok (s, updated, used)
      else
        cursor_gps <- at_index queue gps_cursor ;;
        if (kf_stamp kf <? gps_stamp cursor_gps)%Z || is_some (kf_utm_coord kf)
        then gps_loop queue rest gps_cursor updated used s
        else
          let closest_gps := find_closest (map gps_stamp queue) (kf_stamp kf) gps_cursor in
          let gps_cursor := closest_gps in
          closest <- at_index queue closest_gps ;;
          if (max_time_residual <? Z.abs (gps_stamp closest - kf_stamp kf))%Z
          then gps_loop queue rest gps_cursor updated used s
          else
            let xyz := fromMsg (position closest) in
            let zero := match zero_utm s with Some z => z | None => xyz end in
            let s := set_zero_utm (Some zero) s in
            let xyz := utm_sub xyz zero in
            let kf := set_utm_coord (Some xyz) kf in
            let s := put_keyframe keyframe kf s in
            node <- deref (kf_node kf) ;;
            let s := set_graph_slam (add_gps_edge node xyz (graph_slam s)) s in
            gps_loop queue rest gps_cursor true (used ++ [(keyframe, closest_gps)])%list s
  end.

(** [flush_gps_queue], with the list of measurements used. *)
Definition flush_gps_queue_used (s : State)
    : outcome (State * bool * list (KeyFramePtr * nat)) :=
  match keyframes s, gps_queue s with
  | [], _ => Ok (s, false, [])
  | _, [] => Ok (s, false, [])
  | _, _ =>
      '(s, updated, used) <- gps_loop (gps_queue s) (keyframes s) O false [] s ;;
      latest <- latest_stamp s ;;
      let s := set_gps_queue (erase_until gps_stamp (gps_queue s) latest) s in
      Ok (s, updated, used)
  end.

(** [flush_gps_queue]. *)
Definition flush_gps_queue (s : State) : outcome (State * bool) :=
  '(s, updated, _) <- flush_gps_queue_used s ;;
  Ok (s, updated).

(** *** The IMU queue *)

(** [tf_listener.transformVector] and [tf_listener.transformQuaternion] into
    the base frame, for the acceleration and the orientation of a
    measurement, taken as given; [None] when the listener throws. *)
Variable tf_transform : string -> Imu -> option (Vector3d * Quaterniond).

Definition set_imu (a : option Vector3d) (o : option Quaterniond) (k : KeyFrame) : KeyFrame :=
  mkKeyFrame (kf_stamp k) (kf_odom k) (kf_cloud k) (kf_node k) (kf_cloud_seg_body k)
             (kf_x_plane_ids k) (kf_y_plane_ids k) (kf_hort_plane_ids k)
             (kf_floor_coeffs k) (kf_utm_coord k) a o.

(** [if(w < 0) coeffs = -coeffs]. *)
Definition positive_w (q : Quaterniond) : Quaterniond :=
  if Qltb (qw q) 0 then mkQuat (- qw q) (- qx q) (- qy q) (- qz q) else q.

(** The IMU prior edges of a keyframe node. *)
Definition add_imu_edges (node : VertexRef) (acc : Vector3d) (ori : Quaterniond)
    (gr : GraphSLAM.t) : GraphSLAM.t :=
  let gr :=
    if enable_imu_orientation params then
      let info := scaled_identity 3 (1 / imu_orientation_edge_stddev params) in
      let '(gr, edge) :=
        GraphSLAM.add_edge GraphSLAM.EdgeSE3PriorQuat [node] [qw ori; qx ori; qy ori; qz ori]
                           info gr in
      GraphSLAM.add_robust_kernel edge (imu_orientation_edge_robust_kernel params)
                                  (imu_orientation_edge_robust_kernel_size params) gr
    else gr in
  if enable_imu_acceleration params then
    let info := scaled_identity 3 (1 / imu_acceleration_edge_stddev params) in
    let '(gr, edge) :=
      GraphSLAM.add_edge GraphSLAM.EdgeSE3PriorVec [node] ([0; 0; -1] ++ v3_list acc)%list
                         info gr in
    GraphSLAM.add_robust_kernel edge (imu_acceleration_edge_robust_kernel params)
                                (imu_acceleration_edge_robust_kernel_size params) gr
  else gr.

(** How the loop of [flush_imu_queue] ends: at the end of the keyframes or
    at a [break], or by the [return false] of the [catch] block. *)
Inductive imu_exit : Type := LoopDone | ReturnFalse.

(** The loop of [flush_imu_queue] over the keyframes; [used] as for the GPS
    queue. *)
Fixpoint imu_loop (queue : list Imu) (kfs : list KeyFramePtr)
    (imu_cursor : nat) (updated : bool) (used : list (KeyFramePtr * nat)) (s : State)
    : outcome (State * bool * list (KeyFramePtr * nat) * imu_exit) :=
  match kfs with
  | [] => Ok (s, updated, used, LoopDone)
  | keyframe :: rest =>
      kf <- get_keyframe s keyframe ;;
      last <- back queue ;;
      if (imu_stamp last <? kf_stamp kf)%Z then Ok (s, updated, used, LoopDone)
      else
        cursor_imu <- at_index queue imu_cursor ;;
        if (kf_stamp kf <? imu_stamp cursor_imu)%Z || is_some (kf_acceleration kf)
        then imu_loop queue rest imu_cursor updated used s
        else
          let closest_imu := find_closest (map imu_stamp queue) (kf_stamp kf) imu_cursor in
          let imu_cursor := closest_imu in
          closest <- at_index queue closest_imu ;;
          if (max_time_residual <? Z.abs (imu_stamp closest - kf_stamp kf))%Z
          then imu_loop queue rest imu_cursor updated used s
          else
            match tf_transform (base_frame_id s) closest with
            | None => Ok (s, updated, used, ReturnFalse)
            | Some (acc_base, quat_base) =>
                let ori := positive_w quat_base in
                let kf := set_imu (Some acc_base) (Some ori) kf in
                let s := put_keyframe keyframe kf s in
                node <- deref (kf_node kf) ;;
                let s := set_graph_slam (add_imu_edges node acc_base ori (graph_slam s)) s in
                imu_loop queue rest imu_cursor true (used ++ [(keyframe, closest_imu)])%list s
            end
  end.

(** [flush_imu_queue], with the list of measurements used. *)
Definition flush_imu_queue_used (s : State)
    : outcome (State * bool * list (KeyFramePtr * nat)) :=
  match keyframes s, imu_queue s with
  | [], _ => Ok (s, false, [])
  | _, [] => Ok (s, false, [])
  | _, _ =>
      if String.eqb (base_frame_id s) "" then Ok (s, false, [])
      else
        '(s, updated, used, exit) <- imu_loop (imu_queue s) (keyframes s) O false [] s ;;
        match exit with
        | ReturnFalse => Ok (s, false, used)
        | LoopDone =>
            latest <- latest_stamp s ;;
            let s := set_imu_queue (erase_until imu_stamp (imu_queue s) latest) s in
            Ok (s, updated, used)
        end
  end.

(** [flush_imu_queue]. *)
Definition flush_imu_queue (s : State) : outcome (State * bool) :=
  '(s, updated, _) <- flush_imu_queue_used s ;;
  Ok (s, updated).

(** *** The floor queue *)

Definition set_floor_coeffs (c : option Vector4d) (k : KeyFrame) : KeyFrame :=
  mkKeyFrame (kf_stamp k) (kf_odom k) (kf_cloud k) (kf_node k) (kf_cloud_seg_body k)
             (kf_x_plane_ids k) (kf_y_plane_ids k) (kf_hort_plane_ids k)
             c (kf_utm_coord k) (kf_acceleration k) (kf_orientation k).

(** The loop of [flush_floor_queue]. *)
Fixpoint floor_loop (latest_keyframe_stamp : Z) (queue : list FloorCoeffs)
    (updated : bool) (s : State) : outcome (State * bool) :=
  match queue with
  | [] => Ok (s, updated)
  | fc :: rest =>
      if (latest_keyframe_stamp <? floor_stamp fc)%Z then Ok (s, updated)
      else
        match hash_find (keyframe_hash s) (floor_stamp fc) with
        | None => floor_loop latest_keyframe_stamp rest updated s
        | Some keyframe =>
            let '(s, floor_node) :=
              match floor_plane_node s with
              | Some n => (s, n)
              | None =>
                  let '(gr, n) := GraphSLAM.add_plane_node (mkV4 0 0 1 0) (graph_slam s) in
                  let gr := GraphSLAM.setFixed n true gr in
                  (set_floor_plane_node (Some n) (set_graph_slam gr s), n)
              end in
            kf <- get_keyframe s keyframe ;;
            f0 <- at_index (floor_coeffs fc) 0 ;;
            f1 <- at_index (floor_coeffs fc) 1 ;;
            f2 <- at_index (floor_coeffs fc) 2 ;;
            f3 <- at_index (floor_coeffs fc) 3 ;;
            let coeffs := mkV4 f0 f1 f2 f3 in
            let information := scaled_identity 3 (1 / floor_edge_stddev params) in
            node <- deref (kf_node kf) ;;
            let '(gr, edge) :=
              GraphSLAM.add_edge GraphSLAM.EdgeSE3Plane [node; floor_node] (v4_list coeffs)
                                 information (graph_slam s) in
            let gr := GraphSLAM.add_robust_kernel edge (floor_edge_robust_kernel params)
                                                  (floor_edge_robust_kernel_size params) gr in
            let s := put_keyframe keyframe (set_floor_coeffs (Some coeffs) kf)
                                  (set_graph_slam gr s) in
            floor_loop latest_keyframe_stamp rest true s
        end
  end.

(** [flush_floor_queue]. *)
Definition flush_floor_queue (s : State) : outcome (State * bool) :=
  match keyframes s with
  | [] => Ok (s, false)
  | _ =>
      latest_keyframe_stamp <- latest_stamp s ;;
      '(s, updated) <- floor_loop latest_keyframe_stamp (floor_coeffs_queue s) false s ;;
      let s :=
        set_floor_coeffs_queue
          (erase_until floor_stamp (floor_coeffs_queue s) latest_keyframe_stamp) s in
      Ok (s, updated)
  end.

(** *** Plane covariances *)

(** The solver, taken as given: [graph_slam->optimize(n)] gives the graph
    after the run and the number of iterations;
    [graph_slam->compute_landmark_marginals(spinv, pairs)] gives the blocks
    of [spinv] by Hessian indices, or [None] when it returns false;
    [plane_node->hessianIndex()]; and whether
    [Eigen::LLT(covariance).info()] is [Eigen::NumericalIssue]. *)
Variable optimize : GraphSLAM.t -> Z -> GraphSLAM.t * Z.
Variable compute_landmark_marginals :
  GraphSLAM.t -> list (Z * Z) -> option (Z -> Z -> Matrix3d).
Variable hessianIndex : GraphSLAM.t -> VertexRef -> Z.
Variable llt_numerical_issue : Matrix3d -> bool.

Definition set_covariance (c : Matrix3d) (lm : VerticalPlanes) : VerticalPlanes :=
  mkPlanes (vp_id lm) (vp_plane lm) (vp_cloud_seg_body lm) (vp_cloud_seg_body_vec lm)
           (vp_cloud_seg_map lm) (vp_keyframe_node_vec lm) (vp_keyframe_node lm)
           (vp_plane_node lm) c (vp_color lm) (vp_parallel_pair lm).

(** The pairs pushed on [plane_pairs_vec] for one collection. *)
Definition plane_pairs (gr : GraphSLAM.t) (planes : list VerticalPlanes) : list (Z * Z) :=
  map (fun lm => (hessianIndex gr (vp_plane_node lm), hessianIndex gr (vp_plane_node lm)))
      planes.

(** The body of the three [while] loops of [compute_plane_cov]. *)
Definition recover_covariance (gr : GraphSLAM.t) (plane_spinv_vec : Z -> Z -> Matrix3d)
    (lm : VerticalPlanes) : VerticalPlanes :=
  let covariance :=
    plane_spinv_vec (hessianIndex gr (vp_plane_node lm)) (hessianIndex gr (vp_plane_node lm)) in
  if llt_numerical_issue covariance
  then set_covariance Matrix3d_Identity lm
  else set_covariance covariance lm.

(** [compute_plane_cov]. *)
Definition compute_plane_cov (s : State) : State :=
  let gr := graph_slam s in
  let plane_pairs_vec :=
    (plane_pairs gr (x_vert_planes s) ++ plane_pairs gr (y_vert_planes s)
     ++ plane_pairs gr (hort_planes s))%list in
  match plane_pairs_vec with
  | [] => s
  | _ =>
      match compute_landmark_marginals gr plane_pairs_vec with
      | Some plane_spinv_vec =>
          let s := set_x_vert_planes (map (recover_covariance gr plane_spinv_vec)
                                          (x_vert_planes s)) s in
          let s := set_y_vert_planes (map (recover_covariance gr plane_spinv_vec)
                                          (y_vert_planes s)) s in
          set_hort_planes (map (recover_covariance gr plane_spinv_vec) (hort_planes s)) s
      | None => s
      end
  end.

(** *** The optimization timer *)

(** [loop_detector->detect(keyframes, new_keyframes, *graph_slam)], taken as
    given, over the keyframe objects. *)
Variable detect : list KeyFrame -> list KeyFramePtr -> list KeyFramePtr -> GraphSLAM.t -> list Loop.

(** The loop over the detected loops. *)
Fixpoint add_loops (loops : list Loop) (s : State) : outcome State :=
  match loops with
  | [] => Ok s
  | loop :: rest =>
      let relpose := relative_pose loop in
      k1 <- get_keyframe s (key1 loop) ;;
      k2 <- get_keyframe s (key2 loop) ;;
      let information_matrix := calc_information_matrix (kf_cloud k1) (kf_cloud k2) relpose in
      n1 <- deref (kf_node k1) ;;
      n2 <- deref (kf_node k2) ;;
      let '(gr, edge) :=
        GraphSLAM.add_edge GraphSLAM.EdgeSE3 [n1; n2] (m4_list relpose) information_matrix
                           (graph_slam s) in
      let gr := GraphSLAM.add_robust_kernel edge (loop_closure_edge_robust_kernel params)
                                            (loop_closure_edge_robust_kernel_size params) gr in
      add_loops rest (set_graph_slam gr s)
  end.

(** [std::make_shared<KeyFrameSnapshot>(k)] for every keyframe. *)
Fixpoint make_snapshot (s : State) (kfs : list KeyFramePtr) : outcome (list KeyFrameSnapshot) :=
  match kfs with
  | [] => Ok []
  | k :: rest =>
      kf <- get_keyframe s k ;;
      est <- node_estimate (graph_slam s) (kf_node kf) ;;
      tail <- make_snapshot s rest ;;
      Ok (mkSnapshot est (kf_cloud kf) :: tail)
  end.

(** The lines of [optimization_timer_callback] under
    [// optimize the pose graph]: the solver runs, and the plane covariances
    are computed if it reports more than 0 iterations. *)
Definition optimize_graph (s : State) : State :=
  let num_iterations := g2o_solver_num_iterations params in
  let s := emit (Optimize num_iterations) s in
  let '(gr, iterations) := optimize (graph_slam s) num_iterations in
  let s := set_graph_slam gr s in
  if (0 <? iterations)%Z then compute_plane_cov s else s.

(** The part of [optimization_timer_callback] after the early return: loop
    detection, the merge of the new keyframes, the anchor, the solver with
    the covariances, and the publication. *)
Definition optimize_and_publish (s : State) : outcome State :=
  let loops := detect (heap s) (keyframes s) (new_keyframes s) (graph_slam s) in
  let s := emit LoopDetect s in
  s <- add_loops loops s ;;
  let s := set_new_keyframes [] (set_keyframes (keyframes s ++ new_keyframes s)%list s) in
  s <- (match anchor_node s with
        | Some anchor =>
            if fix_first_node_adaptive params then
              edge_ref <- deref (anchor_edge s) ;;
              edge <- at_index (GraphSLAM.edges (graph_slam s)) edge_ref ;;
              target <- at_index (GraphSLAM.e_vertices edge) 1 ;;
              anchor_target <- GraphSLAM.estimate_se3 (graph_slam s) target ;;
              Ok (set_graph_slam (GraphSLAM.setEstimate_se3 anchor anchor_target (graph_slam s)) s)
            else Ok s
        | None => Ok s
        end) ;;
  let s := optimize_graph s in
  keyframe <- back (keyframes s) ;;
  kf <- get_keyframe s keyframe ;;
  est <- node_estimate (graph_slam s) (kf_node kf) ;;
  let trans := m4_mul est (inverse (kf_odom kf)) in
  let s := set_trans_odom2map trans s in
  snapshot <- make_snapshot s (keyframes s) ;;
  let s := set_graph_updated true (set_keyframes_snapshot snapshot s) in
  Ok (emit (Odom2Map (kf_stamp kf) trans) s).

(** [optimization_timer_callback]; [now] is [ros::Time::now()].  The five
    operands of the [&] chain are evaluated in the order written. *)
Definition optimization_timer_callback (now : Z) (s : State) : outcome State :=
  '(s, keyframe_updated) <- flush_keyframe_queue s ;;
  let s :=
    if negb keyframe_updated then
      emit (ReadUntil (now + sec 30) "/filtered_points")
           (emit (ReadUntil (now + sec 30) (points_topic params)) s)
    else s in
  '(s, floor_updated) <- flush_floor_queue s ;;
  '(s, gps_updated) <- flush_gps_queue s ;;
  '(s, imu_updated) <- flush_imu_queue s ;;
  '(s, clouds_seg_updated) <- flush_clouds_seg_queue s ;;
  if negb keyframe_updated && negb floor_updated && negb gps_updated
     && negb imu_updated && negb clouds_seg_updated
  then Ok s
  else optimize_and_publish s.

End Nodelet.

End HdlGraphSlamNodelet.


(** ** Specifications

    Definitions used to state the properties below. *)

Module N := HdlGraphSlamNodelet.

(** The (X pair, Y pair) combinations in the order in which the two loops
    of [refine_rooms] visit them: X index outer, Y index inner. *)
Definition combinations (x_room_vec y_room_vec : list N.structure_data_list)
    : list (N.structure_data_list * N.structure_data_list) :=
  flat_map (fun x => map (pair x) y_room_vec) x_room_vec.

(** [|width_x - width_y|] of a combination. *)
Definition width_diff (c : N.structure_data_list * N.structure_data_list) : Q :=
  Qabs (N.width (fst c) - N.width (snd c)).

(** The two planes of a pair, as [refine_rooms] returns them. *)
Definition planes_of (p : N.structure_data_list) : list N.plane_data_list :=
  [N.plane1 p; N.plane2 p].

(** One round of the loops of [refine_rooms] on the state
    [(min_width_diff, x_room, y_room)]. *)
Definition select (st : Q * list N.plane_data_list * list N.plane_data_list)
    (c : N.structure_data_list * N.structure_data_list)
    : Q * list N.plane_data_list * list N.plane_data_list :=
  if Qltb (width_diff c) (fst (fst st))
  then (width_diff c, planes_of (fst c), planes_of (snd c))
  else st.

(** What the state of [refine_rooms] is after the combinations [pre]: the
    initial state if none of them is below 2.5, and otherwise the first of
    those with the least width difference. *)
Definition selected (pre : list (N.structure_data_list * N.structure_data_list))
    (st : Q * list N.plane_data_list * list N.plane_data_list) : Prop :=
  (st = (5 # 2, [N.default_plane_data_list; N.default_plane_data_list],
         [N.default_plane_data_list; N.default_plane_data_list])
   /\ Forall (fun c => 5 # 2 <= width_diff c) pre)
  \/ (exists k c,
        nth_error pre k = Some c
        /\ st = (width_diff c, planes_of (fst c), planes_of (snd c))
        /\ width_diff c < 5 # 2
        /\ (forall c', In c' pre -> width_diff c <= width_diff c')
        /\ (forall k' c', (k' < k)%nat -> nth_error pre k' = Some c' ->
                          width_diff c < width_diff c')).

(** Does the point [p] have a point of [cloud_2] at a squared distance
    below 0.5? *)
Definition within_gate (cloud_2 : PointCloud) (p : PointNormal) : bool :=
  existsb (fun q => Qltb (squaredNorm_diff p q) (1 # 2)) cloud_2.

(** The number of points of [cloud_1] with a point of [cloud_2] at a squared
    distance below 0.5. *)
Definition overlap_count (cloud_1 cloud_2 : PointCloud) : nat :=
  List.length (filter (within_gate cloud_2) cloud_1).

(** The count of the specification: the points of [cloud_1] with a point of
    [cloud_2] within the squared-distance gate 0.5 * 0.5. *)
Definition claimed_overlap_count (cloud_1 cloud_2 : PointCloud) : nat :=
  List.length
    (filter (fun p => existsb (fun q => Qltb (squaredNorm_diff p q) ((1 # 2) * (1 # 2))) cloud_2)
            cloud_1).

(** ** Sample data *)

(** A point at (x, y, z) carrying the plane equation (1, 0, 0, -1). *)
Definition sample_point (x y z : Q) : PointNormal := mkPoint x y z 1 1 0 0 (-1) 0 0 0.

(** A graph with one pose vertex (the identity) and one plane vertex. *)
Definition sample_graph : GraphSLAM.t :=
  fst (GraphSLAM.add_plane_node (mkV4 1 0 0 (-1))
         (fst (GraphSLAM.add_se3_node Matrix4d_Identity GraphSLAM.empty))).

(** A keyframe at the pose vertex, with the segment cloud [body]. *)
Definition sample_keyframe (body : PointCloud) : KeyFrame :=
  mkKeyFrame 0%Z Matrix4d_Identity [] (Some O) (Some body) [] [] [] None None None None.

(** An X-vertical landmark with id 1 at the plane vertex. *)
Definition sample_landmark (map_cloud : PointCloud) : VerticalPlanes :=
  mkPlanes 1%Z (mkV4 1 0 0 (-1)) None [] (Some map_cloud) [] (Some O) 1%nat
           Matrix3d_Identity [] false.

Definition sample_mapper_state (map_cloud body : PointCloud) : PlaneMapper.State :=
  PlaneMapper.mkState sample_graph (sample_keyframe body) [sample_landmark map_cloud] [] [] [].

(** A distance oracle that puts every landmark at distance 0.1. *)
Definition sample_maha_dist : Isometry3d -> Plane3D -> Matrix3d -> Plane3D -> option Q :=
  fun _ _ _ _ => Some (1 # 10).

(** A corridor candidate of length 12 with the given map-frame plane. *)
Definition sample_candidate (plane : Plane3D) (id : Z) : N.plane_data_list :=
  N.mkPlaneDataList plane plane id 12 None (mkV3 0 0 0) false.

(** The id and the graph vertex of a plane landmark. *)
Definition id_node (lm : VerticalPlanes) : Z * VertexRef := (vp_id lm, vp_plane_node lm).

(** The ids and vertices of the plane landmarks, by class. *)
Definition landmark_ids (s : PlaneMapper.State)
    : list (Z * VertexRef) * list (Z * VertexRef) * list (Z * VertexRef) :=
  (map id_node (PlaneMapper.x_vert_planes s), map id_node (PlaneMapper.y_vert_planes s),
   map id_node (PlaneMapper.hort_planes s)).

(** One more entry at the end of the collection of the class [plane_type]. *)
Definition with_new_id {A : Type} (plane_type : Z) (id : A) (ids : list A * list A * list A)
    : list A * list A * list A :=
  let '(xs, ys, hs) := ids in
  if (plane_type =? X_VERT_PLANE)%Z then ((xs ++ [id])%list, ys, hs)
  else if (plane_type =? Y_VERT_PLANE)%Z then (xs, (ys ++ [id])%list, hs)
  else if (plane_type =? HORT_PLANE)%Z then (xs, ys, (hs ++ [id])%list)
  else ids.

(** Stamps in time order. *)
Fixpoint ascending (stamps : list Z) : bool :=
  match stamps with
  | a :: (b :: _) as rest => (a <=? b)%Z && ascending rest
  | _ => true
  end.

(** A landmark with the given id at the given plane vertex. *)
Definition sample_plane (id : Z) (plane : Plane3D) (node : VertexRef) : VerticalPlanes :=
  mkPlanes id plane None [] None [] (Some O) node Matrix3d_Identity [] false.

(** A nodelet with one pose vertex (vertex 0, the identity), two X-vertical
    walls at x = 1 and x = -1.2 (vertices 1 and 2) and two Y-vertical walls
    at y = 2 and y = -2 (vertices 3 and 4). *)
Definition sample_nodelet_graph : GraphSLAM.t :=
  fst (GraphSLAM.add_plane_node (mkV4 0 (-1) 0 (-2))
    (fst (GraphSLAM.add_plane_node (mkV4 0 1 0 (-2))
      (fst (GraphSLAM.add_plane_node (mkV4 (-1) 0 0 (- (6 # 5)))
        (fst (GraphSLAM.add_plane_node (mkV4 1 0 0 (-1))
          (fst (GraphSLAM.add_se3_node Matrix4d_Identity GraphSLAM.empty))))))))).

Definition sample_nodelet_state : N.State :=
  N.set_y_vert_planes [sample_plane 3%Z (mkV4 0 1 0 (-2)) 3%nat;
                       sample_plane 4%Z (mkV4 0 (-1) 0 (-2)) 4%nat]
    (N.set_x_vert_planes [sample_plane 1%Z (mkV4 1 0 0 (-1)) 1%nat;
                          sample_plane 2%Z (mkV4 (-1) 0 0 (- (6 # 5))) 2%nat]
       (N.set_graph_slam sample_nodelet_graph N.initial_state)).

(** A candidate seen from the pose vertex. *)
Definition sample_wall (plane : Plane3D) (id : Z) : N.plane_data_list :=
  N.mkPlaneDataList plane plane id 4 (Some O) (mkV3 0 0 0) false.

(** The covariance that the loops of [compute_plane_cov] leave in a plane
    landmark, given the blocks of the marginals: the block of its vertex,
    or the identity if the Cholesky factorisation of the block reports a
    numerical issue. *)
Definition recovered_covariance (hessianIndex : GraphSLAM.t -> VertexRef -> Z)
    (llt_numerical_issue : Matrix3d -> bool) (gr : GraphSLAM.t)
    (plane_spinv_vec : Z -> Z -> Matrix3d) (lm : VerticalPlanes) : Matrix3d :=
  let block := plane_spinv_vec (hessianIndex gr (vp_plane_node lm))
                               (hessianIndex gr (vp_plane_node lm)) in
  if llt_numerical_issue block then Matrix3d_Identity else block.

(** C5 as it is written, for one collection of landmarks: the marginal
    covariances are recomputed, that is, the solver delivers the blocks of
    the plane vertices and every landmark holds the covariance recovered
    from the block of its vertex. *)
Definition claimed_recomputed (hessianIndex : GraphSLAM.t -> VertexRef -> Z)
    (llt_numerical_issue : Matrix3d -> bool) (gr : GraphSLAM.t)
    (marginals : option (Z -> Z -> Matrix3d)) (before after : list VerticalPlanes) : Prop :=
  exists plane_spinv_vec,
    marginals = Some plane_spinv_vec
    /\ map vp_covariance after
       = map (recovered_covariance hessianIndex llt_numerical_issue gr plane_spinv_vec) before.

(** The 3x3 matrix with [q] on the diagonal. *)
Definition diagonal (q : Q) : Matrix3d := mkM3 (mkV3 q 0 0) (mkV3 0 q 0) (mkV3 0 0 q).

(** A nodelet with one X-vertical wall (vertex 1) that holds the covariance
    2 * identity, recovered at an earlier tick. *)
Definition sample_stale_state : N.State :=
  N.set_x_vert_planes
    [N.set_covariance (diagonal 2) (sample_plane 1%Z (mkV4 1 0 0 (-1)) 1%nat)]
    (N.set_graph_slam sample_nodelet_graph N.initial_state).

(** A solver run of one iteration that leaves the graph as it is. *)
Definition sample_optimize (gr : GraphSLAM.t) (num_iterations : Z) : GraphSLAM.t * Z :=
  (gr, 1%Z).

(** [compute_landmark_marginals] returning false. *)
Definition sample_no_marginals (gr : GraphSLAM.t) (pairs : list (Z * Z))
    : option (Z -> Z -> Matrix3d) := None.

(** [compute_landmark_marginals] returning true, with the block
    3 * identity everywhere but at the Hessian index 2, where the block is
    minus the identity. *)
Definition sample_marginals (gr : GraphSLAM.t) (pairs : list (Z * Z))
    : option (Z -> Z -> Matrix3d) :=
  Some (fun i j => if (i =? 2)%Z then diagonal (-1) else diagonal 3).

(** The Hessian index of a vertex: here its position in the graph. *)
Definition sample_hessianIndex (gr : GraphSLAM.t) (v : VertexRef) : Z := Z.of_nat v.

(** A Cholesky factorisation that reports a numerical issue when the first
    pivot is not positive. *)
Definition sample_llt (m : Matrix3d) : bool := Qle_bool (v3_0 (m3_r0 m)) 0.

(** What [gps_loop] and [imu_loop] record for a prior edge: the keyframe,
    one of [kfs], and the queue position of a measurement stamped within
    0.2 s of that keyframe. *)
Definition within_residual {A : Type} (stamp_of : A -> Z) (heap_stamps : list Z)
    (queue : list A) (kfs : list N.KeyFramePtr) (u : N.KeyFramePtr * nat) : Prop :=
  exists t m,
    nth_error heap_stamps (fst u) = Some t
    /\ nth_error queue (snd u) = Some m
    /\ (Z.abs (stamp_of m - t) <= N.max_time_residual)%Z
    /\ In (fst u) kfs.

(** The measurement at position [i] of the queue is more than 0.2 s away
    from every keyframe. *)
Definition far_from_keyframes {A : Type} (stamp_of : A -> Z) (heap_stamps : list Z)
    (queue : list A) (kfs : list N.KeyFramePtr) (i : nat) : Prop :=
  forall m k t,
    nth_error queue i = Some m -> In k kfs -> nth_error heap_stamps k = Some t ->
    (N.max_time_residual < Z.abs (stamp_of m - t))%Z.

(** A UTM conversion that keeps the numbers of the fix. *)
Definition sample_fromMsg (p : N.GeoPoint) : UTMCoord :=
  mkUTM (N.latitude p) (N.longitude p) (N.geo_altitude p).

(** A keyframe at the pose vertex 0, stamped [stamp]. *)
Definition sample_timed_keyframe (stamp : Z) : KeyFrame :=
  mkKeyFrame stamp Matrix4d_Identity [] (Some O) None [] [] [] None None None None.

(** One keyframe at 10 s and no queued measurement. *)
Definition sample_timed_state : N.State :=
  N.set_keyframes [O]
    (N.set_heap [sample_timed_keyframe (N.sec 10)]
       (N.set_graph_slam (fst (GraphSLAM.add_se3_node Matrix4d_Identity GraphSLAM.empty))
          N.initial_state)).

(** GPS fixes at 9 s and at 10.1 s. *)
Definition sample_gps_state : N.State :=
  N.set_gps_queue
    [N.mkGeoPointStamped (N.sec 9) (N.mkGeoPoint 1 2 (Some 3));
     N.mkGeoPointStamped (N.sec 10 + 100000000) (N.mkGeoPoint 4 5 (Some 6))]
    sample_timed_state.

(** IMU measurements at 1 s and at 10 s, and a known base frame. *)
Definition sample_imu_state : N.State :=
  N.set_base_frame_id "base_link"
    (N.set_imu_queue
       [N.mkImu (N.sec 1) "imu" (mkQuat 1 0 0 0) (mkV3 0 0 (-1));
        N.mkImu (N.sec 10) "imu" (mkQuat 1 0 0 0) (mkV3 0 0 (-1))]
       sample_timed_state).

(** A transform listener that knows every frame, and one that knows none. *)
Definition sample_tf (frame : string) (imu : N.Imu) : option (Vector3d * Quaterniond) :=
  Some (N.linear_acceleration imu, N.orientation imu).

Definition sample_tf_fails (frame : string) (imu : N.Imu)
    : option (Vector3d * Quaterniond) := None.

(** What a tick of the optimization timer publishes or hands to the other
    threads: the odom-to-map transform, the keyframe snapshot, the
    [graph_updated] flag, and the trace of messages and of calls of the loop
    detector and of the solver. *)
Definition published (s : N.State)
    : Matrix4d * list N.KeyFrameSnapshot * bool * list N.Event :=
  (N.trans_odom2map s, N.keyframes_snapshot s, N.graph_updated s, N.events s).

(** The two [read_until] messages of a tick with no new keyframe. *)
Definition read_until_messages (params : N.Params) (now : Z) : list N.Event :=
  [N.ReadUntil (now + N.sec 30) (N.points_topic params);
   N.ReadUntil (now + N.sec 30) "/filtered_points"].

(** One keyframe at 10 s; IMU measurements at 1 s and at 10 s; floor
    coefficients at 5 s, which is the stamp of no keyframe; and a message of
    segmented clouds at 10 s with one empty cloud. *)
Definition sample_quiet_state : N.State :=
  N.set_clouds_seg_queue [N.mkPointClouds (N.sec 10) [N.mkPointCloud2 (N.sec 10) []]]
    (N.set_floor_coeffs_queue [N.mkFloorCoeffs (N.sec 5) [0; 0; 1; 0]] sample_imu_state).

(** * Further code of the sources *)

From Stdlib Require Import Permutation.

(** The offsets of all the candidates have the magnitude [m]. *)
Definition same_offset_magnitude (m : Q) (candidates : list N.plane_data_list) : Prop :=
  Forall (fun c => Qabs (c3 (coeffs (N.plane c))) == m) candidates.

(** The normal of the plane lies along an axis and has length 1: one of its
    three components is 1 or -1 and the other two are 0.  Assigning such
    coefficients to a [g2o::Plane3D] divides them by a norm of exactly 1,
    also in floating point. *)
Definition axis_normal (p : Plane3D) : Prop :=
  (Qabs (c0 (coeffs p)) == 1 /\ c1 (coeffs p) == 0 /\ c2 (coeffs p) == 0)
  \/ (c0 (coeffs p) == 0 /\ Qabs (c1 (coeffs p)) == 1 /\ c2 (coeffs p) == 0)
  \/ (c0 (coeffs p) == 0 /\ c1 (coeffs p) == 0 /\ Qabs (c2 (coeffs p)) == 1).

(** [a] is at position [k] of [l], its key is below [bound] and is the
    least key of [l], and no earlier element has that key: [a] is the
    first element of least key. *)
Definition first_least {A : Type} (key : A -> Q) (bound : Q) (l : list A) (k : nat) (a : A)
    : Prop :=
  nth_error l k = Some a
  /\ key a < bound
  /\ (forall a', In a' l -> key a <= key a')
  /\ (forall k' a', (k' < k)%nat -> nth_error l k' = Some a' -> key a < key a').

(** One round of a search for the least key: the running minimum and the
    value kept with it. *)
Definition scan_step {A B : Type} (key : A -> Q) (val : A -> B) (st : Q * B) (a : A) : Q * B :=
  if Qltb (key a) (fst st) then (key a, val a) else st.

(** The landmark collection of a plane class in the state of the plane
    mapper, and its update. *)
Definition class_planes (plane_type : Z) (s : PlaneMapper.State) : list VerticalPlanes :=
  if (plane_type =? X_VERT_PLANE)%Z then PlaneMapper.x_vert_planes s
  else if (plane_type =? Y_VERT_PLANE)%Z then PlaneMapper.y_vert_planes s
  else PlaneMapper.hort_planes s.

Definition set_class_planes (plane_type : Z) (planes : list VerticalPlanes)
    (s : PlaneMapper.State) : PlaneMapper.State :=
  if (plane_type =? X_VERT_PLANE)%Z then PlaneMapper.set_x_vert_planes planes s
  else if (plane_type =? Y_VERT_PLANE)%Z then PlaneMapper.set_y_vert_planes planes s
  else PlaneMapper.set_hort_planes planes s.

(** The edge that [PlaneMapper::factor_planes] adds between the keyframe
    and the plane vertex, in either mode. *)
Definition keyframe_plane_edge (params : PlaneMapper.Params) (Gij : Matrix4d)
    (det_plane_body_frame : Plane3D) (node plane_node : VertexRef) : GraphSLAM.Edge :=
  if PlaneMapper.use_point_to_plane params
  then GraphSLAM.mkEdge GraphSLAM.EdgeSE3PointToPlane [node; plane_node] (m4_list Gij)
                        [[1 # 1000]] (Some ("Huber"%string, 1))
  else GraphSLAM.mkEdge GraphSLAM.EdgeSE3Plane [node; plane_node]
                        (v4_list (coeffs det_plane_body_frame))
                        (scaled_identity 3 (PlaneMapper.plane_information params))
                        (Some ("Huber"%string, 1)).

(** [g] with one more edge. *)
Definition with_edge (e : GraphSLAM.Edge) (g : GraphSLAM.t) : GraphSLAM.t :=
  GraphSLAM.mk (GraphSLAM.vertices g) (GraphSLAM.edges g ++ [e])
               (GraphSLAM.vertex_count g) (GraphSLAM.edge_count g + 1)%Z.

(** The elements of [l] with their positions, counted from [i]. *)
Definition indexed {A : Type} (i : nat) (l : list A) : list (nat * A) :=
  combine (seq i (List.length l)) l.

(** The distance that the association loops compare for the landmark
    [snd ilm]; a NaN, which is below no running minimum, counts as the
    starting minimum 100. *)
Definition association_distance
    (maha_dist : Isometry3d -> Plane3D -> Matrix3d -> Plane3D -> option Q)
    (m2n : Isometry3d) (det_plane : Plane3D) (ilm : nat * VerticalPlanes) : Q :=
  match PlaneMapper.landmark_maha_dist maha_dist m2n det_plane (snd ilm) with
  | Some maha => maha
  | None => 100
  end.

(** What the loops record for a landmark: its id and its position. *)
Definition association_of (ilm : nat * VerticalPlanes) : Z * nat :=
  (vp_id (snd ilm), fst ilm).

(** The landmark collection of a plane class in the state of the nodelet,
    and its update. *)
Definition nodelet_class_planes (plane_type : Z) (s : N.State) : list VerticalPlanes :=
  if (plane_type =? X_VERT_PLANE)%Z then N.x_vert_planes s
  else if (plane_type =? Y_VERT_PLANE)%Z then N.y_vert_planes s
  else N.hort_planes s.




(** Is the anchor vertex created by a flush of the keyframe queue that
    commits at least one keyframe?  It is for the very first keyframe, if
    [fix_first_node] is set. *)
Definition anchor_created (params : N.Params) (s : N.State) : bool :=
  match N.keyframes s with [] => true | _ => false end
  && match N.new_keyframes s with [] => true | _ => false end
  && N.fix_first_node params.

(** Two keyframes, stamped 1 s and 2 s, waiting in the keyframe queue of an
    otherwise empty nodelet. *)
Definition sample_queue_state : N.State :=
  N.set_keyframe_queue [O; 1%nat]
    (N.set_heap [sample_timed_keyframe (N.sec 1); sample_timed_keyframe (N.sec 2)]
       N.initial_state).

(** The defaults, with [max_keyframes_per_update] set to 0. *)
Definition sample_params_no_commit : N.Params :=
  N.mkParams 0%Z false [1; 1; 1; 1; 1; 1] true "NONE" 1 "NONE" 1
             10000 10 "NONE" 1 10 "NONE" 1
             false false (1 # 10) 3 "NONE" 1 "NONE" 1
             (15 # 100) false true true
             false 1 10 (3 # 2) (5 # 2) (3 # 10)
             false (3 # 10) 1 3 6 (5 # 2)
             1024%Z "/velodyne_points".

(** The state after the two keyframes of [sample_queue_state] were
    committed by a flush of the keyframe queue. *)
Definition sample_committed_state : N.State :=
  match N.flush_keyframe_queue N.default_params (fun _ _ _ => []) sample_queue_state with
  | Ok (s, _) => s
  | Undefined _ => N.initial_state
  end.

(** The floor messages that a flush of the floor queue turns into edges:
    those stamped no later than [latest] and at the very stamp of a
    keyframe that [keyframe_hash] knows. *)
Definition floor_matched (s : N.State) (latest : Z) (queue : list N.FloorCoeffs)
    : list N.FloorCoeffs :=
  filter (fun m => (N.floor_stamp m <=? latest)%Z
                   && N.is_some (N.hash_find (N.keyframe_hash s) (N.floor_stamp m)))
         queue.

(** The vertex of the floor plane: the plane z = 0, fixed. *)
Definition floor_vertex : GraphSLAM.Vertex :=
  GraphSLAM.mkVertex (GraphSLAM.VertexPlane (mkV4 0 0 1 0)) true.

(** Is the floor vertex created by a flush that uses the messages
    [matched]? *)
Definition floor_vertex_created (s : N.State) (matched : list N.FloorCoeffs) : bool :=
  negb (N.is_some (N.floor_plane_node s))
  && match matched with [] => false | _ => true end.

(** The two keyframes of [sample_committed_state], stamped 1 s and 2 s,
    moved to the keyframes; floor messages wait at 1 s, at 1.5 s (the stamp
    of no keyframe) and at 3 s (after the latest keyframe). *)
Definition sample_floor_state : N.State :=
  N.set_floor_coeffs_queue
    [N.mkFloorCoeffs (N.sec 1) [0; 0; 1; 0];
     N.mkFloorCoeffs (N.sec 1 + 500000000) [0; 0; 1; 0];
     N.mkFloorCoeffs (N.sec 3) [0; 0; 1; 0]]
    (N.set_new_keyframes [] (N.set_keyframes [O; 1%nat] sample_committed_state)).

(** [keyframe->utm_coord] through a keyframe pointer; unset for a pointer
    that points nowhere. *)
Definition utm_of (s : N.State) (k : N.KeyFramePtr) : option UTMCoord :=
  match nth_error (N.heap s) k with
  | Some kf => kf_utm_coord kf
  | None => None
  end.

(** The origin of the map after a flush of the GPS queue that used the
    measurements at the positions [used], in that order: the origin there
    was, or else the first fix used. *)
Definition origin_after (fromMsg : N.GeoPoint -> UTMCoord) (zero_utm : option UTMCoord)
    (queue : list N.GeoPointStamped) (used : list (N.KeyFramePtr * nat)) : option UTMCoord :=
  match zero_utm, used with
  | Some z, _ => Some z
  | None, [] => None
  | None, (_, i) :: _ => option_map (fun m => fromMsg (N.position m)) (nth_error queue i)
  end.

(** What a GPS prior leaves in its keyframe: the keyframe had no position
    in [s], and in [s'] it has the position of the fix relative to the
    origin of the map. *)
Definition positioned (fromMsg : N.GeoPoint -> UTMCoord) (queue : list N.GeoPointStamped)
    (s s' : N.State) (u : N.KeyFramePtr * nat) : Prop :=
  utm_of s (fst u) = None
  /\ exists m z,
       nth_error queue (snd u) = Some m
       /\ N.zero_utm s' = Some z
       /\ utm_of s' (fst u) = Some (N.utm_sub (fromMsg (N.position m)) z).

(** The corridors of a vertical plane class in the state of the nodelet,
    the coordinate along which they lie, and the type of the edge between a
    corridor and one of its planes. *)
Definition class_corridors (plane_type : Z) (s : N.State) : list Corridors :=
  if (plane_type =? X_VERT_PLANE)%Z then N.x_corridors s else N.y_corridors s.

Definition corridor_axis (plane_type : Z) : Vector3d -> Q :=
  if (plane_type =? X_VERT_PLANE)%Z then v3_0 else v3_1.

Definition corridor_plane_edge (plane_type : Z) : GraphSLAM.EdgeType :=
  if (plane_type =? X_VERT_PLANE)%Z then GraphSLAM.EdgeCorridorXPlane
  else GraphSLAM.EdgeCorridorYPlane.

(** The distance that [associate_corridors] compares for the corridor
    [snd ic]: between the coordinate of the detected pose and that of the
    estimate of the corridor vertex. *)
Definition corridor_distance (gr : GraphSLAM.t) (axis : Vector3d -> Q) (corr_pose : Vector3d)
    (ic : nat * Corridors) : Q :=
  match GraphSLAM.estimate_corridor gr (co_node (snd ic)) with
  | Ok est => Qabs (axis corr_pose - axis est)
  | Undefined _ => 100
  end.

(** What the loop records for a corridor: its id and its position. *)
Definition corridor_association (ic : nat * Corridors) : Z * nat :=
  (co_id (snd ic), fst ic).

(** The type and the end points of an edge. *)
Definition edge_ends (e : GraphSLAM.Edge) : GraphSLAM.EdgeType * list GraphSLAM.VertexRef :=
  (GraphSLAM.e_type e, GraphSLAM.e_vertices e).

(** [sample_nodelet_state] after the corridor between its two X-vertical
    walls was added. *)
Definition sample_corridor_state : N.State :=
  match N.factor_corridors N.default_params X_VERT_PLANE
          (sample_wall (mkV4 1 0 0 (-1)) 1%Z) (sample_wall (mkV4 (-1) 0 0 (6 # 5)) 2%Z)
          sample_nodelet_state with
  | Ok s => s
  | Undefined _ => N.initial_state
  end.

(** The distance that [associate_rooms] compares for the room [snd ir]:
    between the detected pose and the estimate of the room vertex. *)
Definition room_distance (sqrt : Q -> Q) (gr : GraphSLAM.t) (room_pose : Vector2d)
    (ir : nat * Rooms) : Q :=
  match GraphSLAM.estimate_room gr (ro_node (snd ir)) with
  | Ok est =>
      let diff_x := v2_0 room_pose - v2_0 est in
      let diff_y := v2_1 room_pose - v2_1 est in
      sqrt (diff_x * diff_x + diff_y * diff_y)
  | Undefined _ => 100
  end.

(** What the loop records for a room: its id and its position. *)
Definition room_association (ir : nat * Rooms) : Z * nat :=
  (ro_id (snd ir), fst ir).

(** [sample_nodelet_state] after the room between its four walls was
    added. *)
Definition sample_room_state : N.State :=
  match N.factor_rooms (fun x => x) N.default_params
          [sample_wall (mkV4 1 0 0 (-1)) 1%Z; sample_wall (mkV4 (-1) 0 0 (6 # 5)) 2%Z]
          [sample_wall (mkV4 0 1 0 (-2)) 3%Z; sample_wall (mkV4 0 (-1) 0 2) 4%Z]
          sample_nodelet_state with
  | Ok s => s
  | Undefined _ => N.initial_state
  end.

(** The landmarks of the three classes in the state of the plane mapper. *)
Definition mapper_landmarks (s : PlaneMapper.State) : list VerticalPlanes :=
  (PlaneMapper.x_vert_planes s ++ PlaneMapper.y_vert_planes s
   ++ PlaneMapper.hort_planes s)%list.

(** A landmark holds as many supporting clouds as supporting keyframe
    nodes. *)
Definition supported (lm : VerticalPlanes) : Prop :=
  List.length (vp_cloud_seg_body_vec lm) = List.length (vp_keyframe_node_vec lm).

Definition cloud_size (c : option PointCloud) : nat :=
  match c with Some cloud => List.length cloud | None => O end.

(** The number of points of all the supporting clouds of a landmark. *)
Definition support_size (lm : VerticalPlanes) : nat :=
  list_sum (map cloud_size (vp_cloud_seg_body_vec lm)).

(** The map cloud of a landmark holds one point for every point of its
    supporting clouds. *)
Definition map_cloud_complete (lm : VerticalPlanes) : Prop :=
  exists cloud, vp_cloud_seg_map lm = Some cloud /\ List.length cloud = support_size lm.

(** [map_extracted_planes] goes on with a segment cloud of this size. *)
Definition enough_points (params : PlaneMapper.Params) (cloud_seg_body : PointCloud) : bool :=
  negb (Qltb (inject_Z (Z.of_nat (List.length cloud_seg_body)))
             (PlaneMapper.min_plane_points params)).

(** The defaults of the plane mapper, with [min_plane_points] set to 2. *)
Definition sample_mapper_params : PlaneMapper.Params :=
  PlaneMapper.mkParams false (1 # 100) (15 # 100) (1 # 2) 10 3 6 2 false false.

(** The sign correction of the nodelet on one plane, and on the two planes
    of a candidate. *)
Definition correct_one (plane_type : Z) (p : Plane3D) : Plane3D :=
  fst (N.correct_plane_d plane_type p p).

Definition corrected (plane_type : Z) (c : N.plane_data_list) : N.plane_data_list :=
  N.set_planes (correct_one plane_type (N.plane c)) (correct_one plane_type (N.plane_local c)) c.

(** A candidate after [times] sign corrections: corrected if [times] is
    odd, as it came if [times] is even. *)
Definition seen (plane_type : Z) (times : nat) (c : N.plane_data_list) : N.plane_data_list :=
  if Nat.odd times then corrected plane_type c else c.

(** What [sort_corridors] and [sort_rooms] push for the candidates [ci] and
    [cj] of a pair. *)
Definition corridor_pair (params : N.Params) (ci cj : N.plane_data_list)
    : list N.structure_data_list :=
  let corr_width := N.width_between_planes (coeffs (N.plane ci)) (coeffs (N.plane cj)) in
  let diff_plane_length := Qabs (N.plane_length ci - N.plane_length cj) in
  if Qltb (dot3 (head3 (coeffs (N.plane ci))) (head3 (coeffs (N.plane cj)))) 0
     && (Qltb corr_width (N.corridor_max_width params)
         && Qltb (N.corridor_min_width params) corr_width)
     && Qltb diff_plane_length (N.corridor_plane_length_diff_threshold params)
  then [N.mkStructureDataList ci cj corr_width diff_plane_length]
  else [].

Definition room_pair (params : N.Params) (ci cj : N.plane_data_list)
    : list N.structure_data_list :=
  let room_width := N.width_between_planes (coeffs (N.plane ci)) (coeffs (N.plane cj)) in
  let diff_plane_length := Qabs (N.plane_length ci - N.plane_length cj) in
  if Qltb (dot3 (head3 (coeffs (N.plane ci))) (head3 (coeffs (N.plane cj)))) 0
     && Qltb (N.room_min_width params) room_width
     && Qltb diff_plane_length (N.room_plane_length_diff_threshold params)
  then [N.mkStructureDataList ci cj room_width diff_plane_length]
  else [].

(** The pairs of positions [i < j] of the candidates in loop order, each
    judged by [emit] on the candidate [i] after [j] sign corrections and
    the candidate [j] after [i + 1] of them. *)
Definition candidate_pairs
    (emit : N.plane_data_list -> N.plane_data_list -> list N.structure_data_list)
    (plane_type : Z) (candidates : list N.plane_data_list) : list N.structure_data_list :=
  let size := List.length candidates in
  flat_map
    (fun i =>
       flat_map
         (fun j =>
            match nth_error candidates i, nth_error candidates j with
            | Some ci, Some cj => emit (seen plane_type j ci) (seen plane_type (S i) cj)
            | _, _ => []
            end)
         (seq (S i) (size - S i)))
    (seq 0 size).

(** The candidate list after the candidate at each position [k] was
    corrected [cnt k] times. *)
Definition corrected_times (plane_type : Z) (cnt : nat -> nat)
    (candidates : list N.plane_data_list) : list N.plane_data_list :=
  map (fun kc => Nat.iter (cnt (fst kc)) (corrected plane_type) (snd kc))
      (indexed O candidates).

(** The counts after the correction of the pair at [i] and [j]. *)
Definition bump (i j : nat) (cnt : nat -> nat) : nat -> nat :=
  fun k => if Nat.eqb k i || Nat.eqb k j then S (cnt k) else cnt k.





(** The keyframes of the nodelet: those of the graph that were optimized,
    and those added since. *)
Definition committed (s : N.State) : list N.KeyFramePtr * list N.KeyFramePtr :=
  (N.keyframes s, N.new_keyframes s).

(** * Properties *)

(** ** Comparisons *)

Lemma Qltb_lt (a b : Q) : Qltb a b = true <-> a < b.
Proof.
  unfold Qltb. rewrite negb_true_iff.
  split; intro H.
  - apply Qnot_le_lt. intro Hle. apply Qle_bool_iff in Hle. congruence.
  - destruct (Qle_bool b a) eqn:E; [|reflexivity].
    apply Qle_bool_iff in E. exfalso. apply (Qlt_not_le _ _ H E).
Qed.

Lemma Qltb_ge (a b : Q) : Qltb a b = false <-> b <= a.
Proof.
  unfold Qltb. rewrite negb_false_iff. apply Qle_bool_iff.
Qed.

Lemma Qle_bool_false (a b : Q) : Qle_bool a b = false <-> b < a.
Proof.
  split; intro H.
  - apply Qnot_le_lt. intro Hle. apply Qle_bool_iff in Hle. congruence.
  - destruct (Qle_bool a b) eqn:E; [|reflexivity].
    apply Qle_bool_iff in E. exfalso. apply (Qlt_not_le _ _ H E).
Qed.

Lemma neg1_neg1 (x : Q) : -1 * (-1 * x) = x.
Proof.
  destruct x as [n den]. unfold Qmult. simpl. f_equal. destruct n; reflexivity.
Qed.

Lemma neg1_pos (x : Q) : 0 < x -> Qltb 0 (-1 * x) = false.
Proof. intro H. apply Qltb_ge. lra. Qed.

(** ** Sign correction (C9) *)

Lemma negate_d_involutive (p : Vector4d) :
  HdlGraphSlamNodelet.negate_d (HdlGraphSlamNodelet.negate_d p) = p.
Proof.
  destruct p as [a0 a1 a2 a3]. unfold HdlGraphSlamNodelet.negate_d. simpl.
  now rewrite neg1_neg1.
Qed.

(** The nodelet overload applied to its own result gives back the planes
    it started from. *)
Lemma nodelet_correct_plane_d_involutive (plane_type : Z) (plane1 plane2 : Plane3D) :
  let once := HdlGraphSlamNodelet.correct_plane_d plane_type plane1 plane2 in
  HdlGraphSlamNodelet.correct_plane_d plane_type (fst once) (snd once) = (plane1, plane2).
Proof.
  unfold HdlGraphSlamNodelet.correct_plane_d, coeffs.
  destruct (plane_type =? X_VERT_PLANE)%Z eqn:EX;
    destruct (plane_type =? Y_VERT_PLANE)%Z eqn:EY;
    try (apply Z.eqb_eq in EX; apply Z.eqb_eq in EY; subst; discriminate);
    cbn [fst snd].
  - destruct (Qltb (c0 plane1) 0) eqn:E1; destruct (Qltb (c0 plane2) 0) eqn:E2;
      cbn [fst snd HdlGraphSlamNodelet.negate_d c0]; rewrite ?E1, ?E2;
      cbn [fst snd]; rewrite ?negate_d_involutive; reflexivity.
  - destruct (Qltb (c1 plane1) 0) eqn:E1; destruct (Qltb (c1 plane2) 0) eqn:E2;
      cbn [fst snd HdlGraphSlamNodelet.negate_d c1]; rewrite ?E1, ?E2;
      cbn [fst snd]; rewrite ?negate_d_involutive; reflexivity.
  - reflexivity.
Qed.

(** C9, as the code has it: the two [PlaneUtils] overloads of
    [correct_plane_d] are idempotent; the nodelet overload, which negates
    the offset alone, gives back the original planes when applied twice, so
    that twice equals once exactly for the planes it leaves unchanged. *)
Theorem correct_plane_d_twice :
  (forall plane_type plane,
      PlaneUtils.correct_plane_d_msg plane_type
        (PlaneUtils.correct_plane_d_msg plane_type plane)
      = PlaneUtils.correct_plane_d_msg plane_type plane)
  /\ (forall plane_type plane px py,
      PlaneUtils.correct_plane_d plane_type
        (PlaneUtils.correct_plane_d plane_type plane px py) px py
      = PlaneUtils.correct_plane_d plane_type plane px py)
  /\ (forall plane_type plane1 plane2,
      let once := HdlGraphSlamNodelet.correct_plane_d plane_type plane1 plane2 in
      let twice := HdlGraphSlamNodelet.correct_plane_d plane_type (fst once) (snd once) in
      twice = (plane1, plane2) /\ (twice = once <-> once = (plane1, plane2))).
Proof.
  split; [|split].
  - intros plane_type plane. unfold PlaneUtils.correct_plane_d_msg.
    destruct (Qltb 0 (PlaneUtils.d plane)) eqn:E.
    + cbn [PlaneUtils.d]. apply Qltb_lt in E. now rewrite (neg1_pos _ E).
    + now rewrite E.
  - intros plane_type plane px py. unfold PlaneUtils.correct_plane_d.
    destruct (Qltb 0 (c3 plane)) eqn:E.
    + cbn [c3]. apply Qltb_lt in E. now rewrite (neg1_pos _ E).
    + now rewrite E.
  - intros plane_type plane1 plane2 once twice.
    assert (Ht : twice = (plane1, plane2))
      by apply nodelet_correct_plane_d_involutive.
    split; [exact Ht|]. rewrite Ht. split; intro H; now symmetry.
Qed.

(** C9 as stated fails for the nodelet overload: for the X-vertical plane
    (-1, 0, 0, 1) one application gives offset -1, a second one gives the
    offset 1 back. *)
Lemma correct_plane_d_not_idempotent :
  let p := mkV4 (-1) 0 0 1 in
  let once := HdlGraphSlamNodelet.correct_plane_d X_VERT_PLANE p p in
  let twice := HdlGraphSlamNodelet.correct_plane_d X_VERT_PLANE (fst once) (snd once) in
  c3 (fst once) == -1 /\ c3 (fst twice) == 1 /\ ~ v4_eq (fst twice) (fst once).
Proof.
  cbv zeta. split; [reflexivity|]. split; [reflexivity|].
  unfold v4_eq. intros (_ & _ & _ & H). vm_compute in H. discriminate.
Qed.

(** ** Plane widths (C10) *)

Lemma vec_of_none (d1 : Q) (n1 : Vector3d) (d2 : Q) (n2 : Vector3d) :
  PlaneUtils.vec_of d1 n1 d2 n2 = None <-> Qabs d1 == Qabs d2.
Proof.
  unfold PlaneUtils.vec_of.
  destruct (Qltb (Qabs d2) (Qabs d1)) eqn:E1.
  - apply Qltb_lt in E1. split; [discriminate|]. intro H. lra.
  - destruct (Qltb (Qabs d1) (Qabs d2)) eqn:E2.
    + apply Qltb_lt in E2. split; [discriminate|]. intro H. lra.
    + apply Qltb_ge in E1. apply Qltb_ge in E2. split; [|reflexivity].
      intros _. lra.
Qed.

Lemma size_of_none (vec : option Vector3d) :
  PlaneUtils.size_of vec = None <-> vec = None.
Proof. destruct vec; simpl; split; congruence. Qed.

(** C10: in both overloads of [PlaneUtils::width_between_planes] the vector
    [vec] is assigned, and the returned width defined, exactly when the two
    offsets differ in magnitude; with equal magnitudes [vec] is read
    unassigned.  Where the width is defined it is
    [fabs(vec(0) + vec(1))] for the difference of the normals weighted by
    the magnitudes of their offsets, the larger first. *)
Theorem width_between_planes_defined (v1 v2 : Vector4d)
    (plane1 plane2 : PlaneUtils.PlaneData) :
  (PlaneUtils.width_between_planes v1 v2 = None <-> Qabs (c3 v1) == Qabs (c3 v2))
  /\ (PlaneUtils.width_between_planes_msg plane1 plane2 = None
      <-> Qabs (PlaneUtils.d plane1) == Qabs (PlaneUtils.d plane2))
  /\ (Qabs (c3 v2) < Qabs (c3 v1) <->
      PlaneUtils.width_between_planes v1 v2
      = Some (Qabs ((Qabs (c3 v1) * c0 v1 - Qabs (c3 v2) * c0 v2)
                    + (Qabs (c3 v1) * c1 v1 - Qabs (c3 v2) * c1 v2)))
        /\ Qltb (Qabs (c3 v2)) (Qabs (c3 v1)) = true).
Proof.
  split; [|split].
  - unfold PlaneUtils.width_between_planes. rewrite size_of_none. apply vec_of_none.
  - unfold PlaneUtils.width_between_planes_msg. cbv zeta. rewrite size_of_none.
    apply vec_of_none.
  - split.
    + intro H. apply Qltb_lt in H. split; [|exact H].
      unfold PlaneUtils.width_between_planes, PlaneUtils.vec_of. rewrite H. reflexivity.
    + intros [_ H]. now apply Qltb_lt.
Qed.

(** ** Corridor candidates (C1) *)

Lemma Qltb_true (a b : Q) : a < b -> Qltb a b = true.
Proof. apply Qltb_lt. Qed.

Lemma Qltb_false (a b : Q) : b <= a -> Qltb a b = false.
Proof. apply Qltb_ge. Qed.

Lemma Qabs_diff_zero (a b : Q) : a == b -> Qabs (a - b) == 0.
Proof.
  intro H. assert (E : a - b == 0) by lra. rewrite E. reflexivity.
Qed.

(** [sort_corridors] on two candidates is one round of the loop body. *)
Lemma sort_corridors_two (params : HdlGraphSlamNodelet.Params) (plane_type : Z)
    (a b : HdlGraphSlamNodelet.plane_data_list) :
  HdlGraphSlamNodelet.sort_corridors params plane_type [a; b]
  = bind (HdlGraphSlamNodelet.corridor_step params plane_type 0 1 ([a; b], []))
         (fun st => Ok (snd st)).
Proof.
  unfold HdlGraphSlamNodelet.sort_corridors. cbn [List.length seq Nat.sub].
  cbn [HdlGraphSlamNodelet.outer_loop HdlGraphSlamNodelet.inner_loop seq Nat.sub].
  destruct (HdlGraphSlamNodelet.corridor_step params plane_type 0 1 ([a; b], []))
    as [[cands vec]|why]; reflexivity.
Qed.

Lemma correct_opposing :
  N.correct_plane_d X_VERT_PLANE (mkV4 1 0 0 (-1)) (mkV4 (-1) 0 0 (- (6 # 5)))
  = (mkV4 1 0 0 (-1), mkV4 (-1) 0 0 (6 # 5)).
Proof. reflexivity. Qed.

Lemma correct_opposing_wide :
  N.correct_plane_d X_VERT_PLANE (mkV4 1 0 0 (-1)) (mkV4 (-1) 0 0 (-2))
  = (mkV4 1 0 0 (-1), mkV4 (-1) 0 0 2).
Proof. reflexivity. Qed.

Lemma correct_same_normals :
  N.correct_plane_d X_VERT_PLANE (mkV4 1 0 0 (-1)) (mkV4 1 0 0 (6 # 5))
  = (mkV4 1 0 0 (-1), mkV4 1 0 0 (6 # 5)).
Proof. reflexivity. Qed.

(** C1, as the code has it.  With [corridor_min_width = 1.5],
    [corridor_max_width = 2.5], a positive length-difference threshold and
    two X-vertical candidates of equal length whose first plane is
    (1, 0, 0, -1.0):
    - if the second plane is (-1, 0, 0, -1.2), the normals oppose, the sign
      correction turns its offset into 1.2, the width is 2.2 and
      [sort_corridors] emits the pair;
    - if the second plane is (-1, 0, 0, -2.0), the width is 3.0 and nothing
      is emitted;
    - if the second plane is (1, 0, 0, 1.2), the sign correction changes
      nothing, the normals do not oppose and nothing is emitted. *)
Theorem sort_corridors_gating (params : N.Params)
    (a b : N.plane_data_list)
    (Hmin : N.corridor_min_width params == 3 # 2)
    (Hmax : N.corridor_max_width params == 5 # 2)
    (Hthr : 0 < N.corridor_plane_length_diff_threshold params)
    (Hlen : N.plane_length a == N.plane_length b)
    (Ha : N.plane a = mkV4 1 0 0 (-1)) :
  (N.plane b = mkV4 (-1) 0 0 (- (6 # 5)) ->
   exists pair,
     N.sort_corridors params X_VERT_PLANE [a; b] = Ok [pair]
     /\ N.width pair == 11 # 5
     /\ N.plane (N.plane1 pair) = mkV4 1 0 0 (-1)
     /\ N.plane (N.plane2 pair) = mkV4 (-1) 0 0 (6 # 5)
     /\ N.plane_id (N.plane1 pair)
        = N.plane_id a
     /\ N.plane_id (N.plane2 pair)
        = N.plane_id b)
  /\ (N.plane b = mkV4 (-1) 0 0 (-2) ->
      N.sort_corridors params X_VERT_PLANE [a; b] = Ok [])
  /\ (N.plane b = mkV4 1 0 0 (6 # 5) ->
      N.sort_corridors params X_VERT_PLANE [a; b] = Ok []).
Proof.
  destruct a as [la pa ia lena na ta sa], b as [lb pb ib lenb nb tb sb].
  cbn [N.plane N.plane_length
       N.plane_id] in *. subst pa.
  assert (Hd : Qltb (Qabs (lena - lenb))
                    (N.corridor_plane_length_diff_threshold params) = true).
  { apply Qltb_true. rewrite (Qabs_diff_zero _ _ Hlen). exact Hthr. }
  rewrite !sort_corridors_two.
  unfold N.corridor_step, N.correct_candidates.
  cbn [at_index nth_error bind N.plane N.plane_local].
  destruct (N.correct_plane_d X_VERT_PLANE la lb) as [li lj].
  split; [|split]; intro Hb; subst pb.
  - rewrite correct_opposing.
    cbn [bind N.set_planes N.plane
         N.plane_length coeffs].
    rewrite Hd.
    replace (Qltb (dot3 _ _) 0) with true by reflexivity.
    rewrite (Qltb_true _ (N.corridor_max_width params))
      by (rewrite Hmax; reflexivity).
    rewrite (Qltb_true (N.corridor_min_width params))
      by (rewrite Hmin; reflexivity).
    cbn [andb bind snd app]. eexists. split; [reflexivity|].
    cbn [N.width N.plane1 N.plane2
         N.plane N.plane_id].
    repeat split; reflexivity.
  - rewrite correct_opposing_wide.
    cbn [bind N.set_planes N.plane
         N.plane_length coeffs].
    rewrite (Qltb_false _ (N.corridor_max_width params))
      by (rewrite Hmax; discriminate).
    cbn [andb]. rewrite andb_false_r. reflexivity.
  - rewrite correct_same_normals.
    cbn [bind N.set_planes N.plane
         N.plane_length coeffs].
    replace (Qltb (dot3 _ _) 0) with false by reflexivity.
    reflexivity.
Qed.

Lemma sort_corridors_gating_witness :
  let a := sample_candidate (mkV4 1 0 0 (-1)) 4%Z in
  let b := sample_candidate (mkV4 (-1) 0 0 (- (6 # 5))) 5%Z in
  (N.corridor_min_width N.default_params == 3 # 2
   /\ N.corridor_max_width N.default_params == 5 # 2
   /\ 0 < N.corridor_plane_length_diff_threshold N.default_params
   /\ N.plane_length a == N.plane_length b
   /\ N.plane a = mkV4 1 0 0 (-1))
  /\ exists pair,
       N.sort_corridors N.default_params X_VERT_PLANE [a; b] = Ok [pair]
       /\ N.width pair == 11 # 5.
Proof.
  intros a b. split; [repeat split; reflexivity|].
  destruct (sort_corridors_gating N.default_params a b) as [H _];
    try reflexivity.
  destruct (H eq_refl) as (pair & Hs & Hw & _).
  exists pair. split; [exact Hs|exact Hw].
Defined.

(** C1 as stated fails: for the planes (1, 0, 0, -1.0) and (1, 0, 0, 1.2)
    of the specification, with equal lengths and the widths 1.5 and 2.5,
    [sort_corridors] emits nothing; the width is 2.2 but the normals are
    equal, and the sign correction leaves both planes as they are. *)
Lemma sort_corridors_same_normals_rejected :
  let a := sample_candidate (mkV4 1 0 0 (-1)) 4%Z in
  let b := sample_candidate (mkV4 1 0 0 (6 # 5)) 5%Z in
  N.correct_plane_d X_VERT_PLANE (N.plane a) (N.plane b) = (N.plane a, N.plane b)
  /\ N.width_between_planes (coeffs (N.plane a)) (coeffs (N.plane b)) == 11 # 5
  /\ N.sort_corridors N.default_params X_VERT_PLANE [a; b] = Ok [].
Proof. cbv zeta. repeat split. Qed.

(** ** Room refinement (C7) *)

Lemma refine_rooms_inner_fold x ys st :
  N.refine_rooms_inner x ys st = fold_left select (map (pair x) ys) st.
Proof.
  revert st. induction ys as [|y ys IH]; intro st; [reflexivity|].
  cbn [N.refine_rooms_inner map fold_left]. destruct st as [[m xr] yr].
  unfold select at 2. cbn [fst snd]. unfold width_diff at 1 2. cbn [fst snd].
  destruct (Qltb (Qabs (N.width x - N.width y)) m); apply IH.
Qed.

Lemma refine_rooms_outer_fold xs ys st :
  N.refine_rooms_outer xs ys st = fold_left select (combinations xs ys) st.
Proof.
  revert st. induction xs as [|x xs IH]; intro st; [reflexivity|].
  cbn [N.refine_rooms_outer combinations flat_map]. rewrite fold_left_app.
  rewrite IH, refine_rooms_inner_fold. reflexivity.
Qed.

Lemma selected_step pre st c :
  selected pre st -> selected (pre ++ [c]) (select st c).
Proof.
  intros [[-> Hall]|(k & c0 & Hk & -> & Hlt & Hmin & Hfirst)]; unfold select; cbn [fst].
  - destruct (Qltb (width_diff c) (5 # 2)) eqn:E.
    + apply Qltb_lt in E. right. exists (List.length pre), c.
      split; [now rewrite nth_error_app2, Nat.sub_diag by lia|].
      split; [reflexivity|]. split; [exact E|]. split.
      * intros c' Hin. apply in_app_or in Hin. destruct Hin as [Hin|[<-|[]]].
        -- rewrite Forall_forall in Hall. specialize (Hall _ Hin). lra.
        -- lra.
      * intros k' c' Hk' Hn. rewrite nth_error_app1 in Hn by exact Hk'.
        apply nth_error_In in Hn. rewrite Forall_forall in Hall.
        specialize (Hall _ Hn). lra.
    + apply Qltb_ge in E. left. split; [reflexivity|].
      apply Forall_app. split; [exact Hall|]. constructor; [exact E|constructor].
  - assert (Hkl : (k < List.length pre)%nat)
      by (apply nth_error_Some; congruence).
    destruct (Qltb (width_diff c) (width_diff c0)) eqn:E.
    + apply Qltb_lt in E. right. exists (List.length pre), c.
      split; [now rewrite nth_error_app2, Nat.sub_diag by lia|].
      split; [reflexivity|]. split; [lra|]. split.
      * intros c' Hin. apply in_app_or in Hin. destruct Hin as [Hin|[<-|[]]].
        -- specialize (Hmin _ Hin). lra.
        -- lra.
      * intros k' c' Hk' Hn. rewrite nth_error_app1 in Hn by exact Hk'.
        apply nth_error_In in Hn. specialize (Hmin _ Hn). lra.
    + apply Qltb_ge in E. right. exists k, c0.
      split; [now rewrite nth_error_app1 by exact Hkl|].
      split; [reflexivity|]. split; [exact Hlt|]. split.
      * intros c' Hin. apply in_app_or in Hin. destruct Hin as [Hin|[<-|[]]].
        -- now apply Hmin.
        -- exact E.
      * intros k' c' Hk' Hn. rewrite nth_error_app1 in Hn by lia.
        now apply (Hfirst k').
Qed.

Lemma selected_fold cs : forall pre st,
  selected pre st -> selected (pre ++ cs) (fold_left select cs st).
Proof.
  induction cs as [|c cs IH]; intros pre st H.
  - now rewrite app_nil_r.
  - cbn [fold_left]. replace (pre ++ c :: cs)%list with ((pre ++ [c]) ++ cs)%list
      by now rewrite <- app_assoc.
    apply IH. now apply selected_step.
Qed.

(** C7: [refine_rooms] returns the planes of the (X pair, Y pair)
    combination with the least [|width_x - width_y|], the first such
    combination in the order of the loops, and two empty vectors when no
    combination has a width difference below 2.5; for X pairs of widths 3.0
    and 4.0 and Y pairs of widths 3.1 and 5.0 it returns the X pair of width
    3.0 with the Y pair of width 3.1. *)
Theorem refine_rooms_selects :
  (forall x_room_vec y_room_vec,
      (N.refine_rooms x_room_vec y_room_vec = ([], [])
       /\ Forall (fun c => 5 # 2 <= width_diff c) (combinations x_room_vec y_room_vec))
      \/ (exists k x y,
            nth_error (combinations x_room_vec y_room_vec) k = Some (x, y)
            /\ N.refine_rooms x_room_vec y_room_vec
               = ([N.plane1 x; N.plane2 x], [N.plane1 y; N.plane2 y])
            /\ width_diff (x, y) < 5 # 2
            /\ (forall c, In c (combinations x_room_vec y_room_vec) ->
                          width_diff (x, y) <= width_diff c)
            /\ (forall k' c, (k' < k)%nat ->
                             nth_error (combinations x_room_vec y_room_vec) k' = Some c ->
                             width_diff (x, y) < width_diff c)))
  /\ (forall x1 x2 x3 x4 y1 y2 y3 y4 l1 l2 l3 l4,
         N.refine_rooms [N.mkStructureDataList x1 x2 3 l1; N.mkStructureDataList x3 x4 4 l2]
                      [N.mkStructureDataList y1 y2 (31 # 10) l3; N.mkStructureDataList y3 y4 5 l4]
         = ([x1; x2], [y1; y2])).
Proof.
  split; [|reflexivity].
  intros xs ys. unfold N.refine_rooms. rewrite refine_rooms_outer_fold.
  assert (H : selected (combinations xs ys)
                (fold_left select (combinations xs ys)
                   (5 # 2, [N.default_plane_data_list; N.default_plane_data_list],
                    [N.default_plane_data_list; N.default_plane_data_list]))).
  { apply (selected_fold _ []). left. split; [reflexivity|constructor]. }
  destruct H as [[-> Hall]|(k & [x y] & Hk & -> & Hlt & Hmin & Hfirst)].
  - left. split; [reflexivity|exact Hall].
  - right. exists k, x, y. split; [exact Hk|].
    split; [|repeat split; assumption].
    replace (Qle_bool (5 # 2) (width_diff (x, y))) with false
      by (symmetry; now apply Qle_bool_false).
    reflexivity.
Qed.

(** ** The neighbour-overlap veto (C3) *)

Lemma has_neighbour_existsb (min_dist : Q) (p : PointNormal) (cloud_2 : PointCloud) :
  PlaneUtils.has_neighbour min_dist p cloud_2
  = existsb (fun q => Qltb (squaredNorm_diff p q) min_dist) cloud_2.
Proof.
  induction cloud_2 as [|q rest IH]; [reflexivity|].
  cbn [PlaneUtils.has_neighbour existsb].
  destruct (Qltb (squaredNorm_diff p q) min_dist); [reflexivity|exact IH].
Qed.

Lemma neighbours_loop_count (cloud_2 cloud_1 : PointCloud) : forall point_count : Z,
  (point_count <= 100)%Z ->
  PlaneUtils.neighbours_loop (1 # 2) cloud_1 cloud_2 point_count
  = (100 <? point_count + Z.of_nat (overlap_count cloud_1 cloud_2))%Z.
Proof.
  induction cloud_1 as [|p rest IH]; intros n Hn.
  - cbn. symmetry. apply Z.ltb_ge. lia.
  - cbn [PlaneUtils.neighbours_loop]. unfold overlap_count. cbn [filter].
    unfold within_gate at 1. rewrite <- has_neighbour_existsb.
    destruct (PlaneUtils.has_neighbour (1 # 2) p cloud_2).
    + cbn [List.length]. fold (overlap_count rest cloud_2).
      destruct (100 <? n + 1)%Z eqn:E.
      * symmetry. apply Z.ltb_lt. apply Z.ltb_lt in E. lia.
      * apply Z.ltb_ge in E. rewrite IH by exact E. f_equal. lia.
    + fold (overlap_count rest cloud_2).
      destruct (100 <? n)%Z eqn:E; [apply Z.ltb_lt in E; lia|].
      now apply IH.
Qed.

Lemma check_point_neighbours_count (cloud_1 cloud_2 : PointCloud) :
  PlaneUtils.check_point_neighbours cloud_1 cloud_2
  = (101 <=? overlap_count cloud_1 cloud_2)%nat.
Proof.
  unfold PlaneUtils.check_point_neighbours. cbv zeta.
  rewrite neighbours_loop_count by lia.
  destruct (101 <=? overlap_count cloud_1 cloud_2)%nat eqn:E.
  - apply Nat.leb_le in E. apply Z.ltb_lt. lia.
  - apply Nat.leb_gt in E. apply Z.ltb_ge. lia.
Qed.

Section Veto.

Variable maha_dist : Isometry3d -> Plane3D -> Matrix3d -> Plane3D -> option Q.
Variable params : PlaneMapper.Params.

Lemma vert_overlap_veto_spec (gr : GraphSLAM.t) (kf : KeyFrame)
    (planes : list VerticalPlanes) (vert_min_maha_dist : Q) (da : Z * nat)
    (est : Isometry3d) (lm : VerticalPlanes) (p : PointNormal) (map_cloud body : PointCloud) :
  vert_min_maha_dist < PlaneMapper.plane_dist_threshold params ->
  at_index planes (snd da) = Ok lm ->
  vp_cloud_seg_map lm = Some (p :: map_cloud) ->
  node_estimate gr (kf_node kf) = Ok est ->
  PlaneMapper.vert_overlap_veto params gr kf (Some body) planes vert_min_maha_dist da
  = Ok (if (101 <=? overlap_count (p :: map_cloud) (map (transform_point est) body))%nat
        then da else ((-1)%Z, snd da)).
Proof.
  intros Hlt Hlm Hmap Hest. unfold PlaneMapper.vert_overlap_veto.
  rewrite (Qltb_true _ _ Hlt), Hlm. cbn [bind]. rewrite Hmap. cbn [deref bind].
  rewrite Hest. cbn [bind]. rewrite check_point_neighbours_count.
  destruct (101 <=? _)%nat; reflexivity.
Qed.

(** C3, as the code has it.  For a vertical class, when the least
    Mahalanobis distance is below [plane_dist_threshold] and the map cloud
    of the landmark that attains it is not empty, [associate_plane] keeps
    the match exactly when more than 100 points (at least 101) of that map
    cloud have a point of the transformed detection cloud at a squared
    distance below 0.5; otherwise it answers -1, and [factor_planes] then
    appends a new landmark whose id is the local vertex count. *)
Theorem associate_plane_overlap_veto (plane_type : Z) (s : PlaneMapper.State)
    (det_plane : Plane3D) (body : PointCloud) (est : Isometry3d) (lm : VerticalPlanes)
    (p : PointNormal) (map_cloud : PointCloud) :
  let planes := if (plane_type =? X_VERT_PLANE)%Z
                then PlaneMapper.x_vert_planes s else PlaneMapper.y_vert_planes s in
  let found := PlaneMapper.vert_loop maha_dist (inverse est) det_plane planes O 100 (0%Z, O) in
  let detected := map (transform_point est) body in
  plane_type = X_VERT_PLANE \/ plane_type = Y_VERT_PLANE ->
  node_estimate (PlaneMapper.graph_slam s) (kf_node (PlaneMapper.keyframe s)) = Ok est ->
  fst found < PlaneMapper.plane_dist_threshold params ->
  at_index planes (snd (snd found)) = Ok lm ->
  vp_cloud_seg_map lm = Some (p :: map_cloud) ->
  PlaneMapper.associate_plane maha_dist params plane_type s det_plane (Some body)
  = Ok (s, (if (101 <=? overlap_count (p :: map_cloud) detected)%nat
            then fst (snd found) else (-1)%Z,
            snd (snd found)))
  /\ (forall gr kf det_plane_map_frame color k,
         PlaneMapper.landmark_color plane_type kf = Ok color ->
         exists gr' kf' vert_plane plane_node,
           PlaneMapper.factor_case plane_type gr kf det_plane_map_frame planes ((-1)%Z, k)
           = Ok (gr', kf', (planes ++ [vert_plane])%list, plane_node,
                 (GraphSLAM.num_vertices_local gr, k))
           /\ vp_id vert_plane = GraphSLAM.num_vertices_local gr
           /\ vp_plane vert_plane = det_plane_map_frame
           /\ GraphSLAM.num_vertices gr' = (GraphSLAM.num_vertices gr + 1)%Z).
Proof.
  intros planes found detected Htype Hest Hlt Hlm Hmap. split.
  - unfold PlaneMapper.associate_plane. cbv zeta. rewrite Hest. cbn [bind].
    assert (Hveto := vert_overlap_veto_spec (PlaneMapper.graph_slam s)
                       (PlaneMapper.keyframe s) planes (fst found) (snd found)
                       est lm p map_cloud body Hlt Hlm Hmap Hest).
    fold detected in Hveto.
    destruct Htype as [-> | ->]; cbn [Z.eqb X_VERT_PLANE Y_VERT_PLANE Pos.eqb] in *;
      subst planes; fold found; destruct found as [vmin da]; cbn [fst snd] in *;
      rewrite Hveto; cbn [bind]; destruct (101 <=? _)%nat; destruct da; reflexivity.
  - intros gr kf det color k Hcolor. unfold PlaneMapper.factor_case.
    cbn [fst snd Z.eqb Pos.eqb]. rewrite orb_true_r.
    cbn [GraphSLAM.add_plane_node GraphSLAM.add_vertex]. rewrite Hcolor. cbn [bind].
    do 4 eexists. split; [reflexivity|]. split; [reflexivity|]. split; [reflexivity|].
    unfold GraphSLAM.num_vertices. cbn [GraphSLAM.vertices].
    rewrite length_app. cbn [List.length]. lia.
Qed.

End Veto.

Lemma associate_plane_overlap_veto_witness :
  let body := [sample_point 0 0 0] in
  let map_cloud := repeat (sample_point 0 0 0) 101 in
  let s := sample_mapper_state map_cloud body in
  PlaneMapper.associate_plane sample_maha_dist PlaneMapper.default_params X_VERT_PLANE s
                              (mkV4 1 0 0 (-1)) (Some body)
  = Ok (s, (1%Z, O)).
Proof.
  intros body map_cloud s.
  destruct (associate_plane_overlap_veto sample_maha_dist PlaneMapper.default_params
              X_VERT_PLANE s (mkV4 1 0 0 (-1)) body Matrix4d_Identity
              (sample_landmark map_cloud) (sample_point 0 0 0)
              (repeat (sample_point 0 0 0) 100)) as [H _].
  - left; reflexivity.
  - reflexivity.
  - reflexivity.
  - reflexivity.
  - reflexivity.
  - exact H.
Defined.

(** C3 as stated fails on both numbers: with exactly 100 map points on top
    of a detected point the match is dropped, and with 101 map points at a
    squared distance of 0.29 (more than 0.5 * 0.5) the match is kept. *)
Lemma overlap_veto_not_as_claimed :
  let origin := sample_point 0 0 0 in
  let near := sample_point (1 # 2) (1 # 5) 0 in
  ((100 <= claimed_overlap_count (repeat origin 100) [origin])%nat
   /\ PlaneMapper.vert_overlap_veto PlaneMapper.default_params sample_graph
        (sample_keyframe [origin]) (Some [origin]) [sample_landmark (repeat origin 100)]
        (1 # 10) (1%Z, O)
      = Ok ((-1)%Z, O))
  /\ (claimed_overlap_count (repeat origin 101) [near] = O
      /\ PlaneMapper.vert_overlap_veto PlaneMapper.default_params sample_graph
           (sample_keyframe [near]) (Some [near]) [sample_landmark (repeat origin 101)]
           (1 # 10) (1%Z, O)
         = Ok (1%Z, O)).
Proof.
  cbv zeta. repeat split; vm_compute; reflexivity.
Qed.

(** ** Landmark ids (C2) *)

Ltac bind_inv H :=
  repeat match type of H with
  | bind ?m _ = Ok _ =>
      let E := fresh "E" in
      destruct m eqn:E; cbn [bind] in H; [|discriminate H]
  | (let '(_, _) := ?p in _) = Ok _ => destruct p
  | (match ?p with (_, _) => _ end) = Ok _ => destruct p
  end.

Lemma add_edge_vertices ty vs meas info gr :
  GraphSLAM.vertices (fst (GraphSLAM.add_edge ty vs meas info gr)) = GraphSLAM.vertices gr
  /\ GraphSLAM.vertex_count (fst (GraphSLAM.add_edge ty vs meas info gr))
     = GraphSLAM.vertex_count gr.
Proof. split; reflexivity. Qed.

Lemma add_robust_kernel_vertices e k sz gr :
  GraphSLAM.vertices (GraphSLAM.add_robust_kernel e k sz gr) = GraphSLAM.vertices gr
  /\ GraphSLAM.vertex_count (GraphSLAM.add_robust_kernel e k sz gr)
     = GraphSLAM.vertex_count gr.
Proof.
  unfold GraphSLAM.add_robust_kernel.
  destruct (String.eqb k "NONE"); [split; reflexivity|].
  destruct (nth_error (GraphSLAM.edges gr) e); split; reflexivity.
Qed.

Lemma kernel_edge_vertices ty vs meas info k sz gr :
  GraphSLAM.vertices
    (let '(gr', e) := GraphSLAM.add_edge ty vs meas info gr in
     GraphSLAM.add_robust_kernel e k sz gr') = GraphSLAM.vertices gr
  /\ GraphSLAM.vertex_count
    (let '(gr', e) := GraphSLAM.add_edge ty vs meas info gr in
     GraphSLAM.add_robust_kernel e k sz gr') = GraphSLAM.vertex_count gr.
Proof.
  destruct (GraphSLAM.add_edge ty vs meas info gr) as [gr' e] eqn:E.
  pose proof (add_edge_vertices ty vs meas info gr) as [H1 H2]. rewrite E in H1, H2.
  cbn [fst] in H1, H2.
  pose proof (add_robust_kernel_vertices e k sz gr') as [H3 H4].
  split; congruence.
Qed.

Lemma convert_planes_ids gr planes : forall planes',
  PlaneMapper.convert_planes gr planes = Ok planes' ->
  map id_node planes' = map id_node planes.
Proof.
  induction planes as [|lm rest IH]; intros planes' H; cbn in H.
  - now inversion H.
  - bind_inv H. inversion H; subst. cbn. f_equal. now apply IH.
Qed.

Lemma convert_plane_points_to_map_ids s s' :
  PlaneMapper.convert_plane_points_to_map s = Ok s' ->
  landmark_ids s' = landmark_ids s
  /\ PlaneMapper.graph_slam s' = PlaneMapper.graph_slam s.
Proof.
  unfold PlaneMapper.convert_plane_points_to_map. intro H. bind_inv H.
  inversion H; subst. unfold landmark_ids. cbn.
  rewrite (convert_planes_ids _ _ _ E), (convert_planes_ids _ _ _ E0),
    (convert_planes_ids _ _ _ E1). split; reflexivity.
Qed.

Lemma set_index_ids {A B} (f : A -> B) (v : list A) (i : nat) (a a' : A) :
  nth_error v i = Some a -> f a' = f a ->
  map f (set_index v i a') = map f v.
Proof.
  revert i. induction v as [|x rest IH]; intros [|i] Hn Hf; cbn in *; try discriminate.
  - inversion Hn; subst. now rewrite Hf.
  - f_equal. now apply IH.
Qed.

Lemma factor_case_ids plane_type gr kf det planes da gr' kf' planes' pn da' :
  PlaneMapper.factor_case plane_type gr kf det planes da = Ok (gr', kf', planes', pn, da') ->
  (gr' = gr /\ map id_node planes' = map id_node planes)
  \/ (fst da' = GraphSLAM.num_vertices_local gr
      /\ map id_node planes'
         = (map id_node planes
            ++ [(GraphSLAM.num_vertices_local gr, List.length (GraphSLAM.vertices gr))])%list
      /\ GraphSLAM.vertices gr'
         = (GraphSLAM.vertices gr ++ [GraphSLAM.mkVertex (GraphSLAM.VertexPlane det) false])%list
      /\ GraphSLAM.num_vertices_local gr' = (GraphSLAM.num_vertices_local gr + 1)%Z).
Proof.
  unfold PlaneMapper.factor_case. intro H.
  destruct (_ || _).
  - cbn [GraphSLAM.add_plane_node GraphSLAM.add_vertex] in H. bind_inv H.
    inversion H; subst; clear H. right. cbn [fst].
    split; [reflexivity|]. split; [now rewrite map_app|]. split; reflexivity.
  - bind_inv H. inversion H; subst; clear H. left. split; [reflexivity|].
    unfold at_index in E. destruct (nth_error planes (snd da')) eqn:En; [|discriminate].
    inversion E; subst. apply (set_index_ids id_node _ _ _ _ En). reflexivity.
Qed.

Section MapperIds.

Variable maha_dist : Isometry3d -> Plane3D -> Matrix3d -> Plane3D -> option Q.
Variable params : PlaneMapper.Params.

Lemma associate_plane_frame plane_type s det body s' da :
  PlaneMapper.associate_plane maha_dist params plane_type s det body = Ok (s', da) ->
  PlaneMapper.graph_slam s' = PlaneMapper.graph_slam s
  /\ PlaneMapper.keyframe s' = PlaneMapper.keyframe s
  /\ PlaneMapper.x_vert_planes s' = PlaneMapper.x_vert_planes s
  /\ PlaneMapper.y_vert_planes s' = PlaneMapper.y_vert_planes s
  /\ PlaneMapper.hort_planes s' = PlaneMapper.hort_planes s.
Proof.
  unfold PlaneMapper.associate_plane. cbv zeta. intro H. bind_inv H.
  destruct (plane_type =? X_VERT_PLANE)%Z.
  { destruct (PlaneMapper.vert_loop _ _ _ _ _ _ _). bind_inv H. inversion H; subst.
    repeat split. }
  destruct (plane_type =? Y_VERT_PLANE)%Z.
  { destruct (PlaneMapper.vert_loop _ _ _ _ _ _ _). bind_inv H. inversion H; subst.
    repeat split. }
  destruct (plane_type =? HORT_PLANE)%Z.
  { destruct (PlaneMapper.hort_loop _ _ _ _ _ _ _ _). destruct (Qltb _ _);
      inversion H; subst; repeat split. }
  inversion H; subst. repeat split.
Qed.

Lemma factor_planes_id (plane_type : Z) (det_plane_map_frame det_plane_body_frame : Plane3D)
    (s s' : PlaneMapper.State) (id : Z) :
  PlaneMapper.factor_planes maha_dist params plane_type det_plane_map_frame
                            det_plane_body_frame s = Ok (s', id) ->
  let snapshot := GraphSLAM.num_vertices_local (PlaneMapper.graph_slam s) in
  let vertices := GraphSLAM.vertices (PlaneMapper.graph_slam s) in
  (landmark_ids s' = landmark_ids s
   /\ GraphSLAM.vertices (PlaneMapper.graph_slam s') = vertices)
  \/ (id = snapshot
      /\ landmark_ids s' = with_new_id plane_type (snapshot, List.length vertices) (landmark_ids s)
      /\ GraphSLAM.vertices (PlaneMapper.graph_slam s')
         = (vertices ++ [GraphSLAM.mkVertex (GraphSLAM.VertexPlane det_plane_map_frame) false])%list
      /\ GraphSLAM.num_vertices_local (PlaneMapper.graph_slam s') = (snapshot + 1)%Z).
Proof.
  unfold PlaneMapper.factor_planes. cbv zeta. intro H.
  match type of H with bind ?m _ = _ =>
    destruct m as [[s1 Gij]|] eqn:E1; [cbn [bind] in H|discriminate] end.
  assert (F1 : PlaneMapper.graph_slam s1 = PlaneMapper.graph_slam s
               /\ landmark_ids s1 = landmark_ids s).
  { destruct (PlaneMapper.use_point_to_plane params).
    - bind_inv E1. inversion E1; subst. split; reflexivity.
    - inversion E1; subst. split; reflexivity. }
  clear E1. destruct F1 as [Fg1 Fi1]. rewrite <- Fg1, <- Fi1. clear Fg1 Fi1 s.
  match type of H with bind ?m _ = _ =>
    destruct m as [[s2 da]|] eqn:E2; [cbn [bind] in H|discriminate] end.
  apply associate_plane_frame in E2. destruct E2 as (Fg & Fk & Fx & Fy & Fh).
  assert (Fi : landmark_ids s2 = landmark_ids s1)
    by (unfold landmark_ids; now rewrite Fx, Fy, Fh).
  rewrite <- Fg, <- Fi. clear Fg Fk Fx Fy Fh Fi s1.
  match type of H with bind ?m _ = _ =>
    destruct m as [[[s3 plane_node] da3]|] eqn:E3; [cbn [bind] in H|discriminate] end.
  bind_inv H. rename E1 into E4, a1 into s4.
  apply convert_plane_points_to_map_ids in E4. destruct E4 as [Fi4 Fg4].
  inversion H; subst s4 id; clear H.
  rewrite Fi4, Fg4. cbn [PlaneMapper.set_graph PlaneMapper.graph_slam].
  match goal with |- context [GraphSLAM.vertices (if ?c then ?a else ?b)] =>
    assert (Fv : GraphSLAM.vertices (if c then a else b)
                 = GraphSLAM.vertices (PlaneMapper.graph_slam s3)
                 /\ GraphSLAM.vertex_count (if c then a else b)
                    = GraphSLAM.vertex_count (PlaneMapper.graph_slam s3))
      by (destruct c; apply kernel_edge_vertices);
    destruct Fv as [Fv Fc]
  end.
  unfold GraphSLAM.num_vertices_local. rewrite Fv, Fc.
  fold (GraphSLAM.num_vertices_local (PlaneMapper.graph_slam s3)).
  fold (GraphSLAM.num_vertices_local (PlaneMapper.graph_slam s2)).
  clear Fv Fc Fi4 Fg4.
  unfold landmark_ids, with_new_id in *.
  cbn [PlaneMapper.set_graph PlaneMapper.x_vert_planes PlaneMapper.y_vert_planes
       PlaneMapper.hort_planes].
  destruct (plane_type =? X_VERT_PLANE)%Z.
  { bind_inv E3. inversion E3; subst; clear E3.
    match goal with Hf : PlaneMapper.factor_case _ _ _ _ _ _ = Ok _ |- _ =>
      apply factor_case_ids in Hf; rename Hf into Hcase end.
    cbn [PlaneMapper.set_graph PlaneMapper.set_keyframe PlaneMapper.set_x_vert_planes
         PlaneMapper.graph_slam PlaneMapper.x_vert_planes PlaneMapper.y_vert_planes
         PlaneMapper.hort_planes].
    destruct Hcase as [[-> Hids]|(Hda & Hids & Hv & Hn)].
    - left. rewrite Hids. split; reflexivity.
    - right. rewrite Hids, Hv, Hn. repeat split; assumption. }
  destruct (plane_type =? Y_VERT_PLANE)%Z.
  { bind_inv E3. inversion E3; subst; clear E3.
    match goal with Hf : PlaneMapper.factor_case _ _ _ _ _ _ = Ok _ |- _ =>
      apply factor_case_ids in Hf; rename Hf into Hcase end.
    cbn [PlaneMapper.set_graph PlaneMapper.set_keyframe PlaneMapper.set_y_vert_planes
         PlaneMapper.graph_slam PlaneMapper.x_vert_planes PlaneMapper.y_vert_planes
         PlaneMapper.hort_planes].
    destruct Hcase as [[-> Hids]|(Hda & Hids & Hv & Hn)].
    - left. rewrite Hids. split; reflexivity.
    - right. rewrite Hids, Hv, Hn. repeat split; assumption. }
  destruct (plane_type =? HORT_PLANE)%Z.
  { bind_inv E3. inversion E3; subst; clear E3.
    match goal with Hf : PlaneMapper.factor_case _ _ _ _ _ _ = Ok _ |- _ =>
      apply factor_case_ids in Hf; rename Hf into Hcase end.
    cbn [PlaneMapper.set_graph PlaneMapper.set_keyframe PlaneMapper.set_hort_planes
         PlaneMapper.graph_slam PlaneMapper.x_vert_planes PlaneMapper.y_vert_planes
         PlaneMapper.hort_planes].
    destruct Hcase as [[-> Hids]|(Hda & Hids & Hv & Hn)].
    - left. rewrite Hids. split; reflexivity.
    - right. rewrite Hids, Hv, Hn. repeat split; assumption. }
  inversion E3; subst. discriminate E.
Qed.

End MapperIds.

Lemma kernel_vertices e k sz gr :
  GraphSLAM.vertices (GraphSLAM.add_robust_kernel e k sz gr) = GraphSLAM.vertices gr.
Proof. apply add_robust_kernel_vertices. Qed.

Ltac graph_vertices :=
  unfold GraphSLAM.add_edge; cbn [fst snd];
  repeat (rewrite kernel_vertices; cbn [GraphSLAM.vertices]).

Section NodeletIds.

Variable sqrt : Q -> Q.
Variable params : N.Params.

Lemma factor_corridors_block_id s plane_type corridors vert_planes ety c1 c2 pre gr corridors' :
  N.factor_corridors_block params s plane_type corridors vert_planes ety c1 c2 pre
  = Ok (gr, corridors') ->
  (corridors' = corridors
   /\ GraphSLAM.vertices gr = GraphSLAM.vertices (N.graph_slam s))
  \/ (exists c pose,
        corridors' = (corridors ++ [c])%list
        /\ co_id c = GraphSLAM.num_vertices (N.graph_slam s)
        /\ co_node c = List.length (GraphSLAM.vertices (N.graph_slam s))
        /\ co_plane1_id c = N.plane_id c1 /\ co_plane2_id c = N.plane_id c2
        /\ GraphSLAM.vertices gr
           = (GraphSLAM.vertices (N.graph_slam s)
              ++ [GraphSLAM.mkVertex (GraphSLAM.VertexCorridor pose) false])%list).
Proof.
  unfold N.factor_corridors_block. cbv zeta. intro H.
  unfold GraphSLAM.add_edge in H.
  match type of H with bind ?m _ = _ =>
    destruct m as [da|] eqn:E1; [cbn [bind] in H|discriminate]; clear E1 end.
  match type of H with bind ?m _ = _ =>
    destruct m as [[[gr1 corridors1] corr_node]|] eqn:E2; [cbn [bind] in H|discriminate] end.
  bind_inv H.
  inversion H; subst gr corridors'; clear H.
  repeat (rewrite kernel_vertices; cbn [GraphSLAM.vertices]).
  destruct (_ || _).
  - cbn [GraphSLAM.add_corridor_node GraphSLAM.add_vertex] in E2. bind_inv E2.
    inversion E2; subst; clear E2. right. do 2 eexists.
    cbn [GraphSLAM.vertices]. repeat split.
  - bind_inv E2. inversion E2; subst; clear E2. left. split; reflexivity.
Qed.

Lemma factor_corridors_id (plane_type : Z) (c1 c2 : N.plane_data_list) (s s' : N.State) :
  N.factor_corridors params plane_type c1 c2 s = Ok s' ->
  let snapshot := GraphSLAM.num_vertices (N.graph_slam s) in
  let vertices := GraphSLAM.vertices (N.graph_slam s) in
  (N.x_corridors s' = N.x_corridors s /\ N.y_corridors s' = N.y_corridors s
   /\ GraphSLAM.vertices (N.graph_slam s') = vertices)
  \/ (exists c pose,
        co_id c = snapshot /\ co_node c = List.length vertices
        /\ co_plane1_id c = N.plane_id c1 /\ co_plane2_id c = N.plane_id c2
        /\ GraphSLAM.vertices (N.graph_slam s')
           = (vertices ++ [GraphSLAM.mkVertex (GraphSLAM.VertexCorridor pose) false])%list
        /\ ((plane_type = X_VERT_PLANE
             /\ N.x_corridors s' = (N.x_corridors s ++ [c])%list
             /\ N.y_corridors s' = N.y_corridors s)
            \/ (plane_type = Y_VERT_PLANE
                /\ N.y_corridors s' = (N.y_corridors s ++ [c])%list
                /\ N.x_corridors s' = N.x_corridors s))).
Proof.
  unfold N.factor_corridors. cbv zeta. intro H.
  destruct (plane_type =? X_VERT_PLANE)%Z eqn:EX.
  - apply Z.eqb_eq in EX. subst plane_type.
    cbn [Z.eqb X_VERT_PLANE Y_VERT_PLANE] in H. bind_inv H.
    match goal with E : bind _ _ = Ok _ |- _ => bind_inv E; inversion E; subst; clear E end.
    inversion H; subst; clear H.
    match goal with Hb : N.factor_corridors_block _ _ _ _ _ _ _ _ _ = Ok _ |- _ =>
      apply factor_corridors_block_id in Hb;
      destruct Hb as [[-> Hv]|(c & pose & -> & Hid & Hnode & Hp1 & Hp2 & Hv)] end.
    + left. repeat split. exact Hv.
    + right. exists c, pose. repeat split; try assumption. left. repeat split.
  - cbn [bind] in H. destruct (plane_type =? Y_VERT_PLANE)%Z eqn:EY.
    + apply Z.eqb_eq in EY. subst plane_type. bind_inv H. inversion H; subst; clear H.
      match goal with Hb : N.factor_corridors_block _ _ _ _ _ _ _ _ _ = Ok _ |- _ =>
        apply factor_corridors_block_id in Hb;
        destruct Hb as [[-> Hv]|(c & pose & -> & Hid & Hnode & Hp1 & Hp2 & Hv)] end.
      * left. repeat split. exact Hv.
      * right. exists c, pose. repeat split; try assumption. right. repeat split.
    + inversion H; subst. left. repeat split.
Qed.

Lemma factor_rooms_id (x_room_pair_vec y_room_pair_vec : list N.plane_data_list)
    (s s' : N.State) :
  N.factor_rooms sqrt params x_room_pair_vec y_room_pair_vec s = Ok s' ->
  let snapshot := GraphSLAM.num_vertices (N.graph_slam s) in
  let vertices := GraphSLAM.vertices (N.graph_slam s) in
  (N.rooms_vec s' = N.rooms_vec s
   /\ GraphSLAM.vertices (N.graph_slam s') = vertices)
  \/ (exists rm pose,
        N.rooms_vec s' = (N.rooms_vec s ++ [rm])%list
        /\ ro_id rm = snapshot /\ ro_node rm = List.length vertices
        /\ GraphSLAM.vertices (N.graph_slam s')
           = (vertices ++ [GraphSLAM.mkVertex (GraphSLAM.VertexRoomXYLB pose) false])%list).
Proof.
  unfold N.factor_rooms. cbv zeta. intro H.
  unfold GraphSLAM.add_edge in H.
  bind_inv H.
  match goal with E : (if _ || _ then _ else _) = Ok _ |- _ => rename E into Hnew end.
  inversion H; subst s'; clear H.
  cbn [N.set_rooms_vec N.set_graph_slam N.rooms_vec N.graph_slam].
  repeat (rewrite kernel_vertices; cbn [GraphSLAM.vertices]).
  destruct (_ || _).
  - cbn [GraphSLAM.add_room_node GraphSLAM.add_vertex] in Hnew.
    inversion Hnew; subst; clear Hnew. right. do 2 eexists.
    cbn [GraphSLAM.vertices]. repeat split.
  - bind_inv Hnew. inversion Hnew; subst; clear Hnew. left. split; reflexivity.
Qed.

End NodeletIds.

(** C2: every landmark is created with the vertex count of the graph, as
    it stands just before the landmark's own vertex is added, for its id.
    [PlaneMapper::factor_planes] either leaves the ids of the three plane
    collections and the vertices of the graph as they are, or appends one
    landmark to the collection of the class, with the local vertex count for
    its id, and its plane vertex to the graph; [factor_corridors] and
    [factor_rooms] do the same for corridors and rooms with [num_vertices]. *)
Theorem landmark_id_is_vertex_count_snapshot
    (maha_dist : Isometry3d -> Plane3D -> Matrix3d -> Plane3D -> option Q)
    (sqrt : Q -> Q) (mapper_params : PlaneMapper.Params) (params : N.Params) :
  (forall plane_type det_plane_map_frame det_plane_body_frame s s' id,
      PlaneMapper.factor_planes maha_dist mapper_params plane_type det_plane_map_frame
                                det_plane_body_frame s = Ok (s', id) ->
      let snapshot := GraphSLAM.num_vertices_local (PlaneMapper.graph_slam s) in
      let vertices := GraphSLAM.vertices (PlaneMapper.graph_slam s) in
      (landmark_ids s' = landmark_ids s
       /\ GraphSLAM.vertices (PlaneMapper.graph_slam s') = vertices)
      \/ (id = snapshot
          /\ landmark_ids s'
             = with_new_id plane_type (snapshot, List.length vertices) (landmark_ids s)
          /\ GraphSLAM.vertices (PlaneMapper.graph_slam s')
             = (vertices
                ++ [GraphSLAM.mkVertex (GraphSLAM.VertexPlane det_plane_map_frame) false])%list
          /\ GraphSLAM.num_vertices_local (PlaneMapper.graph_slam s') = (snapshot + 1)%Z))
  /\ (forall plane_type c1 c2 s s',
      N.factor_corridors params plane_type c1 c2 s = Ok s' ->
      let snapshot := GraphSLAM.num_vertices (N.graph_slam s) in
      let vertices := GraphSLAM.vertices (N.graph_slam s) in
      (N.x_corridors s' = N.x_corridors s /\ N.y_corridors s' = N.y_corridors s
       /\ GraphSLAM.vertices (N.graph_slam s') = vertices)
      \/ (exists c pose,
            co_id c = snapshot /\ co_node c = List.length vertices
            /\ co_plane1_id c = N.plane_id c1 /\ co_plane2_id c = N.plane_id c2
            /\ GraphSLAM.vertices (N.graph_slam s')
               = (vertices ++ [GraphSLAM.mkVertex (GraphSLAM.VertexCorridor pose) false])%list
            /\ ((plane_type = X_VERT_PLANE
                 /\ N.x_corridors s' = (N.x_corridors s ++ [c])%list
                 /\ N.y_corridors s' = N.y_corridors s)
                \/ (plane_type = Y_VERT_PLANE
                    /\ N.y_corridors s' = (N.y_corridors s ++ [c])%list
                    /\ N.x_corridors s' = N.x_corridors s))))
  /\ (forall x_room_pair_vec y_room_pair_vec s s',
      N.factor_rooms sqrt params x_room_pair_vec y_room_pair_vec s = Ok s' ->
      let snapshot := GraphSLAM.num_vertices (N.graph_slam s) in
      let vertices := GraphSLAM.vertices (N.graph_slam s) in
      (N.rooms_vec s' = N.rooms_vec s
       /\ GraphSLAM.vertices (N.graph_slam s') = vertices)
      \/ (exists rm pose,
            N.rooms_vec s' = (N.rooms_vec s ++ [rm])%list
            /\ ro_id rm = snapshot /\ ro_node rm = List.length vertices
            /\ GraphSLAM.vertices (N.graph_slam s')
               = (vertices ++ [GraphSLAM.mkVertex (GraphSLAM.VertexRoomXYLB pose) false])%list)).
Proof.
  split; [|split].
  - intros. now apply (factor_planes_id maha_dist mapper_params plane_type
                         det_plane_map_frame det_plane_body_frame).
  - intros. now apply (factor_corridors_id params).
  - intros. now apply (factor_rooms_id sqrt params x_room_pair_vec y_room_pair_vec).
Qed.

Lemma landmark_id_is_vertex_count_snapshot_witness :
  (exists s' id,
      PlaneMapper.factor_planes sample_maha_dist PlaneMapper.default_params Y_VERT_PLANE
        (mkV4 0 1 0 (-2)) (mkV4 0 1 0 (-2))
        (sample_mapper_state [] [sample_point 0 2 0]) = Ok (s', id)
      /\ id = 2%Z
      /\ map vp_id (PlaneMapper.y_vert_planes s') = [2%Z]
      /\ GraphSLAM.num_vertices (PlaneMapper.graph_slam s') = 3%Z)
  /\ (exists s',
         N.factor_corridors N.default_params X_VERT_PLANE
           (sample_wall (mkV4 1 0 0 (-1)) 1%Z) (sample_wall (mkV4 (-1) 0 0 (6 # 5)) 2%Z)
           sample_nodelet_state = Ok s'
         /\ map co_id (N.x_corridors s') = [5%Z]
         /\ GraphSLAM.num_vertices (N.graph_slam s') = 6%Z)
  /\ (exists s',
         N.factor_rooms (fun x => x) N.default_params
           [sample_wall (mkV4 1 0 0 (-1)) 1%Z; sample_wall (mkV4 (-1) 0 0 (6 # 5)) 2%Z]
           [sample_wall (mkV4 0 1 0 (-2)) 3%Z; sample_wall (mkV4 0 (-1) 0 2) 4%Z]
           sample_nodelet_state = Ok s'
         /\ map ro_id (N.rooms_vec s') = [5%Z]
         /\ GraphSLAM.num_vertices (N.graph_slam s') = 6%Z).
Proof.
  destruct (landmark_id_is_vertex_count_snapshot sample_maha_dist (fun x => x)
              PlaneMapper.default_params N.default_params) as (Hp & Hc & Hr).
  split; [|split].
  - destruct (PlaneMapper.factor_planes _ _ _ _ _ _) as [[s' id]|why] eqn:E;
      [|vm_compute in E; discriminate E].
    exists s', id. split; [reflexivity|].
    destruct (Hp _ _ _ _ _ _ E) as [[Hids _]|(Hid & Hids & Hv & Hn)];
      vm_compute in E; inversion E; subst s' id; clear E.
    + vm_compute in Hids. discriminate Hids.
    + repeat split.
  - destruct (N.factor_corridors _ _ _ _ _) as [s'|why] eqn:E;
      [|vm_compute in E; discriminate E].
    exists s'. split; [reflexivity|].
    destruct (Hc _ _ _ _ _ E) as [(Hx & _)|(c & pose & Hid & _)];
      vm_compute in E; inversion E; subst s'; clear E.
    + vm_compute in Hx. discriminate Hx.
    + repeat split.
  - destruct (N.factor_rooms _ _ _ _ _) as [s'|why] eqn:E;
      [|vm_compute in E; discriminate E].
    exists s'. split; [reflexivity|].
    destruct (Hr _ _ _ _ E) as [(Hx & _)|(rm & pose & Hid & _)];
      vm_compute in E; inversion E; subst s'; clear E.
    + vm_compute in Hx. discriminate Hx.
    + repeat split.
Defined.

(** ** The default case of the plane-type switch (C4) *)

(** C4 fails on the code: [factor_planes] with a plane type outside the
    three classes has no defined result, whatever the detection and the
    state.  The [default] case of the [switch] prints
    its line and breaks, and the code after the [switch] then passes
    [plane_node], which no case has assigned, to the graph as the plane
    vertex of a pose-to-plane edge.  A detection whose normal is
    (2/3, 2/3, 1/3) in the map frame has no strictly largest component, is
    given the type -1 by [add_planes_to_graph], and ends there. *)
Theorem factor_planes_default_case_undefined
    (maha_dist : Isometry3d -> Plane3D -> Matrix3d -> Plane3D -> option Q)
    (params : PlaneMapper.Params) :
  (forall det_plane_map_frame det_plane_body_frame s,
      exists why,
        PlaneMapper.factor_planes maha_dist params (-1) det_plane_map_frame
                                  det_plane_body_frame s = Undefined why)
  /\ PlaneMapper.classify (mkV4 (2 # 3) (2 # 3) (1 # 3) (-1)) = (-1)%Z
  /\ PlaneMapper.add_planes_to_graph maha_dist PlaneMapper.default_params
       (mkV4 (2 # 3) (2 # 3) (1 # 3) (-1))
       (sample_mapper_state [] [sample_point 0 0 0])
     = Undefined UninitRead.
Proof.
  split; [|split; reflexivity].
  intros det_map det_body s. unfold PlaneMapper.factor_planes. cbv zeta.
  match goal with |- exists why, bind ?m _ = _ =>
    destruct m as [[s1 Gij]|why1]; [cbn [bind]|now exists why1] end.
  match goal with |- exists why, bind ?m _ = _ =>
    destruct m as [[s2 da]|why2]; [cbn [bind]|now exists why2] end.
  cbn [Z.eqb X_VERT_PLANE Y_VERT_PLANE HORT_PLANE bind].
  now exists UninitRead.
Qed.

(** ** Plane covariances (C5) *)

Section Covariances.

Variable params : N.Params.
Variable optimize : GraphSLAM.t -> Z -> GraphSLAM.t * Z.
Variable compute_landmark_marginals :
  GraphSLAM.t -> list (Z * Z) -> option (Z -> Z -> Matrix3d).
Variable hessianIndex : GraphSLAM.t -> VertexRef -> Z.
Variable llt_numerical_issue : Matrix3d -> bool.

Lemma recover_covariance_spec gr blocks lm :
  let lm' := N.recover_covariance hessianIndex llt_numerical_issue gr blocks lm in
  vp_covariance lm' = recovered_covariance hessianIndex llt_numerical_issue gr blocks lm
  /\ id_node lm' = id_node lm /\ vp_plane lm' = vp_plane lm.
Proof.
  unfold N.recover_covariance, recovered_covariance.
  destruct (llt_numerical_issue _); repeat split.
Qed.

Lemma plane_pairs_nil gr planes :
  N.plane_pairs hessianIndex gr planes = [] -> planes = [].
Proof. destruct planes; [reflexivity|discriminate]. Qed.

(** C5: in a tick that reaches the solver, [compute_plane_cov] runs exactly
    when [optimize] reports more than 0 iterations, and it stores
    covariances only when [compute_landmark_marginals] succeeds.  With more
    than 0 iterations and the marginals delivered, every plane landmark of
    the three collections gets the block of its vertex, and the 3x3
    identity in its place whenever the Cholesky factorisation of that block
    reports a numerical issue.  With 0 iterations or fewer, or with the
    marginals not delivered, every plane landmark is as it was, its
    covariance included.  Ids and vertices of the landmarks, the graph and
    the trace of solver calls do not depend on the case. *)
Theorem plane_covariance_recomputation (s : N.State) :
  let s' := N.optimize_graph params optimize compute_landmark_marginals hessianIndex
                             llt_numerical_issue s in
  let num_iterations := N.g2o_solver_num_iterations params in
  let gr := fst (optimize (N.graph_slam s) num_iterations) in
  let iterations := snd (optimize (N.graph_slam s) num_iterations) in
  let marginals :=
    compute_landmark_marginals gr
      (N.plane_pairs hessianIndex gr (N.x_vert_planes s)
       ++ N.plane_pairs hessianIndex gr (N.y_vert_planes s)
       ++ N.plane_pairs hessianIndex gr (N.hort_planes s))%list in
  let recovered := recovered_covariance hessianIndex llt_numerical_issue gr in
  (forall plane_spinv_vec,
      (0 < iterations)%Z -> marginals = Some plane_spinv_vec ->
      map vp_covariance (N.x_vert_planes s') = map (recovered plane_spinv_vec) (N.x_vert_planes s)
      /\ map vp_covariance (N.y_vert_planes s')
         = map (recovered plane_spinv_vec) (N.y_vert_planes s)
      /\ map vp_covariance (N.hort_planes s')
         = map (recovered plane_spinv_vec) (N.hort_planes s))
  /\ ((iterations <= 0)%Z \/ marginals = None ->
      N.x_vert_planes s' = N.x_vert_planes s /\ N.y_vert_planes s' = N.y_vert_planes s
      /\ N.hort_planes s' = N.hort_planes s)
  /\ (map id_node (N.x_vert_planes s') = map id_node (N.x_vert_planes s)
      /\ map id_node (N.y_vert_planes s') = map id_node (N.y_vert_planes s)
      /\ map id_node (N.hort_planes s') = map id_node (N.hort_planes s))
  /\ N.graph_slam s' = gr
  /\ N.events s' = (N.events s ++ [N.Optimize num_iterations])%list.
Proof.
  cbv zeta. unfold N.optimize_graph, N.emit.
  cbn [N.set_events N.graph_slam N.events].
  destruct (optimize (N.graph_slam s) (N.g2o_solver_num_iterations params))
    as [gr iterations]. cbn [fst snd].
  destruct (0 <? iterations)%Z eqn:Eit.
  2: { apply Z.ltb_ge in Eit.
       cbn [N.set_graph_slam N.set_events N.x_vert_planes N.y_vert_planes N.hort_planes
            N.graph_slam N.events].
       split; [intros blocks Hpos; lia|]. repeat split. }
  apply Z.ltb_lt in Eit.
  unfold N.compute_plane_cov.
  cbn [N.set_graph_slam N.set_events N.x_vert_planes N.y_vert_planes N.hort_planes
       N.graph_slam N.events].
  destruct (_ ++ _ ++ _)%list as [|pr prs] eqn:Epairs.
  - apply app_eq_nil in Epairs. destruct Epairs as [Ex Eyh].
    apply app_eq_nil in Eyh. destruct Eyh as [Ey Eh].
    apply plane_pairs_nil in Ex, Ey, Eh.
    cbn [N.set_graph_slam N.set_events N.x_vert_planes N.y_vert_planes N.hort_planes
         N.graph_slam N.events].
    rewrite Ex, Ey, Eh. repeat split.
  - destruct (compute_landmark_marginals gr (pr :: prs)) as [blocks|].
    + cbn [N.set_x_vert_planes N.set_y_vert_planes N.set_hort_planes
           N.set_graph_slam N.set_events
           N.x_vert_planes N.y_vert_planes N.hort_planes N.graph_slam N.events].
      rewrite !map_map.
      split; [|split; [intros [Hle|Hnone]; [lia|discriminate Hnone]|]].
      * intros blocks' _ Hsome. injection Hsome as <-.
        repeat split; apply map_ext; intro lm;
          apply (recover_covariance_spec gr blocks lm).
      * repeat split; apply map_ext; intro lm;
          apply (recover_covariance_spec gr blocks lm).
    + cbn [N.set_graph_slam N.set_events
           N.x_vert_planes N.y_vert_planes N.hort_planes N.graph_slam N.events].
      split; [intros blocks' _ Hsome; discriminate Hsome|]. repeat split.
Qed.

End Covariances.

Lemma plane_covariance_recomputation_witness :
  let s' := N.optimize_graph N.default_params sample_optimize sample_marginals
                             sample_hessianIndex sample_llt sample_nodelet_state in
  map vp_covariance (N.x_vert_planes s') = [diagonal 3; Matrix3d_Identity]
  /\ map vp_covariance (N.y_vert_planes s') = [diagonal 3; diagonal 3]
  /\ map vp_covariance (N.hort_planes s') = [].
Proof.
  destruct (plane_covariance_recomputation N.default_params sample_optimize sample_marginals
              sample_hessianIndex sample_llt sample_nodelet_state) as [H _].
  apply (H (fun i j => if (i =? 2)%Z then diagonal (-1) else diagonal 3)).
  - reflexivity.
  - reflexivity.
Defined.

(** C5 as stated fails when the solver does not deliver the marginals:
    [optimize] reports one iteration, [compute_landmark_marginals] returns
    false, and the wall keeps the covariance of an earlier tick, which is
    not the identity either: no marginal covariance is recomputed. *)
Lemma covariance_recomputation_not_as_claimed :
  let s := sample_stale_state in
  let s' := N.optimize_graph N.default_params sample_optimize sample_no_marginals
                             sample_hessianIndex sample_llt s in
  let optimized := sample_optimize (N.graph_slam s)
                                   (N.g2o_solver_num_iterations N.default_params) in
  let marginals :=
    sample_no_marginals (fst optimized)
      (N.plane_pairs sample_hessianIndex (fst optimized) (N.x_vert_planes s)) in
  (0 < snd optimized)%Z
  /\ map vp_covariance (N.x_vert_planes s) = [diagonal 2]
  /\ map vp_covariance (N.x_vert_planes s') = [diagonal 2]
  /\ diagonal 2 <> Matrix3d_Identity
  /\ ~ claimed_recomputed sample_hessianIndex sample_llt (fst optimized) marginals
         (N.x_vert_planes s) (N.x_vert_planes s').
Proof.
  cbv zeta. split; [reflexivity|]. split; [reflexivity|]. split; [reflexivity|].
  split; [discriminate|].
  intros (blocks & Hsome & _). discriminate Hsome.
Qed.

(** ** Queue flushing (C6) *)

Lemma ascending_tail a l : ascending (a :: l) = true -> ascending l = true.
Proof.
  destruct l as [|b l]; [reflexivity|]. cbn [ascending]. intro H.
  now apply andb_true_iff in H.
Qed.

Lemma ascending_head a l : ascending (a :: l) = true -> Forall (fun x => (a <= x)%Z) l.
Proof.
  revert a. induction l as [|b l IH]; intros a H; [constructor|].
  cbn [ascending] in H. apply andb_true_iff in H. destruct H as [Hab Hl].
  apply Z.leb_le in Hab. constructor; [exact Hab|].
  specialize (IH b Hl). eapply Forall_impl; [|exact IH]. cbn. intros x Hx. lia.
Qed.

(** The number of stamps at or before [value]. *)
Lemma partition_point stamps value :
  ascending stamps = true ->
  let p := List.length (filter (fun x => (x <=? value)%Z) stamps) in
  (p <= List.length stamps)%nat
  /\ (forall i, (i < p)%nat -> (nth i stamps 0 <= value)%Z)
  /\ (forall i, (p <= i < List.length stamps)%nat -> (value < nth i stamps 0)%Z).
Proof.
  induction stamps as [|a l IH]; intro Hasc; cbn zeta.
  - cbn. repeat split; intros; lia.
  - pose proof (ascending_head _ _ Hasc) as Hhead.
    specialize (IH (ascending_tail _ _ Hasc)). cbn zeta in IH.
    destruct IH as (Hp & Hlow & Hhigh).
    cbn [filter]. destruct (a <=? value)%Z eqn:E.
    + apply Z.leb_le in E. cbn [List.length]. split; [lia|]. split.
      * intros [|i] Hi; cbn [nth]; [exact E|]. apply Hlow. lia.
      * intros [|i] Hi; [lia|]. cbn [nth]. apply Hhigh. lia.
    + apply Z.leb_gt in E.
      assert (Hnil : filter (fun x => (x <=? value)%Z) l = []).
      { clear Hp Hlow Hhigh Hasc. induction l as [|b l IHl]; [reflexivity|].
        inversion Hhead; subst. cbn [filter].
        replace (b <=? value)%Z with false by (symmetry; apply Z.leb_gt; lia).
        now apply IHl. }
      rewrite Hnil in *. cbn [List.length] in *. split; [lia|]. split.
      * intros i Hi. lia.
      * intros [|i] Hi; cbn [nth]; [exact E|]. apply Hhigh. lia.
Qed.

Lemma upper_bound_loop_partition stamps value p :
  (p <= List.length stamps)%nat ->
  (forall i, (i < p)%nat -> (nth i stamps 0 <= value)%Z) ->
  (forall i, (p <= i < List.length stamps)%nat -> (value < nth i stamps 0)%Z) ->
  forall fuel first len,
    (len <= fuel)%nat -> (first <= p <= first + len)%nat ->
    (first + len <= List.length stamps)%nat ->
    N.upper_bound_loop fuel stamps value first len = p.
Proof.
  intros Hp Hlow Hhigh. induction fuel as [|fuel IH]; intros first len Hfuel Hinv Hlen.
  - cbn. lia.
  - cbn [N.upper_bound_loop]. destruct (Nat.eqb len 0) eqn:E0.
    + apply Nat.eqb_eq in E0. lia.
    + apply Nat.eqb_neq in E0.
      assert (Hhalf : (Nat.div2 len < len)%nat) by (apply Nat.lt_div2; lia).
      set (half := Nat.div2 len) in *. clearbody half.
      destruct (value <? nth (first + half) stamps 0)%Z eqn:E.
      * apply Z.ltb_lt in E. apply IH; try lia.
        destruct (Nat.lt_ge_cases (first + half) p) as [Hlt|Hge]; [|lia].
        specialize (Hlow _ Hlt). lia.
      * apply Z.ltb_ge in E. apply IH; try lia.
        destruct (Nat.lt_ge_cases (first + half) p) as [Hlt|Hge]; [lia|].
        assert (Hin : (p <= first + half < List.length stamps)%nat) by lia.
        specialize (Hhigh _ Hin). lia.
Qed.

Lemma upper_bound_ascending stamps value :
  ascending stamps = true ->
  N.upper_bound stamps value = List.length (filter (fun x => (x <=? value)%Z) stamps).
Proof.
  intro Hasc. destruct (partition_point stamps value Hasc) as (Hp & Hlow & Hhigh).
  unfold N.upper_bound. apply upper_bound_loop_partition; try assumption; lia.
Qed.

Lemma skipn_partition {A} (stamp_of : A -> Z) (queue : list A) (value : Z) :
  ascending (map stamp_of queue) = true ->
  skipn (List.length (filter (fun x => (x <=? value)%Z) (map stamp_of queue))) queue
  = filter (fun m => (value <? stamp_of m)%Z) queue.
Proof.
  induction queue as [|a l IH]; intro Hasc; [reflexivity|].
  cbn [map] in *. pose proof (ascending_head _ _ Hasc) as Hhead.
  specialize (IH (ascending_tail _ _ Hasc)).
  cbn [filter]. destruct (stamp_of a <=? value)%Z eqn:E.
  - cbn [List.length skipn]. replace (value <? stamp_of a)%Z with false
      by (symmetry; apply Z.ltb_ge; now apply Z.leb_le). exact IH.
  - apply Z.leb_gt in E.
    replace (value <? stamp_of a)%Z with true by (symmetry; now apply Z.ltb_lt).
    assert (Hnil : filter (fun x => (x <=? value)%Z) (map stamp_of l) = []).
    { clear IH Hasc. induction l as [|b l IHl]; [reflexivity|].
      cbn [map] in *. inversion Hhead; subst. cbn [filter].
      replace (stamp_of b <=? value)%Z with false by (symmetry; apply Z.leb_gt; lia).
      now apply IHl. }
    rewrite Hnil in IH |- *. cbn [List.length skipn] in *. f_equal. exact IH.
Qed.

(** On a queue in time order, erasing up to the upper bound of [stamp]
    leaves exactly the messages stamped after [stamp]. *)
Lemma erase_until_ascending {A} (stamp_of : A -> Z) (queue : list A) (stamp : Z) :
  ascending (map stamp_of queue) = true ->
  N.erase_until stamp_of queue stamp = filter (fun m => (stamp <? stamp_of m)%Z) queue.
Proof.
  intro Hasc. unfold N.erase_until. rewrite upper_bound_ascending by exact Hasc.
  now apply skipn_partition.
Qed.

Lemma set_index_length {A} (v : list A) (i : nat) (a : A) :
  List.length (set_index v i a) = List.length v.
Proof.
  revert i. induction v as [|x rest IH]; intros [|i]; cbn; try reflexivity.
  now rewrite IH.
Qed.

Lemma kernel_num_edges e k sz gr :
  GraphSLAM.num_edges (GraphSLAM.add_robust_kernel e k sz gr) = GraphSLAM.num_edges gr.
Proof.
  unfold GraphSLAM.add_robust_kernel, GraphSLAM.num_edges.
  destruct (String.eqb k "NONE"); [reflexivity|].
  destruct (nth_error (GraphSLAM.edges gr) e); [|reflexivity].
  cbn [GraphSLAM.edges]. now rewrite set_index_length.
Qed.

Lemma add_edge_num_edges ty vs meas info gr :
  GraphSLAM.num_edges (fst (GraphSLAM.add_edge ty vs meas info gr))
  = (GraphSLAM.num_edges gr + 1)%Z.
Proof.
  unfold GraphSLAM.add_edge, GraphSLAM.num_edges. cbn [fst GraphSLAM.edges].
  rewrite length_app. cbn [List.length]. lia.
Qed.

Lemma within_residual_cons {A} (stamp_of : A -> Z) hs queue k kfs l :
  Forall (within_residual stamp_of hs queue kfs) l ->
  Forall (within_residual stamp_of hs queue (k :: kfs)) l.
Proof.
  apply Forall_impl. intros u (t & m & H1 & H2 & H3 & H4).
  exists t, m. repeat split; try assumption. now right.
Qed.

Lemma put_keyframe_stamps s k kf kf' :
  N.get_keyframe s k = Ok kf -> kf_stamp kf' = kf_stamp kf ->
  map kf_stamp (N.heap (N.put_keyframe k kf' s)) = map kf_stamp (N.heap s).
Proof.
  unfold N.get_keyframe, N.put_keyframe. cbn [N.set_heap N.heap].
  destruct (nth_error (N.heap s) k) eqn:E; [|discriminate]. intros H Hs.
  inversion H; subst. now apply (set_index_ids kf_stamp _ _ _ _ E).
Qed.

Lemma get_keyframe_stamp s k kf :
  N.get_keyframe s k = Ok kf -> nth_error (map kf_stamp (N.heap s)) k = Some (kf_stamp kf).
Proof.
  unfold N.get_keyframe. destruct (nth_error (N.heap s) k) eqn:E; [|discriminate].
  intro H. inversion H; subst. now apply map_nth_error.
Qed.

Lemma at_index_nth {A} (v : list A) i a : at_index v i = Ok a -> nth_error v i = Some a.
Proof. unfold at_index. destruct (nth_error v i); congruence. Qed.

Lemma kernel_edge_num_edges ty vs meas info k sz gr :
  GraphSLAM.num_edges
    (let '(gr', e) := GraphSLAM.add_edge ty vs meas info gr in
     GraphSLAM.add_robust_kernel e k sz gr') = (GraphSLAM.num_edges gr + 1)%Z.
Proof.
  pose proof (add_edge_num_edges ty vs meas info gr) as H.
  destruct (GraphSLAM.add_edge ty vs meas info gr) as [gr' e]. cbn [fst] in H.
  now rewrite kernel_num_edges.
Qed.

Section Flush.

Variable params : N.Params.
Variable fromMsg : N.GeoPoint -> UTMCoord.
Variable tf_transform : string -> N.Imu -> option (Vector3d * Quaterniond).

Lemma add_gps_edge_num_edges node xyz gr :
  GraphSLAM.num_edges (N.add_gps_edge params node xyz gr) = (GraphSLAM.num_edges gr + 1)%Z.
Proof.
  unfold N.add_gps_edge. destruct (altitude xyz); apply kernel_edge_num_edges.
Qed.

Lemma gps_loop_spec queue : forall kfs cursor updated used s s' updated' used',
  N.gps_loop params fromMsg queue kfs cursor updated used s = Ok (s', updated', used') ->
  N.keyframes s' = N.keyframes s
  /\ N.gps_queue s' = N.gps_queue s
  /\ map kf_stamp (N.heap s') = map kf_stamp (N.heap s)
  /\ exists new,
       used' = (used ++ new)%list
       /\ Forall (within_residual N.gps_stamp (map kf_stamp (N.heap s)) queue kfs) new
       /\ GraphSLAM.num_edges (N.graph_slam s')
          = (GraphSLAM.num_edges (N.graph_slam s) + Z.of_nat (List.length new))%Z.
Proof.
  induction kfs as [|keyframe rest IH]; intros cursor updated used s s' updated' used' H.
  - cbn in H. inversion H; subst. repeat split. exists []. rewrite app_nil_r.
    repeat split; [constructor|cbn; lia].
  - cbn [N.gps_loop] in H. bind_inv H.
    match goal with E : N.get_keyframe s keyframe = Ok ?kf |- _ =>
      rename E into Hkf; rename kf into kf0 end.
    destruct (_ <? kf_stamp kf0)%Z.
    { inversion H; subst. repeat split. exists []. rewrite app_nil_r.
      repeat split; [constructor|cbn; lia]. }
    bind_inv H.
    destruct (_ || _).
    { apply IH in H. destruct H as (H1 & H2 & H3 & new & H4 & H5 & H6).
      repeat split; try assumption. exists new. repeat split; try assumption.
      now apply within_residual_cons. }
    bind_inv H.
    match goal with E : at_index queue (N.find_closest _ _ _) = Ok ?m |- _ =>
      rename E into Hclosest; rename m into closest end.
    destruct (N.max_time_residual <? _)%Z eqn:Eres.
    { apply IH in H. destruct H as (H1 & H2 & H3 & new & H4 & H5 & H6).
      repeat split; try assumption. exists new. repeat split; try assumption.
      now apply within_residual_cons. }
    apply Z.ltb_ge in Eres. bind_inv H.
    apply IH in H. destruct H as (H1 & H2 & H3 & new & H4 & H5 & H6).
    cbn [N.set_graph_slam N.put_keyframe N.set_heap N.set_zero_utm N.keyframes N.gps_queue
         N.graph_slam N.heap] in H1, H2, H3, H5, H6.
    assert (Hst : map kf_stamp (set_index (N.heap s) keyframe
                    (N.set_utm_coord
                       (Some (N.utm_sub (fromMsg (N.position closest))
                                match N.zero_utm s with Some z => z
                                | None => fromMsg (N.position closest) end)) kf0))
                  = map kf_stamp (N.heap s)).
    { unfold N.get_keyframe in Hkf.
      destruct (nth_error (N.heap s) keyframe) eqn:En; [|discriminate].
      inversion Hkf; subst. now apply (set_index_ids kf_stamp _ _ _ _ En). }
    rewrite Hst in H3, H5. rewrite add_gps_edge_num_edges in H6.
    repeat split; try assumption.
    exists ((keyframe, N.find_closest (map N.gps_stamp queue) (kf_stamp kf0) cursor) :: new).
    split; [now rewrite H4, <- app_assoc|]. split.
    + constructor; [|now apply within_residual_cons].
      exists (kf_stamp kf0), closest. cbn [fst snd]. repeat split.
      * now apply get_keyframe_stamp.
      * now apply at_index_nth.
      * exact Eres.
      * now left.
    + cbn [List.length]. lia.
Qed.

Lemma latest_stamp_stable s s' latest :
  N.keyframes s' = N.keyframes s ->
  map kf_stamp (N.heap s') = map kf_stamp (N.heap s) ->
  N.latest_stamp s = Ok latest -> N.latest_stamp s' = Ok latest.
Proof.
  unfold N.latest_stamp. intros Hk Hh H. rewrite Hk.
  destruct (back (N.keyframes s)) as [k|] eqn:E; [cbn [bind] in *|discriminate].
  destruct (N.get_keyframe s k) as [kf|] eqn:E0; [cbn [bind] in H|discriminate].
  inversion H; subst latest; clear H.
  apply get_keyframe_stamp in E0. rewrite <- Hh, nth_error_map in E0.
  unfold N.get_keyframe.
  destruct (nth_error (N.heap s') k); cbn in E0; [|discriminate].
  cbn [bind]. inversion E0. reflexivity.
Qed.

Lemma flush_gps_queue_spec (s s' : N.State) (updated : bool)
    (used : list (N.KeyFramePtr * nat)) (latest : Z) :
  N.flush_gps_queue_used params fromMsg s = Ok (s', updated, used) ->
  N.latest_stamp s = Ok latest ->
  ascending (map N.gps_stamp (N.gps_queue s)) = true ->
  N.gps_queue s' = filter (fun m => (latest <? N.gps_stamp m)%Z) (N.gps_queue s)
  /\ Forall (within_residual N.gps_stamp (map kf_stamp (N.heap s)) (N.gps_queue s)
                             (N.keyframes s)) used
  /\ GraphSLAM.num_edges (N.graph_slam s')
     = (GraphSLAM.num_edges (N.graph_slam s) + Z.of_nat (List.length used))%Z.
Proof.
  unfold N.flush_gps_queue_used. intros H Hlatest Hasc.
  destruct (N.keyframes s) as [|k0 ks] eqn:Ek.
  { unfold N.latest_stamp in Hlatest. rewrite Ek in Hlatest. discriminate. }
  destruct (N.gps_queue s) as [|g0 gs] eqn:Eq.
  { inversion H; subst. rewrite Eq. repeat split; [constructor|cbn; lia]. }
  bind_inv H.
  match goal with E : N.gps_loop _ _ _ _ _ _ _ _ = Ok _ |- _ =>
    apply gps_loop_spec in E; destruct E as (Hk & Hq & Hh & new & Hu & Hnew & He) end.
  cbn [app] in Hu. subst new.
  match goal with E : N.latest_stamp ?s0 = Ok ?l |- _ =>
    rewrite (latest_stamp_stable s s0 latest Hk Hh Hlatest) in E;
    inversion E; subst l; clear E end.
  inversion H; subst; clear H.
  cbn [N.set_gps_queue N.gps_queue N.graph_slam].
  rewrite Hq, Eq. rewrite erase_until_ascending by exact Hasc.
  repeat split; assumption.
Qed.

Lemma add_imu_edges_num_edges node acc ori gr :
  GraphSLAM.num_edges (N.add_imu_edges params node acc ori gr)
  = (GraphSLAM.num_edges gr
     + ((if N.enable_imu_orientation params then 1 else 0)
        + (if N.enable_imu_acceleration params then 1 else 0)))%Z.
Proof.
  unfold N.add_imu_edges.
  destruct (N.enable_imu_orientation params); destruct (N.enable_imu_acceleration params);
    rewrite ?kernel_edge_num_edges; lia.
Qed.

Lemma imu_loop_spec queue : forall kfs cursor updated used s s' updated' used' exit,
  N.imu_loop params tf_transform queue kfs cursor updated used s
  = Ok (s', updated', used', exit) ->
  N.keyframes s' = N.keyframes s
  /\ N.imu_queue s' = N.imu_queue s
  /\ N.base_frame_id s' = N.base_frame_id s
  /\ map kf_stamp (N.heap s') = map kf_stamp (N.heap s)
  /\ ((forall imu, tf_transform (N.base_frame_id s) imu <> None) -> exit = N.LoopDone)
  /\ exists new,
       used' = (used ++ new)%list
       /\ Forall (within_residual N.imu_stamp (map kf_stamp (N.heap s)) queue kfs) new
       /\ GraphSLAM.num_edges (N.graph_slam s')
          = (GraphSLAM.num_edges (N.graph_slam s)
             + Z.of_nat (List.length new)
               * ((if N.enable_imu_orientation params then 1 else 0)
                  + (if N.enable_imu_acceleration params then 1 else 0)))%Z.
Proof.
  induction kfs as [|keyframe rest IH];
    intros cursor updated used s s' updated' used' exit H.
  - cbn in H. inversion H; subst. repeat split. exists []. rewrite app_nil_r.
    repeat split; [constructor|cbn; lia].
  - cbn [N.imu_loop] in H. bind_inv H.
    match goal with E : N.get_keyframe s keyframe = Ok ?kf |- _ =>
      rename E into Hkf; rename kf into kf0 end.
    destruct (_ <? kf_stamp kf0)%Z.
    { inversion H; subst. repeat split. exists []. rewrite app_nil_r.
      repeat split; [constructor|cbn; lia]. }
    bind_inv H.
    destruct (_ || _).
    { apply IH in H. destruct H as (H1 & H2 & Hb & H3 & Hx & new & H4 & H5 & H6).
      repeat split; try assumption. exists new. repeat split; try assumption.
      now apply within_residual_cons. }
    bind_inv H.
    match goal with E : at_index queue (N.find_closest _ _ _) = Ok ?m |- _ =>
      rename E into Hclosest; rename m into closest end.
    destruct (N.max_time_residual <? _)%Z eqn:Eres.
    { apply IH in H. destruct H as (H1 & H2 & Hb & H3 & Hx & new & H4 & H5 & H6).
      repeat split; try assumption. exists new. repeat split; try assumption.
      now apply within_residual_cons. }
    apply Z.ltb_ge in Eres.
    destruct (tf_transform (N.base_frame_id s) closest) as [[acc_base quat_base]|] eqn:Etf.
    2: { inversion H; subst. repeat split.
         - intro Hall. exfalso. now apply (Hall closest).
         - exists []. rewrite app_nil_r. repeat split; [constructor|cbn; lia]. }
    bind_inv H.
    apply IH in H. destruct H as (H1 & H2 & Hb & H3 & Hx & new & H4 & H5 & H6).
    cbn [N.set_graph_slam N.put_keyframe N.set_heap N.keyframes N.imu_queue
         N.base_frame_id N.graph_slam N.heap] in H1, H2, Hb, H3, Hx, H5, H6.
    assert (Hst : map kf_stamp (set_index (N.heap s) keyframe
                    (N.set_imu (Some acc_base) (Some (N.positive_w quat_base)) kf0))
                  = map kf_stamp (N.heap s)).
    { unfold N.get_keyframe in Hkf.
      destruct (nth_error (N.heap s) keyframe) eqn:En; [|discriminate].
      inversion Hkf; subst. now apply (set_index_ids kf_stamp _ _ _ _ En). }
    rewrite Hst in H3, H5. rewrite add_imu_edges_num_edges in H6.
    repeat split; try assumption.
    exists ((keyframe, N.find_closest (map N.imu_stamp queue) (kf_stamp kf0) cursor) :: new).
    split; [now rewrite H4, <- app_assoc|]. split.
    + constructor; [|now apply within_residual_cons].
      exists (kf_stamp kf0), closest. cbn [fst snd]. repeat split.
      * now apply get_keyframe_stamp.
      * now apply at_index_nth.
      * exact Eres.
      * now left.
    + cbn [List.length]. lia.
Qed.

Lemma flush_imu_queue_spec (s s' : N.State) (updated : bool)
    (used : list (N.KeyFramePtr * nat)) (latest : Z) :
  N.flush_imu_queue_used params tf_transform s = Ok (s', updated, used) ->
  N.latest_stamp s = Ok latest ->
  ascending (map N.imu_stamp (N.imu_queue s)) = true ->
  N.base_frame_id s <> ""%string ->
  (forall imu, tf_transform (N.base_frame_id s) imu <> None) ->
  N.imu_queue s' = filter (fun m => (latest <? N.imu_stamp m)%Z) (N.imu_queue s)
  /\ Forall (within_residual N.imu_stamp (map kf_stamp (N.heap s)) (N.imu_queue s)
                             (N.keyframes s)) used
  /\ GraphSLAM.num_edges (N.graph_slam s')
     = (GraphSLAM.num_edges (N.graph_slam s)
        + Z.of_nat (List.length used)
          * ((if N.enable_imu_orientation params then 1 else 0)
             + (if N.enable_imu_acceleration params then 1 else 0)))%Z.
Proof.
  unfold N.flush_imu_queue_used. intros H Hlatest Hasc Hbase Htf.
  destruct (N.keyframes s) as [|k0 ks] eqn:Ek.
  { unfold N.latest_stamp in Hlatest. rewrite Ek in Hlatest. discriminate. }
  destruct (N.imu_queue s) as [|g0 gs] eqn:Eq.
  { inversion H; subst. rewrite Eq. repeat split; [constructor|cbn; lia]. }
  destruct (String.eqb (N.base_frame_id s) "") eqn:Eb.
  { apply String.eqb_eq in Eb. contradiction. }
  bind_inv H.
  match goal with E : N.imu_loop _ _ _ _ _ _ _ _ = Ok _ |- _ =>
    apply imu_loop_spec in E;
    destruct E as (Hk & Hq & Hbf & Hh & Hexit & new & Hu & Hnew & He) end.
  cbn [app] in Hu. subst new. rewrite (Hexit Htf) in H. bind_inv H.
  match goal with E : N.latest_stamp ?s0 = Ok ?l |- _ =>
    rewrite (latest_stamp_stable s s0 latest Hk Hh Hlatest) in E;
    inversion E; subst l; clear E end.
  inversion H; subst; clear H.
  cbn [N.set_imu_queue N.imu_queue N.graph_slam].
  rewrite Hq, Eq. rewrite erase_until_ascending by exact Hasc.
  repeat split; assumption.
Qed.

End Flush.

Lemma far_not_used {A} (stamp_of : A -> Z) hs (queue : list A) kfs used i :
  Forall (within_residual stamp_of hs queue kfs) used ->
  far_from_keyframes stamp_of hs queue kfs i ->
  ~ In i (map snd used).
Proof.
  intros Hused Hfar Hin. apply in_map_iff in Hin. destruct Hin as ([k j] & Hj & Hin).
  cbn in Hj. subst j. rewrite Forall_forall in Hused.
  destruct (Hused _ Hin) as (t & m & Ht & Hm & Hres & Hk). cbn [fst snd] in *.
  specialize (Hfar m k t Hm Hk Ht). lia.
Qed.

(** C6, as the code has it.  For a queue held in time order and a flush
    that runs to its end (there is a latest keyframe; for the IMU queue the
    base frame is known and the transform listener does not throw):
    - the queue afterwards holds exactly the measurements stamped after the
      latest keyframe, so each of those stays and every other one is gone;
    - every prior edge comes from a measurement within 0.2 s of the keyframe
      it is attached to, so a measurement more than 0.2 s away from every
      keyframe gives no edge;
    - the edges added to the graph are those of the measurements recorded
      as used (one each for GPS; one per enabled IMU constraint).
    Nothing keeps a measurement stamped after the latest keyframe from being
    used while it stays queued. *)
Theorem queue_draining_boundary (params : N.Params) (fromMsg : N.GeoPoint -> UTMCoord)
    (tf_transform : string -> N.Imu -> option (Vector3d * Quaterniond))
    (s s' : N.State) (updated : bool) (used : list (N.KeyFramePtr * nat)) (latest : Z)
    (Hlatest : N.latest_stamp s = Ok latest) :
  (N.flush_gps_queue_used params fromMsg s = Ok (s', updated, used) ->
   ascending (map N.gps_stamp (N.gps_queue s)) = true ->
   N.gps_queue s' = filter (fun m => (latest <? N.gps_stamp m)%Z) (N.gps_queue s)
   /\ Forall (within_residual N.gps_stamp (map kf_stamp (N.heap s)) (N.gps_queue s)
                              (N.keyframes s)) used
   /\ (forall i, far_from_keyframes N.gps_stamp (map kf_stamp (N.heap s)) (N.gps_queue s)
                                    (N.keyframes s) i -> ~ In i (map snd used))
   /\ GraphSLAM.num_edges (N.graph_slam s')
      = (GraphSLAM.num_edges (N.graph_slam s) + Z.of_nat (List.length used))%Z)
  /\ (N.flush_imu_queue_used params tf_transform s = Ok (s', updated, used) ->
      ascending (map N.imu_stamp (N.imu_queue s)) = true ->
      N.base_frame_id s <> ""%string ->
      (forall imu, tf_transform (N.base_frame_id s) imu <> None) ->
      N.imu_queue s' = filter (fun m => (latest <? N.imu_stamp m)%Z) (N.imu_queue s)
      /\ Forall (within_residual N.imu_stamp (map kf_stamp (N.heap s)) (N.imu_queue s)
                                 (N.keyframes s)) used
      /\ (forall i, far_from_keyframes N.imu_stamp (map kf_stamp (N.heap s)) (N.imu_queue s)
                                       (N.keyframes s) i -> ~ In i (map snd used))
      /\ GraphSLAM.num_edges (N.graph_slam s')
         = (GraphSLAM.num_edges (N.graph_slam s)
            + Z.of_nat (List.length used)
              * ((if N.enable_imu_orientation params then 1 else 0)
                 + (if N.enable_imu_acceleration params then 1 else 0)))%Z).
Proof.
  split.
  - intros H Hasc.
    destruct (flush_gps_queue_spec params fromMsg s s' updated used latest H Hlatest Hasc)
      as (Hq & Hused & He).
    repeat split; try assumption. intros i Hfar. now apply (far_not_used _ _ _ _ _ _ Hused).
  - intros H Hasc Hbase Htf.
    destruct (flush_imu_queue_spec params tf_transform s s' updated used latest
                H Hlatest Hasc Hbase Htf) as (Hq & Hused & He).
    repeat split; try assumption. intros i Hfar. now apply (far_not_used _ _ _ _ _ _ Hused).
Qed.

Lemma queue_draining_boundary_witness :
  exists s' s'',
    (N.latest_stamp sample_gps_state = Ok (N.sec 10)
     /\ N.flush_gps_queue_used N.default_params sample_fromMsg sample_gps_state
        = Ok (s', true, [(O, 1%nat)])
     /\ N.flush_imu_queue_used N.default_params sample_tf sample_imu_state
        = Ok (s'', true, [(O, 1%nat)]))
    /\ map N.gps_stamp (N.gps_queue s') = [(N.sec 10 + 100000000)%Z]
    /\ N.imu_queue s'' = [].
Proof.
  destruct (N.flush_gps_queue_used N.default_params sample_fromMsg sample_gps_state)
    as [[[s' u] used]|] eqn:Eg; [|vm_compute in Eg; discriminate Eg].
  destruct (N.flush_imu_queue_used N.default_params sample_tf sample_imu_state)
    as [[[s'' u'] used']|] eqn:Ei; [|vm_compute in Ei; discriminate Ei].
  exists s', s''.
  destruct (queue_draining_boundary N.default_params sample_fromMsg sample_tf
              sample_gps_state s' u used (N.sec 10) eq_refl) as [Hg _].
  destruct (queue_draining_boundary N.default_params sample_fromMsg sample_tf
              sample_imu_state s'' u' used' (N.sec 10) eq_refl) as [_ Hi].
  destruct (Hg Eg eq_refl) as (Hgq & _).
  destruct (Hi Ei eq_refl) as (Hiq & _).
  - discriminate.
  - intros imu. discriminate.
  - rewrite Hgq, Hiq. vm_compute in Eg, Ei.
    inversion Eg; subst. inversion Ei; subst. repeat split.
Defined.

(** C6 as stated fails.  With a keyframe at 10 s and GPS fixes at 9 s and
    10.1 s, the flush attaches the fix of 10.1 s to the keyframe: the fix is
    stamped after the latest keyframe and stays queued, and a prior edge is
    added from it.  With IMU measurements at 1 s and 10 s and a transform
    listener that throws, the flush returns at once: the measurement of
    1 s, 9 s away from the only keyframe, is not removed. *)
Lemma queue_draining_not_as_claimed :
  (exists s',
      N.flush_gps_queue_used N.default_params sample_fromMsg sample_gps_state
      = Ok (s', true, [(O, 1%nat)])
      /\ N.latest_stamp sample_gps_state = Ok (N.sec 10)
      /\ map N.gps_stamp (N.gps_queue sample_gps_state)
         = [N.sec 9; (N.sec 10 + 100000000)%Z]
      /\ map N.gps_stamp (N.gps_queue s') = [(N.sec 10 + 100000000)%Z]
      /\ GraphSLAM.num_edges (N.graph_slam s')
         = (GraphSLAM.num_edges (N.graph_slam sample_gps_state) + 1)%Z)
  /\ (N.flush_imu_queue_used N.default_params sample_tf_fails sample_imu_state
      = Ok (sample_imu_state, false, [])
      /\ map N.imu_stamp (N.imu_queue sample_imu_state) = [N.sec 1; N.sec 10]).
Proof.
  split.
  - eexists. split; [vm_compute; reflexivity|]. repeat split.
  - split; reflexivity.
Qed.

(** ** The tick with nothing to do *)

Ltac frame_step IH H :=
  repeat first
    [ progress bind_inv H
    | match type of H with
      | Ok _ = Ok _ => inversion H; subst; clear H; reflexivity
      | (if ?c then _ else _) = Ok _ => destruct c eqn:?
      | match ?x with _ => _ end = Ok _ => destruct x eqn:?
      end ];
  try (apply IH in H; exact H).

Section Tick.

Variable maha_dist : Isometry3d -> Plane3D -> Matrix3d -> Plane3D -> option Q.
Variable cloud_plane_length : PointCloud -> Q.
Variable sqrt : Q -> Q.
Variable params : N.Params.
Variable calc_information_matrix : PointCloud -> PointCloud -> Isometry3d -> MatrixXd.
Variable fromMsg : N.GeoPoint -> UTMCoord.
Variable tf_transform : string -> N.Imu -> option (Vector3d * Quaterniond).

Lemma flush_keyframe_queue_quiet s s' :
  N.flush_keyframe_queue params calc_information_matrix s = Ok (s', false) -> s' = s.
Proof.
  unfold N.flush_keyframe_queue. destruct (N.keyframe_queue s).
  - intros H. now inversion H.
  - intros H. bind_inv H. discriminate H.
Qed.

Lemma floor_loop_published latest : forall queue updated s r,
  N.floor_loop params latest queue updated s = Ok r -> published (fst r) = published s.
Proof.
  induction queue as [|fc rest IH]; intros updated s r H; cbn [N.floor_loop] in H.
  - now inversion H.
  - destruct (latest <? N.floor_stamp fc)%Z; [now inversion H|].
    destruct (N.hash_find _ _); [|now apply IH in H].
    destruct (N.floor_plane_node s);
      [|destruct (GraphSLAM.add_plane_node _ _) as [gr n] eqn:En];
      unfold GraphSLAM.add_edge in H; frame_step IH H.
Qed.

Lemma flush_floor_queue_published s r :
  N.flush_floor_queue params s = Ok r -> published (fst r) = published s.
Proof.
  unfold N.flush_floor_queue. intros H. destruct (N.keyframes s); [now inversion H|].
  bind_inv H. apply floor_loop_published in E0. inversion H; subst. exact E0.
Qed.

Lemma gps_loop_published queue : forall kfs cursor updated used s r,
  N.gps_loop params fromMsg queue kfs cursor updated used s = Ok r ->
  published (fst (fst r)) = published s.
Proof.
  induction kfs as [|keyframe rest IH]; intros cursor updated used s r H;
    cbn [N.gps_loop] in H.
  - now inversion H.
  - frame_step IH H.
Qed.

Lemma flush_gps_queue_published s r :
  N.flush_gps_queue params fromMsg s = Ok r -> published (fst r) = published s.
Proof.
  unfold N.flush_gps_queue. intros H. bind_inv H. inversion H; subst. cbn [fst].
  unfold N.flush_gps_queue_used in E.
  destruct (N.keyframes s); [now inversion E|].
  destruct (N.gps_queue s); [now inversion E|].
  bind_inv E.
  match goal with E' : N.gps_loop _ _ _ _ _ _ _ _ = Ok _ |- _ =>
    apply gps_loop_published in E'; cbn [fst] in E' end.
  inversion E; subst. assumption.
Qed.

Lemma imu_loop_published queue : forall kfs cursor updated used s r,
  N.imu_loop params tf_transform queue kfs cursor updated used s = Ok r ->
  published (fst (fst (fst r))) = published s.
Proof.
  induction kfs as [|keyframe rest IH]; intros cursor updated used s r H;
    cbn [N.imu_loop] in H.
  - now inversion H.
  - frame_step IH H.
Qed.

Lemma flush_imu_queue_published s r :
  N.flush_imu_queue params tf_transform s = Ok r -> published (fst r) = published s.
Proof.
  unfold N.flush_imu_queue. intros H. bind_inv H. inversion H; subst. cbn [fst].
  unfold N.flush_imu_queue_used in E.
  destruct (N.keyframes s); [now inversion E|].
  destruct (N.imu_queue s); [now inversion E|].
  destruct (String.eqb _ _); [now inversion E|].
  bind_inv E.
  match goal with E' : N.imu_loop _ _ _ _ _ _ _ _ = Ok _ |- _ =>
    apply imu_loop_published in E'; cbn [fst] in E' end.
  match goal with x : N.imu_exit |- _ => destruct x end;
    bind_inv E; inversion E; subst; assumption.
Qed.

(** Once [updated] is set it stays set. *)
Lemma seg_clouds_loop_updated latest : forall clouds acc s s' acc',
  N.seg_clouds_loop maha_dist cloud_plane_length params latest clouds acc s = Ok (s', acc') ->
  N.seg_updated acc = true -> N.seg_updated acc' = true.
Proof.
  induction clouds as [|c rest IH]; intros acc s s' acc' H Hu; cbn [N.seg_clouds_loop] in H.
  - inversion H; subst. exact Hu.
  - repeat first
      [ progress bind_inv H
      | match type of H with
        | Ok _ = Ok _ => inversion H; subst; clear H; exact Hu
        | (if ?c then _ else _) = Ok _ => destruct c eqn:?
        | match ?x with _ => _ end = Ok _ => destruct x eqn:?
        end ];
    (apply IH in H; [exact H|first [exact Hu|reflexivity]]).
Qed.

(** While [updated] is not set, no plane has been factored: the candidate
    lists are as they were, and nothing was published. *)
Lemma seg_clouds_loop_quiet latest : forall clouds acc s s' acc',
  N.seg_clouds_loop maha_dist cloud_plane_length params latest clouds acc s = Ok (s', acc') ->
  N.seg_updated acc' = false ->
  acc' = acc /\ published s' = published s.
Proof.
  induction clouds as [|c rest IH]; intros acc s s' acc' H Hu; cbn [N.seg_clouds_loop] in H.
  - inversion H; subst. now split.
  - repeat first
      [ progress bind_inv H
      | match type of H with
        | Ok _ = Ok _ => inversion H; subst; clear H; now split
        | (if ?c then _ else _) = Ok _ => destruct c eqn:?
        | match ?x with _ => _ end = Ok _ => destruct x eqn:?
        end ];
    try (apply seg_clouds_loop_updated in H; [congruence|reflexivity]);
    (apply IH in H; [exact H|exact Hu]).
Qed.

Lemma seg_structures_no_candidates updated s :
  N.seg_structures sqrt params (N.mkSegAcc [] [] [] [] updated) s = Ok s.
Proof.
  unfold N.seg_structures. cbn.
  destruct (N.use_corridor_constraint params), (N.use_room_constraint params); reflexivity.
Qed.

Lemma seg_queue_loop_updated latest : forall queue s s' updated,
  N.seg_queue_loop maha_dist cloud_plane_length sqrt params latest queue true s
  = Ok (s', updated) -> updated = true.
Proof.
  induction queue as [|m rest IH]; intros s s' updated H; cbn [N.seg_queue_loop] in H.
  - now inversion H.
  - bind_inv H.
    match goal with E : N.seg_clouds_loop _ _ _ _ _ _ _ = Ok _ |- _ =>
      apply seg_clouds_loop_updated in E; [|reflexivity]; rewrite E in H end.
    now apply IH in H.
Qed.

Lemma seg_queue_loop_quiet latest : forall queue s s',
  N.seg_queue_loop maha_dist cloud_plane_length sqrt params latest queue false s
  = Ok (s', false) -> published s' = published s.
Proof.
  induction queue as [|m rest IH]; intros s s' H; cbn [N.seg_queue_loop] in H.
  - now inversion H.
  - bind_inv H.
    match goal with E : N.seg_clouds_loop _ _ _ _ _ _ _ = Ok (_, ?a) |- _ =>
      destruct (N.seg_updated a) eqn:Eu;
      [ apply seg_queue_loop_updated in H; discriminate H
      | destruct (seg_clouds_loop_quiet _ _ _ _ _ _ E Eu) as [-> Hp] ]
    end.
    rewrite seg_structures_no_candidates in E0. inversion E0; subst.
    apply IH in H. congruence.
Qed.

Lemma flush_clouds_seg_queue_quiet s s' :
  N.flush_clouds_seg_queue maha_dist cloud_plane_length sqrt params s = Ok (s', false) ->
  published s' = published s.
Proof.
  unfold N.flush_clouds_seg_queue. intros H.
  destruct (N.keyframes s); [now inversion H|].
  destruct (N.clouds_seg_queue s); [now inversion H|].
  bind_inv H. inversion H; subst.
  match goal with E : N.seg_queue_loop _ _ _ _ _ _ _ _ = Ok _ |- _ =>
    apply seg_queue_loop_quiet in E; exact E end.
Qed.

End Tick.

(** C8.  On a tick in which the keyframe flush and the floor, GPS, IMU and
    segmented-plane flushes all report no change, the callback returns right
    after the flushes, with the state the last flush left: the odom-to-map
    transform, the keyframe snapshot and [graph_updated] are as before the
    tick, and the only messages of the tick are the two [read_until]
    messages, so that neither the loop detector nor the solver was called
    and no transform was published. *)
Theorem no_op_tick
    (maha_dist : Isometry3d -> Plane3D -> Matrix3d -> Plane3D -> option Q)
    (cloud_plane_length : PointCloud -> Q) (sqrt : Q -> Q) (params : N.Params)
    (calc_information_matrix : PointCloud -> PointCloud -> Isometry3d -> MatrixXd)
    (fromMsg : N.GeoPoint -> UTMCoord)
    (tf_transform : string -> N.Imu -> option (Vector3d * Quaterniond))
    (optimize : GraphSLAM.t -> Z -> GraphSLAM.t * Z)
    (compute_landmark_marginals : GraphSLAM.t -> list (Z * Z) -> option (Z -> Z -> Matrix3d))
    (hessianIndex : GraphSLAM.t -> VertexRef -> Z) (llt_numerical_issue : Matrix3d -> bool)
    (detect : list KeyFrame -> list N.KeyFramePtr -> list N.KeyFramePtr -> GraphSLAM.t
              -> list N.Loop)
    (now : Z) (s s1 s2 s3 s4 s5 : N.State) :
  N.flush_keyframe_queue params calc_information_matrix s = Ok (s1, false) ->
  N.flush_floor_queue params
    (N.emit (N.ReadUntil (now + N.sec 30) "/filtered_points")
       (N.emit (N.ReadUntil (now + N.sec 30) (N.points_topic params)) s1)) = Ok (s2, false) ->
  N.flush_gps_queue params fromMsg s2 = Ok (s3, false) ->
  N.flush_imu_queue params tf_transform s3 = Ok (s4, false) ->
  N.flush_clouds_seg_queue maha_dist cloud_plane_length sqrt params s4 = Ok (s5, false) ->
  N.optimization_timer_callback maha_dist cloud_plane_length sqrt params
    calc_information_matrix fromMsg tf_transform optimize compute_landmark_marginals
    hessianIndex llt_numerical_issue detect now s = Ok s5
  /\ N.trans_odom2map s5 = N.trans_odom2map s
  /\ N.keyframes_snapshot s5 = N.keyframes_snapshot s
  /\ N.graph_updated s5 = N.graph_updated s
  /\ N.events s5 = (N.events s ++ read_until_messages params now)%list.
Proof.
  intros Hk Hf Hg Hi Hc. split.
  - unfold N.optimization_timer_callback. rewrite Hk. cbn [bind negb].
    rewrite Hf. cbn [bind]. rewrite Hg. cbn [bind]. rewrite Hi. cbn [bind].
    rewrite Hc. reflexivity.
  - apply flush_keyframe_queue_quiet in Hk. subst s1.
    apply flush_floor_queue_published in Hf. apply flush_gps_queue_published in Hg.
    apply flush_imu_queue_published in Hi. apply flush_clouds_seg_queue_quiet in Hc.
    cbn [fst] in Hf, Hg, Hi.
    assert (H : published s5
                = (N.trans_odom2map s, N.keyframes_snapshot s, N.graph_updated s,
                   (N.events s ++ read_until_messages params now)%list)).
    { rewrite Hc, Hi, Hg, Hf. unfold published, N.emit. cbn.
      now rewrite <- app_assoc. }
    unfold published in H. injection H as H1 H2 H3 H4. repeat split; assumption.
Qed.

Lemma no_op_tick_witness :
  exists s5,
    N.optimization_timer_callback sample_maha_dist (fun _ => 0) (fun x => x) N.default_params
      (fun _ _ _ => []) sample_fromMsg sample_tf_fails (fun gr _ => (gr, 1%Z))
      (fun _ _ => None) (fun _ _ => 0%Z) (fun _ => false) (fun _ _ _ _ => [])
      0 sample_quiet_state = Ok s5
    /\ N.events s5 = read_until_messages N.default_params 0
    /\ N.floor_coeffs_queue s5 = [] /\ N.clouds_seg_queue s5 = []
    /\ N.imu_queue s5 = N.imu_queue sample_quiet_state.
Proof.
  destruct (N.flush_floor_queue N.default_params
              (N.emit (N.ReadUntil (0 + N.sec 30) "/filtered_points")
                 (N.emit (N.ReadUntil (0 + N.sec 30) (N.points_topic N.default_params))
                    sample_quiet_state))) as [[s2 b2]|] eqn:Ef;
    [|vm_compute in Ef; discriminate Ef].
  assert (Ef' := Ef). vm_compute in Ef'. injection Ef' as <- <-.
  lazymatch type of Ef with _ = Ok (?s2, _) =>
    destruct (N.flush_gps_queue N.default_params sample_fromMsg s2) as [[s3 b3]|] eqn:Eg
  end; [|vm_compute in Eg; discriminate Eg].
  assert (Eg' := Eg). vm_compute in Eg'. injection Eg' as <- <-.
  lazymatch type of Eg with _ = Ok (?s3, _) =>
    destruct (N.flush_imu_queue N.default_params sample_tf_fails s3) as [[s4 b4]|] eqn:Ei
  end; [|vm_compute in Ei; discriminate Ei].
  assert (Ei' := Ei). vm_compute in Ei'. injection Ei' as <- <-.
  lazymatch type of Ei with _ = Ok (?s4, _) =>
    destruct (N.flush_clouds_seg_queue sample_maha_dist (fun _ => 0) (fun x => x)
                N.default_params s4) as [[s5 b5]|] eqn:Ec
  end; [|vm_compute in Ec; discriminate Ec].
  assert (Ec' := Ec). vm_compute in Ec'. injection Ec' as <- <-.
  destruct (no_op_tick sample_maha_dist (fun _ => 0) (fun x => x) N.default_params
              (fun _ _ _ => []) sample_fromMsg sample_tf_fails (fun gr _ => (gr, 1%Z))
              (fun _ _ => None) (fun _ _ => 0%Z) (fun _ => false) (fun _ _ _ _ => [])
              0 sample_quiet_state sample_quiet_state _ _ _ _ eq_refl Ef Eg Ei Ec)
    as (Hrun & _ & _ & _ & Hev).
  eexists. split; [exact Hrun|]. split; [exact Hev|]. repeat split.
Defined.

(** * Further properties of the code *)

(** ** The neighbour check of [PlaneUtils] *)

Lemma within_gate_permutation cloud_2 cloud_2' p :
  Permutation cloud_2 cloud_2' -> within_gate cloud_2 p = within_gate cloud_2' p.
Proof.
  intro H. unfold within_gate.
  induction H as [|q l l' _ IH|q q' l|l l' l'' _ IH1 _ IH2]; cbn [existsb].
  - reflexivity.
  - now rewrite IH.
  - now rewrite !orb_assoc, (orb_comm (Qltb _ _)).
  - congruence.
Qed.

Lemma overlap_count_permutation cloud_1 cloud_1' cloud_2 cloud_2' :
  Permutation cloud_1 cloud_1' -> Permutation cloud_2 cloud_2' ->
  overlap_count cloud_1 cloud_2 = overlap_count cloud_1' cloud_2'.
Proof.
  intros H1 H2. unfold overlap_count.
  rewrite (filter_ext _ _ (fun p => within_gate_permutation _ _ p H2)).
  induction H1 as [|q l l' _ IH|q q' l|l l' l'' _ IH1 _ IH2]; cbn [filter].
  - reflexivity.
  - destruct (within_gate cloud_2' q); cbn [List.length]; congruence.
  - destruct (within_gate cloud_2' q), (within_gate cloud_2' q'); reflexivity.
  - congruence.
Qed.

(** [check_point_neighbours] depends on the points of the two clouds, not
    on their order: it holds exactly when more than 100 points of [cloud_1]
    have a point of [cloud_2] at a squared distance below 0.5.  A first
    cloud of 100 points or fewer, or an empty second cloud, never passes. *)
Theorem check_point_neighbours_order_free (cloud_1 cloud_1' cloud_2 cloud_2' : PointCloud) :
  (Permutation cloud_1 cloud_1' -> Permutation cloud_2 cloud_2' ->
   PlaneUtils.check_point_neighbours cloud_1 cloud_2
   = PlaneUtils.check_point_neighbours cloud_1' cloud_2')
  /\ (PlaneUtils.check_point_neighbours cloud_1 cloud_2 = true ->
      (100 < List.length cloud_1)%nat /\ cloud_2 <> [])
  /\ (PlaneUtils.check_point_neighbours cloud_1 cloud_2 = true <->
      (100 < overlap_count cloud_1 cloud_2)%nat).
Proof.
  rewrite !check_point_neighbours_count. split; [|split].
  - intros H1 H2. now rewrite (overlap_count_permutation _ _ _ _ H1 H2).
  - intro H. apply Nat.leb_le in H. split.
    + unfold overlap_count in H.
      pose proof (filter_length_le (within_gate cloud_2) cloud_1). lia.
    + intros ->. unfold overlap_count, within_gate in H. cbn [existsb] in H.
      assert (E : filter (fun _ : PointNormal => false) cloud_1 = []).
      { clear H. induction cloud_1; [reflexivity|exact IHcloud_1]. }
      rewrite E in H. cbn in H. lia.
  - rewrite Nat.leb_le. lia.
Qed.

Lemma check_point_neighbours_order_free_witness :
  let origin := sample_point 0 0 0 in
  let far := sample_point 9 0 0 in
  PlaneUtils.check_point_neighbours (far :: repeat origin 101) [far; origin]
  = PlaneUtils.check_point_neighbours (repeat origin 101 ++ [far]) [origin; far]
  /\ (100 < List.length (far :: repeat origin 101))%nat.
Proof.
  intros origin far.
  destruct (check_point_neighbours_order_free (far :: repeat origin 101)
              (repeat origin 101 ++ [far]) [far; origin] [origin; far]) as (H1 & H2 & _).
  split.
  - apply H1.
    + change (far :: repeat origin 101) with ([far] ++ repeat origin 101)%list.
      apply Permutation_app_comm.
    + apply perm_swap.
  - apply H2. vm_compute. reflexivity.
Defined.
(** ** Walls at the same distance from the origin *)

Lemma negate_d_magnitude (p : Vector4d) : Qabs (c3 (N.negate_d p)) == Qabs (c3 p).
Proof.
  unfold N.negate_d. cbn [c3].
  setoid_replace (-1 * c3 p) with (- c3 p) by ring. apply Qabs_opp.
Qed.

Lemma correct_plane_d_magnitude plane_type (p1 p2 : Plane3D) :
  Qabs (c3 (fst (N.correct_plane_d plane_type p1 p2))) == Qabs (c3 p1)
  /\ Qabs (c3 (snd (N.correct_plane_d plane_type p1 p2))) == Qabs (c3 p2).
Proof.
  unfold N.correct_plane_d, coeffs.
  destruct (plane_type =? X_VERT_PLANE)%Z, (plane_type =? Y_VERT_PLANE)%Z;
    repeat match goal with |- context [if Qltb ?a ?b then _ else _] =>
                             destruct (Qltb a b) end;
    cbn [fst snd N.negate_d c0 c1 c3];
    split; try reflexivity;
    repeat (setoid_replace (-1 * c3 p1) with (- c3 p1) by ring);
    repeat (setoid_replace (-1 * c3 p2) with (- c3 p2) by ring);
    repeat (setoid_replace (-1 * - c3 p1) with (c3 p1) by ring);
    repeat (setoid_replace (-1 * - c3 p2) with (c3 p2) by ring);
    rewrite ?Qabs_opp; reflexivity.
Qed.

Lemma width_between_planes_same_magnitude (v1 v2 : Vector4d) :
  Qabs (c3 v1) == Qabs (c3 v2) -> N.width_between_planes v1 v2 = 0.
Proof.
  intro H. unfold N.width_between_planes.
  rewrite (Qltb_false (Qabs (c3 v2)) (Qabs (c3 v1))) by (rewrite H; apply Qle_refl).
  rewrite (Qltb_false (Qabs (c3 v1)) (Qabs (c3 v2))) by (rewrite H; apply Qle_refl).
  reflexivity.
Qed.

Lemma set_index_Forall {A} (P : A -> Prop) (v : list A) (i : nat) (a : A) :
  Forall P v -> P a -> Forall P (set_index v i a).
Proof.
  intros Hv Ha. revert i. induction Hv as [|x rest Hx Hrest IH]; intros [|i]; cbn;
    constructor; auto.
Qed.

Lemma at_index_in_range {A} (v : list A) (i : nat) :
  (i < List.length v)%nat -> exists a, at_index v i = Ok a /\ In a v.
Proof.
  intro H. unfold at_index. destruct (nth_error v i) eqn:E.
  - exists a. split; [reflexivity|]. now apply nth_error_In with i.
  - apply nth_error_None in E. lia.
Qed.

Lemma correct_candidates_same_magnitude plane_type m i j candidates :
  (i < List.length candidates)%nat -> (j < List.length candidates)%nat ->
  same_offset_magnitude m candidates ->
  exists candidates' ci cj,
    N.correct_candidates plane_type i j candidates = Ok (candidates', ci, cj)
    /\ List.length candidates' = List.length candidates
    /\ same_offset_magnitude m candidates'
    /\ Qabs (c3 (coeffs (N.plane ci))) == m
    /\ Qabs (c3 (coeffs (N.plane cj))) == m.
Proof.
  intros Hi Hj Hm. unfold N.correct_candidates.
  destruct (at_index_in_range _ _ Hi) as (a & -> & Ha).
  destruct (at_index_in_range _ _ Hj) as (b & -> & Hb). cbn [bind].
  unfold same_offset_magnitude in *. rewrite Forall_forall in Hm.
  pose proof (Hm _ Ha) as Hma. pose proof (Hm _ Hb) as Hmb.
  pose proof (correct_plane_d_magnitude plane_type (N.plane a) (N.plane b)) as [H1 H2].
  destruct (N.correct_plane_d plane_type (N.plane a) (N.plane b)) as [pa pb].
  destruct (N.correct_plane_d plane_type (N.plane_local a) (N.plane_local b)) as [la lb].
  cbn [fst snd] in H1, H2. unfold coeffs in *.
  assert (Ha' : Qabs (c3 (N.plane (N.set_planes pa la a))) == m)
    by (cbn [N.set_planes N.plane]; now rewrite H1).
  assert (Hb' : Qabs (c3 (N.plane (N.set_planes pb lb b))) == m)
    by (cbn [N.set_planes N.plane]; now rewrite H2).
  do 3 eexists. split; [reflexivity|]. rewrite !set_index_length.
  split; [reflexivity|]. split; [|split; assumption].
  apply set_index_Forall; [apply set_index_Forall|]; try assumption.
  now apply Forall_forall.
Qed.

Section SameMagnitude.

Variable params : N.Params.
Variable plane_type : Z.
Variable m : Q.
Variable size : nat.

(** What the two sorting loops keep when every offset has the magnitude
    [m]: the candidates stay [size] many with that magnitude, and no pair
    has been emitted. *)
Let quiet (st : list N.plane_data_list * list N.structure_data_list) : Prop :=
  List.length (fst st) = size /\ same_offset_magnitude m (fst st) /\ snd st = [].

Lemma corridor_step_quiet i j st :
  0 <= N.corridor_min_width params ->
  (i < size)%nat -> (j < size)%nat -> quiet st ->
  exists st', N.corridor_step params plane_type i j st = Ok st' /\ quiet st'.
Proof.
  intros Hmin Hi Hj (Hlen & Hm & Hnil). destruct st as [cands vec]. cbn [fst snd] in *.
  subst vec size. unfold N.corridor_step.
  destruct (correct_candidates_same_magnitude plane_type m i j cands Hi Hj Hm)
    as (cands' & ci & cj & -> & Hlen' & Hm' & Hci & Hcj).
  cbn [bind].
  rewrite (width_between_planes_same_magnitude (coeffs (N.plane ci)) (coeffs (N.plane cj)))
    by (unfold coeffs in *; now rewrite Hci, Hcj).
  rewrite (Qltb_false (N.corridor_min_width params) 0 Hmin).
  rewrite andb_false_r, andb_false_r. cbn [andb].
  eexists. split; [reflexivity|]. repeat split; assumption.
Qed.

Lemma room_step_quiet i j st :
  0 <= N.room_min_width params ->
  (i < size)%nat -> (j < size)%nat -> quiet st ->
  exists st', N.room_step params plane_type i j st = Ok st' /\ quiet st'.
Proof.
  intros Hmin Hi Hj (Hlen & Hm & Hnil). destruct st as [cands vec]. cbn [fst snd] in *.
  subst vec size. unfold N.room_step.
  destruct (correct_candidates_same_magnitude plane_type m i j cands Hi Hj Hm)
    as (cands' & ci & cj & -> & Hlen' & Hm' & Hci & Hcj).
  cbn [bind].
  rewrite (width_between_planes_same_magnitude (coeffs (N.plane ci)) (coeffs (N.plane cj)))
    by (unfold coeffs in *; now rewrite Hci, Hcj).
  rewrite (Qltb_false (N.room_min_width params) 0 Hmin).
  rewrite andb_false_r. cbn [andb].
  eexists. split; [reflexivity|]. repeat split; assumption.
Qed.

Variable step : nat -> nat -> list N.plane_data_list * list N.structure_data_list ->
                outcome (list N.plane_data_list * list N.structure_data_list).
Hypothesis step_quiet : forall i j st,
  (i < size)%nat -> (j < size)%nat -> quiet st -> exists st', step i j st = Ok st' /\ quiet st'.

Lemma inner_loop_quiet i : forall js st,
  (i < size)%nat -> Forall (fun j => (j < size)%nat) js -> quiet st ->
  exists st', N.inner_loop step i js st = Ok st' /\ quiet st'.
Proof.
  induction js as [|j js IH]; intros st Hi Hjs Hq; cbn [N.inner_loop].
  - now exists st.
  - inversion Hjs; subst.
    destruct (step_quiet i j st Hi H1 Hq) as (st1 & -> & Hq1). cbn [bind].
    now apply IH.
Qed.

Lemma outer_loop_quiet : forall indices st,
  Forall (fun i => (i < size)%nat) indices -> quiet st ->
  exists st', N.outer_loop step size indices st = Ok st' /\ quiet st'.
Proof.
  induction indices as [|i indices IH]; intros st Hi Hq; cbn [N.outer_loop].
  - now exists st.
  - inversion Hi; subst.
    destruct (inner_loop_quiet i (seq (S i) (size - S i)) st H1) as (st1 & -> & Hq1).
    + apply Forall_forall. intros j Hj. apply in_seq in Hj. lia.
    + exact Hq.
    + cbn [bind]. now apply IH.
Qed.

End SameMagnitude.

Lemma correct_one_axis_normal plane_type p :
  axis_normal p -> axis_normal (correct_one plane_type p).
Proof.
  unfold correct_one, N.correct_plane_d, axis_normal, coeffs.
  destruct (plane_type =? X_VERT_PLANE)%Z; destruct (plane_type =? Y_VERT_PLANE)%Z;
    repeat match goal with |- context [Qltb ?a 0] =>
             destruct (Qltb a 0); cbn [N.negate_d c0 c1 c2 fst snd] end;
    cbn [N.negate_d c0 c1 c2 fst snd]; exact (fun H => H).
Qed.

(** Two walls along an axis at the same distance from the origin of the map
    are never a corridor or a room pair.  The nodelet's
    [width_between_planes] leaves the width at 0 when the two offsets have
    the same magnitude.  The sign correction changes the offset only in
    sign and leaves the normal as it is, so that the plane it assigns has
    an axis normal of length 1 again and keeps the magnitude of its offset.
    So for candidates with such normals whose offsets all have one
    magnitude, and a least width that is not negative, [sort_corridors]
    and [sort_rooms] return no pair. *)
Theorem equidistant_walls_never_paired (params : N.Params) (plane_type : Z) (m : Q)
    (candidates : list N.plane_data_list) :
  same_offset_magnitude m candidates ->
  Forall (fun c => axis_normal (N.plane c)) candidates ->
  (forall v1 v2, Qabs (c3 v1) == Qabs (c3 v2) -> N.width_between_planes v1 v2 = 0)
  /\ Forall (fun c => axis_normal (correct_one plane_type (N.plane c))
                      /\ Qabs (c3 (coeffs (correct_one plane_type (N.plane c)))) == m)
            candidates
  /\ (0 <= N.corridor_min_width params ->
      N.sort_corridors params plane_type candidates = Ok [])
  /\ (0 <= N.room_min_width params ->
      N.sort_rooms params plane_type candidates = Ok []).
Proof.
  intros Hm Haxis. split; [exact width_between_planes_same_magnitude|].
  split.
  { unfold same_offset_magnitude in Hm. rewrite Forall_forall in Hm, Haxis |- *.
    intros c Hc. split; [now apply correct_one_axis_normal, Haxis|].
    unfold correct_one, coeffs in *.
    rewrite (proj1 (correct_plane_d_magnitude plane_type (N.plane c) (N.plane c))).
    now apply Hm. }
  assert (Hseq : Forall (fun i => (i < List.length candidates)%nat)
                        (seq 0 (List.length candidates))).
  { apply Forall_forall. intros i Hi. apply in_seq in Hi. lia. }
  split; intro Hmin.
  - unfold N.sort_corridors. cbv zeta.
    destruct (outer_loop_quiet m (List.length candidates)
                (N.corridor_step params plane_type)
                (fun i j st => corridor_step_quiet params plane_type m _ i j st Hmin)
                _ (candidates, []) Hseq) as ([cands vec] & -> & _ & _ & Hnil).
    + repeat split. exact Hm.
    + cbn [bind snd] in *. now subst vec.
  - unfold N.sort_rooms. cbv zeta.
    destruct (outer_loop_quiet m (List.length candidates)
                (N.room_step params plane_type)
                (fun i j st => room_step_quiet params plane_type m _ i j st Hmin)
                _ (candidates, []) Hseq) as ([cands vec] & -> & _ & _ & Hnil).
    + repeat split. exact Hm.
    + cbn [bind snd] in *. now subst vec.
Qed.

Lemma equidistant_walls_never_paired_witness :
  let a := sample_candidate (mkV4 1 0 0 (-1)) 4%Z in
  let b := sample_candidate (mkV4 (-1) 0 0 (-1)) 5%Z in
  N.sort_corridors N.default_params X_VERT_PLANE [a; b] = Ok []
  /\ N.sort_rooms N.default_params X_VERT_PLANE [a; b] = Ok [].
Proof.
  intros a b.
  destruct (equidistant_walls_never_paired N.default_params X_VERT_PLANE 1 [a; b])
    as (_ & _ & Hc & Hr).
  - repeat constructor.
  - repeat constructor; left; repeat split; reflexivity.
  - split; [apply Hc|apply Hr]; discriminate.
Defined.
(** ** Searches for a least value *)

Section Scan.

Context {A B : Type}.
Variable key : A -> Q.
Variable val : A -> B.
Variable bound : Q.
Variable b0 : B.

(** The state of a scan after the elements [pre]. *)
Let scanned (pre : list A) (st : Q * B) : Prop :=
  (st = (bound, b0) /\ Forall (fun a => bound <= key a) pre)
  \/ (exists k a, first_least key bound pre k a /\ st = (key a, val a)).

Lemma scanned_step pre st a :
  scanned pre st -> scanned (pre ++ [a]) (scan_step key val st a).
Proof.
  unfold scan_step. intros [[-> Hall]|(k & c & (Hk & Hlt & Hmin & Hfirst) & ->)]; cbn [fst].
  - destruct (Qltb (key a) bound) eqn:E.
    + apply Qltb_lt in E. right. exists (List.length pre), a. split; [|reflexivity].
      split; [|split; [exact E|split]].
      * rewrite nth_error_app2 by lia. now rewrite Nat.sub_diag.
      * intros a' Hin. apply in_app_or in Hin. destruct Hin as [Hin|[<-|[]]].
        -- rewrite Forall_forall in Hall. specialize (Hall _ Hin). lra.
        -- lra.
      * intros k' a' Hk' Hn. rewrite nth_error_app1 in Hn by lia.
        apply nth_error_In in Hn. rewrite Forall_forall in Hall.
        specialize (Hall _ Hn). lra.
    + apply Qltb_ge in E. left. split; [reflexivity|].
      apply Forall_app. split; [exact Hall|]. now repeat constructor.
  - destruct (Qltb (key a) (key c)) eqn:E.
    + apply Qltb_lt in E. right. exists (List.length pre), a. split; [|reflexivity].
      split; [|split; [lra|split]].
      * rewrite nth_error_app2 by lia. now rewrite Nat.sub_diag.
      * intros a' Hin. apply in_app_or in Hin. destruct Hin as [Hin|[<-|[]]].
        -- specialize (Hmin _ Hin). lra.
        -- lra.
      * intros k' a' Hk' Hn. rewrite nth_error_app1 in Hn by lia.
        apply nth_error_In in Hn. specialize (Hmin _ Hn). lra.
    + apply Qltb_ge in E. right. exists k, c. split; [|reflexivity].
      assert (Hklt : (k < List.length pre)%nat)
        by (apply nth_error_Some; congruence).
      split; [|split; [exact Hlt|split]].
      * now rewrite nth_error_app1.
      * intros a' Hin. apply in_app_or in Hin. destruct Hin as [Hin|[<-|[]]].
        -- now apply Hmin.
        -- exact E.
      * intros k' a' Hk' Hn. rewrite nth_error_app1 in Hn by lia.
        now apply (Hfirst k').
Qed.

Lemma scanned_fold : forall l pre st,
  scanned pre st -> scanned (pre ++ l) (fold_left (scan_step key val) l st).
Proof.
  induction l as [|a l IH]; intros pre st H; cbn [fold_left].
  - now rewrite app_nil_r.
  - replace (pre ++ a :: l)%list with ((pre ++ [a]) ++ l)%list
      by now rewrite <- app_assoc.
    apply IH. now apply scanned_step.
Qed.

(** A scan from [(bound, b0)] ends there if no key is below [bound], and
    otherwise at the first element of least key. *)
Lemma scan_spec (l : list A) :
  (fold_left (scan_step key val) l (bound, b0) = (bound, b0)
   /\ Forall (fun a => bound <= key a) l)
  \/ (exists k a, first_least key bound l k a
                  /\ fold_left (scan_step key val) l (bound, b0) = (key a, val a)).
Proof.
  apply (scanned_fold l [] (bound, b0)). left. split; [reflexivity|constructor].
Qed.

End Scan.

(** ** The corridor pair of a message *)

Lemma refine_corridors_loop_fold : forall corr_vec m refined,
  N.refine_corridors_loop corr_vec m refined
  = fold_left (scan_step N.length_diff (fun c => [N.plane1 c; N.plane2 c])) corr_vec
              (m, refined).
Proof.
  induction corr_vec as [|c rest IH]; intros m refined; [reflexivity|].
  cbn [N.refine_corridors_loop fold_left]. unfold scan_step at 2. cbn [fst].
  destruct (Qltb (N.length_diff c) m); apply IH.
Qed.

(** [refine_corridors] returns the two planes of the pair whose lengths
    differ least, the first such pair of the vector, and the empty vector
    when no pair has a length difference below 100.  The widths of the
    pairs play no part in the choice. *)
Theorem refine_corridors_selects (corr_vec : list N.structure_data_list) :
  (N.refine_corridors corr_vec = []
   /\ Forall (fun c => 100 <= N.length_diff c) corr_vec)
  \/ (exists k c,
        first_least N.length_diff 100 corr_vec k c
        /\ N.refine_corridors corr_vec = [N.plane1 c; N.plane2 c]).
Proof.
  unfold N.refine_corridors. cbv zeta. rewrite refine_corridors_loop_fold.
  destruct (scan_spec N.length_diff (fun c => [N.plane1 c; N.plane2 c]) 100
              [N.default_plane_data_list; N.default_plane_data_list] corr_vec)
    as [[-> Hall]|(k & c & Hc & ->)].
  - left. split; [reflexivity|exact Hall].
  - right. exists k, c. split; [exact Hc|].
    destruct Hc as (_ & Hlt & _).
    replace (Qle_bool 100 (N.length_diff c)) with false
      by (symmetry; now apply Qle_bool_false).
    reflexivity.
Qed.
(** ** Corridor and room poses *)

Lemma room_coordinate_midpoint (plane1 plane2 : Vector4d) :
  N.room_coordinate plane1 plane2 == - ((c3 plane1 + c3 plane2) / 2).
Proof.
  unfold N.room_coordinate. destruct (Qltb _ _); cbv zeta; field.
Qed.

(** Both branches of [pre_corridor_pose] and of [compute_room_pose] give
    the mean of the two plane offsets, so that the order of the two planes
    does not matter: the corridor coordinate along its axis is
    [(d1 + d2) / 2], the other two are 0, and each room coordinate is
    [-(d1 + d2) / 2].  [compute_room_pose] reads two planes of each vector:
    with fewer in one of them it reads outside the vector. *)
Theorem structure_pose_is_mean_offset (v1 v2 : Vector4d)
    (x_room_pair_vec y_room_pair_vec : list N.plane_data_list) :
  (v3_0 (N.pre_corridor_pose X_VERT_PLANE v1 v2) == (c3 v1 + c3 v2) / 2
   /\ v3_1 (N.pre_corridor_pose X_VERT_PLANE v1 v2) == 0
   /\ v3_2 (N.pre_corridor_pose X_VERT_PLANE v1 v2) == 0)
  /\ (v3_0 (N.pre_corridor_pose Y_VERT_PLANE v1 v2) == 0
      /\ v3_1 (N.pre_corridor_pose Y_VERT_PLANE v1 v2) == (c3 v1 + c3 v2) / 2
      /\ v3_2 (N.pre_corridor_pose Y_VERT_PLANE v1 v2) == 0)
  /\ (forall x0 x1 y0 y1 xs ys,
         x_room_pair_vec = x0 :: x1 :: xs -> y_room_pair_vec = y0 :: y1 :: ys ->
         exists room_pose,
           N.compute_room_pose x_room_pair_vec y_room_pair_vec = Ok room_pose
           /\ v2_0 room_pose == - ((c3 (N.plane x0) + c3 (N.plane x1)) / 2)
           /\ v2_1 room_pose == - ((c3 (N.plane y0) + c3 (N.plane y1)) / 2))
  /\ ((List.length x_room_pair_vec < 2)%nat \/ (List.length y_room_pair_vec < 2)%nat ->
      N.compute_room_pose x_room_pair_vec y_room_pair_vec = Undefined OutOfRange).
Proof.
  split; [|split; [|split]].
  - unfold N.pre_corridor_pose. cbn [Z.eqb X_VERT_PLANE Y_VERT_PLANE Pos.eqb].
    destruct (Qltb _ _); cbn [v3_0 v3_1 v3_2]; repeat split; try reflexivity; field.
  - unfold N.pre_corridor_pose. cbn [Z.eqb X_VERT_PLANE Y_VERT_PLANE Pos.eqb].
    destruct (Qltb _ _); cbn [v3_0 v3_1 v3_2]; repeat split; try reflexivity; field.
  - intros x0 x1 y0 y1 xs ys -> ->. eexists. split; [reflexivity|].
    cbn [v2_0 v2_1]. unfold coeffs. split; apply room_coordinate_midpoint.
  - intros [H|H]; unfold N.compute_room_pose.
    + destruct x_room_pair_vec as [|x0 [|x1 xs]]; cbn in H; try lia; reflexivity.
    + destruct y_room_pair_vec as [|y0 [|y1 ys]]; cbn in H; try lia;
        destruct x_room_pair_vec as [|x0 [|x1 xs]]; reflexivity.
Qed.

Lemma structure_pose_is_mean_offset_witness :
  let a := sample_candidate (mkV4 1 0 0 (-3)) 4%Z in
  let b := sample_candidate (mkV4 (-1) 0 0 1) 5%Z in
  (exists room_pose,
      N.compute_room_pose [a; b] [b; a] = Ok room_pose
      /\ v2_0 room_pose == 1 /\ v2_1 room_pose == 1)
  /\ N.compute_room_pose [a] [a; b] = Undefined OutOfRange.
Proof.
  intros a b.
  destruct (structure_pose_is_mean_offset (mkV4 1 0 0 (-3)) (mkV4 (-1) 0 0 1) [a; b] [b; a])
    as (_ & _ & H & _).
  destruct (structure_pose_is_mean_offset (mkV4 1 0 0 (-3)) (mkV4 (-1) 0 0 1) [a] [a; b])
    as (_ & _ & _ & H').
  split.
  - destruct (H a b b a [] [] eq_refl eq_refl) as (room_pose & Hp & Hx & Hy).
    exists room_pose. split; [exact Hp|]. split; [rewrite Hx|rewrite Hy]; reflexivity.
  - apply H'. left. cbn. lia.
Defined.
(** ** The class of a detected plane *)

Lemma factor_planes_unclassified
    (maha_dist : Isometry3d -> Plane3D -> Matrix3d -> Plane3D -> option Q)
    (params : PlaneMapper.Params) plane_type det_plane_map_frame det_plane_body_frame s r :
  PlaneMapper.factor_planes maha_dist params plane_type det_plane_map_frame
                            det_plane_body_frame s = Ok r ->
  plane_type = X_VERT_PLANE \/ plane_type = Y_VERT_PLANE \/ plane_type = HORT_PLANE.
Proof.
  intro H.
  destruct (plane_type =? X_VERT_PLANE)%Z eqn:EX; [left; now apply Z.eqb_eq|].
  destruct (plane_type =? Y_VERT_PLANE)%Z eqn:EY; [right; left; now apply Z.eqb_eq|].
  destruct (plane_type =? HORT_PLANE)%Z eqn:EH; [right; right; now apply Z.eqb_eq|].
  exfalso. unfold PlaneMapper.factor_planes in H. cbv zeta in H.
  rewrite EX, EY, EH in H.
  destruct (if PlaneMapper.use_point_to_plane params then _ else _) as [[s1 Gij]|];
    [cbn [bind] in H|discriminate H].
  destruct (PlaneMapper.associate_plane _ _ _ _ _ _) as [[s2 da]|];
    [cbn [bind] in H|discriminate H].
  discriminate H.
Qed.

(** [add_planes_to_graph] gives a detection the class of the strictly
    largest component of its map-frame normal, in absolute value, and a
    detection with no strictly largest component the type -1.  The type a
    call returns is the one of the detection taken to the map frame by the
    pose of the keyframe. *)
Theorem plane_class_is_dominant_axis
    (maha_dist : Isometry3d -> Plane3D -> Matrix3d -> Plane3D -> option Q)
    (params : PlaneMapper.Params) (p : Plane3D) :
  let n0 := Qabs (c0 p) in
  let n1 := Qabs (c1 p) in
  let n2 := Qabs (c2 p) in
  (PlaneMapper.classify p = X_VERT_PLANE <-> n1 < n0 /\ n2 < n0)
  /\ (PlaneMapper.classify p = Y_VERT_PLANE <-> n0 < n1 /\ n2 < n1)
  /\ (PlaneMapper.classify p = HORT_PLANE <-> n0 < n2 /\ n1 < n2)
  /\ (PlaneMapper.classify p = (-1)%Z <->
      (n0 <= n1 \/ n0 <= n2) /\ (n1 <= n0 \/ n1 <= n2) /\ (n2 <= n0 \/ n2 <= n1))
  /\ (forall det_plane_body_frame s s' plane_type,
         PlaneMapper.add_planes_to_graph maha_dist params det_plane_body_frame s
         = Ok (s', plane_type) ->
         exists det_plane_map_frame,
           PlaneMapper.convert_plane_to_map_frame (PlaneMapper.graph_slam s)
             (PlaneMapper.keyframe s) det_plane_body_frame = Ok det_plane_map_frame
           /\ plane_type = PlaneMapper.classify det_plane_map_frame).
Proof.
  intros n0 n1 n2.
  assert (Hc : PlaneMapper.classify p
               = if Qltb n1 n0 && Qltb n2 n0 then X_VERT_PLANE
                 else if Qltb n0 n1 && Qltb n2 n1 then Y_VERT_PLANE
                 else if Qltb n0 n2 && Qltb n1 n2 then HORT_PLANE else (-1)%Z)
    by reflexivity.
  rewrite Hc. clear Hc.
  destruct (Qltb n1 n0) eqn:E10; destruct (Qltb n2 n0) eqn:E20;
    destruct (Qltb n0 n1) eqn:E01; destruct (Qltb n2 n1) eqn:E21;
    destruct (Qltb n0 n2) eqn:E02; destruct (Qltb n1 n2) eqn:E12;
    cbn [andb];
    repeat match goal with
           | H : Qltb _ _ = true |- _ => apply Qltb_lt in H
           | H : Qltb _ _ = false |- _ => apply Qltb_ge in H
           end;
    (split; [|split; [|split; [|split]]]);
    try (split; [intro; try discriminate; (repeat split; (lra || (left; lra) || (right; lra)))
                |intro; try reflexivity; exfalso;
                 repeat match goal with
                        | H : _ /\ _ |- _ => destruct H
                        | H : _ \/ _ |- _ => destruct H
                        end; lra]).
  all: intros det s s' plane_type H; unfold PlaneMapper.add_planes_to_graph in H;
    bind_inv H; inversion H; subst; clear H;
    eexists; split; reflexivity.
Qed.

Lemma plane_class_is_dominant_axis_witness :
  exists s',
    PlaneMapper.classify (mkV4 (2 # 3) (1 # 3) (2 # 3) (-1)) = (-1)%Z
    /\ PlaneMapper.classify (mkV4 (1 # 3) (2 # 3) (-2 # 3) (-1)) = (-1)%Z
    /\ PlaneMapper.classify (mkV4 (1 # 3) (-2 # 3) (2 # 3) (-1)) = (-1)%Z
    /\ PlaneMapper.add_planes_to_graph sample_maha_dist PlaneMapper.default_params
         (mkV4 0 1 0 (-1)) (sample_mapper_state [] [sample_point 0 0 0])
       = Ok (s', Y_VERT_PLANE).
Proof.
  destruct (PlaneMapper.add_planes_to_graph sample_maha_dist PlaneMapper.default_params
              (mkV4 0 1 0 (-1)) (sample_mapper_state [] [sample_point 0 0 0]))
    as [[s' t]|] eqn:E; [|vm_compute in E; discriminate E].
  destruct (plane_class_is_dominant_axis sample_maha_dist PlaneMapper.default_params
              (mkV4 (2 # 3) (1 # 3) (2 # 3) (-1))) as (_ & _ & _ & [_ Htie] & H).
  destruct (H _ _ _ _ E) as (p & Hp & Ht).
  vm_compute in Hp. inversion Hp; subst p. exists s'.
  split; [apply Htie; cbn; repeat split; (left; lra) || (right; lra)|].
  split; [vm_compute; reflexivity|]. split; [vm_compute; reflexivity|].
  rewrite Ht. reflexivity.
Defined.
(** ** The steps of [PlaneMapper::factor_planes] *)

Lemma set_index_app_last {A} (v : list A) (a b : A) :
  set_index (v ++ [a]) (List.length v) b = (v ++ [b])%list.
Proof. induction v as [|x v IH]; cbn; [reflexivity|now rewrite IH]. Qed.

Lemma add_edge_with_kernel ty vs meas info k sz gr :
  (k =? "NONE")%string = false ->
  (let '(gr', e) := GraphSLAM.add_edge ty vs meas info gr in
   GraphSLAM.add_robust_kernel e k sz gr')
  = with_edge (GraphSLAM.mkEdge ty vs meas info (Some (k, sz))) gr.
Proof.
  intro Hk. unfold GraphSLAM.add_edge, GraphSLAM.add_robust_kernel, with_edge.
  rewrite Hk. cbn [GraphSLAM.edges GraphSLAM.vertices GraphSLAM.vertex_count
                   GraphSLAM.edge_count].
  rewrite nth_error_app2 by lia. rewrite Nat.sub_diag. cbn [nth_error].
  now rewrite set_index_app_last.
Qed.

Section MapperSteps.

Variable maha_dist : Isometry3d -> Plane3D -> Matrix3d -> Plane3D -> option Q.
Variable params : PlaneMapper.Params.

(** A run of [factor_planes] that returns went through these steps: the
    class is one of the three; in point-to-plane mode the keyframe's
    segment is filtered; the detection is associated; the case of the class
    runs on the collection of the class; one edge joins the keyframe and the
    plane vertex; the map clouds are recomputed. *)
Lemma factor_planes_steps plane_type det_plane_map_frame det_plane_body_frame s s' id :
  PlaneMapper.factor_planes maha_dist params plane_type det_plane_map_frame
                            det_plane_body_frame s = Ok (s', id) ->
  (plane_type = X_VERT_PLANE \/ plane_type = Y_VERT_PLANE \/ plane_type = HORT_PLANE)
  /\ exists s1 Gij da gr kf planes plane_node da' node,
       (if PlaneMapper.use_point_to_plane params
        then exists body kept,
            kf_cloud_seg_body (PlaneMapper.keyframe s) = Some body
            /\ PlaneMapper.point_to_plane_loop (PlaneMapper.graph_slam s)
                 (kf_node (PlaneMapper.keyframe s)) det_plane_map_frame body Matrix4d_Zero
               = Ok (kept, Gij)
            /\ s1 = PlaneMapper.set_keyframe
                      (set_cloud_seg_body (Some kept) (PlaneMapper.keyframe s)) s
        else s1 = s /\ Gij = Matrix4d_Zero)
       /\ PlaneMapper.associate_plane maha_dist params plane_type s1
            (coeffs det_plane_body_frame) (kf_cloud_seg_body (PlaneMapper.keyframe s1))
          = Ok (s1, da)
       /\ PlaneMapper.factor_case plane_type (PlaneMapper.graph_slam s1)
            (PlaneMapper.keyframe s1) det_plane_map_frame (class_planes plane_type s1) da
          = Ok (gr, kf, planes, plane_node, da')
       /\ id = fst da'
       /\ kf_node kf = Some node
       /\ PlaneMapper.convert_plane_points_to_map
            (PlaneMapper.set_graph
               (with_edge (keyframe_plane_edge params Gij det_plane_body_frame node plane_node)
                          gr)
               (set_class_planes plane_type planes (PlaneMapper.set_keyframe kf s1)))
          = Ok s'.
Proof.
  intro H. split; [exact (factor_planes_unclassified _ _ _ _ _ _ _ H)|].
  pose proof (factor_planes_unclassified _ _ _ _ _ _ _ H) as Htype.
  unfold PlaneMapper.factor_planes in H. cbv zeta in H.
  match type of H with bind ?m _ = _ =>
    destruct m as [[s1 Gij]|] eqn:E1; [cbn [bind] in H|discriminate] end.
  match type of H with bind ?m _ = _ =>
    destruct m as [[s2 da]|] eqn:E2; [cbn [bind] in H|discriminate] end.
  assert (Hs2 : s2 = s1).
  { revert E2. unfold PlaneMapper.associate_plane. cbv zeta. intro E2. bind_inv E2.
    destruct Htype as [-> | [-> | ->]]; cbn [Z.eqb X_VERT_PLANE Y_VERT_PLANE HORT_PLANE Pos.eqb] in E2.
    - destruct (PlaneMapper.vert_loop _ _ _ _ _ _ _). bind_inv E2. now inversion E2.
    - destruct (PlaneMapper.vert_loop _ _ _ _ _ _ _). bind_inv E2. now inversion E2.
    - destruct (PlaneMapper.hort_loop _ _ _ _ _ _ _ _). destruct (Qltb _ _);
        now inversion E2. }
  subst s2.
  match type of H with bind ?m _ = _ =>
    destruct m as [[[s3 pn] da3]|] eqn:E3; [cbn [bind] in H|discriminate] end.
  assert (H3 : exists gr kf planes plane_node,
             PlaneMapper.factor_case plane_type (PlaneMapper.graph_slam s1)
               (PlaneMapper.keyframe s1) det_plane_map_frame (class_planes plane_type s1) da
             = Ok (gr, kf, planes, plane_node, da3)
             /\ pn = Some plane_node
             /\ s3 = set_class_planes plane_type planes
                       (PlaneMapper.set_keyframe kf (PlaneMapper.set_graph gr s1))).
  { unfold class_planes, set_class_planes.
    destruct Htype as [-> | [-> | ->]];
      cbn [Z.eqb X_VERT_PLANE Y_VERT_PLANE HORT_PLANE Pos.eqb] in E3 |- *;
      bind_inv E3; inversion E3; subst; clear E3; do 4 eexists;
      (split; [reflexivity|split; reflexivity]). }
  clear E3. destruct H3 as (gr & kf & planes & plane_node & Hcase & -> & ->).
  cbn [bind] in H. bind_inv H.
  match goal with E : deref (kf_node _) = Ok ?n |- _ => rename E into Hnode; rename n into node end.
  match goal with E : PlaneMapper.convert_plane_points_to_map _ = Ok _ |- _ =>
    rename E into Hconv end.
  inversion H; subst; clear H.
  exists s1, Gij, da, gr, kf, planes, plane_node, da3, node.
  split.
  { destruct (PlaneMapper.use_point_to_plane params).
    - bind_inv E1. inversion E1; subst; clear E1.
      match goal with E : deref (kf_cloud_seg_body _) = Ok ?b |- _ =>
        exists b end.
      eexists. split; [|split; [eassumption|reflexivity]].
      match goal with E : deref ?x = Ok _ |- ?x = _ => destruct x; inversion E; reflexivity end.
    - inversion E1; subst. split; reflexivity. }
  split; [exact E2|]. split; [exact Hcase|]. split; [reflexivity|].
  assert (Hkf : PlaneMapper.keyframe
                  (set_class_planes plane_type planes
                     (PlaneMapper.set_keyframe kf (PlaneMapper.set_graph gr s1))) = kf).
  { unfold set_class_planes. destruct (_ =? _)%Z; [|destruct (_ =? _)%Z]; reflexivity. }
  rewrite Hkf in Hnode.
  split; [destruct (kf_node kf); inversion Hnode; reflexivity|].
  rewrite <- Hconv. f_equal.
  assert (Hgr : PlaneMapper.graph_slam
                  (set_class_planes plane_type planes
                     (PlaneMapper.set_keyframe kf (PlaneMapper.set_graph gr s1))) = gr).
  { unfold set_class_planes. destruct (_ =? _)%Z; [|destruct (_ =? _)%Z]; reflexivity. }
  rewrite Hgr. unfold keyframe_plane_edge.
  destruct (PlaneMapper.use_point_to_plane params);
    rewrite add_edge_with_kernel by reflexivity;
    unfold set_class_planes; destruct (_ =? _)%Z; try destruct (_ =? _)%Z; reflexivity.
Qed.

End MapperSteps.
Section MapperFacts.

Variable maha_dist : Isometry3d -> Plane3D -> Matrix3d -> Plane3D -> option Q.
Variable params : PlaneMapper.Params.

Lemma convert_plane_points_to_map_lengths s s' :
  PlaneMapper.convert_plane_points_to_map s = Ok s' ->
  List.length (PlaneMapper.x_vert_planes s') = List.length (PlaneMapper.x_vert_planes s)
  /\ List.length (PlaneMapper.y_vert_planes s') = List.length (PlaneMapper.y_vert_planes s)
  /\ List.length (PlaneMapper.hort_planes s') = List.length (PlaneMapper.hort_planes s).
Proof.
  intro H. apply convert_plane_points_to_map_ids in H. destruct H as [H _].
  unfold landmark_ids in H. inversion H as [[Hx Hy Hh]].
  apply (f_equal (@List.length _)) in Hx, Hy, Hh. rewrite !length_map in Hx, Hy, Hh.
  repeat split; assumption.
Qed.

Lemma associate_plane_horizontal s det body s' da :
  PlaneMapper.plane_dist_threshold params < 100 ->
  PlaneMapper.associate_plane maha_dist params HORT_PLANE s det body = Ok (s', da) ->
  fst da = (-1)%Z.
Proof.
  intros Hthr H. unfold PlaneMapper.associate_plane in H. cbv zeta in H. bind_inv H.
  cbn [Z.eqb X_VERT_PLANE Y_VERT_PLANE HORT_PLANE Pos.eqb] in H.
  destruct (PlaneMapper.hort_loop _ _ _ _ _ _ _ _) as [vmin da0].
  rewrite (Qltb_true _ _ Hthr) in H. now inversion H.
Qed.

End MapperFacts.

(** ** Horizontal detections *)

(** With a distance threshold below 100, the plane mapper never associates
    a horizontal detection with an existing landmark: the comparison after
    the loop of [associate_plane] is against [hort_min_maha_dist], which the
    loop leaves at 100.  Every run of [factor_planes] on a horizontal
    detection that returns has appended one new horizontal landmark, whose
    id is the local vertex count it found. *)
Theorem horizontal_detection_always_new
    (maha_dist : Isometry3d -> Plane3D -> Matrix3d -> Plane3D -> option Q)
    (params : PlaneMapper.Params) (det_plane_map_frame det_plane_body_frame : Plane3D)
    (s s' : PlaneMapper.State) (id : Z) :
  PlaneMapper.plane_dist_threshold params < 100 ->
  PlaneMapper.factor_planes maha_dist params HORT_PLANE det_plane_map_frame
                            det_plane_body_frame s = Ok (s', id) ->
  id = GraphSLAM.num_vertices_local (PlaneMapper.graph_slam s)
  /\ map id_node (PlaneMapper.hort_planes s')
     = (map id_node (PlaneMapper.hort_planes s)
        ++ [(id, List.length (GraphSLAM.vertices (PlaneMapper.graph_slam s)))])%list
  /\ List.length (PlaneMapper.hort_planes s') = S (List.length (PlaneMapper.hort_planes s))
  /\ GraphSLAM.num_vertices (PlaneMapper.graph_slam s')
     = (GraphSLAM.num_vertices (PlaneMapper.graph_slam s) + 1)%Z.
Proof.
  intros Hthr H.
  destruct (factor_planes_steps _ _ _ _ _ _ _ _ H)
    as (_ & s1 & Gij & da & gr & kf & planes & pn & da' & node
        & H1 & Ha & Hc & Hid & Hnode & Hconv).
  assert (F1 : PlaneMapper.graph_slam s1 = PlaneMapper.graph_slam s
               /\ PlaneMapper.hort_planes s1 = PlaneMapper.hort_planes s).
  { destruct (PlaneMapper.use_point_to_plane params).
    - destruct H1 as (body & kept & _ & _ & ->). split; reflexivity.
    - destruct H1 as [-> _]. split; reflexivity. }
  destruct F1 as [Fg Fh].
  apply (associate_plane_horizontal _ _ _ _ _ _ _ Hthr) in Ha.
  unfold PlaneMapper.factor_case in Hc. rewrite Ha in Hc. cbn [Z.eqb Pos.eqb] in Hc.
  rewrite orb_true_r in Hc.
  cbn [GraphSLAM.add_plane_node GraphSLAM.add_vertex HORT_PLANE Z.eqb Pos.eqb
       PlaneMapper.landmark_color bind class_planes X_VERT_PLANE Y_VERT_PLANE] in Hc.
  inversion Hc; subst gr kf planes pn da'; clear Hc. cbn [fst] in Hid.
  pose proof (convert_plane_points_to_map_ids _ _ Hconv) as [Hids Hg].
  unfold landmark_ids in Hids. inversion Hids as [[Hx Hy Hh]]. clear Hids.
  cbn [set_class_planes HORT_PLANE X_VERT_PLANE Y_VERT_PLANE Z.eqb Pos.eqb
       PlaneMapper.set_graph PlaneMapper.set_hort_planes PlaneMapper.set_keyframe
       PlaneMapper.hort_planes PlaneMapper.graph_slam] in Hh, Hg.
  rewrite map_app in Hh. cbn [map id_node vp_id vp_plane_node] in Hh.
  rewrite Fg, Fh in *. subst id.
  split; [reflexivity|]. split; [exact Hh|]. split.
  - apply (f_equal (@List.length _)) in Hh.
    rewrite length_app, !length_map in Hh. cbn [List.length] in Hh.
    now rewrite Nat.add_1_r in Hh.
  - rewrite Hg. unfold GraphSLAM.num_vertices, with_edge. cbn [GraphSLAM.vertices].
    rewrite length_app. cbn [List.length]. lia.
Qed.

Lemma horizontal_detection_always_new_witness :
  let floor := mkV4 0 0 1 0 in
  let s := sample_mapper_state [] [sample_point 0 0 0] in
  exists s1 s2,
    PlaneMapper.factor_planes sample_maha_dist PlaneMapper.default_params HORT_PLANE
                              floor floor s = Ok (s1, 2%Z)
    /\ PlaneMapper.factor_planes sample_maha_dist PlaneMapper.default_params HORT_PLANE
                                 floor floor s1 = Ok (s2, 3%Z)
    /\ map vp_id (PlaneMapper.hort_planes s2) = [2%Z; 3%Z]
    /\ map vp_plane (PlaneMapper.hort_planes s2) = [floor; floor].
Proof.
  intros floor s.
  destruct (PlaneMapper.factor_planes sample_maha_dist PlaneMapper.default_params
              HORT_PLANE floor floor s) as [[s1 id1]|] eqn:E1;
    [|vm_compute in E1; discriminate E1].
  assert (E1' := E1). vm_compute in E1'. injection E1' as <- <-.
  lazymatch type of E1 with _ = Ok (?s1, _) =>
    destruct (PlaneMapper.factor_planes sample_maha_dist PlaneMapper.default_params
                HORT_PLANE floor floor s1) as [[s2 id2]|] eqn:E2
  end; [|vm_compute in E2; discriminate E2].
  destruct (horizontal_detection_always_new sample_maha_dist PlaneMapper.default_params
              _ _ _ _ _ eq_refl E2) as (Hid & _).
  assert (E2' := E2). vm_compute in E2'. injection E2' as <- <-.
  do 2 eexists. split; [exact E1|]. split; [exact E2|]. split; reflexivity.
Defined.
(** ** The nearest landmark *)

Lemma scan_step_below {A B} (key : A -> Q) (val : A -> B) (bound : Q) (st : Q * B) (a : A) :
  fst st <= bound -> fst (scan_step key val st a) <= bound.
Proof.
  intro H. unfold scan_step. destruct (Qltb (key a) (fst st)) eqn:E; [|exact H].
  apply Qltb_lt in E. cbn [fst]. lra.
Qed.

Lemma indexed_cons {A} (i : nat) (a : A) (l : list A) :
  indexed i (a :: l) = (i, a) :: indexed (S i) l.
Proof. reflexivity. Qed.

Lemma indexed_nth {A} (l : list A) : forall i k j a,
  nth_error (indexed i l) k = Some (j, a) -> j = (i + k)%nat /\ nth_error l k = Some a.
Proof.
  induction l as [|x l IH]; intros i [|k] j a H; try discriminate.
  - cbn in H. inversion H; subst. split; [lia|reflexivity].
  - rewrite indexed_cons in H. cbn [nth_error] in H. apply IH in H.
    destruct H as [-> H]. split; [lia|exact H].
Qed.

Lemma indexed_length {A} (i : nat) (l : list A) : List.length (indexed i l) = List.length l.
Proof. unfold indexed. rewrite length_combine, length_seq. lia. Qed.

Section Nearest.

Variable maha_dist : Isometry3d -> Plane3D -> Matrix3d -> Plane3D -> option Q.
Variable m2n : Isometry3d.
Variable det_plane : Plane3D.

Lemma vert_loop_scan : forall planes i vert_min_maha_dist data_association,
  vert_min_maha_dist <= 100 ->
  PlaneMapper.vert_loop maha_dist m2n det_plane planes i vert_min_maha_dist data_association
  = fold_left (scan_step (association_distance maha_dist m2n det_plane) association_of)
              (indexed i planes) (vert_min_maha_dist, data_association).
Proof.
  induction planes as [|lm rest IH]; intros i vmin da Hle; [reflexivity|].
  rewrite indexed_cons. cbn [PlaneMapper.vert_loop fold_left].
  assert (Hs : scan_step (association_distance maha_dist m2n det_plane) association_of
                         (vmin, da) (i, lm)
               = match PlaneMapper.landmark_maha_dist maha_dist m2n det_plane lm with
                 | Some maha => if Qltb maha vmin then (maha, (vp_id lm, i)) else (vmin, da)
                 | None => (vmin, da)
                 end).
  { unfold scan_step, association_distance, association_of. cbn [fst snd].
    destruct (PlaneMapper.landmark_maha_dist maha_dist m2n det_plane lm) as [maha|];
      [reflexivity|]. now rewrite (Qltb_false 100 vmin Hle). }
  rewrite Hs. clear Hs.
  destruct (PlaneMapper.landmark_maha_dist maha_dist m2n det_plane lm) as [maha|].
  - destruct (Qltb maha vmin) eqn:E.
    + apply IH. apply Qltb_lt in E. lra.
    + now apply IH.
  - now apply IH.
Qed.

(** The loop of the vertical classes ends at the first landmark of least
    distance, if that distance is below 100, and at its starting values
    otherwise; a landmark whose distance is NaN is never the one. *)
Lemma vert_loop_nearest (planes : list VerticalPlanes) :
  let found := PlaneMapper.vert_loop maha_dist m2n det_plane planes O 100 (0%Z, O) in
  (found = (100, (0%Z, O))
   /\ Forall (fun ilm => 100 <= association_distance maha_dist m2n det_plane ilm)
             (indexed O planes))
  \/ (exists k lm maha,
        first_least (association_distance maha_dist m2n det_plane) 100 (indexed O planes)
                    k (k, lm)
        /\ nth_error planes k = Some lm
        /\ PlaneMapper.landmark_maha_dist maha_dist m2n det_plane lm = Some maha
        /\ found = (maha, (vp_id lm, k))).
Proof.
  cbv zeta. rewrite vert_loop_scan by apply Qle_refl.
  destruct (scan_spec (association_distance maha_dist m2n det_plane) association_of 100
              (0%Z, O) (indexed O planes)) as [[-> Hall]|(k & [j lm] & Hf & ->)].
  - left. split; [reflexivity|exact Hall].
  - right. pose proof Hf as (Hk & Hlt & _).
    apply indexed_nth in Hk. destruct Hk as [-> Hk]. cbn [Nat.add] in *.
    unfold association_distance in Hlt |- *. unfold association_of. cbn [fst snd] in *.
    destruct (PlaneMapper.landmark_maha_dist maha_dist m2n det_plane lm) as [maha|] eqn:E.
    + exists k, lm, maha. repeat split; try assumption; apply Hf.
    + exfalso. lra.
Qed.

End Nearest.
(** ** Vertical detections far from every landmark *)

Section FarDetections.

Variable maha_dist : Isometry3d -> Plane3D -> Matrix3d -> Plane3D -> option Q.
Variable params : PlaneMapper.Params.

Lemma associate_plane_vertical_far plane_type s det body est :
  plane_type = X_VERT_PLANE \/ plane_type = Y_VERT_PLANE ->
  node_estimate (PlaneMapper.graph_slam s) (kf_node (PlaneMapper.keyframe s)) = Ok est ->
  let found := PlaneMapper.vert_loop maha_dist (inverse est) det
                 (class_planes plane_type s) O 100 (0%Z, O) in
  PlaneMapper.plane_dist_threshold params <= fst found ->
  PlaneMapper.associate_plane maha_dist params plane_type s det body = Ok (s, snd found).
Proof.
  intros Htype Hest found Hfar. unfold PlaneMapper.associate_plane. cbv zeta.
  rewrite Hest. cbn [bind]. subst found. unfold class_planes in *.
  destruct Htype as [-> | ->]; cbn [Z.eqb X_VERT_PLANE Y_VERT_PLANE Pos.eqb] in *;
    destruct (PlaneMapper.vert_loop _ _ _ _ _ _ _) as [vmin da]; cbn [fst snd] in *;
    unfold PlaneMapper.vert_overlap_veto; rewrite (Qltb_false _ _ Hfar); reflexivity.
Qed.

End FarDetections.

(** The distance threshold of the plane mapper never turns a vertical
    detection into a new landmark: it only decides whether the neighbour
    check runs.  When the least distance to the landmarks of the class is
    not below [plane_dist_threshold], whatever its size, a run of
    [factor_planes] that returns has merged the detection into an existing
    landmark: the landmark the loop ended at, which is the first one if no
    distance is below 100.  No landmark and no vertex is added, and the id
    returned is the one the loop holds (0 if no distance is below 100). *)
Theorem vertical_detection_never_rejected_by_threshold
    (maha_dist : Isometry3d -> Plane3D -> Matrix3d -> Plane3D -> option Q)
    (params : PlaneMapper.Params) (plane_type : Z)
    (det_plane_map_frame det_plane_body_frame : Plane3D)
    (s s' : PlaneMapper.State) (id : Z) (est : Isometry3d) :
  let planes := class_planes plane_type s in
  let found := PlaneMapper.vert_loop maha_dist (inverse est) (coeffs det_plane_body_frame)
                                     planes O 100 (0%Z, O) in
  plane_type = X_VERT_PLANE \/ plane_type = Y_VERT_PLANE ->
  node_estimate (PlaneMapper.graph_slam s) (kf_node (PlaneMapper.keyframe s)) = Ok est ->
  planes <> [] ->
  Forall (fun lm => vp_id lm <> (-1)%Z) planes ->
  PlaneMapper.plane_dist_threshold params <= fst found ->
  PlaneMapper.factor_planes maha_dist params plane_type det_plane_map_frame
                            det_plane_body_frame s = Ok (s', id) ->
  id = fst (snd found)
  /\ map id_node (class_planes plane_type s') = map id_node planes
  /\ GraphSLAM.vertices (PlaneMapper.graph_slam s') = GraphSLAM.vertices (PlaneMapper.graph_slam s)
  /\ (Forall (fun ilm => 100 <= association_distance maha_dist (inverse est)
                                  (coeffs det_plane_body_frame) ilm) (indexed O planes) ->
      id = 0%Z /\ snd (snd found) = O).
Proof.
  intros planes found Htype Hest Hne Hids Hfar H.
  destruct (factor_planes_steps _ _ _ _ _ _ _ _ H)
    as (_ & s1 & Gij & da & gr & kf & planes' & pn & da' & node
        & H1 & Ha & Hc & Hid & Hnode & Hconv).
  assert (F1 : PlaneMapper.graph_slam s1 = PlaneMapper.graph_slam s
               /\ class_planes plane_type s1 = planes
               /\ kf_node (PlaneMapper.keyframe s1) = kf_node (PlaneMapper.keyframe s)).
  { destruct (PlaneMapper.use_point_to_plane params).
    - destruct H1 as (body & kept & _ & _ & ->). repeat split.
    - destruct H1 as [-> _]. repeat split. }
  destruct F1 as (Fg & Fp & Fn).
  assert (Hest1 : node_estimate (PlaneMapper.graph_slam s1)
                                (kf_node (PlaneMapper.keyframe s1)) = Ok est)
    by now rewrite Fg, Fn.
  pose proof (associate_plane_vertical_far maha_dist params plane_type s1
                (coeffs det_plane_body_frame)
                (kf_cloud_seg_body (PlaneMapper.keyframe s1)) est Htype Hest1) as Ha'.
  cbv zeta in Ha'. rewrite Fp in Ha'. fold found in Ha'. specialize (Ha' Hfar).
  rewrite Ha' in Ha. inversion Ha; subst da; clear Ha Ha'.
  (* the id the loop holds is not -1 *)
  assert (Hnot : fst (snd found) <> (-1)%Z).
  { destruct (vert_loop_nearest maha_dist (inverse est) (coeffs det_plane_body_frame) planes)
      as [[Hf _]|(k & lm & maha & _ & Hk & _ & Hf)]; fold found in Hf; rewrite Hf; cbn [fst snd].
    - discriminate.
    - apply nth_error_In in Hk. rewrite Forall_forall in Hids. now apply Hids. }
  rewrite Fp in Hc. unfold PlaneMapper.factor_case in Hc.
  destruct planes as [|lm0 rest] eqn:Ep; [now contradiction Hne|].
  apply Z.eqb_neq in Hnot. rewrite Hnot in Hc. cbn [orb] in Hc.
  bind_inv Hc. inversion Hc; subst gr kf planes' pn da'; clear Hc.
  match goal with E : at_index _ _ = Ok ?x |- _ => rename E into Hat; rename x into lm end.
  pose proof (convert_plane_points_to_map_ids _ _ Hconv) as [Hids' Hg].
  assert (Hcls : map id_node (class_planes plane_type s') = map id_node (lm0 :: rest)).
  { unfold landmark_ids in Hids'. inversion Hids' as [[Hx Hy Hh]]. clear Hids'.
    apply at_index_nth in Hat.
    unfold class_planes, set_class_planes in *.
    destruct Htype as [-> | ->]; cbn [Z.eqb X_VERT_PLANE Y_VERT_PLANE Pos.eqb] in *.
    - rewrite Hx. cbn [PlaneMapper.set_graph PlaneMapper.set_x_vert_planes
                       PlaneMapper.x_vert_planes].
      now apply (set_index_ids id_node _ _ _ _ Hat).
    - rewrite Hy. cbn [PlaneMapper.set_graph PlaneMapper.set_y_vert_planes
                       PlaneMapper.y_vert_planes].
      now apply (set_index_ids id_node _ _ _ _ Hat). }
  split; [exact Hid|]. split; [exact Hcls|]. split.
  - rewrite Hg. cbn [PlaneMapper.set_graph PlaneMapper.graph_slam with_edge
                     GraphSLAM.vertices]. now rewrite Fg.
  - intro Hall.
    destruct (vert_loop_nearest maha_dist (inverse est) (coeffs det_plane_body_frame)
                (lm0 :: rest))
      as [[Hf _]|(k & lm1 & maha & (Hk & Hlt & _) & _ & _ & _)].
    + fold found in Hf. rewrite Hid, Hf. split; reflexivity.
    + exfalso. rewrite Forall_forall in Hall. apply nth_error_In in Hk.
      specialize (Hall _ Hk). lra.
Qed.

Lemma vertical_detection_never_rejected_by_threshold_witness :
  let far_away : Isometry3d -> Plane3D -> Matrix3d -> Plane3D -> option Q :=
    fun _ _ _ _ => Some 50 in
  let wall := mkV4 1 0 0 (-1) in
  let s := sample_mapper_state [] [sample_point 0 0 0] in
  exists s',
    PlaneMapper.factor_planes far_away PlaneMapper.default_params X_VERT_PLANE wall wall s
    = Ok (s', 1%Z)
    /\ map id_node (PlaneMapper.x_vert_planes s') = [(1%Z, 1%nat)]
    /\ GraphSLAM.num_vertices (PlaneMapper.graph_slam s') = 2%Z.
Proof.
  intros far_away wall s.
  destruct (PlaneMapper.factor_planes far_away PlaneMapper.default_params X_VERT_PLANE
              wall wall s) as [[s' id]|] eqn:E; [|vm_compute in E; discriminate E].
  destruct (vertical_detection_never_rejected_by_threshold far_away
              PlaneMapper.default_params X_VERT_PLANE wall wall s s' id Matrix4d_Identity)
    as (Hid & Hids & Hv & _).
  - left. reflexivity.
  - reflexivity.
  - discriminate.
  - repeat constructor. discriminate.
  - vm_compute. discriminate.
  - exact E.
  - exists s'. vm_compute in Hid. subst id. split; [reflexivity|]. split; [exact Hids|].
    unfold GraphSLAM.num_vertices. rewrite Hv. reflexivity.
Defined.
(** ** Plane association in the nodelet *)

Lemma nodelet_associate_plane_found
    (maha_dist : Isometry3d -> Plane3D -> Matrix3d -> Plane3D -> option Q)
    (params : N.Params) s keyframe det plane_type kf est :
  plane_type = X_VERT_PLANE \/ plane_type = Y_VERT_PLANE \/ plane_type = HORT_PLANE ->
  N.get_keyframe s keyframe = Ok kf ->
  node_estimate (N.graph_slam s) (kf_node kf) = Ok est ->
  let found := PlaneMapper.vert_loop maha_dist (inverse est) det
                 (nodelet_class_planes plane_type s) O 100 (0%Z, O) in
  N.associate_plane maha_dist params s keyframe det plane_type
  = Ok (if Qltb (N.plane_dist_threshold params) (fst found)
        then ((-1)%Z, snd (snd found)) else snd found).
Proof.
  intros Htype Hkf Hest found. unfold N.associate_plane. cbv zeta.
  rewrite Hkf. cbn [bind]. rewrite Hest. cbn [bind].
  subst found. unfold nodelet_class_planes.
  destruct Htype as [-> | [-> | ->]];
    cbn [Z.eqb X_VERT_PLANE Y_VERT_PLANE HORT_PLANE Pos.eqb];
    destruct (PlaneMapper.vert_loop _ _ _ _ _ _ _) as [vmin da]; cbn [fst snd];
    destruct (Qltb _ _); reflexivity.
Qed.

(** The nodelet associates a detection with the first landmark of its
    class that is at the least distance, provided that distance is not
    above [plane_dist_threshold]; otherwise it answers -1.  A landmark at a
    NaN distance is never chosen.  (The threshold is taken below the
    starting minimum 100.) *)
Theorem nodelet_association_is_nearest_within_threshold
    (maha_dist : Isometry3d -> Plane3D -> Matrix3d -> Plane3D -> option Q)
    (params : N.Params) (s : N.State) (keyframe : N.KeyFramePtr) (det_plane : Plane3D)
    (plane_type : Z) (kf : KeyFrame) (est : Isometry3d) :
  let planes := nodelet_class_planes plane_type s in
  let distance := association_distance maha_dist (inverse est) det_plane in
  plane_type = X_VERT_PLANE \/ plane_type = Y_VERT_PLANE \/ plane_type = HORT_PLANE ->
  N.get_keyframe s keyframe = Ok kf ->
  node_estimate (N.graph_slam s) (kf_node kf) = Ok est ->
  N.plane_dist_threshold params < 100 ->
  exists data_association,
    N.associate_plane maha_dist params s keyframe det_plane plane_type = Ok data_association
    /\ ((fst data_association = (-1)%Z
         /\ Forall (fun ilm => N.plane_dist_threshold params < distance ilm)
                   (indexed O planes))
        \/ (exists k lm,
              nth_error planes k = Some lm
              /\ data_association = (vp_id lm, k)
              /\ distance (k, lm) <= N.plane_dist_threshold params
              /\ first_least distance 100 (indexed O planes) k (k, lm))).
Proof.
  intros planes distance Htype Hkf Hest Hthr.
  rewrite (nodelet_associate_plane_found maha_dist params s keyframe det_plane plane_type
             kf est Htype Hkf Hest).
  fold planes. eexists. split; [reflexivity|].
  destruct (vert_loop_nearest maha_dist (inverse est) det_plane planes)
    as [[-> Hall]|(k & lm & maha & Hf & Hk & Hm & ->)]; cbn [fst snd].
  - rewrite (Qltb_true _ _ Hthr). left. split; [reflexivity|].
    apply Forall_forall. intros ilm Hin. rewrite Forall_forall in Hall.
    specialize (Hall _ Hin). fold distance in Hall. lra.
  - assert (Hd : distance (k, lm) = maha)
      by (unfold distance, association_distance; cbn [snd]; now rewrite Hm).
    destruct (Qltb (N.plane_dist_threshold params) maha) eqn:E.
    + apply Qltb_lt in E. left. split; [reflexivity|].
      apply Forall_forall. intros ilm Hin. destruct Hf as (_ & _ & Hmin & _).
      specialize (Hmin _ Hin). fold distance in Hmin. rewrite Hd in Hmin. lra.
    + apply Qltb_ge in E. right. exists k, lm. rewrite Hd. repeat split; try assumption;
        apply Hf.
Qed.

Lemma nodelet_association_is_nearest_within_threshold_witness :
  let distance : Isometry3d -> Plane3D -> Matrix3d -> Plane3D -> option Q :=
    fun _ landmark _ _ => if Qltb (c3 landmark) 0 then Some (1 # 20) else None in
  N.associate_plane distance N.default_params
    (N.set_heap [sample_timed_keyframe 0] sample_nodelet_state) O (mkV4 1 0 0 (-1))
    X_VERT_PLANE
  = Ok (1%Z, O).
Proof.
  intro distance.
  destruct (nodelet_association_is_nearest_within_threshold distance N.default_params
              (N.set_heap [sample_timed_keyframe 0] sample_nodelet_state) O
              (mkV4 1 0 0 (-1)) X_VERT_PLANE (sample_timed_keyframe 0) Matrix4d_Identity)
    as (da & Hda & [[Hneg Hall]|(k & lm & Hk & -> & _)]).
  - left. reflexivity.
  - reflexivity.
  - reflexivity.
  - reflexivity.
  - exfalso. inversion Hall as [|x l Hx Hl]. vm_compute in Hx. discriminate Hx.
  - assert (Hc : N.associate_plane distance N.default_params
                   (N.set_heap [sample_timed_keyframe 0] sample_nodelet_state) O
                   (mkV4 1 0 0 (-1)) X_VERT_PLANE = Ok (1%Z, O))
      by (vm_compute; reflexivity).
    rewrite Hda in Hc |- *. exact Hc.
Defined.
(** ** The edges of a plane in the nodelet *)

Lemma with_edge_num_edges e gr :
  GraphSLAM.num_edges (with_edge e gr) = (GraphSLAM.num_edges gr + 1)%Z.
Proof.
  unfold GraphSLAM.num_edges, with_edge. cbn [GraphSLAM.edges].
  rewrite length_app. cbn [List.length]. lia.
Qed.










(** ** The measurement closest to a keyframe *)

Lemma ascending_nth stamps : ascending stamps = true ->
  forall i j, (i <= j < List.length stamps)%nat -> (nth i stamps 0%Z <= nth j stamps 0%Z)%Z.
Proof.
  induction stamps as [|a l IH]; intros Hasc i j Hij; [cbn in Hij; lia|].
  destruct i as [|i], j as [|j]; cbn [nth]; try lia.
  - pose proof (ascending_head _ _ Hasc) as Hh. rewrite Forall_forall in Hh.
    apply Hh. apply nth_In. cbn in Hij. lia.
  - apply IH; [now apply ascending_tail in Hasc|]. cbn in Hij. lia.
Qed.

Lemma skipn_cons_nth {A} (l : list A) (d : A) : forall n a rest,
  skipn n l = a :: rest -> (n < List.length l)%nat /\ a = nth n l d /\ skipn (S n) l = rest.
Proof.
  induction l as [|x l IH]; intros [|n] a rest H; cbn in H; try discriminate.
  - inversion H; subst. cbn. repeat split. lia.
  - apply IH in H. destruct H as (Hn & Ha & Hs). cbn [List.length nth]. repeat split;
      [lia|exact Ha|exact Hs].
Qed.

Lemma skipn_nil_length {A} (l : list A) n : skipn n l = [] -> (List.length l <= n)%nat.
Proof.
  revert n. induction l as [|x l IH]; intros [|n] H; cbn in *; try lia; try discriminate.
  apply IH in H. lia.
Qed.

Section Closest.

Variable stamps : list Z.
Variable keyframe_stamp : Z.
Variable cursor : nat.
Hypothesis Hasc : ascending stamps = true.

Let residual (j : nat) : Z := Z.abs (nth j stamps 0%Z - keyframe_stamp).

Lemma closest_search_spec : forall candidates gps closest,
  candidates = skipn gps stamps ->
  (cursor <= closest)%nat -> (closest < List.length stamps)%nat ->
  closest = gps \/ S closest = gps ->
  (forall j, (cursor <= j <= closest)%nat -> (residual closest <= residual j)%Z) ->
  let c := N.closest_search stamps keyframe_stamp candidates gps closest in
  (cursor <= c < List.length stamps)%nat
  /\ forall j, (cursor <= j < List.length stamps)%nat -> (residual c <= residual j)%Z.
Proof.
  induction candidates as [|g rest IH]; intros gps closest Hc Hcur Hlen Hgps Hmin;
    cbn [N.closest_search].
  - symmetry in Hc. apply skipn_nil_length in Hc.
    split; [lia|]. intros j Hj. apply Hmin. lia.
  - symmetry in Hc. apply (skipn_cons_nth stamps 0%Z) in Hc.
    destruct Hc as (Hg & -> & Hrest).
    fold (residual closest). fold (residual gps).
    destruct (residual closest <? residual gps)%Z eqn:E.
    + apply Z.ltb_lt in E. split; [lia|]. intros j Hj.
      destruct (Nat.le_gt_cases j closest) as [Hle|Hgt]; [apply Hmin; lia|].
      assert (Hcg : S closest = gps) by (destruct Hgps; [subst; lia|assumption]).
      pose proof (ascending_nth stamps Hasc closest gps ltac:(lia)) as H1.
      pose proof (ascending_nth stamps Hasc gps j ltac:(lia)) as H2.
      unfold residual in *. lia.
    + apply Z.ltb_ge in E. apply IH; try lia.
      * now symmetry.
      * intros j Hj. destruct (Nat.eq_dec j gps) as [->|Hne]; [lia|].
        assert (Hjc : (cursor <= j <= closest)%nat) by lia.
        specialize (Hmin j Hjc). lia.
Qed.

End Closest.

(** On a queue in time order, the search of [flush_gps_queue] and
    [flush_imu_queue] for the measurement closest to a keyframe finds, from
    the cursor on, a measurement of least time distance to the keyframe:
    no measurement at or after the cursor is closer. *)
Theorem find_closest_is_nearest (stamps : list Z) (keyframe_stamp : Z) (cursor : nat) :
  ascending stamps = true ->
  (cursor < List.length stamps)%nat ->
  let closest := N.find_closest stamps keyframe_stamp cursor in
  (cursor <= closest < List.length stamps)%nat
  /\ forall j, (cursor <= j < List.length stamps)%nat ->
               (Z.abs (nth closest stamps 0%Z - keyframe_stamp)
                <= Z.abs (nth j stamps 0%Z - keyframe_stamp))%Z.
Proof.
  intros Hasc Hcur. unfold N.find_closest.
  apply (closest_search_spec stamps keyframe_stamp cursor Hasc); try lia; try reflexivity.
  intros j Hj. assert (j = cursor) by lia. subst. lia.
Qed.

Lemma find_closest_is_nearest_witness :
  N.find_closest [N.sec 1; N.sec 4; N.sec 9; N.sec 12] (N.sec 10) 1 = 2%nat.
Proof.
  destruct (find_closest_is_nearest [N.sec 1; N.sec 4; N.sec 9; N.sec 12] (N.sec 10) 1
              eq_refl ltac:(cbn; lia)) as [Hr Hmin].
  pose proof (Hmin 2%nat ltac:(cbn; lia)) as H2.
  remember (N.find_closest [N.sec 1; N.sec 4; N.sec 9; N.sec 12] (N.sec 10) 1) as c eqn:Ec.
  cbn [List.length] in Hr.
  assert (Hc : c = 1%nat \/ c = 2%nat \/ c = 3%nat) by lia.
  destruct Hc as [-> | [-> | ->]]; [vm_compute in H2; now contradiction H2|reflexivity
                                   |vm_compute in H2; now contradiction H2].
Defined.

(** ** The keyframe queue *)

Lemma add_vertex_spec d g g' v :
  GraphSLAM.add_vertex d g = (g', v) ->
  GraphSLAM.num_vertices g' = (GraphSLAM.num_vertices g + 1)%Z
  /\ GraphSLAM.num_edges g' = GraphSLAM.num_edges g.
Proof.
  unfold GraphSLAM.add_vertex. intro H. inversion H; subst.
  unfold GraphSLAM.num_vertices, GraphSLAM.num_edges. cbn [GraphSLAM.vertices GraphSLAM.edges].
  rewrite length_app. cbn [List.length]. split; [lia|reflexivity].
Qed.

Lemma add_edge_spec ty vs meas info g g' e :
  GraphSLAM.add_edge ty vs meas info g = (g', e) ->
  GraphSLAM.num_vertices g' = GraphSLAM.num_vertices g
  /\ GraphSLAM.num_edges g' = (GraphSLAM.num_edges g + 1)%Z.
Proof.
  unfold GraphSLAM.add_edge. intro H. inversion H; subst.
  unfold GraphSLAM.num_vertices, GraphSLAM.num_edges. cbn [GraphSLAM.vertices GraphSLAM.edges].
  rewrite length_app. cbn [List.length]. split; [reflexivity|lia].
Qed.

Lemma add_robust_kernel_spec e k sz g :
  GraphSLAM.num_vertices (GraphSLAM.add_robust_kernel e k sz g) = GraphSLAM.num_vertices g
  /\ GraphSLAM.num_edges (GraphSLAM.add_robust_kernel e k sz g) = GraphSLAM.num_edges g.
Proof.
  split; [|apply kernel_num_edges].
  unfold GraphSLAM.num_vertices. now destruct (add_robust_kernel_vertices e k sz g) as [-> _].
Qed.

Lemma setFixed_spec v f g :
  GraphSLAM.num_vertices (GraphSLAM.setFixed v f g) = GraphSLAM.num_vertices g
  /\ GraphSLAM.num_edges (GraphSLAM.setFixed v f g) = GraphSLAM.num_edges g.
Proof.
  unfold GraphSLAM.setFixed, GraphSLAM.num_vertices, GraphSLAM.num_edges.
  destruct (nth_error (GraphSLAM.vertices g) v); cbn [GraphSLAM.vertices GraphSLAM.edges];
    rewrite ?set_index_length; split; reflexivity.
Qed.

(** Like [bind_inv], and keeps the equation of every pair it names. *)
Ltac bind_inv_eq H :=
  repeat match type of H with
  | bind ?m _ = Ok _ =>
      let E := fresh "E" in
      destruct m eqn:E; cbn [bind] in H; [|discriminate H]
  | (let '(_, _) := ?p in _) = Ok _ => let E := fresh "E" in destruct p eqn:E
  | (match ?p with (_, _) => _ end) = Ok _ => let E := fresh "E" in destruct p eqn:E
  end.

Section KeyframeQueue.

Variable params : N.Params.
Variable calc_information_matrix : PointCloud -> PointCloud -> Isometry3d -> MatrixXd.
Variable odom2map : Isometry3d.

Lemma keyframe_queue_step i rest num_processed s r :
  N.keyframe_queue_loop params calc_information_matrix odom2map (i :: rest) num_processed s
  = Ok r ->
  exists s1 keyframe,
    nth_error (N.keyframe_queue s) i = Some keyframe
    /\ N.keyframe_queue_loop params calc_information_matrix odom2map rest i s1 = Ok r
    /\ N.keyframe_queue s1 = N.keyframe_queue s
    /\ N.keyframes s1 = N.keyframes s
    /\ N.events s1 = N.events s
    /\ N.new_keyframes s1 = (N.new_keyframes s ++ [keyframe])%list
    /\ GraphSLAM.num_vertices (N.graph_slam s1)
       = (GraphSLAM.num_vertices (N.graph_slam s) + 1
          + (if anchor_created params s then 1 else 0))%Z.
Proof.
  intro H. cbn [N.keyframe_queue_loop] in H. cbv zeta in H.
  bind_inv_eq H.
  match goal with E : at_index (N.keyframe_queue s) i = Ok ?k |- _ =>
    apply at_index_nth in E; rename E into Hq; rename k into keyframe end.
  match goal with E : N.get_keyframe _ keyframe = Ok ?k |- _ => clear E; rename k into kf end.
  match goal with E : GraphSLAM.add_se3_node _ _ = (?g, ?n) |- _ =>
    apply add_vertex_spec in E; destruct E as [Hv0 _]; rename g into gr; rename n into node end.
  cbn [N.graph_slam N.set_new_keyframes] in Hv0.
  match type of H with context [N.set_keyframe_hash ?h ?st] =>
    set (s0 := N.set_keyframe_hash h st) in H end.
  assert (F0 : N.keyframe_queue s0 = N.keyframe_queue s
               /\ N.keyframes s0 = N.keyframes s
               /\ N.events s0 = N.events s
               /\ N.new_keyframes s0 = (N.new_keyframes s ++ [keyframe])%list
               /\ N.graph_slam s0 = gr) by (repeat split).
  destruct F0 as (Fq & Fk & Fe & Fn & Fg). clearbody s0.
  match type of H with context [if ?c then ?a else s0] =>
    set (sA := if c then a else s0) in H;
    assert (FA : N.keyframe_queue sA = N.keyframe_queue s
                 /\ N.keyframes sA = N.keyframes s
                 /\ N.events sA = N.events s
                 /\ N.new_keyframes sA = (N.new_keyframes s ++ [keyframe])%list
                 /\ GraphSLAM.num_vertices (N.graph_slam sA)
                    = (GraphSLAM.num_vertices (N.graph_slam s) + 1
                       + (if anchor_created params s then 1 else 0))%Z)
  end.
  { clear H. subst sA. unfold anchor_created. rewrite Fk, Fn.
    destruct (N.keyframes s) as [|k0 ks]; cbn [andb].
    - destruct (N.new_keyframes s) as [|n0 ns]; cbn [app List.length Nat.eqb andb].
      + destruct (N.fix_first_node params).
        * destruct (GraphSLAM.add_se3_node Matrix4d_Identity (N.graph_slam s0))
            as [g1 anchor] eqn:Ea.
          apply add_vertex_spec in Ea. destruct Ea as [Hv1 _].
          destruct (GraphSLAM.add_edge _ _ _ _ _) as [g2 edge] eqn:Ee.
          apply add_edge_spec in Ee. destruct Ee as [Hv2 _].
          destruct (setFixed_spec anchor true g1) as [Hv3 _].
          cbn [N.keyframe_queue N.keyframes N.events N.new_keyframes N.graph_slam
               N.set_anchor_edge N.set_anchor_node N.set_graph_slam].
          repeat split; try assumption. rewrite Fg in *. cbn [andb].
          lia.
        * repeat split; try assumption. rewrite Fg. cbn [andb]. lia.
      + replace (Nat.eqb (List.length (ns ++ [keyframe])) 0) with false
          by (rewrite length_app; cbn; symmetry; apply Nat.eqb_neq; lia).
        cbn [andb]. repeat split; try assumption. rewrite Fg. lia.
    - cbn [andb]. repeat split; try assumption. rewrite Fg. lia. }
  destruct FA as (Aq & Ak & Ae & An & Av). clearbody sA.
  destruct (Nat.eqb i 0 && _).
  - exists sA, keyframe. repeat split; assumption.
  - bind_inv_eq H.
    match goal with E : GraphSLAM.add_edge _ _ _ _ _ = (?g, ?e) |- _ =>
      apply add_edge_spec in E; destruct E as [Hv4 _] end.
    eexists _, keyframe. split; [exact Hq|]. split; [exact H|].
    cbn [N.keyframe_queue N.keyframes N.events N.new_keyframes N.graph_slam N.set_graph_slam].
    repeat split; try assumption.
    match goal with |- context [GraphSLAM.add_robust_kernel ?e ?k ?sz ?g] =>
      destruct (add_robust_kernel_spec e k sz g) as [-> _] end.
    lia.
Qed.

Lemma keyframe_queue_loop_spec : forall m i0 num_processed s s' num_processed',
  N.keyframe_queue_loop params calc_information_matrix odom2map (seq i0 m) num_processed s
  = Ok (s', num_processed') ->
  N.keyframe_queue s' = N.keyframe_queue s
  /\ N.keyframes s' = N.keyframes s
  /\ N.events s' = N.events s
  /\ N.new_keyframes s'
     = (N.new_keyframes s ++ firstn m (skipn i0 (N.keyframe_queue s)))%list
  /\ num_processed' = (if Nat.eqb m 0 then num_processed else i0 + m - 1)%nat
  /\ GraphSLAM.num_vertices (N.graph_slam s')
     = (GraphSLAM.num_vertices (N.graph_slam s) + Z.of_nat m
        + (if negb (Nat.eqb m 0) && anchor_created params s then 1 else 0))%Z.
Proof.
  induction m as [|m IH]; intros i0 np s s' np' H; cbn [seq] in H.
  - cbn [N.keyframe_queue_loop] in H. inversion H; subst. cbn. rewrite app_nil_r.
    repeat split. lia.
  - apply keyframe_queue_step in H.
    destruct H as (s1 & keyframe & Hq & H & Sq & Sk & Se & Sn & Sv).
    apply IH in H. destruct H as (H1 & H2 & H3 & H4 & H5 & H6).
    assert (Hskip : firstn (S m) (skipn i0 (N.keyframe_queue s))
                    = keyframe :: firstn m (skipn (S i0) (N.keyframe_queue s))).
    { clear - Hq. revert i0 Hq. generalize (N.keyframe_queue s) as q.
      induction q as [|x q IHq]; intros [|i0] Hq; try discriminate.
      - cbn in Hq. inversion Hq; subst. reflexivity.
      - cbn [skipn]. apply IHq. exact Hq. }
    assert (Hno : anchor_created params s1 = false).
    { unfold anchor_created. rewrite Sn.
      destruct (N.new_keyframes s); cbn [app]; now rewrite andb_false_r. }
    rewrite Hskip, H1, H2, H3, H4, H6, Sq, Sk, Se, Sn, Sv, Hno, andb_false_r.
    cbn [Nat.eqb negb andb]. rewrite <- app_assoc. cbn [app].
    repeat split; [|lia].
    subst np'. destruct m; cbn [Nat.eqb]; lia.
Qed.

End KeyframeQueue.

Lemma flush_keyframe_queue_spec (params : N.Params)
    (calc_information_matrix : PointCloud -> PointCloud -> Isometry3d -> MatrixXd)
    (s s' : N.State) (updated : bool) :
  N.flush_keyframe_queue params calc_information_matrix s = Ok (s', updated) ->
  let n := Z.to_nat (Z.min (Z.of_nat (List.length (N.keyframe_queue s)))
                           (N.max_keyframes_per_update params)) in
  (updated = false <-> N.keyframe_queue s = [])
  /\ (updated = false -> s' = s)
  /\ N.keyframes s' = N.keyframes s
  /\ N.new_keyframes s' = (N.new_keyframes s ++ firstn n (N.keyframe_queue s))%list
  /\ GraphSLAM.num_vertices (N.graph_slam s')
     = (GraphSLAM.num_vertices (N.graph_slam s) + Z.of_nat n
        + (if negb (Nat.eqb n 0) && anchor_created params s then 1 else 0))%Z
  /\ (updated = true ->
      N.keyframe_queue s' = skipn (Nat.max n 1) (N.keyframe_queue s)
      /\ exists keyframe kf,
           nth_error (N.keyframe_queue s) (Nat.max n 1 - 1) = Some keyframe
           /\ N.get_keyframe s' keyframe = Ok kf
           /\ N.events s'
              = (N.events s
                 ++ [N.ReadUntil (kf_stamp kf + N.sec 10) (N.points_topic params);
                     N.ReadUntil (kf_stamp kf + N.sec 10) "/filtered_points"])%list)
  /\ ((N.max_keyframes_per_update params <= 0)%Z -> updated = true ->
      N.new_keyframes s' = N.new_keyframes s
      /\ N.keyframe_queue s' = tl (N.keyframe_queue s)
      /\ GraphSLAM.num_vertices (N.graph_slam s') = GraphSLAM.num_vertices (N.graph_slam s)).
Proof.
  intros H n.
  assert (Hn : n = Z.to_nat (Z.min (Z.of_nat (List.length (N.keyframe_queue s)))
                                   (N.max_keyframes_per_update params)))
    by reflexivity.
  clearbody n. unfold N.flush_keyframe_queue in H.
  destruct (N.keyframe_queue s) as [|k0 q] eqn:Eq.
  - inversion H; subst s' updated. cbn [List.length Z.of_nat] in Hn.
    assert (Hz : n = O) by lia. rewrite Hz.
    cbn [firstn Nat.eqb negb andb Z.of_nat]. rewrite app_nil_r, Eq.
    repeat split; try discriminate; try reflexivity; try lia.
  - cbv zeta in H. rewrite <- Eq in H, Hn |- *. rewrite <- Hn in H. bind_inv H.
    match goal with E : N.keyframe_queue_loop _ _ _ _ _ _ = Ok (?st, ?np) |- _ =>
      apply keyframe_queue_loop_spec in E;
      destruct E as (L1 & L2 & L3 & L4 & L5 & L6); rename st into s1; rename np into np'
    end.
    match goal with E : at_index (N.keyframe_queue s1) np' = Ok ?k |- _ =>
      apply at_index_nth in E; rename E into Hq; rename k into keyframe end.
    match goal with E : N.get_keyframe s1 keyframe = Ok ?k |- _ =>
      rename E into Hkf; rename k into kf end.
    inversion H; subst s' updated; clear H.
    cbn [skipn firstn] in L4.
    assert (Hnp : np' = (Nat.max n 1 - 1)%nat).
    { rewrite L5. destruct (Nat.eqb n 0) eqn:En;
        [apply Nat.eqb_eq in En|apply Nat.eqb_neq in En]; lia. }
    assert (Hlen : (n <= List.length (N.keyframe_queue s))%nat) by lia.
    assert (Hzero : (N.max_keyframes_per_update params <= 0)%Z -> n = O) by lia.
    clear Hn L5.
    cbn [N.emit N.set_events N.set_keyframe_queue N.keyframes N.new_keyframes N.graph_slam
         N.keyframe_queue N.events].
    rewrite L1 in *. rewrite L2, L3, L4, L6.
    split; [split; [discriminate|intro Hn; rewrite Eq in Hn; discriminate Hn]|].
    split; [discriminate|]. split; [reflexivity|]. split; [reflexivity|].
    split; [reflexivity|]. split.
    + intros _. split.
      * rewrite Hnp. f_equal. lia.
      * exists keyframe, kf. rewrite <- Hnp. split; [exact Hq|]. split.
        -- exact Hkf.
        -- now rewrite <- app_assoc.
    + intros Hmax _.
      assert (Hn0 : n = O) by auto.
      clear Hzero.
      rewrite Hn0 in *. cbn [firstn Nat.eqb negb andb Z.of_nat]. rewrite app_nil_r.
      split; [reflexivity|]. split.
      * rewrite Hnp, Eq. reflexivity.
      * lia.
Qed.

(** A flush of a non-empty keyframe queue commits the first
    [min(size, max_keyframes_per_update)] keyframes of the queue, in queue
    order: they are appended to [new_keyframes], one pose vertex is added
    for each (and the anchor vertex with the very first keyframe, if
    [fix_first_node] is set), and the two [read_until] messages carry the
    stamp of the last of them plus 10 s.  The committed keyframes leave the
    queue.  If [max_keyframes_per_update] is 0 or less, nothing is
    committed, and yet the first keyframe of the queue is removed and the
    flush reports true. *)
Theorem flush_keyframe_queue_commits (params : N.Params)
    (calc_information_matrix : PointCloud -> PointCloud -> Isometry3d -> MatrixXd)
    (s s' : N.State) (updated : bool) :
  N.flush_keyframe_queue params calc_information_matrix s = Ok (s', updated) ->
  let n := Z.to_nat (Z.min (Z.of_nat (List.length (N.keyframe_queue s)))
                           (N.max_keyframes_per_update params)) in
  (updated = false <-> N.keyframe_queue s = [])
  /\ (updated = false -> s' = s)
  /\ N.keyframes s' = N.keyframes s
  /\ N.new_keyframes s' = (N.new_keyframes s ++ firstn n (N.keyframe_queue s))%list
  /\ GraphSLAM.num_vertices (N.graph_slam s')
     = (GraphSLAM.num_vertices (N.graph_slam s) + Z.of_nat n
        + (if negb (Nat.eqb n 0) && anchor_created params s then 1 else 0))%Z
  /\ (updated = true ->
      N.keyframe_queue s' = skipn (Nat.max n 1) (N.keyframe_queue s)
      /\ exists keyframe kf,
           nth_error (N.keyframe_queue s) (Nat.max n 1 - 1) = Some keyframe
           /\ N.get_keyframe s' keyframe = Ok kf
           /\ N.events s'
              = (N.events s
                 ++ [N.ReadUntil (kf_stamp kf + N.sec 10) (N.points_topic params);
                     N.ReadUntil (kf_stamp kf + N.sec 10) "/filtered_points"])%list)
  /\ ((N.max_keyframes_per_update params <= 0)%Z -> updated = true ->
      N.new_keyframes s' = N.new_keyframes s
      /\ N.keyframe_queue s' = tl (N.keyframe_queue s)
      /\ GraphSLAM.num_vertices (N.graph_slam s') = GraphSLAM.num_vertices (N.graph_slam s)).
Proof. exact (flush_keyframe_queue_spec params calc_information_matrix s s' updated). Qed.

Lemma flush_keyframe_queue_commits_witness :
  let calc : PointCloud -> PointCloud -> Isometry3d -> MatrixXd := fun _ _ _ => [] in
  let no_commit := sample_params_no_commit in
  (exists s',
      N.flush_keyframe_queue N.default_params calc sample_queue_state = Ok (s', true)
      /\ N.new_keyframes s' = [O; 1%nat] /\ N.keyframe_queue s' = []
      /\ GraphSLAM.num_vertices (N.graph_slam s') = 2%Z)
  /\ (exists s',
         N.flush_keyframe_queue no_commit calc sample_queue_state = Ok (s', true)
         /\ N.new_keyframes s' = [] /\ N.keyframe_queue s' = [1%nat]
         /\ GraphSLAM.num_vertices (N.graph_slam s') = 0%Z).
Proof.
  intros calc no_commit. split.
  - destruct (N.flush_keyframe_queue N.default_params calc sample_queue_state)
      as [[s' u]|] eqn:E; [|vm_compute in E; discriminate E].
    destruct (flush_keyframe_queue_commits _ _ _ _ _ E) as (_ & _ & _ & Hn & Hv & Hq & _).
    assert (Hu : u = true) by (vm_compute in E; now inversion E).
    subst u. destruct (Hq eq_refl) as [Hq' _].
    exists s'. repeat split; assumption.
  - destruct (N.flush_keyframe_queue no_commit calc sample_queue_state)
      as [[s' u]|] eqn:E; [|vm_compute in E; discriminate E].
    destruct (flush_keyframe_queue_commits _ _ _ _ _ E) as (_ & _ & _ & _ & _ & _ & H0).
    assert (Hu : u = true) by (vm_compute in E; now inversion E).
    subst u. destruct H0 as (Hn & Hq & Hv); [vm_compute; discriminate|reflexivity|].
    exists s'. repeat split; assumption.
Defined.

(** ** The working tick *)

Section WorkingTick.

Variable params : N.Params.
Variable calc_information_matrix : PointCloud -> PointCloud -> Isometry3d -> MatrixXd.
Variable optimize : GraphSLAM.t -> Z -> GraphSLAM.t * Z.
Variable compute_landmark_marginals :
  GraphSLAM.t -> list (Z * Z) -> option (Z -> Z -> Matrix3d).
Variable hessianIndex : GraphSLAM.t -> VertexRef -> Z.
Variable llt_numerical_issue : Matrix3d -> bool.
Variable detect :
  list KeyFrame -> list N.KeyFramePtr -> list N.KeyFramePtr -> GraphSLAM.t -> list N.Loop.

Lemma set_graph_slam_same s : N.set_graph_slam (N.graph_slam s) s = s.
Proof. now destruct s. Qed.

(** The loop over the detected loops adds one edge per loop and touches
    nothing but the graph. *)
Lemma add_loops_frame : forall loops s s',
  N.add_loops params calc_information_matrix loops s = Ok s' ->
  exists gr,
    s' = N.set_graph_slam gr s
    /\ GraphSLAM.num_edges gr
       = (GraphSLAM.num_edges (N.graph_slam s) + Z.of_nat (List.length loops))%Z.
Proof.
  induction loops as [|loop rest IH]; intros s s' H; cbn [N.add_loops] in H.
  - inversion H; subst. exists (N.graph_slam s').
    split; [symmetry; apply set_graph_slam_same|cbn; lia].
  - cbv zeta in H. bind_inv_eq H.
    apply IH in H. destruct H as (gr' & -> & Hn). exists gr'. split; [reflexivity|].
    rewrite Hn. cbn [N.graph_slam N.set_graph_slam].
    rewrite kernel_num_edges.
    match goal with E : GraphSLAM.add_edge _ _ _ _ _ = _ |- _ =>
      apply add_edge_spec in E; destruct E as [_ ->] end.
    cbn [List.length]. lia.
Qed.

(** [compute_plane_cov] writes covariances of plane landmarks only. *)
Lemma compute_plane_cov_frame s :
  let s' := N.compute_plane_cov compute_landmark_marginals hessianIndex llt_numerical_issue s in
  N.keyframes s' = N.keyframes s /\ N.new_keyframes s' = N.new_keyframes s
  /\ N.heap s' = N.heap s /\ N.graph_slam s' = N.graph_slam s
  /\ N.events s' = N.events s.
Proof.
  unfold N.compute_plane_cov. cbv zeta.
  destruct (_ ++ _)%list; [repeat split|].
  destruct (compute_landmark_marginals _ _); repeat split.
Qed.

Lemma optimize_graph_frame s :
  let s' := N.optimize_graph params optimize compute_landmark_marginals hessianIndex
              llt_numerical_issue s in
  N.keyframes s' = N.keyframes s /\ N.new_keyframes s' = N.new_keyframes s
  /\ N.heap s' = N.heap s
  /\ N.graph_slam s'
     = fst (optimize (N.graph_slam s) (N.g2o_solver_num_iterations params))
  /\ N.events s' = (N.events s ++ [N.Optimize (N.g2o_solver_num_iterations params)])%list.
Proof.
  unfold N.optimize_graph. cbv zeta.
  set (s1 := N.emit (N.Optimize (N.g2o_solver_num_iterations params)) s).
  change (N.graph_slam s1) with (N.graph_slam s).
  destruct (optimize _ _) as [gr iterations]. cbn [fst].
  destruct (0 <? iterations)%Z; [|repeat split].
  destruct (compute_plane_cov_frame (N.set_graph_slam gr s1)) as (H1 & H2 & H3 & H4 & H5).
  cbv zeta in *. rewrite H1, H2, H3, H4, H5. repeat split.
Qed.

Lemma make_snapshot_length s : forall kfs snapshot,
  N.make_snapshot s kfs = Ok snapshot -> List.length snapshot = List.length kfs.
Proof.
  induction kfs as [|k rest IH]; intros snapshot H; cbn [N.make_snapshot] in H.
  - now inversion H.
  - bind_inv H. inversion H; subst. cbn [List.length]. f_equal. now apply IH.
Qed.

Lemma make_snapshot_ext s s' kfs :
  N.heap s' = N.heap s -> N.graph_slam s' = N.graph_slam s ->
  N.make_snapshot s' kfs = N.make_snapshot s kfs.
Proof.
  intros Hh Hg. induction kfs as [|k rest IH]; cbn [N.make_snapshot]; [reflexivity|].
  unfold N.get_keyframe. now rewrite Hh, Hg, IH.
Qed.

End WorkingTick.

Lemma optimize_and_publish_spec (params : N.Params)
    (calc_information_matrix : PointCloud -> PointCloud -> Isometry3d -> MatrixXd)
    (optimize : GraphSLAM.t -> Z -> GraphSLAM.t * Z)
    (compute_landmark_marginals : GraphSLAM.t -> list (Z * Z) -> option (Z -> Z -> Matrix3d))
    (hessianIndex : GraphSLAM.t -> VertexRef -> Z) (llt_numerical_issue : Matrix3d -> bool)
    (detect : list KeyFrame -> list N.KeyFramePtr -> list N.KeyFramePtr -> GraphSLAM.t
              -> list N.Loop)
    (s s' : N.State) :
  N.optimize_and_publish params calc_information_matrix optimize compute_landmark_marginals
    hessianIndex llt_numerical_issue detect s = Ok s' ->
  N.keyframes s' = (N.keyframes s ++ N.new_keyframes s)%list
  /\ N.new_keyframes s' = []
  /\ N.graph_updated s' = true
  /\ N.make_snapshot s' (N.keyframes s') = Ok (N.keyframes_snapshot s')
  /\ List.length (N.keyframes_snapshot s') = List.length (N.keyframes s')
  /\ exists keyframe kf est,
       back (N.keyframes s') = Ok keyframe
       /\ N.get_keyframe s' keyframe = Ok kf
       /\ node_estimate (N.graph_slam s') (kf_node kf) = Ok est
       /\ N.trans_odom2map s' = m4_mul est (inverse (kf_odom kf))
       /\ N.events s'
          = (N.events s
             ++ [N.LoopDetect; N.Optimize (N.g2o_solver_num_iterations params);
                 N.Odom2Map (kf_stamp kf) (N.trans_odom2map s')])%list.
Proof.
  unfold N.optimize_and_publish. cbv zeta. intro H.
  match type of H with bind ?m _ = _ =>
    destruct m as [s1|] eqn:E1; [cbn [bind] in H|discriminate H] end.
  apply add_loops_frame in E1. destruct E1 as (gr1 & -> & _).
  match type of H with bind ?m _ = _ =>
    destruct m as [s2|] eqn:E2; [cbn [bind] in H|discriminate H] end.
  set (s1 := N.set_new_keyframes [] _) in E2.
  assert (Hs2 : exists gr2, s2 = N.set_graph_slam gr2 s1).
  { destruct (N.anchor_node s1).
    - destruct (N.fix_first_node_adaptive params).
      + bind_inv E2. injection E2 as <-. eexists. reflexivity.
      + injection E2 as <-. exists (N.graph_slam s1). symmetry. apply set_graph_slam_same.
    - injection E2 as <-. exists (N.graph_slam s1). symmetry. apply set_graph_slam_same. }
  clear E2. destruct Hs2 as (gr2 & ->).
  destruct (optimize_graph_frame params optimize compute_landmark_marginals hessianIndex
              llt_numerical_issue (N.set_graph_slam gr2 s1)) as (F1 & F2 & F3 & F4 & F5).
  cbv zeta in F1, F2, F3, F4, F5.
  set (s3 := N.optimize_graph _ _ _ _ _ _) in *.
  clearbody s3.
  match type of H with bind ?m _ = _ =>
    destruct m as [keyframe|] eqn:Eb; [cbn [bind] in H|discriminate H] end.
  match type of H with bind ?m _ = _ =>
    destruct m as [kf|] eqn:Ek; [cbn [bind] in H|discriminate H] end.
  match type of H with bind ?m _ = _ =>
    destruct m as [est|] eqn:Ee; [cbn [bind] in H|discriminate H] end.
  match type of H with bind ?m _ = _ =>
    destruct m as [snapshot|] eqn:Es; [cbn [bind] in H|discriminate H] end.
  inversion H; subst s'; clear H.
  cbn [N.emit N.set_events N.set_graph_updated N.set_keyframes_snapshot N.set_trans_odom2map
       N.keyframes N.new_keyframes N.graph_updated N.keyframes_snapshot N.trans_odom2map
       N.events N.graph_slam].
  rewrite F1, F2, F5.
  split; [reflexivity|]. split; [reflexivity|]. split; [reflexivity|].
  split; [|split].
  - rewrite <- Es, <- F1. apply make_snapshot_ext; reflexivity.
  - rewrite <- F1. eapply make_snapshot_length. exact Es.
  - exists keyframe, kf, est. rewrite <- F1. split; [exact Eb|].
    split; [exact Ek|]. split; [exact Ee|]. split; [reflexivity|].
    subst s1. cbn [N.events N.set_graph_slam N.set_new_keyframes N.set_keyframes N.emit
                   N.set_events].
    now rewrite <- !app_assoc.
Qed.

(** A tick of the optimization timer that goes past the early return (the
    part of [optimization_timer_callback] from the loop detection on), when
    it runs to its end: the new keyframes are moved behind the keyframes, in
    order; [graph_updated] is set; the snapshot holds, for every keyframe in
    order, its cloud and the pose estimate of its vertex after the solver
    ran; the odom-to-map transform is the estimate of the last keyframe
    times the inverse of its odometry; the loop detector and the solver are
    called once each, and that transform is published last, with the stamp
    of the last keyframe. *)
Theorem working_tick_merges_and_publishes (params : N.Params)
    (calc_information_matrix : PointCloud -> PointCloud -> Isometry3d -> MatrixXd)
    (optimize : GraphSLAM.t -> Z -> GraphSLAM.t * Z)
    (compute_landmark_marginals : GraphSLAM.t -> list (Z * Z) -> option (Z -> Z -> Matrix3d))
    (hessianIndex : GraphSLAM.t -> VertexRef -> Z) (llt_numerical_issue : Matrix3d -> bool)
    (detect : list KeyFrame -> list N.KeyFramePtr -> list N.KeyFramePtr -> GraphSLAM.t
              -> list N.Loop)
    (s s' : N.State) :
  N.optimize_and_publish params calc_information_matrix optimize compute_landmark_marginals
    hessianIndex llt_numerical_issue detect s = Ok s' ->
  N.keyframes s' = (N.keyframes s ++ N.new_keyframes s)%list
  /\ N.new_keyframes s' = []
  /\ N.graph_updated s' = true
  /\ N.make_snapshot s' (N.keyframes s') = Ok (N.keyframes_snapshot s')
  /\ List.length (N.keyframes_snapshot s') = List.length (N.keyframes s')
  /\ exists keyframe kf est,
       back (N.keyframes s') = Ok keyframe
       /\ N.get_keyframe s' keyframe = Ok kf
       /\ node_estimate (N.graph_slam s') (kf_node kf) = Ok est
       /\ N.trans_odom2map s' = m4_mul est (inverse (kf_odom kf))
       /\ N.events s'
          = (N.events s
             ++ [N.LoopDetect; N.Optimize (N.g2o_solver_num_iterations params);
                 N.Odom2Map (kf_stamp kf) (N.trans_odom2map s')])%list.
Proof.
  exact (optimize_and_publish_spec params calc_information_matrix optimize
           compute_landmark_marginals hessianIndex llt_numerical_issue detect s s').
Qed.

Lemma working_tick_merges_and_publishes_witness :
  exists s',
    N.optimize_and_publish N.default_params (fun _ _ _ => []) (fun gr _ => (gr, 1%Z))
      (fun _ _ => None) (fun _ _ => 0%Z) (fun _ => false) (fun _ _ _ _ => [])
      sample_committed_state = Ok s'
    /\ N.keyframes s' = [O; 1%nat] /\ N.new_keyframes s' = []
    /\ N.graph_updated s' = true
    /\ List.length (N.keyframes_snapshot s') = 2%nat.
Proof.
  destruct (N.optimize_and_publish N.default_params (fun _ _ _ => []) (fun gr _ => (gr, 1%Z))
              (fun _ _ => None) (fun _ _ => 0%Z) (fun _ => false) (fun _ _ _ _ => [])
              sample_committed_state) as [s'|] eqn:E; [|vm_compute in E; discriminate E].
  exists s'.
  destruct (working_tick_merges_and_publishes _ _ _ _ _ _ _ _ _ E)
    as (H1 & H2 & H3 & _ & H5 & _).
  split; [reflexivity|]. split; [exact H1|]. split; [exact H2|]. split; [exact H3|].
  rewrite H5, H1. reflexivity.
Defined.

(** ** The floor queue *)

Lemma filter_after_latest (hash : N.FloorCoeffs -> bool) latest a (rest : list N.FloorCoeffs) :
  (latest < a)%Z -> Forall (fun x => (a <= x)%Z) (map N.floor_stamp rest) ->
  filter (fun m => (N.floor_stamp m <=? latest)%Z && hash m) rest = [].
Proof.
  intros Hlt Hall. induction rest as [|m rest IH]; [reflexivity|].
  cbn [map] in Hall. inversion Hall; subst. cbn [filter].
  destruct (Z.leb_spec (N.floor_stamp m) latest); [lia|]. cbn [andb]. now apply IH.
Qed.

Lemma kernel_edge_facts ty vs meas info k sz g g' e :
  GraphSLAM.add_edge ty vs meas info g = (g', e) ->
  GraphSLAM.vertices (GraphSLAM.add_robust_kernel e k sz g') = GraphSLAM.vertices g
  /\ GraphSLAM.num_edges (GraphSLAM.add_robust_kernel e k sz g')
     = (GraphSLAM.num_edges g + 1)%Z.
Proof.
  intro E. destruct (add_robust_kernel_vertices e k sz g') as [-> _].
  rewrite kernel_num_edges. pose proof (add_edge_spec _ _ _ _ _ _ _ E) as [_ ->].
  split; [|reflexivity].
  unfold GraphSLAM.add_edge in E. now injection E as <- _.
Qed.

Lemma add_fixed_plane_node c g g' n :
  GraphSLAM.add_plane_node c g = (g', n) ->
  n = List.length (GraphSLAM.vertices g)
  /\ GraphSLAM.vertices (GraphSLAM.setFixed n true g')
     = (GraphSLAM.vertices g ++ [GraphSLAM.mkVertex (GraphSLAM.VertexPlane c) true])%list
  /\ GraphSLAM.num_edges (GraphSLAM.setFixed n true g') = GraphSLAM.num_edges g.
Proof.
  unfold GraphSLAM.add_plane_node, GraphSLAM.add_vertex. intro H.
  injection H as <- <-. split; [reflexivity|].
  unfold GraphSLAM.setFixed. cbn [GraphSLAM.vertices].
  rewrite nth_error_app2 by lia. rewrite Nat.sub_diag. cbn [nth_error].
  cbn [GraphSLAM.vertices GraphSLAM.v_data]. rewrite set_index_app_last.
  split; reflexivity.
Qed.

Section FloorQueue.

Variable params : N.Params.

Lemma floor_loop_spec latest : forall queue updated s s' updated',
  N.floor_loop params latest queue updated s = Ok (s', updated') ->
  ascending (map N.floor_stamp queue) = true ->
  let matched := floor_matched s latest queue in
  N.keyframes s' = N.keyframes s
  /\ N.floor_coeffs_queue s' = N.floor_coeffs_queue s
  /\ N.keyframe_hash s' = N.keyframe_hash s
  /\ updated' = (updated || match matched with [] => false | _ => true end)
  /\ GraphSLAM.num_edges (N.graph_slam s')
     = (GraphSLAM.num_edges (N.graph_slam s) + Z.of_nat (List.length matched))%Z
  /\ GraphSLAM.vertices (N.graph_slam s')
     = (GraphSLAM.vertices (N.graph_slam s)
        ++ (if floor_vertex_created s matched then [floor_vertex] else []))%list
  /\ N.floor_plane_node s'
     = (if floor_vertex_created s matched
        then Some (List.length (GraphSLAM.vertices (N.graph_slam s)))
        else N.floor_plane_node s).
Proof.
  induction queue as [|fc rest IH]; intros updated s s' updated' H Hasc;
    cbn [N.floor_loop] in H.
  - inversion H; subst. unfold floor_vertex_created, floor_matched. cbn [filter].
    rewrite andb_false_r, orb_false_r, app_nil_r. cbn. repeat split. lia.
  - pose proof (ascending_head _ _ Hasc) as Hhead.
    pose proof (ascending_tail _ _ Hasc) as Htail.
    unfold floor_matched. cbn [filter].
    destruct (Z.ltb_spec latest (N.floor_stamp fc)) as [Hlt|Hle].
    + inversion H; subst.
      destruct (Z.leb_spec (N.floor_stamp fc) latest); [lia|]. cbn [andb].
      rewrite filter_after_latest with (a := N.floor_stamp fc) by assumption.
      unfold floor_vertex_created.
      rewrite andb_false_r, orb_false_r, app_nil_r. cbn. repeat split. lia.
    + destruct (Z.leb_spec (N.floor_stamp fc) latest); [|lia]. cbn [andb].
      destruct (N.hash_find (N.keyframe_hash s) (N.floor_stamp fc)) as [keyframe|] eqn:Eh;
        cbn [N.is_some].
      * destruct (N.floor_plane_node s) as [n|] eqn:Ef.
        -- bind_inv_eq H.
           match goal with E : GraphSLAM.add_edge _ _ _ _ _ = _ |- _ =>
             pose proof (kernel_edge_facts _ _ _ _ (N.floor_edge_robust_kernel params)
                           (N.floor_edge_robust_kernel_size params) _ _ _ E) as [Hv He] end.
           apply IH in H; [|exact Htail].
           destruct H as (H1 & H2 & H3 & H4 & H5 & H6 & H7).
           unfold floor_matched, floor_vertex_created in *.
           cbn [N.put_keyframe N.set_heap N.set_graph_slam N.keyframes N.floor_coeffs_queue
                N.keyframe_hash N.graph_slam N.floor_plane_node] in *.
           rewrite Ef in *. cbn [N.is_some negb andb] in *.
           rewrite He in H5. rewrite Hv in H6.
           rewrite orb_true_r. cbn [List.length].
           repeat split; try assumption. lia.
        -- destruct (GraphSLAM.add_plane_node (mkV4 0 0 1 0) (N.graph_slam s))
             as [gr0 n] eqn:En.
           apply add_fixed_plane_node in En. destruct En as (-> & Hv0 & He0).
           bind_inv_eq H.
           match goal with E : GraphSLAM.add_edge _ _ _ _ _ = _ |- _ =>
             pose proof (kernel_edge_facts _ _ _ _ (N.floor_edge_robust_kernel params)
                           (N.floor_edge_robust_kernel_size params) _ _ _ E) as [Hv He] end.
           apply IH in H; [|exact Htail].
           destruct H as (H1 & H2 & H3 & H4 & H5 & H6 & H7).
           unfold floor_matched, floor_vertex_created in *.
           cbn [N.put_keyframe N.set_heap N.set_graph_slam N.keyframes N.floor_coeffs_queue
                N.keyframe_hash N.graph_slam N.floor_plane_node N.set_floor_plane_node] in *.
           rewrite Ef. cbn [N.is_some negb andb] in *.
           rewrite He, He0 in H5. rewrite Hv, Hv0, app_nil_r in H6.
           rewrite orb_true_r. cbn [List.length].
           repeat split; try assumption. lia.
      * apply IH in H; [|exact Htail]. exact H.
Qed.

End FloorQueue.

(** A flush of the floor queue, held in time order, adds one edge for every
    message stamped no later than the latest keyframe and at the very stamp
    of a keyframe known to [keyframe_hash], and reports whether there was
    one.  The floor vertex, the fixed plane z = 0, is created with the first
    such message if it does not exist yet, and never a second time.  All
    messages stamped no later than the latest keyframe leave the queue,
    used or not. *)
Theorem floor_flush_one_edge_per_matched_message (params : N.Params)
    (s s' : N.State) (updated : bool) (latest : Z) :
  N.flush_floor_queue params s = Ok (s', updated) ->
  N.latest_stamp s = Ok latest ->
  ascending (map N.floor_stamp (N.floor_coeffs_queue s)) = true ->
  let matched := floor_matched s latest (N.floor_coeffs_queue s) in
  (updated = true <-> matched <> [])
  /\ GraphSLAM.num_edges (N.graph_slam s')
     = (GraphSLAM.num_edges (N.graph_slam s) + Z.of_nat (List.length matched))%Z
  /\ GraphSLAM.vertices (N.graph_slam s')
     = (GraphSLAM.vertices (N.graph_slam s)
        ++ (if floor_vertex_created s matched then [floor_vertex] else []))%list
  /\ N.floor_plane_node s'
     = (if floor_vertex_created s matched
        then Some (List.length (GraphSLAM.vertices (N.graph_slam s)))
        else N.floor_plane_node s)
  /\ N.floor_coeffs_queue s'
     = filter (fun m => (latest <? N.floor_stamp m)%Z) (N.floor_coeffs_queue s)
  /\ N.keyframes s' = N.keyframes s.
Proof.
  intros H Hlatest Hasc matched. unfold N.flush_floor_queue in H.
  destruct (N.keyframes s) as [|k0 ks] eqn:Ek.
  { unfold N.latest_stamp in Hlatest. rewrite Ek in Hlatest. discriminate Hlatest. }
  rewrite Hlatest in H. cbn [bind] in H.
  destruct (N.floor_loop params latest (N.floor_coeffs_queue s) false s)
    as [[s1 updated1]|] eqn:El; [cbn [bind] in H|discriminate H].
  injection H as <- <-.
  apply floor_loop_spec in El; [|exact Hasc].
  destruct El as (H1 & H2 & H3 & H4 & H5 & H6 & H7).
  cbn [N.set_floor_coeffs_queue N.graph_slam N.floor_plane_node N.floor_coeffs_queue
       N.keyframes].
  fold matched in H4, H5, H6, H7. cbn [orb] in H4.
  rewrite H2, H5, H6, H7, H1, Ek, (erase_until_ascending _ _ _ Hasc).
  split; [|repeat split].
  rewrite H4. destruct matched; split; congruence.
Qed.

Lemma floor_flush_one_edge_per_matched_message_witness :
  exists s',
    N.flush_floor_queue N.default_params sample_floor_state = Ok (s', true)
    /\ GraphSLAM.num_edges (N.graph_slam s')
       = (GraphSLAM.num_edges (N.graph_slam sample_floor_state) + 1)%Z
    /\ N.floor_plane_node s' = Some 2%nat
    /\ nth_error (GraphSLAM.vertices (N.graph_slam s')) 2 = Some floor_vertex
    /\ N.floor_coeffs_queue s' = [N.mkFloorCoeffs (N.sec 3) [0; 0; 1; 0]].
Proof.
  destruct (N.flush_floor_queue N.default_params sample_floor_state)
    as [[s' u]|] eqn:E; [|vm_compute in E; discriminate E].
  assert (Hu : u = true) by (vm_compute in E; now inversion E).
  subst u. exists s'.
  destruct (floor_flush_one_edge_per_matched_message N.default_params sample_floor_state s'
              true (N.sec 2) E eq_refl eq_refl) as (_ & He & Hv & Hn & Hq & _).
  split; [reflexivity|]. split; [exact He|]. split; [exact Hn|].
  split; [rewrite Hv; reflexivity|exact Hq].
Defined.

(** ** The origin of the GPS positions *)

Lemma nth_error_set_index_eq {A} (v : list A) (i : nat) (a b : A) :
  nth_error v i = Some b -> nth_error (set_index v i a) i = Some a.
Proof.
  revert i. induction v as [|x v IH]; intros [|i] H; cbn in *; try discriminate;
    [reflexivity|now apply IH].
Qed.

Lemma nth_error_set_index_neq {A} (v : list A) (i j : nat) (a : A) :
  i <> j -> nth_error (set_index v i a) j = nth_error v j.
Proof.
  revert i j. induction v as [|x v IH]; intros [|i] [|j] H; cbn; try reflexivity;
    [congruence|apply IH; congruence].
Qed.

Section GpsOrigin.

Variable params : N.Params.
Variable fromMsg : N.GeoPoint -> UTMCoord.

Lemma gps_loop_origin queue : forall kfs cursor updated used s s' updated' used',
  N.gps_loop params fromMsg queue kfs cursor updated used s = Ok (s', updated', used') ->
  exists new,
    used' = (used ++ new)%list
    /\ updated' = match new with [] => updated | _ => true end
    /\ N.zero_utm s' = origin_after fromMsg (N.zero_utm s) queue new
    /\ (forall k, ~ In k (map fst new) -> utm_of s' k = utm_of s k)
    /\ NoDup (map fst new)
    /\ Forall (positioned fromMsg queue s s') new.
Proof.
  induction kfs as [|keyframe rest IH]; intros cursor updated used s s' updated' used' H.
  - cbn in H. inversion H; subst. exists []. rewrite app_nil_r.
    repeat split; [now destruct (N.zero_utm s')|constructor|constructor].
  - cbn [N.gps_loop] in H. bind_inv H.
    match goal with E : N.get_keyframe s keyframe = Ok ?kf |- _ =>
      rename E into Hkf; rename kf into kf0 end.
    destruct (_ <? kf_stamp kf0)%Z.
    { inversion H; subst. exists []. rewrite app_nil_r.
      repeat split; [now destruct (N.zero_utm s')|constructor|constructor]. }
    bind_inv H.
    destruct (kf_utm_coord kf0) as [u0|] eqn:Eu; cbn [N.is_some] in H.
    { rewrite orb_true_r in H. now apply IH in H. }
    rewrite orb_false_r in H.
    destruct (_ <? _)%Z; [now apply IH in H|].
    bind_inv H.
    match goal with E : at_index queue (N.find_closest _ _ _) = Ok ?m |- _ =>
      apply at_index_nth in E; rename E into Hclosest; rename m into closest end.
    destruct (N.max_time_residual <? _)%Z; [now apply IH in H|].
    cbv zeta in H. bind_inv H.
    set (zero := match N.zero_utm s with Some z => z | None => fromMsg (N.position closest) end)
      in H.
    set (xyz := N.utm_sub (fromMsg (N.position closest)) zero) in H.
    set (s1 := N.set_graph_slam _ _) in H.
    assert (Hz1 : N.zero_utm s1 = Some zero) by reflexivity.
    assert (Hk1 : utm_of s1 keyframe = Some xyz).
    { unfold utm_of, s1, N.put_keyframe. cbn [N.heap N.set_graph_slam N.set_heap N.set_zero_utm].
      unfold N.get_keyframe in Hkf.
      destruct (nth_error (N.heap s) keyframe) as [kf1|] eqn:En; [|discriminate Hkf].
      now rewrite (nth_error_set_index_eq _ _ _ _ En). }
    assert (Hk0 : utm_of s keyframe = None).
    { unfold utm_of. unfold N.get_keyframe in Hkf.
      destruct (nth_error (N.heap s) keyframe); [|reflexivity]. now inversion Hkf; subst. }
    assert (Ho1 : forall k, k <> keyframe -> utm_of s1 k = utm_of s k).
    { intros k Hne. unfold utm_of, s1, N.put_keyframe.
      cbn [N.heap N.set_graph_slam N.set_heap N.set_zero_utm].
      rewrite nth_error_set_index_neq by congruence. reflexivity. }
    clearbody s1.
    apply IH in H. destruct H as (new & Hused & Hupd & Hzero & Hother & Hnd & Hall).
    exists ((keyframe, N.find_closest (map N.gps_stamp queue) (kf_stamp kf0) cursor) :: new).
    assert (Hnotin : ~ In keyframe (map fst new)).
    { intro Hin. apply in_map_iff in Hin. destruct Hin as (u & Hfst & Hin).
      rewrite Forall_forall in Hall. destruct (Hall u Hin) as [Hnone _].
      rewrite Hfst, Hk1 in Hnone. discriminate Hnone. }
    assert (Hz' : N.zero_utm s' = Some zero).
    { rewrite Hzero, Hz1. reflexivity. }
    split; [now rewrite Hused, <- app_assoc|].
    split; [now destruct new; subst updated'|].
    split.
    { rewrite Hz'. unfold origin_after, zero. destruct (N.zero_utm s); [reflexivity|].
      now rewrite Hclosest. }
    split.
    { intros k Hk. cbn [map fst In] in Hk. rewrite Hother by tauto. apply Ho1.
      intro Heq. apply Hk. now left. }
    split; [cbn [map fst]; now constructor|].
    constructor.
    + split; [exact Hk0|]. exists closest, zero. cbn [fst snd].
      split; [exact Hclosest|]. split; [exact Hz'|].
      now rewrite Hother by exact Hnotin.
    + rewrite Forall_forall in Hall |- *. intros u Hin.
      destruct (Hall u Hin) as (Hnone & m & z & Hm & Hzz & Hu).
      split; [|exists m, z; repeat split; assumption].
      rewrite <- Ho1; [exact Hnone|]. intro Heq. rewrite Heq, Hk1 in Hnone. discriminate.
Qed.

End GpsOrigin.

(** The GPS positions of the keyframes are all relative to the first fix
    ever used.  A flush of the GPS queue keeps the origin of the map if
    there is one, and sets it to the first fix it uses otherwise; every
    prior edge it adds belongs to a keyframe that had no position before,
    and leaves in that keyframe the position of the fix minus the origin;
    no keyframe gets two prior edges, and the position of every other
    keyframe is as before.  The flush reports true exactly when it used a
    fix. *)
Theorem gps_positions_relative_to_first_fix (params : N.Params)
    (fromMsg : N.GeoPoint -> UTMCoord) (s s' : N.State) (updated : bool)
    (used : list (N.KeyFramePtr * nat)) :
  N.flush_gps_queue_used params fromMsg s = Ok (s', updated, used) ->
  (updated = true <-> used <> [])
  /\ N.zero_utm s' = origin_after fromMsg (N.zero_utm s) (N.gps_queue s) used
  /\ NoDup (map fst used)
  /\ (forall k, ~ In k (map fst used) -> utm_of s' k = utm_of s k)
  /\ Forall (positioned fromMsg (N.gps_queue s) s s') used.
Proof.
  unfold N.flush_gps_queue_used. intro H.
  assert (Hnil : forall z, origin_after fromMsg z (N.gps_queue s) [] = z)
    by (now intros [z|]).
  destruct (N.keyframes s) as [|k0 ks] eqn:Ek.
  { inversion H; subst. rewrite Hnil.
    repeat split; try congruence; constructor. }
  destruct (N.gps_queue s) as [|g0 gs] eqn:Eq.
  { inversion H; subst. rewrite Hnil.
    repeat split; try congruence; constructor. }
  rewrite <- Eq in *. clear Hnil.
  match type of H with bind ?m _ = _ =>
    destruct m as [[[s1 updated1] used1]|] eqn:El; [cbn [bind] in H|discriminate H] end.
  bind_inv H. injection H as <- <- <-.
  apply gps_loop_origin in El.
  destruct El as (new & Hused & Hupd & Hzero & Hother & Hnd & Hall).
  cbn [app] in Hused. subst new.
  split; [rewrite Hupd; destruct used1; split; congruence|].
  split; [exact Hzero|]. split; [exact Hnd|]. split; [exact Hother|].
  rewrite Forall_forall in Hall |- *. intros u Hin. exact (Hall u Hin).
Qed.

Lemma gps_positions_relative_to_first_fix_witness :
  exists s',
    N.flush_gps_queue_used N.default_params sample_fromMsg sample_gps_state
    = Ok (s', true, [(O, 1%nat)])
    /\ N.zero_utm s' = Some (mkUTM 4 5 (Some 6))
    /\ positioned sample_fromMsg (N.gps_queue sample_gps_state) sample_gps_state s'
         (O, 1%nat).
Proof.
  destruct (N.flush_gps_queue_used N.default_params sample_fromMsg sample_gps_state)
    as [[[s' u] used]|] eqn:E; [|vm_compute in E; discriminate E].
  assert (Hu : u = true /\ used = [(O, 1%nat)]) by (vm_compute in E; now inversion E).
  destruct Hu as [-> ->]. exists s'.
  destruct (gps_positions_relative_to_first_fix _ _ _ _ _ _ E) as (_ & Hz & _ & _ & Hall).
  split; [reflexivity|]. split; [exact Hz|]. now inversion Hall.
Defined.

(** ** Corridors *)

Ltac bind_step H :=
  match type of H with
  | bind ?m _ = Ok _ =>
      let E := fresh "E" in
      destruct m eqn:E; cbn [bind] in H; [|discriminate H]
  end.

(** Names the graph after an [add_*_edge] call in the hypothesis [H], and
    then the graph after the [add_robust_kernel] call on that edge. *)
Ltac edge_open H :=
  match type of H with
  | context [GraphSLAM.add_edge ?ty ?vs ?m ?i ?g] =>
      let E := fresh "E" in
      destruct (GraphSLAM.add_edge ty vs m i g) as [? ?] eqn:E;
      unfold GraphSLAM.add_edge in E; inversion E; subst; clear E
  end.

Lemma kernel_last_edge vs (es : list GraphSLAM.Edge) e vc ec k sz :
  (k =? "NONE")%string = false ->
  GraphSLAM.add_robust_kernel (List.length es) k sz (GraphSLAM.mk vs (es ++ [e]) vc ec)
  = GraphSLAM.mk vs (es ++ [GraphSLAM.set_kernel (Some (k, sz)) e]) vc ec.
Proof.
  intro Hk. unfold GraphSLAM.add_robust_kernel. rewrite Hk. cbn [GraphSLAM.edges].
  rewrite nth_error_app2 by lia. rewrite Nat.sub_diag. cbn [nth_error].
  cbn [GraphSLAM.vertices GraphSLAM.vertex_count GraphSLAM.edge_count].
  now rewrite set_index_app_last.
Qed.

Ltac kernel_close H :=
  match type of H with
  | context [GraphSLAM.add_robust_kernel (List.length ?es) ?k ?sz
               (GraphSLAM.mk ?vs (?es ++ [?e]) ?vc ?ec)] =>
      rewrite (kernel_last_edge vs es e vc ec k sz) in H by reflexivity
  end.

Lemma corridors_loop_scan gr axis corr_pose : forall corridors i min_dist data_association r,
  N.associate_corridors_loop gr axis corr_pose corridors i min_dist data_association = Ok r ->
  r = fold_left (scan_step (corridor_distance gr axis corr_pose) corridor_association)
                (indexed i corridors) (min_dist, data_association).
Proof.
  induction corridors as [|c rest IH]; intros i min_dist da r H;
    cbn [N.associate_corridors_loop] in H.
  - now inversion H.
  - rewrite indexed_cons. cbn [fold_left]. bind_step H.
    match goal with E : GraphSLAM.estimate_corridor _ _ = Ok ?est |- _ =>
      assert (Hd : corridor_distance gr axis corr_pose (i, c)
                   = Qabs (axis corr_pose - axis est))
        by (unfold corridor_distance; cbn [snd]; now rewrite E) end.
    assert (Hs : scan_step (corridor_distance gr axis corr_pose) corridor_association
                   (min_dist, da) (i, c)
                 = if Qltb (corridor_distance gr axis corr_pose (i, c)) min_dist
                   then (corridor_distance gr axis corr_pose (i, c), (co_id c, i))
                   else (min_dist, da)) by reflexivity.
    rewrite Hs, Hd. destruct (Qltb _ min_dist); now apply IH in H.
Qed.

Section CorridorFactor.

Variable params : N.Params.

(** [associate_corridors] scans the corridors of the class. *)
Lemma associate_corridors_scan s plane_type corr_pose r :
  plane_type = X_VERT_PLANE \/ plane_type = Y_VERT_PLANE ->
  N.associate_corridors params s plane_type corr_pose = Ok r ->
  let found :=
    fold_left (scan_step (corridor_distance (N.graph_slam s) (corridor_axis plane_type)
                                            corr_pose) corridor_association)
              (indexed O (class_corridors plane_type s)) (100, ((-1)%Z, O)) in
  r = if Qltb (N.corridor_dist_threshold params) (fst found)
      then ((-1)%Z, snd (snd found)) else snd found.
Proof.
  intros Htype H. unfold N.associate_corridors in H. cbv zeta in H.
  unfold class_corridors, corridor_axis.
  destruct Htype as [-> | ->]; cbn [Z.eqb X_VERT_PLANE Y_VERT_PLANE Pos.eqb] in *.
  - bind_step H. match goal with p : (Q * (Z * nat))%type |- _ => destruct p as [m da] end.
    cbn [bind] in H.
    match goal with E : N.associate_corridors_loop _ _ _ _ _ _ _ = Ok _ |- _ =>
      apply corridors_loop_scan in E; rewrite <- E end.
    cbn [fst snd]. destruct (Qltb _ m); now inversion H.
  - cbn [bind] in H. bind_step H.
    match goal with p : (Q * (Z * nat))%type |- _ => destruct p as [m da] end.
    match goal with E : N.associate_corridors_loop _ _ _ _ _ _ _ = Ok _ |- _ =>
      apply corridors_loop_scan in E; rewrite <- E end.
    cbn [fst snd]. destruct (Qltb _ m); now inversion H.
Qed.

(** One block of [factor_corridors]: the association, the corridor vertex
    (a new one, or that of the corridor found), and the three edges. *)
Lemma factor_corridors_block_spec s plane_type corridors vert_planes ety c1 c2 pre gr
    corridors' :
  N.factor_corridors_block params s plane_type corridors vert_planes ety c1 c2 pre
  = Ok (gr, corridors') ->
  exists da kf_node corr_node f1 f2,
    N.associate_corridors params s plane_type pre = Ok da
    /\ N.keyframe_node c1 = Some kf_node
    /\ N.found_plane vert_planes (N.plane_id c1) = Ok f1
    /\ N.found_plane vert_planes (N.plane_id c2) = Ok f2
    /\ map edge_ends (GraphSLAM.edges gr)
       = (map edge_ends (GraphSLAM.edges (N.graph_slam s))
          ++ [(GraphSLAM.EdgeSE3Corridor, [kf_node; corr_node]);
              (ety, [corr_node; vp_plane_node f1]);
              (ety, [corr_node; vp_plane_node f2])])%list
    /\ (if match corridors with [] => true | _ => false end || (fst da =? -1)%Z
        then corr_node = List.length (GraphSLAM.vertices (N.graph_slam s))
             /\ exists pose trans,
                  N.final_corridor_pose (N.graph_slam s) plane_type pre (N.keyframe_node c1)
                  = Ok pose
                  /\ corridors'
                     = (corridors
                        ++ [mkCorridors (GraphSLAM.num_vertices (N.graph_slam s))
                                        (N.plane c1) (N.plane c2)
                                        (N.plane_id c1) (N.plane_id c2) trans corr_node])%list
                  /\ GraphSLAM.vertices gr
                     = (GraphSLAM.vertices (N.graph_slam s)
                        ++ [GraphSLAM.mkVertex (GraphSLAM.VertexCorridor pose) false])%list
        else exists c,
               nth_error corridors (snd da) = Some c
               /\ corr_node = co_node c
               /\ corridors' = corridors
               /\ GraphSLAM.vertices gr = GraphSLAM.vertices (N.graph_slam s)).
Proof.
  unfold N.factor_corridors_block. cbv zeta. intro H.
  destruct (N.associate_corridors params s plane_type pre) as [da|] eqn:Eda;
    [cbn [bind] in H|discriminate H].
  match type of H with bind ?m _ = _ =>
    destruct m as [[[gr1 corridors1] corr_node]|] eqn:Enode; [cbn [bind] in H|discriminate H]
  end.
  bind_step H. bind_step H.
  destruct (N.keyframe_node c1) as [kf_node|] eqn:Ekf; [|discriminate H].
  cbn [deref bind] in H.
  edge_open H. bind_step H. kernel_close H.
  edge_open H. bind_step H. kernel_close H.
  edge_open H. kernel_close H.
  injection H as <- <-.
  match goal with E : N.found_plane vert_planes (N.plane_id c1) = Ok ?f |- _ =>
    rename f into f1; rename E into Ef1 end.
  match goal with E : N.found_plane vert_planes (N.plane_id c2) = Ok ?f |- _ =>
    rename f into f2; rename E into Ef2 end.
  exists da, kf_node, corr_node, f1, f2.
  split; [reflexivity|]. split; [reflexivity|]. split; [reflexivity|].
  split; [reflexivity|].
  assert (Hedges : GraphSLAM.edges gr1 = GraphSLAM.edges (N.graph_slam s)
                   /\ (if match corridors with [] => true | _ => false end
                          || (fst da =? -1)%Z
                       then corr_node = List.length (GraphSLAM.vertices (N.graph_slam s))
                            /\ exists pose trans,
                                 N.final_corridor_pose (N.graph_slam s) plane_type pre (Some kf_node)
                                 = Ok pose
                                 /\ corridors1
                                    = (corridors
                                       ++ [mkCorridors (GraphSLAM.num_vertices (N.graph_slam s))
                                             (N.plane c1) (N.plane c2)
                                             (N.plane_id c1) (N.plane_id c2) trans
                                             corr_node])%list
                                 /\ GraphSLAM.vertices gr1
                                    = (GraphSLAM.vertices (N.graph_slam s)
                                       ++ [GraphSLAM.mkVertex (GraphSLAM.VertexCorridor pose)
                                             false])%list
                       else exists c,
                              nth_error corridors (snd da) = Some c
                              /\ corr_node = co_node c
                              /\ corridors1 = corridors
                              /\ GraphSLAM.vertices gr1 = GraphSLAM.vertices (N.graph_slam s))).
  { destruct (_ || _).
    - bind_step Enode.
      unfold GraphSLAM.add_corridor_node, GraphSLAM.add_vertex in Enode.
      bind_step Enode. injection Enode as <- <- <-.
      split; [reflexivity|]. split; [reflexivity|]. do 2 eexists.
      split; [reflexivity|]. split; reflexivity.
    - bind_step Enode. injection Enode as <- <- <-.
      match goal with E : at_index corridors _ = Ok ?c |- _ =>
        apply at_index_nth in E; split; [reflexivity|]; exists c end.
      repeat split. assumption. }
  destruct Hedges as [Hedges Hcase].
  split; [|destruct (_ || _)].
  - cbn [GraphSLAM.edges]. rewrite !map_app, Hedges. cbn [map].
    unfold edge_ends at 2 3 4. cbn [GraphSLAM.set_kernel GraphSLAM.e_type GraphSLAM.e_vertices].
    now rewrite <- !app_assoc.
  - destruct Hcase as (Hn & pose & trans & Hp & Hc & Hv). split; [exact Hn|].
    exists pose, trans. repeat split; assumption.
  - destruct Hcase as (c & Hc & Hn & Hcs & Hv). exists c. repeat split; assumption.
Qed.

End CorridorFactor.

Lemma first_least_unique {A} (key : A -> Q) bound (l : list A) k a k' a' :
  first_least key bound l k a -> first_least key bound l k' a' -> k = k' /\ a = a'.
Proof.
  intros (Hk & _ & Hmin & Hfirst) (Hk' & _ & Hmin' & Hfirst').
  assert (k = k').
  { destruct (Nat.lt_trichotomy k k') as [Hlt|[Heq|Hgt]]; [|exact Heq|].
    - specialize (Hfirst' _ _ Hlt Hk). specialize (Hmin _ (nth_error_In _ _ Hk')). lra.
    - specialize (Hfirst _ _ Hgt Hk'). specialize (Hmin' _ (nth_error_In _ _ Hk)). lra. }
  subst k'. split; [reflexivity|congruence].
Qed.

Lemma final_corridor_pose_axis gr plane_type pre keyframe_node pose :
  N.final_corridor_pose gr plane_type pre keyframe_node = Ok pose ->
  corridor_axis plane_type pose = corridor_axis plane_type pre.
Proof.
  unfold N.final_corridor_pose, corridor_axis. intro H.
  destruct (plane_type =? X_VERT_PLANE)%Z.
  - bind_step H. now injection H as <-.
  - destruct (plane_type =? Y_VERT_PLANE)%Z; [|discriminate H].
    bind_step H. now injection H as <-.
Qed.

(** A detected corridor is merged into the first mapped corridor of its
    class that lies nearest along the axis of the class, if that one is
    less than 100 away and not farther than [corridor_dist_threshold]:
    then no vertex is added and the list of corridors stays as it is.
    Otherwise a corridor vertex is added, at the detected coordinate, and
    the corridor is recorded with the vertex count as its id.  Either way
    three edges are added: from the keyframe of the first plane to the
    corridor vertex, and from the corridor vertex to the vertices of the
    two planes. *)
Theorem corridor_is_merged_into_nearest (params : N.Params) (plane_type : Z)
    (c1 c2 : N.plane_data_list) (s s' : N.State) :
  plane_type = X_VERT_PLANE \/ plane_type = Y_VERT_PLANE ->
  N.factor_corridors params plane_type c1 c2 s = Ok s' ->
  let pre := N.pre_corridor_pose plane_type (coeffs (N.plane c1)) (coeffs (N.plane c2)) in
  let corridors := class_corridors plane_type s in
  let distance := corridor_distance (N.graph_slam s) (corridor_axis plane_type) pre in
  let vertices := GraphSLAM.vertices (N.graph_slam s) in
  exists kf_node corr_node f1 f2,
    N.keyframe_node c1 = Some kf_node
    /\ N.found_plane (nodelet_class_planes plane_type s) (N.plane_id c1) = Ok f1
    /\ N.found_plane (nodelet_class_planes plane_type s) (N.plane_id c2) = Ok f2
    /\ map edge_ends (GraphSLAM.edges (N.graph_slam s'))
       = (map edge_ends (GraphSLAM.edges (N.graph_slam s))
          ++ [(GraphSLAM.EdgeSE3Corridor, [kf_node; corr_node]);
              (corridor_plane_edge plane_type, [corr_node; vp_plane_node f1]);
              (corridor_plane_edge plane_type, [corr_node; vp_plane_node f2])])%list
    /\ ((exists k c,
           first_least distance 100 (indexed O corridors) k (k, c)
           /\ distance (k, c) <= N.corridor_dist_threshold params
           /\ co_id c <> (-1)%Z
           /\ corr_node = co_node c
           /\ class_corridors plane_type s' = corridors
           /\ GraphSLAM.vertices (N.graph_slam s') = vertices)
        \/ ((forall k c,
               first_least distance 100 (indexed O corridors) k (k, c) ->
               N.corridor_dist_threshold params < distance (k, c) \/ co_id c = (-1)%Z)
            /\ corr_node = List.length vertices
            /\ exists pose trans,
                 class_corridors plane_type s'
                 = (corridors
                    ++ [mkCorridors (GraphSLAM.num_vertices (N.graph_slam s))
                                    (N.plane c1) (N.plane c2)
                                    (N.plane_id c1) (N.plane_id c2) trans corr_node])%list
                 /\ GraphSLAM.vertices (N.graph_slam s')
                    = (vertices
                       ++ [GraphSLAM.mkVertex (GraphSLAM.VertexCorridor pose) false])%list
                 /\ corridor_axis plane_type pose = corridor_axis plane_type pre)).
Proof.
  intros Htype H pre corridors distance vertices.
  assert (Hblock : exists gr corridors',
             N.factor_corridors_block params s plane_type corridors
               (nodelet_class_planes plane_type s) (corridor_plane_edge plane_type)
               c1 c2 pre = Ok (gr, corridors')
             /\ N.graph_slam s' = gr /\ class_corridors plane_type s' = corridors').
  { unfold N.factor_corridors in H. cbv zeta in H. fold pre in H.
    subst corridors. unfold class_corridors, nodelet_class_planes, corridor_plane_edge.
    destruct Htype as [-> | ->]; cbn [Z.eqb X_VERT_PLANE Y_VERT_PLANE Pos.eqb] in *.
    - bind_step H. injection H as <-.
      match goal with E : bind _ _ = Ok _ |- _ => bind_step E;
        match goal with p : (GraphSLAM.t * list Corridors)%type |- _ => destruct p as [gr cs] end;
        injection E as <- end.
      exists gr, cs. repeat split.
    - cbn [bind] in H. bind_step H.
      match goal with p : (GraphSLAM.t * list Corridors)%type |- _ => destruct p as [gr cs] end.
      injection H as <-. exists gr, cs. repeat split. }
  destruct Hblock as (gr & corridors' & Hblock & Hgr & Hcs).
  apply factor_corridors_block_spec in Hblock.
  destruct Hblock as (da & kf_node & corr_node & f1 & f2 & Hda & Hkf & Hf1 & Hf2 & He & Hcase).
  exists kf_node, corr_node, f1, f2.
  split; [exact Hkf|]. split; [exact Hf1|]. split; [exact Hf2|].
  rewrite Hgr, Hcs. split; [exact He|].
  apply (associate_corridors_scan params s plane_type pre da Htype) in Hda.
  cbv zeta in Hda. fold corridors in Hda. fold distance in Hda.
  assert (Hnew : forall pose (trans : Vector3d),
             N.final_corridor_pose (N.graph_slam s) plane_type pre (N.keyframe_node c1)
             = Ok pose ->
             corridor_axis plane_type pose = corridor_axis plane_type pre)
    by (intros pose _; apply final_corridor_pose_axis).
  destruct (scan_spec distance corridor_association 100 ((-1)%Z, O) (indexed O corridors))
    as [[Hfound Hall]|(k & [j c] & Hfl & Hfound)]; rewrite Hfound in Hda; cbn [fst snd] in Hda.
  - assert (Hfst : fst da = (-1)%Z) by (subst da; now destruct (Qltb _ _)).
    rewrite Hfst, orb_true_r in Hcase.
    destruct Hcase as (Hn & pose & trans & Hp & Hc & Hv).
    right. split.
    { intros k c (Hk & Hlt & _). apply nth_error_In in Hk.
      rewrite Forall_forall in Hall. specialize (Hall _ Hk). lra. }
    split; [exact Hn|]. exists pose, trans.
    split; [exact Hc|]. split; [exact Hv|]. exact (Hnew pose trans Hp).
  - assert (Hj : j = k).
    { destruct Hfl as (Hk & _). apply indexed_nth in Hk. destruct Hk as [-> _]. reflexivity. }
    subst j.
    assert (Hnth : nth_error corridors k = Some c).
    { destruct Hfl as (Hk & _). apply indexed_nth in Hk. apply Hk. }
    unfold corridor_association in Hda. cbn [fst snd] in Hda.
    destruct (Qltb (N.corridor_dist_threshold params) (distance (k, c))) eqn:Ethr.
    + apply Qltb_lt in Ethr. subst da. cbn [fst snd] in Hcase.
      rewrite orb_true_r in Hcase.
      destruct Hcase as (Hn & pose & trans & Hp & Hc & Hv).
      right. split.
      { intros k' c' Hfl'. destruct (first_least_unique _ _ _ _ _ _ _ Hfl Hfl') as [_ Heq].
        injection Heq as <- <-. left. exact Ethr. }
      split; [exact Hn|]. exists pose, trans.
      split; [exact Hc|]. split; [exact Hv|]. exact (Hnew pose trans Hp).
    + apply Qltb_ge in Ethr. subst da. cbn [fst snd] in Hcase.
      destruct corridors as [|c0 cs] eqn:Ecs; [destruct k; discriminate Hnth|].
      cbn [orb] in Hcase.
      destruct (co_id c =? -1)%Z eqn:Eid.
      * apply Z.eqb_eq in Eid.
        destruct Hcase as (Hn & pose & trans & Hp & Hc & Hv).
        right. split.
        { intros k' c' Hfl'. destruct (first_least_unique _ _ _ _ _ _ _ Hfl Hfl') as [_ Heq].
          injection Heq as <- <-. right. exact Eid. }
        split; [exact Hn|]. exists pose, trans.
        split; [exact Hc|]. split; [exact Hv|]. exact (Hnew pose trans Hp).
      * apply Z.eqb_neq in Eid.
        destruct Hcase as (c' & Hc' & Hn & Hc & Hv).
        rewrite Hnth in Hc'. injection Hc' as <-.
        left. exists k, c. repeat split; try assumption; apply Hfl.
Qed.

Lemma corridor_is_merged_into_nearest_witness :
  exists s',
    N.factor_corridors N.default_params X_VERT_PLANE
      (sample_wall (mkV4 1 0 0 (-1)) 1%Z) (sample_wall (mkV4 (-1) 0 0 (6 # 5)) 2%Z)
      sample_corridor_state = Ok s'
    /\ N.x_corridors s' = N.x_corridors sample_corridor_state
    /\ GraphSLAM.num_vertices (N.graph_slam s')
       = GraphSLAM.num_vertices (N.graph_slam sample_corridor_state)
    /\ GraphSLAM.num_edges (N.graph_slam s')
       = (GraphSLAM.num_edges (N.graph_slam sample_corridor_state) + 3)%Z.
Proof.
  destruct (N.factor_corridors N.default_params X_VERT_PLANE
              (sample_wall (mkV4 1 0 0 (-1)) 1%Z) (sample_wall (mkV4 (-1) 0 0 (6 # 5)) 2%Z)
              sample_corridor_state) as [s'|] eqn:E; [|vm_compute in E; discriminate E].
  exists s'. split; [reflexivity|].
  destruct (corridor_is_merged_into_nearest _ _ _ _ _ _ (or_introl eq_refl) E)
    as (kf_node & corr_node & f1 & f2 & _ & _ & _ & He
        & [(k & c & _ & _ & _ & _ & Hc & Hv)|(_ & _ & pose & trans & _ & Hv & _)]).
  - split; [exact Hc|]. unfold GraphSLAM.num_vertices, GraphSLAM.num_edges.
    rewrite Hv. split; [reflexivity|].
    apply (f_equal (@List.length _)) in He. rewrite length_app, !length_map in He.
    rewrite He. cbn [List.length]. lia.
  - apply (f_equal (@List.length _)) in Hv.
    vm_compute in E. injection E as <-. vm_compute in Hv. discriminate Hv.
Defined.

(** ** Rooms *)

Section RoomFactor.

Variable sqrt : Q -> Q.
Variable params : N.Params.

Lemma rooms_loop_scan gr room_pose : forall rooms i min_dist data_association r,
  N.associate_rooms_loop sqrt gr room_pose rooms i min_dist data_association = Ok r ->
  r = fold_left (scan_step (room_distance sqrt gr room_pose) room_association)
                (indexed i rooms) (min_dist, data_association).
Proof.
  induction rooms as [|rm rest IH]; intros i min_dist da r H;
    cbn [N.associate_rooms_loop] in H.
  - now inversion H.
  - rewrite indexed_cons. cbn [fold_left]. bind_step H. cbv zeta in H.
    match goal with E : GraphSLAM.estimate_room _ _ = Ok ?est |- _ =>
      assert (Hd : room_distance sqrt gr room_pose (i, rm)
                   = sqrt ((v2_0 room_pose - v2_0 est) * (v2_0 room_pose - v2_0 est)
                           + (v2_1 room_pose - v2_1 est) * (v2_1 room_pose - v2_1 est)))
        by (unfold room_distance; cbn [snd]; now rewrite E) end.
    assert (Hs : scan_step (room_distance sqrt gr room_pose) room_association
                   (min_dist, da) (i, rm)
                 = if Qltb (room_distance sqrt gr room_pose (i, rm)) min_dist
                   then (room_distance sqrt gr room_pose (i, rm), (ro_id rm, i))
                   else (min_dist, da)) by reflexivity.
    rewrite Hs, Hd. destruct (Qltb _ min_dist); now apply IH in H.
Qed.

Lemma associate_rooms_scan s room_pose r :
  N.associate_rooms sqrt params s room_pose = Ok r ->
  let found :=
    fold_left (scan_step (room_distance sqrt (N.graph_slam s) room_pose) room_association)
              (indexed O (N.rooms_vec s)) (100, ((-1)%Z, O)) in
  r = if Qltb (N.room_dist_threshold params) (fst found)
      then ((-1)%Z, snd (snd found)) else snd found.
Proof.
  intro H. unfold N.associate_rooms in H. cbv zeta in H. bind_step H.
  match goal with p : (Q * (Z * nat))%type |- _ => destruct p as [m da] end.
  match goal with E : N.associate_rooms_loop _ _ _ _ _ _ _ = Ok _ |- _ =>
    apply rooms_loop_scan in E; rewrite <- E end.
  cbn [fst snd]. destruct (Qltb _ m); now inversion H.
Qed.

End RoomFactor.

(** A detected room is merged into the first mapped room nearest to its
    pose, if that one is less than 100 away and not farther than
    [room_dist_threshold]: then no vertex is added and the list of rooms
    stays as it is.  Otherwise a room vertex is added at the detected pose
    and the room is recorded with the vertex count as its id.  Either way
    five edges are added: from the keyframe of the first X plane to the
    room vertex, and from the room vertex to the vertices of the two X
    planes and of the two Y planes. *)
Theorem room_is_merged_into_nearest (sqrt : Q -> Q) (params : N.Params)
    (x_room_pair_vec y_room_pair_vec : list N.plane_data_list) (s s' : N.State) :
  N.factor_rooms sqrt params x_room_pair_vec y_room_pair_vec s = Ok s' ->
  let vertices := GraphSLAM.vertices (N.graph_slam s) in
  exists x0 x1 y0 y1 room_pose kf_node room_node fx1 fx2 fy1 fy2,
    firstn 2 x_room_pair_vec = [x0; x1] /\ firstn 2 y_room_pair_vec = [y0; y1]
    /\ N.compute_room_pose x_room_pair_vec y_room_pair_vec = Ok room_pose
    /\ N.keyframe_node x0 = Some kf_node
    /\ N.found_plane (N.x_vert_planes s) (N.plane_id x0) = Ok fx1
    /\ N.found_plane (N.x_vert_planes s) (N.plane_id x1) = Ok fx2
    /\ N.found_plane (N.y_vert_planes s) (N.plane_id y0) = Ok fy1
    /\ N.found_plane (N.y_vert_planes s) (N.plane_id y1) = Ok fy2
    /\ map edge_ends (GraphSLAM.edges (N.graph_slam s'))
       = (map edge_ends (GraphSLAM.edges (N.graph_slam s))
          ++ [(GraphSLAM.EdgeSE3Room, [kf_node; room_node]);
              (GraphSLAM.EdgeRoomXPlane, [room_node; vp_plane_node fx1]);
              (GraphSLAM.EdgeRoomXPlane, [room_node; vp_plane_node fx2]);
              (GraphSLAM.EdgeRoomYPlane, [room_node; vp_plane_node fy1]);
              (GraphSLAM.EdgeRoomYPlane, [room_node; vp_plane_node fy2])])%list
    /\ let distance := room_distance sqrt (N.graph_slam s) room_pose in
       (exists k rm,
           first_least distance 100 (indexed O (N.rooms_vec s)) k (k, rm)
           /\ distance (k, rm) <= N.room_dist_threshold params
           /\ ro_id rm <> (-1)%Z
           /\ room_node = ro_node rm
           /\ N.rooms_vec s' = N.rooms_vec s
           /\ GraphSLAM.vertices (N.graph_slam s') = vertices)
       \/ ((forall k rm,
               first_least distance 100 (indexed O (N.rooms_vec s)) k (k, rm) ->
               N.room_dist_threshold params < distance (k, rm) \/ ro_id rm = (-1)%Z)
           /\ room_node = List.length vertices
           /\ N.rooms_vec s'
              = (N.rooms_vec s
                 ++ [mkRooms (GraphSLAM.num_vertices (N.graph_slam s))
                             (N.plane x0) (N.plane x1) (N.plane y0) (N.plane y1)
                             (N.plane_id x0) (N.plane_id x1) (N.plane_id y0) (N.plane_id y1)
                             room_node])%list
           /\ GraphSLAM.vertices (N.graph_slam s')
              = (vertices
                 ++ [GraphSLAM.mkVertex (GraphSLAM.VertexRoomXYLB room_pose) false])%list).
Proof.
  unfold N.factor_rooms. cbv zeta. intros H.
  destruct (N.compute_room_pose x_room_pair_vec y_room_pair_vec) as [room_pose|] eqn:Epose;
    [cbn [bind] in H|discriminate H].
  destruct (at_index x_room_pair_vec 0) as [x0|] eqn:Ex0; [cbn [bind] in H|discriminate H].
  bind_step H.
  destruct (N.associate_rooms sqrt params s room_pose) as [da|] eqn:Eda;
    [cbn [bind] in H|discriminate H].
  destruct (at_index x_room_pair_vec 1) as [x1|] eqn:Ex1; [cbn [bind] in H|discriminate H].
  destruct (at_index y_room_pair_vec 0) as [y0|] eqn:Ey0; [cbn [bind] in H|discriminate H].
  destruct (at_index y_room_pair_vec 1) as [y1|] eqn:Ey1; [cbn [bind] in H|discriminate H].
  match type of H with bind ?m _ = _ =>
    destruct m as [[[gr1 rooms1] room_node]|] eqn:Enode; [cbn [bind] in H|discriminate H]
  end.
  do 4 bind_step H.
  destruct (N.keyframe_node x0) as [kf_node|] eqn:Ekf; [|discriminate H].
  cbn [deref bind] in H.
  edge_open H. bind_step H. kernel_close H.
  edge_open H. bind_step H. kernel_close H.
  edge_open H. bind_step H. kernel_close H.
  edge_open H. bind_step H. kernel_close H.
  edge_open H. kernel_close H.
  injection H as <-.
  assert (Hfirst : forall (v : list N.plane_data_list) p q,
             at_index v 0 = Ok p -> at_index v 1 = Ok q -> firstn 2 v = [p; q]).
  { intros [|p' [|q' v]] p q Hp Hq; try discriminate.
    cbn in Hp, Hq |- *. congruence. }
  assert (Hnode : GraphSLAM.edges gr1 = GraphSLAM.edges (N.graph_slam s)
                  /\ (if match N.rooms_vec s with [] => true | _ => false end
                         || (fst da =? -1)%Z
                      then room_node = List.length (GraphSLAM.vertices (N.graph_slam s))
                           /\ rooms1
                              = (N.rooms_vec s
                                 ++ [mkRooms (GraphSLAM.num_vertices (N.graph_slam s))
                                       (N.plane x0) (N.plane x1) (N.plane y0) (N.plane y1)
                                       (N.plane_id x0) (N.plane_id x1)
                                       (N.plane_id y0) (N.plane_id y1) room_node])%list
                           /\ GraphSLAM.vertices gr1
                              = (GraphSLAM.vertices (N.graph_slam s)
                                 ++ [GraphSLAM.mkVertex (GraphSLAM.VertexRoomXYLB room_pose)
                                       false])%list
                      else exists rm,
                             nth_error (N.rooms_vec s) (snd da) = Some rm
                             /\ room_node = ro_node rm
                             /\ rooms1 = N.rooms_vec s
                             /\ GraphSLAM.vertices gr1 = GraphSLAM.vertices (N.graph_slam s))).
  { destruct (_ || _).
    - unfold GraphSLAM.add_room_node, GraphSLAM.add_vertex in Enode.
      injection Enode as <- <- <-. repeat split.
    - bind_step Enode. injection Enode as <- <- <-.
      match goal with E : at_index (N.rooms_vec s) _ = Ok ?rm |- _ =>
        apply at_index_nth in E; split; [reflexivity|]; exists rm end.
      repeat split. assumption. }
  destruct Hnode as [Hedges Hcase].
  exists x0, x1, y0, y1, room_pose, kf_node, room_node. do 4 eexists.
  split; [now apply Hfirst|]. split; [now apply Hfirst|].
  do 6 (split; [first [reflexivity|eassumption]|]).
  cbn [N.set_rooms_vec N.set_graph_slam N.graph_slam N.rooms_vec GraphSLAM.edges
       GraphSLAM.vertices].
  split.
  { rewrite !map_app, Hedges. cbn [map].
    unfold edge_ends at 2 3 4 5 6.
    cbn [GraphSLAM.set_kernel GraphSLAM.e_type GraphSLAM.e_vertices].
    now rewrite <- !app_assoc. }
  apply (associate_rooms_scan sqrt params s room_pose da) in Eda.
  cbv zeta in Eda |- *.
  set (distance := room_distance sqrt (N.graph_slam s) room_pose) in *.
  destruct (scan_spec distance room_association 100 ((-1)%Z, O) (indexed O (N.rooms_vec s)))
    as [[Hfound Hall]|(k & [j rm] & Hfl & Hfound)]; rewrite Hfound in Eda; cbn [fst snd] in Eda.
  - assert (Hfst : fst da = (-1)%Z) by (subst da; now destruct (Qltb _ _)).
    rewrite Hfst, orb_true_r in Hcase. destruct Hcase as (Hn & Hr & Hv).
    right. split.
    { intros k rm (Hk & Hlt & _). apply nth_error_In in Hk.
      rewrite Forall_forall in Hall. specialize (Hall _ Hk). lra. }
    repeat split; assumption.
  - assert (Hj : j = k).
    { destruct Hfl as (Hk & _). apply indexed_nth in Hk. destruct Hk as [-> _]. reflexivity. }
    subst j.
    assert (Hnth : nth_error (N.rooms_vec s) k = Some rm).
    { destruct Hfl as (Hk & _). apply indexed_nth in Hk. apply Hk. }
    unfold room_association in Eda. cbn [fst snd] in Eda.
    destruct (Qltb (N.room_dist_threshold params) (distance (k, rm))) eqn:Ethr.
    + apply Qltb_lt in Ethr. subst da. cbn [fst snd] in Hcase.
      rewrite orb_true_r in Hcase. destruct Hcase as (Hn & Hr & Hv).
      right. split.
      { intros k' rm' Hfl'. destruct (first_least_unique _ _ _ _ _ _ _ Hfl Hfl') as [_ Heq].
        injection Heq as <- <-. left. exact Ethr. }
      repeat split; assumption.
    + apply Qltb_ge in Ethr. subst da. cbn [fst snd] in Hcase.
      destruct (N.rooms_vec s) as [|r0 rs] eqn:Ers; [destruct k; discriminate Hnth|].
      cbn [orb] in Hcase.
      destruct (ro_id rm =? -1)%Z eqn:Eid.
      * apply Z.eqb_eq in Eid. destruct Hcase as (Hn & Hr & Hv).
        right. split.
        { intros k' rm' Hfl'.
          destruct (first_least_unique _ _ _ _ _ _ _ Hfl Hfl') as [_ Heq].
          injection Heq as <- <-. right. exact Eid. }
        repeat split; assumption.
      * apply Z.eqb_neq in Eid.
        destruct Hcase as (rm' & Hrm' & Hn & Hr & Hv).
        rewrite Hnth in Hrm'. injection Hrm' as <-.
        left. exists k, rm. repeat split; try assumption; apply Hfl.
Qed.

Lemma room_is_merged_into_nearest_witness :
  exists s',
    N.factor_rooms (fun x => x) N.default_params
      [sample_wall (mkV4 1 0 0 (-1)) 1%Z; sample_wall (mkV4 (-1) 0 0 (6 # 5)) 2%Z]
      [sample_wall (mkV4 0 1 0 (-2)) 3%Z; sample_wall (mkV4 0 (-1) 0 2) 4%Z]
      sample_room_state = Ok s'
    /\ N.rooms_vec s' = N.rooms_vec sample_room_state
    /\ GraphSLAM.num_vertices (N.graph_slam s')
       = GraphSLAM.num_vertices (N.graph_slam sample_room_state)
    /\ GraphSLAM.num_edges (N.graph_slam s')
       = (GraphSLAM.num_edges (N.graph_slam sample_room_state) + 5)%Z.
Proof.
  destruct (N.factor_rooms (fun x => x) N.default_params
              [sample_wall (mkV4 1 0 0 (-1)) 1%Z; sample_wall (mkV4 (-1) 0 0 (6 # 5)) 2%Z]
              [sample_wall (mkV4 0 1 0 (-2)) 3%Z; sample_wall (mkV4 0 (-1) 0 2) 4%Z]
              sample_room_state) as [s'|] eqn:E; [|vm_compute in E; discriminate E].
  exists s'. split; [reflexivity|].
  destruct (room_is_merged_into_nearest _ _ _ _ _ _ E)
    as (x0 & x1 & y0 & y1 & room_pose & kf_node & room_node & fx1 & fx2 & fy1 & fy2
        & _ & _ & _ & _ & _ & _ & _ & _ & He
        & [(k & rm & _ & _ & _ & _ & Hr & Hv)|(_ & _ & _ & Hv)]).
  - split; [exact Hr|]. unfold GraphSLAM.num_vertices, GraphSLAM.num_edges.
    rewrite Hv. split; [reflexivity|].
    apply (f_equal (@List.length _)) in He. rewrite length_app, !length_map in He.
    rewrite He. cbn [List.length]. lia.
  - apply (f_equal (@List.length _)) in Hv.
    vm_compute in E. injection E as <-. vm_compute in Hv. discriminate Hv.
Defined.

(** ** The landmarks of the plane mapper *)

Lemma skipn_nth_error {A} (l : list A) : forall k a,
  nth_error l k = Some a -> skipn k l = a :: skipn (S k) l.
Proof.
  induction l as [|x l IH]; intros [|k] a H; cbn in H; try discriminate.
  - now inversion H.
  - cbn [skipn]. rewrite (IH _ _ H). reflexivity.
Qed.

Lemma cloud_to_map_length gr bodies : forall nodes k cloud,
  PlaneMapper.cloud_to_map gr nodes bodies k = Ok cloud ->
  List.length cloud
  = list_sum (map cloud_size (firstn (List.length nodes) (skipn k bodies))).
Proof.
  induction nodes as [|node rest IH]; intros k cloud H; cbn [PlaneMapper.cloud_to_map] in H.
  - inversion H; subst. reflexivity.
  - bind_inv_eq H.
    match goal with E : at_index bodies k = Ok ?c |- _ =>
      apply at_index_nth in E; rename E into Hk; rename c into cloud_k end.
    match goal with E : deref cloud_k = Ok ?b |- _ =>
      destruct cloud_k as [b'|]; [|discriminate E]; injection E as -> end.
    match goal with E : PlaneMapper.cloud_to_map _ _ _ _ = Ok _ |- _ =>
      apply IH in E; rename E into Hlen end.
    inversion H; subst cloud. rewrite length_app, length_map.
    rewrite (skipn_nth_error _ _ _ Hk). cbn [List.length firstn map list_sum cloud_size].
    rewrite Hlen. reflexivity.
Qed.

Lemma convert_planes_complete gr : forall planes planes',
  PlaneMapper.convert_planes gr planes = Ok planes' ->
  Forall supported planes ->
  List.length planes' = List.length planes
  /\ Forall supported planes' /\ Forall map_cloud_complete planes'.
Proof.
  induction planes as [|lm rest IH]; intros planes' H Hs; cbn [PlaneMapper.convert_planes] in H.
  - inversion H; subst. repeat split; constructor.
  - bind_inv_eq H. inversion H; subst planes'; clear H. inversion Hs; subst.
    match goal with Hrest : Forall supported rest |- _ =>
      destruct (IH _ eq_refl Hrest) as (Hl & Hs' & Hc) end.
    match goal with E : PlaneMapper.cloud_to_map _ _ _ _ = Ok ?c |- _ =>
      apply cloud_to_map_length in E; rename E into Hlen; rename c into cloud end.
    cbn [List.length]. split; [now rewrite Hl|]. split; constructor; try assumption.
    exists cloud. split; [reflexivity|]. rewrite Hlen.
    unfold support_size, PlaneMapper.set_cloud_seg_map. cbn [vp_cloud_seg_body_vec skipn].
    match goal with Hsup : supported lm |- _ => unfold supported in Hsup; rewrite <- Hsup end.
    now rewrite firstn_all.
Qed.

Lemma convert_plane_points_to_map_complete s s' :
  PlaneMapper.convert_plane_points_to_map s = Ok s' ->
  Forall supported (mapper_landmarks s) ->
  PlaneMapper.graph_slam s' = PlaneMapper.graph_slam s
  /\ List.length (mapper_landmarks s') = List.length (mapper_landmarks s)
  /\ Forall supported (mapper_landmarks s')
  /\ Forall map_cloud_complete (mapper_landmarks s').
Proof.
  unfold PlaneMapper.convert_plane_points_to_map, mapper_landmarks. intros H Hs.
  apply Forall_app in Hs. destruct Hs as [Hx Hs].
  apply Forall_app in Hs. destruct Hs as [Hy Hh].
  destruct (PlaneMapper.convert_planes _ (PlaneMapper.x_vert_planes s)) as [xs|] eqn:Ex;
    [cbn [bind] in H|discriminate H].
  destruct (PlaneMapper.convert_planes _ (PlaneMapper.y_vert_planes s)) as [ys|] eqn:Ey;
    [cbn [bind] in H|discriminate H].
  destruct (PlaneMapper.convert_planes _ (PlaneMapper.hort_planes s)) as [hs|] eqn:Eh;
    [cbn [bind] in H|discriminate H].
  injection H as <-.
  destruct (convert_planes_complete _ _ _ Ex Hx) as (Lx & Sx & Cx).
  destruct (convert_planes_complete _ _ _ Ey Hy) as (Ly & Sy & Cy).
  destruct (convert_planes_complete _ _ _ Eh Hh) as (Lh & Sh & Ch).
  cbn [PlaneMapper.set_hort_planes PlaneMapper.set_y_vert_planes PlaneMapper.set_x_vert_planes
       PlaneMapper.graph_slam PlaneMapper.x_vert_planes PlaneMapper.y_vert_planes
       PlaneMapper.hort_planes].
  rewrite !length_app, Lx, Ly, Lh.
  repeat split; repeat (apply Forall_app; split); assumption.
Qed.

Lemma push_support_supported cloud node lm :
  supported lm -> supported (PlaneMapper.push_support cloud node lm).
Proof.
  unfold supported, PlaneMapper.push_support.
  cbn [vp_cloud_seg_body_vec vp_keyframe_node_vec]. rewrite !length_app. cbn. lia.
Qed.

(** One case of the switch: the support of the landmarks stays balanced; a
    vertex is added exactly when a landmark is. *)
Lemma factor_case_support plane_type gr kf det planes da gr' kf' planes' pn da' :
  PlaneMapper.factor_case plane_type gr kf det planes da = Ok (gr', kf', planes', pn, da') ->
  Forall supported planes ->
  Forall supported planes'
  /\ GraphSLAM.edges gr' = GraphSLAM.edges gr
  /\ exists added : nat,
       (added <= 1)%nat
       /\ List.length planes' = (List.length planes + added)%nat
       /\ GraphSLAM.num_vertices gr' = (GraphSLAM.num_vertices gr + Z.of_nat added)%Z.
Proof.
  unfold PlaneMapper.factor_case. intros H Hs.
  destruct (_ || _).
  - unfold GraphSLAM.add_plane_node in H.
    destruct (GraphSLAM.add_vertex _ gr) as [gr1 node] eqn:Ev.
    bind_step H. injection H as <- <- <- <- <-.
    pose proof (add_vertex_spec _ _ _ _ Ev) as [Hv _].
    unfold GraphSLAM.add_vertex in Ev. injection Ev as <- <-.
    split; [|split; [reflexivity|]].
    + apply Forall_app. split; [exact Hs|]. repeat constructor.
    + exists 1%nat. rewrite length_app. cbn [List.length]. repeat split; [lia|exact Hv].
  - bind_step H. injection H as <- <- <- <- <-.
    match goal with E : at_index planes _ = Ok ?l |- _ =>
      apply at_index_nth in E; apply nth_error_In in E; rename E into Hin; rename l into lm end.
    split; [|split; [reflexivity|]].
    + apply set_index_Forall; [exact Hs|]. apply push_support_supported.
      rewrite Forall_forall in Hs. now apply Hs.
    + exists O. rewrite set_index_length. repeat split; lia.
Qed.

Section MapperSupport.

Variable maha_dist : Isometry3d -> Plane3D -> Matrix3d -> Plane3D -> option Q.
Variable params : PlaneMapper.Params.

Lemma factor_planes_support plane_type det_plane_map_frame det_plane_body_frame s s' id :
  PlaneMapper.factor_planes maha_dist params plane_type det_plane_map_frame
                            det_plane_body_frame s = Ok (s', id) ->
  Forall supported (mapper_landmarks s) ->
  GraphSLAM.num_edges (PlaneMapper.graph_slam s')
  = (GraphSLAM.num_edges (PlaneMapper.graph_slam s) + 1)%Z
  /\ Forall supported (mapper_landmarks s')
  /\ Forall map_cloud_complete (mapper_landmarks s')
  /\ exists added : nat,
       (added <= 1)%nat
       /\ List.length (mapper_landmarks s')
          = (List.length (mapper_landmarks s) + added)%nat
       /\ GraphSLAM.num_vertices (PlaneMapper.graph_slam s')
          = (GraphSLAM.num_vertices (PlaneMapper.graph_slam s) + Z.of_nat added)%Z.
Proof.
  intros H Hs.
  destruct (factor_planes_steps maha_dist params _ _ _ _ _ _ H)
    as (Htype & s1 & Gij & da & gr & kf & planes & plane_node & da' & node
        & Hs1 & _ & Hcase & _ & _ & Hconv).
  assert (Hframe : PlaneMapper.graph_slam s1 = PlaneMapper.graph_slam s
                   /\ PlaneMapper.x_vert_planes s1 = PlaneMapper.x_vert_planes s
                   /\ PlaneMapper.y_vert_planes s1 = PlaneMapper.y_vert_planes s
                   /\ PlaneMapper.hort_planes s1 = PlaneMapper.hort_planes s).
  { destruct (PlaneMapper.use_point_to_plane params).
    - destruct Hs1 as (body & kept & _ & _ & ->). repeat split.
    - destruct Hs1 as [-> _]. repeat split. }
  destruct Hframe as (Fg & Fx & Fy & Fh).
  unfold mapper_landmarks in Hs.
  pose proof Hs as Hall.
  apply Forall_app in Hs. destruct Hs as [Hx Hs].
  apply Forall_app in Hs. destruct Hs as [Hy Hh].
  assert (Hclass : Forall supported (class_planes plane_type s1)).
  { unfold class_planes. rewrite Fx, Fy, Fh.
    destruct (plane_type =? X_VERT_PLANE)%Z; [exact Hx|].
    destruct (plane_type =? Y_VERT_PLANE)%Z; assumption. }
  apply factor_case_support in Hcase; [|exact Hclass].
  destruct Hcase as (Hsup & Hedges & added & Hle & Hlen & Hv).
  apply convert_plane_points_to_map_complete in Hconv.
  - destruct Hconv as (Hg & Hl & Hs' & Hc).
    rewrite Hg, Hl. cbn [PlaneMapper.set_graph PlaneMapper.graph_slam].
    split.
    { rewrite with_edge_num_edges. unfold GraphSLAM.num_edges. now rewrite Hedges, Fg. }
    split; [exact Hs'|]. split; [exact Hc|].
    exists added. split; [exact Hle|].
    unfold with_edge, GraphSLAM.num_vertices in *. cbn [GraphSLAM.vertices].
    rewrite Fg in Hv. split; [|exact Hv].
    unfold mapper_landmarks, class_planes, set_class_planes in *.
    destruct Htype as [-> | [-> | ->]];
      cbn [Z.eqb X_VERT_PLANE Y_VERT_PLANE HORT_PLANE Pos.eqb] in *;
      cbn [PlaneMapper.set_x_vert_planes PlaneMapper.set_y_vert_planes
           PlaneMapper.set_hort_planes PlaneMapper.set_keyframe PlaneMapper.set_graph
           PlaneMapper.x_vert_planes PlaneMapper.y_vert_planes PlaneMapper.hort_planes];
      rewrite !length_app, ?Fx, ?Fy, ?Fh in *; lia.
  - unfold mapper_landmarks, class_planes, set_class_planes in *.
    destruct Htype as [-> | [-> | ->]];
      cbn [Z.eqb X_VERT_PLANE Y_VERT_PLANE HORT_PLANE Pos.eqb] in *;
      cbn [PlaneMapper.set_x_vert_planes PlaneMapper.set_y_vert_planes
           PlaneMapper.set_hort_planes PlaneMapper.set_keyframe PlaneMapper.set_graph
           PlaneMapper.x_vert_planes PlaneMapper.y_vert_planes PlaneMapper.hort_planes];
      rewrite ?Fx, ?Fy, ?Fh; repeat (apply Forall_app; split); assumption.
Qed.

End MapperSupport.

(** [map_extracted_planes] ignores the segment clouds of fewer than
    [min_plane_points] points, and turns every other cloud of the message
    into one edge between the keyframe and a plane vertex.  A plane vertex
    is added exactly when a landmark is, at most one per cloud.  The
    landmarks keep one supporting cloud per supporting keyframe node, and
    once a cloud was used the map cloud of every landmark holds one point
    for every point of its supporting clouds: a landmark seen again grows
    by the whole cloud of the detection. *)
Theorem every_large_cloud_is_one_observation
    (maha_dist : Isometry3d -> Plane3D -> Matrix3d -> Plane3D -> option Q)
    (params : PlaneMapper.Params) (extracted_cloud_vec : list PointCloud)
    (s s' : PlaneMapper.State) :
  PlaneMapper.map_extracted_planes maha_dist params extracted_cloud_vec s = Ok s' ->
  Forall supported (mapper_landmarks s) ->
  let observed := filter (enough_points params) extracted_cloud_vec in
  GraphSLAM.num_edges (PlaneMapper.graph_slam s')
  = (GraphSLAM.num_edges (PlaneMapper.graph_slam s) + Z.of_nat (List.length observed))%Z
  /\ Forall supported (mapper_landmarks s')
  /\ (observed <> [] -> Forall map_cloud_complete (mapper_landmarks s'))
  /\ (observed = [] -> s' = s)
  /\ exists added : nat,
       (added <= List.length observed)%nat
       /\ List.length (mapper_landmarks s') = (List.length (mapper_landmarks s) + added)%nat
       /\ GraphSLAM.num_vertices (PlaneMapper.graph_slam s')
          = (GraphSLAM.num_vertices (PlaneMapper.graph_slam s) + Z.of_nat added)%Z.
Proof.
  revert s. induction extracted_cloud_vec as [|cloud rest IH]; intros s H Hs;
    cbn [PlaneMapper.map_extracted_planes] in H.
  - injection H as <-. cbn. repeat split; try assumption; try lia; try congruence.
    exists O. repeat split; lia.
  - cbn [filter]. destruct (enough_points params cloud) eqn:Een;
      unfold enough_points in Een;
      destruct (Qltb _ (PlaneMapper.min_plane_points params)); try discriminate Een.
    2: exact (IH s H Hs).
    + cbv zeta in H. bind_step H. unfold PlaneMapper.add_planes_to_graph in H.
      match type of H with bind (bind ?m _) _ = _ =>
        destruct m as [det_plane_map_frame|]; [cbn [bind] in H|discriminate H] end.
      unfold PlaneMapper.sort_planes in H.
      match type of H with bind (bind ?m _) _ = _ =>
        destruct m as [[s1 id]|] eqn:Ef; [cbn [bind] in H|discriminate H] end.
      apply factor_planes_support in Ef; [|exact Hs].
      destruct Ef as (He1 & Hs1 & Hc1 & added1 & Hle1 & Hl1 & Hv1).
      cbn [PlaneMapper.set_keyframe PlaneMapper.graph_slam] in He1, Hv1.
      change (mapper_landmarks (PlaneMapper.set_keyframe _ s)) with (mapper_landmarks s)
        in Hl1.
      destruct (IH s1 H Hs1) as (He & Hs' & Hc & Hsame & added & Hle & Hl & Hv).
      cbn [List.length]. split; [rewrite He, He1; lia|]. split; [exact Hs'|].
      split; [|split; [discriminate|]].
      * intros _. destruct (filter (enough_points params) rest) eqn:Eobs.
        -- rewrite (Hsame eq_refl). exact Hc1.
        -- apply Hc. discriminate.
      * exists (added1 + added)%nat. repeat split; [lia|lia|rewrite Hv, Hv1; lia].
Qed.

Lemma every_large_cloud_is_one_observation_witness :
  exists s',
    PlaneMapper.map_extracted_planes sample_maha_dist sample_mapper_params
      [[sample_point 1 0 0; sample_point 1 1 0]; [sample_point 1 2 0]]
      (sample_mapper_state [] []) = Ok s'
    /\ GraphSLAM.num_edges (PlaneMapper.graph_slam s')
       = (GraphSLAM.num_edges (PlaneMapper.graph_slam (sample_mapper_state [] [])) + 1)%Z
    /\ Forall map_cloud_complete (mapper_landmarks s').
Proof.
  destruct (PlaneMapper.map_extracted_planes sample_maha_dist sample_mapper_params
              [[sample_point 1 0 0; sample_point 1 1 0]; [sample_point 1 2 0]]
              (sample_mapper_state [] [])) as [s'|] eqn:E; [|vm_compute in E; discriminate E].
  exists s'. split; [reflexivity|].
  assert (Hs : Forall supported (mapper_landmarks (sample_mapper_state [] [])))
    by (repeat constructor).
  destruct (every_large_cloud_is_one_observation _ _ _ _ _ E Hs) as (He & _ & Hc & _).
  split; [exact He|]. apply Hc. discriminate.
Defined.

(** ** The sign corrections of a candidate list *)

Lemma correct_plane_d_pair plane_type p1 p2 :
  N.correct_plane_d plane_type p1 p2 = (correct_one plane_type p1, correct_one plane_type p2).
Proof.
  unfold correct_one, N.correct_plane_d, coeffs.
  destruct (plane_type =? X_VERT_PLANE)%Z; destruct (plane_type =? Y_VERT_PLANE)%Z;
    repeat match goal with |- context [Qltb ?a 0] => destruct (Qltb a 0) eqn:?; cbn [N.negate_d c0 c1] end;
    try reflexivity.
Qed.

Lemma correct_one_involutive plane_type p :
  correct_one plane_type (correct_one plane_type p) = p.
Proof.
  pose proof (nodelet_correct_plane_d_involutive plane_type p p) as H. cbv zeta in H.
  rewrite (correct_plane_d_pair plane_type p p) in H. cbn [fst snd] in H.
  rewrite correct_plane_d_pair in H. now injection H.
Qed.

Lemma corrected_involutive plane_type c : corrected plane_type (corrected plane_type c) = c.
Proof.
  destruct c. unfold corrected, N.set_planes. cbn. now rewrite !correct_one_involutive.
Qed.

Lemma iter_corrected plane_type c : forall k,
  Nat.iter k (corrected plane_type) c = seen plane_type k c.
Proof.
  unfold seen. induction k as [|k IH]; [reflexivity|].
  rewrite Nat.iter_succ, IH, Nat.odd_succ, <- Nat.negb_odd.
  destruct (Nat.odd k); cbn [negb]; [apply corrected_involutive|reflexivity].
Qed.

Lemma nth_error_indexed_map {A B} (f : nat * A -> B) (l : list A) : forall i k,
  nth_error (map f (indexed i l)) k = option_map (fun a => f ((i + k)%nat, a)) (nth_error l k).
Proof.
  induction l as [|x l IH]; intros i [|k]; try reflexivity.
  - rewrite indexed_cons. cbn. now rewrite Nat.add_0_r.
  - rewrite indexed_cons. cbn [map nth_error]. rewrite IH. cbn.
    now rewrite Nat.add_succ_r.
Qed.

Lemma nth_error_set_index {A} (l : list A) (i k : nat) (a : A) :
  nth_error (set_index l i a) k
  = if Nat.eqb k i then option_map (fun _ => a) (nth_error l i) else nth_error l k.
Proof.
  destruct (Nat.eqb_spec k i) as [->|Hne].
  - destruct (nth_error l i) as [b|] eqn:E.
    + now rewrite (nth_error_set_index_eq _ _ _ _ E).
    + cbn. apply nth_error_None. rewrite set_index_length. now apply nth_error_None.
  - apply nth_error_set_index_neq. congruence.
Qed.

Section CandidateCounts.

Variable plane_type : Z.
Variable candidates : list N.plane_data_list.

Lemma corrected_times_nth cnt k :
  nth_error (corrected_times plane_type cnt candidates) k
  = option_map (Nat.iter (cnt k) (corrected plane_type)) (nth_error candidates k).
Proof. unfold corrected_times. now rewrite nth_error_indexed_map. Qed.

Lemma corrected_times_ext cnt cnt' :
  (forall k, (k < List.length candidates)%nat -> cnt k = cnt' k) ->
  corrected_times plane_type cnt candidates = corrected_times plane_type cnt' candidates.
Proof.
  intro H. apply nth_error_ext. intro k. rewrite !corrected_times_nth.
  destruct (nth_error candidates k) eqn:E; [|reflexivity].
  cbn. rewrite H; [reflexivity|]. apply nth_error_Some. congruence.
Qed.

Lemma corrected_times_zero : corrected_times plane_type (fun _ => O) candidates = candidates.
Proof.
  apply nth_error_ext. intro k. rewrite corrected_times_nth.
  now destruct (nth_error candidates k).
Qed.

(** The sign correction of the pair at [i] and [j], on a list in which the
    candidates were corrected [cnt] times. *)
Lemma correct_candidates_counts cnt i j ci cj :
  i <> j -> nth_error candidates i = Some ci -> nth_error candidates j = Some cj ->
  N.correct_candidates plane_type i j (corrected_times plane_type cnt candidates)
  = Ok (corrected_times plane_type (bump i j cnt) candidates,
        Nat.iter (S (cnt i)) (corrected plane_type) ci,
        Nat.iter (S (cnt j)) (corrected plane_type) cj).
Proof.
  intros Hne Hi Hj. unfold N.correct_candidates, at_index.
  rewrite !corrected_times_nth, Hi, Hj. cbn [option_map bind].
  rewrite !correct_plane_d_pair. rewrite !Nat.iter_succ.
  fold (corrected plane_type (Nat.iter (cnt i) (corrected plane_type) ci)).
  fold (corrected plane_type (Nat.iter (cnt j) (corrected plane_type) cj)).
  f_equal. f_equal. f_equal.
  apply nth_error_ext. intro k.
  rewrite !nth_error_set_index, !corrected_times_nth, Hi, Hj.
  unfold bump. cbn [option_map].
  destruct (Nat.eqb_spec k j) as [->|Hkj].
  - rewrite orb_true_r. destruct (Nat.eqb_spec j i); [congruence|].
    rewrite Hj. cbn [option_map]. now rewrite Nat.iter_succ.
  - rewrite orb_false_r. destruct (Nat.eqb_spec k i) as [->|Hki].
    + rewrite Hi. cbn [option_map]. now rewrite Nat.iter_succ.
    + reflexivity.
Qed.

End CandidateCounts.

Lemma flat_map_ext_in {A B} (f g : A -> list B) (l : list A) :
  (forall a, In a l -> f a = g a) -> flat_map f l = flat_map g l.
Proof.
  induction l as [|x l IH]; intro H; [reflexivity|].
  cbn [flat_map]. rewrite (H x (or_introl eq_refl)), IH; [reflexivity|].
  intros a Ha. apply H. now right.
Qed.

Section CandidateLoops.

Variable plane_type : Z.
Variable candidates : list N.plane_data_list.
Variable step : nat -> nat -> list N.plane_data_list * list N.structure_data_list ->
                outcome (list N.plane_data_list * list N.structure_data_list).
Variable emit : N.plane_data_list -> N.plane_data_list -> list N.structure_data_list.

Hypothesis Hstep : forall i j cands pairs cands' ci cj,
  N.correct_candidates plane_type i j cands = Ok (cands', ci, cj) ->
  step i j (cands, pairs) = Ok (cands', (pairs ++ emit ci cj)%list).

Let size := List.length candidates.

(** What is pushed for the pair at [i] and [j], the candidates having been
    corrected [a] and [b] times. *)
Let pair_at (a b i j : nat) : list N.structure_data_list :=
  match nth_error candidates i, nth_error candidates j with
  | Some ci, Some cj =>
      emit (Nat.iter a (corrected plane_type) ci) (Nat.iter b (corrected plane_type) cj)
  | _, _ => []
  end.

Let counts_after_inner (i j0 m : nat) (cnt : nat -> nat) : nat -> nat :=
  fun k => (cnt k + (if Nat.eqb k i then m
                     else if Nat.leb j0 k && Nat.ltb k (j0 + m) then 1 else 0))%nat.

Lemma inner_loop_counts i : forall m j0 cnt pairs,
  (i < j0)%nat -> (j0 + m <= size)%nat ->
  N.inner_loop step i (seq j0 m) (corrected_times plane_type cnt candidates, pairs)
  = Ok (corrected_times plane_type (counts_after_inner i j0 m cnt) candidates,
        (pairs ++ flat_map (fun j => pair_at (S (cnt i + (j - j0))) (S (cnt j)) i j)
                           (seq j0 m))%list).
Proof.
  induction m as [|m IH]; intros j0 cnt pairs Hij Hle.
  - cbn [seq N.inner_loop flat_map]. rewrite app_nil_r. f_equal. f_equal.
    apply corrected_times_ext. intros k _. unfold counts_after_inner.
    destruct (Nat.eqb k i); [lia|].
    destruct (Nat.leb_spec j0 k); destruct (Nat.ltb_spec k (j0 + 0)); cbn [andb]; lia.
  - cbn [seq N.inner_loop flat_map].
    destruct (nth_error candidates i) as [ci|] eqn:Ei;
      [|apply nth_error_None in Ei; fold size in Ei; lia].
    destruct (nth_error candidates j0) as [cj|] eqn:Ej;
      [|apply nth_error_None in Ej; fold size in Ej; lia].
    rewrite (Hstep _ _ _ pairs _ _ _
               (correct_candidates_counts plane_type candidates cnt i j0 ci cj
                  ltac:(lia) Ei Ej)).
    cbn [bind]. rewrite IH by lia. f_equal. f_equal.
    + apply corrected_times_ext. intros k _. unfold counts_after_inner, bump.
      destruct (Nat.eqb_spec k i) as [->|Hki]; cbn [orb]; [lia|].
      destruct (Nat.eqb_spec k j0) as [->|Hkj].
      * destruct (Nat.leb_spec (S j0) j0); [lia|]. cbn [andb].
        destruct (Nat.leb_spec j0 j0); [|lia].
        destruct (Nat.ltb_spec j0 (j0 + S m)); [|lia]. cbn [andb]. lia.
      * destruct (Nat.leb_spec (S j0) k); destruct (Nat.ltb_spec k (S j0 + m));
          destruct (Nat.leb_spec j0 k); destruct (Nat.ltb_spec k (j0 + S m));
          cbn [andb]; lia.
    + rewrite <- app_assoc. f_equal. f_equal.
      * unfold pair_at. rewrite Ei, Ej, Nat.sub_diag, Nat.add_0_r. reflexivity.
      * apply flat_map_ext_in. intros j Hj. apply in_seq in Hj.
        unfold bump. rewrite Nat.eqb_refl. cbn [orb].
        destruct (Nat.eqb_spec j i); [lia|]. destruct (Nat.eqb_spec j j0); [lia|].
        cbn [orb]. replace (S (cnt i) + (j - S j0))%nat with (cnt i + (j - j0))%nat by lia.
        reflexivity.
Qed.

Lemma outer_loop_counts : forall m i0 cnt pairs,
  (i0 + m <= size)%nat ->
  (forall k, (i0 <= k < size)%nat -> cnt k = i0) ->
  exists cnt',
    N.outer_loop step size (seq i0 m) (corrected_times plane_type cnt candidates, pairs)
    = Ok (corrected_times plane_type cnt' candidates,
          (pairs ++ flat_map (fun i => flat_map (fun j => pair_at j (S i) i j)
                                                (seq (S i) (size - S i)))
                             (seq i0 m))%list).
Proof.
  induction m as [|m IH]; intros i0 cnt pairs Hle Hcnt.
  - exists cnt. cbn [seq N.outer_loop flat_map]. now rewrite app_nil_r.
  - cbn [seq N.outer_loop flat_map].
    rewrite inner_loop_counts by lia. cbn [bind].
    destruct (IH (S i0) (counts_after_inner i0 (S i0) (size - S i0) cnt)
                (pairs ++ flat_map (fun j => pair_at (S (cnt i0 + (j - S i0))) (S (cnt j)) i0 j)
                                   (seq (S i0) (size - S i0)))%list)
      as (cnt' & Hrun).
    + lia.
    + intros k Hk. unfold counts_after_inner.
      destruct (Nat.eqb_spec k i0); [lia|].
      destruct (Nat.leb_spec (S i0) k); [|lia].
      destruct (Nat.ltb_spec k (S i0 + (size - S i0))); [|lia].
      cbn [andb]. rewrite Hcnt by lia. lia.
    + exists cnt'. rewrite Hrun. f_equal. f_equal. rewrite <- app_assoc. f_equal. f_equal.
      apply flat_map_ext_in. intros j Hj. apply in_seq in Hj.
      rewrite !Hcnt by lia. replace (S (i0 + (j - S i0))) with j by lia. reflexivity.
Qed.

(** The two loops over a list of candidates. *)
Lemma candidate_loops_pairs :
  exists cands,
    N.outer_loop step size (seq 0 size) (candidates, [])
    = Ok (cands, candidate_pairs emit plane_type candidates).
Proof.
  destruct (outer_loop_counts size O (fun _ => O) []) as (cnt' & Hrun); [lia|reflexivity|].
  rewrite corrected_times_zero in Hrun. eexists. rewrite Hrun. f_equal. f_equal.
  cbn [app]. unfold candidate_pairs. fold size.
  apply flat_map_ext_in. intros i _. apply flat_map_ext_in. intros j _.
  unfold pair_at. destruct (nth_error candidates i); [|reflexivity].
  destruct (nth_error candidates j); [|reflexivity].
  now rewrite !iter_corrected.
Qed.

End CandidateLoops.

Lemma corridor_step_emits params plane_type i j cands pairs cands' ci cj :
  N.correct_candidates plane_type i j cands = Ok (cands', ci, cj) ->
  N.corridor_step params plane_type i j (cands, pairs)
  = Ok (cands', (pairs ++ corridor_pair params ci cj)%list).
Proof.
  intro H. unfold N.corridor_step, corridor_pair. rewrite H. cbn [bind]. cbv zeta.
  destruct (_ && _); [reflexivity|now rewrite app_nil_r].
Qed.

Lemma room_step_emits params plane_type i j cands pairs cands' ci cj :
  N.correct_candidates plane_type i j cands = Ok (cands', ci, cj) ->
  N.room_step params plane_type i j (cands, pairs)
  = Ok (cands', (pairs ++ room_pair params ci cj)%list).
Proof.
  intro H. unfold N.room_step, room_pair. rewrite H. cbn [bind]. cbv zeta.
  destruct (_ && _); [reflexivity|now rewrite app_nil_r].
Qed.

(** [sort_corridors] and [sort_rooms] never fail, and push the pairs of
    positions [i < j] in loop order, each judged on the planes as the sign
    corrections of the earlier pairs left them.  The corrections rewrite
    the candidate list in place and undo themselves when repeated, so the
    pair at [i] and [j] sees the candidate [i] corrected if [j] is odd and
    the candidate [j] corrected if [i] is even, and as they came otherwise:
    with three candidates or more, some pairs are judged, and pushed, with
    uncorrected offsets. *)
Theorem candidate_pairs_see_corrections_by_parity (params : N.Params) (plane_type : Z)
    (candidates : list N.plane_data_list) :
  N.sort_corridors params plane_type candidates
  = Ok (candidate_pairs (corridor_pair params) plane_type candidates)
  /\ N.sort_rooms params plane_type candidates
     = Ok (candidate_pairs (room_pair params) plane_type candidates).
Proof.
  split.
  - unfold N.sort_corridors. cbv zeta.
    destruct (candidate_loops_pairs plane_type candidates
                (N.corridor_step params plane_type) (corridor_pair params)
                (corridor_step_emits params plane_type)) as (cands & ->).
    reflexivity.
  - unfold N.sort_rooms. cbv zeta.
    destruct (candidate_loops_pairs plane_type candidates
                (N.room_step params plane_type) (room_pair params)
                (room_step_emits params plane_type)) as (cands & ->).
    reflexivity.
Qed.

Lemma candidate_pairs_see_corrections_by_parity_witness :
  let a := sample_candidate (mkV4 (-1) 0 0 (6 # 5)) 4%Z in
  let far := sample_candidate (mkV4 1 0 0 (-50)) 5%Z in
  let b := sample_candidate (mkV4 1 0 0 (-1)) 6%Z in
  N.sort_corridors N.default_params X_VERT_PLANE [a; far; b]
  = Ok [N.mkStructureDataList a b (Qabs ((6 # 5) - (-1))) (Qabs (12 - 12))]
  /\ N.sort_corridors N.default_params X_VERT_PLANE [a; b] = Ok [].
Proof.
  intros a far b. split.
  - rewrite (proj1 (candidate_pairs_see_corrections_by_parity _ _ _)). reflexivity.
  - rewrite (proj1 (candidate_pairs_see_corrections_by_parity _ _ _)). reflexivity.
Defined.

(** ** The IMU queue when the listener throws *)


Section ImuThrow.

Variable params : N.Params.
Variable tf_transform : string -> N.Imu -> option (Vector3d * Quaterniond).


End ImuThrow.



(** ** The keyframes through a tick *)

Section TickKeyframes.

Variable maha_dist : Isometry3d -> Plane3D -> Matrix3d -> Plane3D -> option Q.
Variable cloud_plane_length : PointCloud -> Q.
Variable sqrt : Q -> Q.
Variable params : N.Params.
Variable fromMsg : N.GeoPoint -> UTMCoord.
Variable tf_transform : string -> N.Imu -> option (Vector3d * Quaterniond).

Lemma floor_loop_committed latest : forall queue updated s r,
  N.floor_loop params latest queue updated s = Ok r -> committed (fst r) = committed s.
Proof.
  induction queue as [|fc rest IH]; intros updated s r H; cbn [N.floor_loop] in H.
  - now inversion H.
  - destruct (latest <? N.floor_stamp fc)%Z; [now inversion H|].
    destruct (N.hash_find _ _); [|now apply IH in H].
    destruct (N.floor_plane_node s);
      [|destruct (GraphSLAM.add_plane_node _ _) as [gr n] eqn:En];
      unfold GraphSLAM.add_edge in H; frame_step IH H.
Qed.

Lemma flush_floor_queue_committed s r :
  N.flush_floor_queue params s = Ok r -> committed (fst r) = committed s.
Proof.
  unfold N.flush_floor_queue. intros H. destruct (N.keyframes s) eqn:Ek; [now inversion H|].
  bind_inv H. apply floor_loop_committed in E0. inversion H; subst. exact E0.
Qed.

Lemma gps_loop_committed queue : forall kfs cursor updated used s r,
  N.gps_loop params fromMsg queue kfs cursor updated used s = Ok r ->
  committed (fst (fst r)) = committed s.
Proof.
  induction kfs as [|keyframe rest IH]; intros cursor updated used s r H;
    cbn [N.gps_loop] in H.
  - now inversion H.
  - frame_step IH H.
Qed.

Lemma imu_loop_committed queue : forall kfs cursor updated used s r,
  N.imu_loop params tf_transform queue kfs cursor updated used s = Ok r ->
  committed (fst (fst (fst r))) = committed s.
Proof.
  induction kfs as [|keyframe rest IH]; intros cursor updated used s r H;
    cbn [N.imu_loop] in H.
  - now inversion H.
  - frame_step IH H.
Qed.

Lemma parallel_plane_constraint_committed plane_node id plane_type s :
  committed (N.parallel_plane_constraint plane_node id plane_type s) = committed s.
Proof.
  unfold N.parallel_plane_constraint. cbv zeta.
  repeat match goal with
  | |- context [if ?c then _ else _] => destruct c
  | |- context [N.parallel_loop ?a ?b ?c ?d] => destruct (N.parallel_loop a b c d)
  end; reflexivity.
Qed.

Lemma perpendicular_plane_constraint_committed plane_node id plane_type s :
  committed (N.perpendicular_plane_constraint plane_node id plane_type s) = committed s.
Proof.
  unfold N.perpendicular_plane_constraint. cbv zeta.
  repeat match goal with
  | |- context [if ?c then _ else _] => destruct c
  end; reflexivity.
Qed.

Lemma factor_planes_committed keyframe det_plane_map_frame det_plane_body_frame plane_type s r :
  N.factor_planes maha_dist params keyframe det_plane_map_frame det_plane_body_frame
                  plane_type s = Ok r ->
  committed (fst r) = committed s.
Proof.
  unfold N.factor_planes. cbv zeta. intro H.
  match type of H with bind ?m _ = _ =>
    destruct m as [[s1 Gij]|] eqn:E1; [cbn [bind] in H|discriminate H] end.
  assert (H1 : committed s1 = committed s).
  { destruct (N.use_point_to_plane params).
    - bind_inv E1. now inversion E1.
    - now inversion E1. }
  rewrite <- H1. clear E1 H1.
  bind_step H. bind_step H.
  match type of H with bind ?m _ = _ =>
    destruct m as [[[[s2 pn] da] added]|] eqn:E2; [cbn [bind] in H|discriminate H] end.
  assert (H2 : committed s2 = committed s1).
  { unfold N.factor_branch in E2.
    repeat first
      [ progress bind_inv E2
      | match type of E2 with
        | Ok _ = Ok _ => inversion E2; subst; clear E2; reflexivity
        | (if ?c then _ else _) = Ok _ => destruct c eqn:?
        | match ?x with _ => _ end = Ok _ => destruct x eqn:?
        end ]. }
  rewrite <- H2. clear E2 H2.
  bind_step H. bind_step H. injection H as <-. cbn [fst].
  repeat match goal with
  | |- context [if ?c then _ else _] => destruct c
  end;
    rewrite ?perpendicular_plane_constraint_committed, ?parallel_plane_constraint_committed;
    unfold GraphSLAM.add_edge; reflexivity.
Qed.

Lemma vertical_candidate_committed keyframe det_plane_map_frame det_plane_body_frame
    plane_type s r :
  N.vertical_candidate maha_dist cloud_plane_length params keyframe det_plane_map_frame
                       det_plane_body_frame plane_type s = Ok r ->
  committed (fst r) = committed s.
Proof.
  unfold N.vertical_candidate. intro H.
  match type of H with bind ?m _ = _ =>
    destruct m as [[s1 id]|] eqn:Ef; [cbn [bind] in H|discriminate H] end.
  apply factor_planes_committed in Ef. cbn [fst] in Ef.
  do 3 bind_step H. injection H as <-. exact Ef.
Qed.

Lemma seg_clouds_loop_committed latest : forall clouds acc s r,
  N.seg_clouds_loop maha_dist cloud_plane_length params latest clouds acc s = Ok r ->
  committed (fst r) = committed s.
Proof.
  induction clouds as [|c rest IH]; intros acc s r H; cbn [N.seg_clouds_loop] in H.
  - now inversion H.
  - destruct (latest <? N.pc_stamp c)%Z; [now inversion H|].
    destruct (N.hash_find _ _) as [keyframe|]; [|now apply IH in H].
    destruct (_ <? 100)%nat; [now apply IH in H|].
    cbv zeta in H. do 3 bind_step H.
    repeat match type of H with
    | (if ?c then _ else _) = Ok _ => destruct c
    end.
    + match type of H with bind ?m _ = _ =>
        destruct m as [[s1 pair]|] eqn:Ev; [cbn [bind] in H|discriminate H] end.
      apply vertical_candidate_committed in Ev. cbn [fst] in Ev.
      apply IH in H. rewrite H, Ev. reflexivity.
    + match type of H with bind ?m _ = _ =>
        destruct m as [[s1 pair]|] eqn:Ev; [cbn [bind] in H|discriminate H] end.
      apply vertical_candidate_committed in Ev. cbn [fst] in Ev.
      apply IH in H. rewrite H, Ev. reflexivity.
    + match type of H with bind ?m _ = _ =>
        destruct m as [[s1 id]|] eqn:Ef; [cbn [bind] in H|discriminate H] end.
      apply factor_planes_committed in Ef. cbn [fst] in Ef.
      apply IH in H. rewrite H, Ef. reflexivity.
    + apply IH in H. rewrite H. reflexivity.
Qed.

Lemma factor_corridors_committed plane_type c1 c2 s s' :
  N.factor_corridors params plane_type c1 c2 s = Ok s' -> committed s' = committed s.
Proof.
  unfold N.factor_corridors. cbv zeta. intro H.
  match type of H with bind ?m _ = _ =>
    destruct m as [s1|] eqn:E1; [cbn [bind] in H|discriminate H] end.
  assert (H1 : committed s1 = committed s).
  { destruct (plane_type =? X_VERT_PLANE)%Z; [|now inversion E1].
    bind_step E1. match goal with p : (GraphSLAM.t * list Corridors)%type |- _ => destruct p end.
    now inversion E1. }
  rewrite <- H1. destruct (plane_type =? Y_VERT_PLANE)%Z; [|now inversion H].
  bind_step H. match goal with p : (GraphSLAM.t * list Corridors)%type |- _ => destruct p end.
  now inversion H.
Qed.

Lemma factor_rooms_committed xs ys s s' :
  N.factor_rooms sqrt params xs ys s = Ok s' -> committed s' = committed s.
Proof.
  unfold N.factor_rooms. cbv zeta. intro H. unfold GraphSLAM.add_edge in H.
  bind_inv H. now inversion H.
Qed.

Lemma seg_structures_committed acc s s' :
  N.seg_structures sqrt params acc s = Ok s' -> committed s' = committed s.
Proof.
  unfold N.seg_structures, N.factor_refined_corridors. intro H.
  match type of H with bind ?m _ = _ =>
    destruct m as [s1|] eqn:E1; [cbn [bind] in H|discriminate H] end.
  assert (H1 : committed s1 = committed s).
  { destruct (N.use_corridor_constraint params); [|now inversion E1].
    do 2 bind_step E1.
    match type of E1 with bind ?m _ = _ =>
      destruct m as [s0|] eqn:Ex; [cbn [bind] in E1|discriminate E1] end.
    assert (H0 : committed s0 = committed s).
    { match type of Ex with match N.refine_corridors ?v with _ => _ end = _ =>
        destruct (N.refine_corridors v) as [|p1 [|p2 [|p3 l]]] end;
        try (now inversion Ex). now apply factor_corridors_committed in Ex. }
    rewrite <- H0. clear Ex H0.
    match type of E1 with match N.refine_corridors ?v with _ => _ end = _ =>
      destruct (N.refine_corridors v) as [|p1 [|p2 [|p3 l]]] end;
      try (now inversion E1). now apply factor_corridors_committed in E1. }
  rewrite <- H1.
  destruct (N.use_room_constraint params); [|now inversion H].
  do 2 bind_step H. cbv zeta in H.
  destruct (_ && _); [|now inversion H].
  now apply factor_rooms_committed in H.
Qed.

Lemma seg_queue_loop_committed latest : forall queue updated s r,
  N.seg_queue_loop maha_dist cloud_plane_length sqrt params latest queue updated s = Ok r ->
  committed (fst r) = committed s.
Proof.
  induction queue as [|m rest IH]; intros updated s r H; cbn [N.seg_queue_loop] in H.
  - now inversion H.
  - match type of H with bind ?m _ = _ =>
      destruct m as [[s1 acc]|] eqn:E1; [cbn [bind] in H|discriminate H] end.
    apply seg_clouds_loop_committed in E1. cbn [fst] in E1.
    match type of H with bind ?m _ = _ =>
      destruct m as [s2|] eqn:E2; [cbn [bind] in H|discriminate H] end.
    apply seg_structures_committed in E2. apply IH in H. congruence.
Qed.

Lemma flush_clouds_seg_queue_committed s r :
  N.flush_clouds_seg_queue maha_dist cloud_plane_length sqrt params s = Ok r ->
  committed (fst r) = committed s.
Proof.
  unfold N.flush_clouds_seg_queue. intro H.
  destruct (N.keyframes s) eqn:Ek; [now inversion H|].
  destruct (N.clouds_seg_queue s) eqn:Eq; [now inversion H|].
  bind_step H.
  match type of H with bind ?m _ = _ =>
    destruct m as [[s1 updated]|] eqn:E1; [cbn [bind] in H|discriminate H] end.
  apply seg_queue_loop_committed in E1. inversion H; subst. exact E1.
Qed.

Lemma flush_gps_queue_committed s r :
  N.flush_gps_queue params fromMsg s = Ok r -> committed (fst r) = committed s.
Proof.
  unfold N.flush_gps_queue. intros H. bind_inv H. inversion H; subst. cbn [fst].
  unfold N.flush_gps_queue_used in E.
  destruct (N.keyframes s) eqn:Ek; [now inversion E|].
  destruct (N.gps_queue s) eqn:Eq; [now inversion E|].
  bind_inv E.
  match goal with E' : N.gps_loop _ _ _ _ _ _ _ _ = Ok _ |- _ =>
    apply gps_loop_committed in E'; cbn [fst] in E' end.
  inversion E; subst. assumption.
Qed.

Lemma flush_imu_queue_committed s r :
  N.flush_imu_queue params tf_transform s = Ok r -> committed (fst r) = committed s.
Proof.
  unfold N.flush_imu_queue. intros H. bind_inv H. inversion H; subst. cbn [fst].
  unfold N.flush_imu_queue_used in E.
  destruct (N.keyframes s) eqn:Ek; [now inversion E|].
  destruct (N.imu_queue s) eqn:Eq; [now inversion E|].
  destruct (String.eqb _ _); [now inversion E|].
  bind_inv E.
  match goal with E' : N.imu_loop _ _ _ _ _ _ _ _ = Ok _ |- _ =>
    apply imu_loop_committed in E'; cbn [fst] in E' end.
  match goal with x : N.imu_exit |- _ => destruct x end;
    bind_inv E; inversion E; subst; assumption.
Qed.

End TickKeyframes.

(** A tick of the optimization timer that finds keyframes in the queue,
    when it runs to its end: whatever the other four flushes do, the
    keyframes afterwards are the keyframes before, then the keyframes that
    were waiting for this merge, then the first
    [min(size, max_keyframes_per_update)] keyframes of the queue, in this
    order; none is left waiting; [graph_updated] is set and the snapshot
    has one entry per keyframe.  There is a keyframe afterwards: a tick
    that commits nothing into an empty graph (a queue that is not empty and
    [max_keyframes_per_update] at 0 or less) reads the last element of an
    empty vector and has no defined result. *)
Theorem tick_commits_the_queued_keyframes
    (maha_dist : Isometry3d -> Plane3D -> Matrix3d -> Plane3D -> option Q)
    (cloud_plane_length : PointCloud -> Q) (sqrt : Q -> Q) (params : N.Params)
    (calc_information_matrix : PointCloud -> PointCloud -> Isometry3d -> MatrixXd)
    (fromMsg : N.GeoPoint -> UTMCoord)
    (tf_transform : string -> N.Imu -> option (Vector3d * Quaterniond))
    (optimize : GraphSLAM.t -> Z -> GraphSLAM.t * Z)
    (compute_landmark_marginals : GraphSLAM.t -> list (Z * Z) -> option (Z -> Z -> Matrix3d))
    (hessianIndex : GraphSLAM.t -> VertexRef -> Z) (llt_numerical_issue : Matrix3d -> bool)
    (detect : list KeyFrame -> list N.KeyFramePtr -> list N.KeyFramePtr -> GraphSLAM.t
              -> list N.Loop)
    (now : Z) (s s' : N.State) :
  N.keyframe_queue s <> [] ->
  N.optimization_timer_callback maha_dist cloud_plane_length sqrt params
    calc_information_matrix fromMsg tf_transform optimize compute_landmark_marginals
    hessianIndex llt_numerical_issue detect now s = Ok s' ->
  let n := Z.to_nat (Z.min (Z.of_nat (List.length (N.keyframe_queue s)))
                           (N.max_keyframes_per_update params)) in
  N.keyframes s'
  = (N.keyframes s ++ N.new_keyframes s ++ firstn n (N.keyframe_queue s))%list
  /\ N.new_keyframes s' = []
  /\ N.keyframes s' <> []
  /\ N.graph_updated s' = true
  /\ List.length (N.keyframes_snapshot s') = List.length (N.keyframes s').
Proof.
  intros Hqueue H n. unfold N.optimization_timer_callback in H.
  destruct (N.flush_keyframe_queue params calc_information_matrix s)
    as [[s1 keyframe_updated]|] eqn:Ek; [cbn [bind] in H|discriminate H].
  destruct (flush_keyframe_queue_spec _ _ _ _ _ Ek) as (Hupd & _ & Hk1 & Hn1 & _).
  fold n in Hn1.
  assert (Hu : keyframe_updated = true).
  { destruct keyframe_updated; [reflexivity|]. exfalso. apply Hqueue. now apply Hupd. }
  subst keyframe_updated. cbn [negb andb] in H.
  destruct (N.flush_floor_queue params s1) as [[s2 floor_updated]|] eqn:Ef;
    [cbn [bind] in H|discriminate H].
  destruct (N.flush_gps_queue params fromMsg s2) as [[s3 gps_updated]|] eqn:Eg;
    [cbn [bind] in H|discriminate H].
  destruct (N.flush_imu_queue params tf_transform s3) as [[s4 imu_updated]|] eqn:Ei;
    [cbn [bind] in H|discriminate H].
  destruct (N.flush_clouds_seg_queue maha_dist cloud_plane_length sqrt params s4)
    as [[s5 clouds_seg_updated]|] eqn:Ec; [cbn [bind] in H|discriminate H].
  apply flush_floor_queue_committed in Ef. apply flush_gps_queue_committed in Eg.
  apply flush_imu_queue_committed in Ei. apply flush_clouds_seg_queue_committed in Ec.
  cbn [fst] in Ef, Eg, Ei, Ec.
  assert (Hc : committed s5 = (N.keyframes s, (N.new_keyframes s
                                                ++ firstn n (N.keyframe_queue s))%list)).
  { rewrite Ec, Ei, Eg, Ef. unfold committed. now rewrite Hk1, Hn1. }
  unfold committed in Hc. injection Hc as Hk5 Hn5.
  destruct (optimize_and_publish_spec _ _ _ _ _ _ _ _ _ H)
    as (Hk & Hn & Hg & _ & Hl & keyframe & kf & est & Hback & _).
  rewrite Hk5, Hn5 in Hk.
  split; [exact Hk|]. split; [exact Hn|]. split; [|split; [exact Hg|exact Hl]].
  intro Hnil. rewrite Hnil in Hback. discriminate Hback.
Qed.

Lemma tick_commits_the_queued_keyframes_witness :
  exists s',
    N.optimization_timer_callback sample_maha_dist (fun _ => 0) (fun x => x) N.default_params
      (fun _ _ _ => []) sample_fromMsg sample_tf (fun gr _ => (gr, 1%Z))
      (fun _ _ => None) (fun _ _ => 0%Z) (fun _ => false) (fun _ _ _ _ => [])
      0 sample_queue_state = Ok s'
    /\ N.keyframes s' = [O; 1%nat] /\ N.new_keyframes s' = []
    /\ N.graph_updated s' = true.
Proof.
  destruct (N.optimization_timer_callback sample_maha_dist (fun _ => 0) (fun x => x)
              N.default_params (fun _ _ _ => []) sample_fromMsg sample_tf
              (fun gr _ => (gr, 1%Z)) (fun _ _ => None) (fun _ _ => 0%Z) (fun _ => false)
              (fun _ _ _ _ => []) 0 sample_queue_state) as [s'|] eqn:E;
    [|vm_compute in E; discriminate E].
  exists s'. split; [reflexivity|].
  assert (Hq : N.keyframe_queue sample_queue_state <> []) by discriminate.
  destruct (tick_commits_the_queued_keyframes _ _ _ _ _ _ _ _ _ _ _ _ _ _ _ Hq E)
    as (Hk & Hn & _ & Hg & _).
  split; [exact Hk|]. split; [exact Hn|exact Hg].
Defined.
